(** * A sandboxed file server: model and verification

    The program under study is [server.py]: eleven tool functions that act on
    the files below a fixed workspace directory.  This development embeds the
    functions in Rocq, together with the parts of the Python runtime they rely
    on ([str] methods, [posixpath], the UTF-8 text layer of [open], [os] and
    [shutil] primitives over a directory tree), and proves properties of them.

    Conventions of the model:
    - a Python [str] is the list of its code points, each a [Z];
    - a file holds bytes, a list of [Z] below 256;
    - the file system is a tree of directories and regular files whose
      entries keep the order in which [os.listdir] reports them; there are no
      symbolic links, no permission bits, no length limits and no clock;
    - paths are resolved as Linux does: empty components and [.] are skipped,
      [..] steps to the parent, and the root is its own parent;
    - a Python exception is a value of [exn]; every tool function is a
      function from the tree to an outcome and the tree it leaves behind. *)

From Stdlib Require Import ZArith List Lia Bool String Ascii.
From Stdlib Require Import Sorting.Sorted Sorting.Permutation.
Import ListNotations.
Open Scope Z_scope.

(** ** Python strings *)

Module PyStr.

Definition str := list Z.

(** An ASCII literal as a Python string. *)
Definition py (s : string) : str :=
  map (fun a => Z.of_N (N_of_ascii a)) (list_ascii_of_string s).

Fixpoint eqb (a b : str) : bool :=
  match a, b with
  | [], [] => true
  | x :: a', y :: b' => (x =? y) && eqb a' b'
  | _, _ => false
  end.

(** [s.startswith(p)] *)
Fixpoint startswith (s p : str) {struct p} : bool :=
  match p, s with
  | [], _ => true
  | y :: p', x :: s' => (x =? y) && startswith s' p'
  | _ :: _, [] => false
  end.

(** [s.endswith(p)] *)
Definition endswith (s p : str) : bool := startswith (rev s) (rev p).

(** [s.split(sep)] for a one-character separator. *)
Fixpoint split (sep : Z) (s : str) : list str :=
  match s with
  | [] => [[]]
  | x :: s' =>
      if x =? sep then [] :: split sep s'
      else match split sep s' with
           | h :: r => (x :: h) :: r
           | [] => [[x]]
           end
  end.

(** [sep.join(l)] *)
Fixpoint join (sep : str) (l : list str) : str :=
  match l with
  | [] => []
  | [a] => a
  | a :: l' => a ++ sep ++ join sep l'
  end.

(** [s.lstrip(c)] for a one-character set. *)
Fixpoint lstrip (c : Z) (s : str) : str :=
  match s with
  | x :: s' => if x =? c then lstrip c s' else s
  | [] => []
  end.

(** [s.rstrip(c)] for a one-character set. *)
Definition rstrip (c : Z) (s : str) : str := rev (lstrip c (rev s)).

(** [sub in s] *)
Fixpoint contains (sub s : str) : bool :=
  startswith s sub ||
  match s with
  | [] => false
  | _ :: s' => contains sub s'
  end.

(** The scan of [s.count(sub)] for a non-empty [sub]: [skip] characters of a
    match just counted are still to be stepped over. *)
Fixpoint count_scan (sub s : str) (skip : nat) : Z :=
  match s with
  | [] => 0
  | _ :: s' =>
      match skip with
      | S k => count_scan sub s' k
      | O => if startswith s sub
             then 1 + count_scan sub s' (Nat.pred (List.length sub))
             else count_scan sub s' O
      end
  end.

(** [s.count(sub)]: occurrences that do not overlap, counted from the left;
    the empty string occurs between any two characters and at both ends. *)
Definition count (s sub : str) : Z :=
  match sub with
  | [] => Z.of_nat (List.length s) + 1
  | _ => count_scan sub s O
  end.

(** [a <= b] on strings: code points compared from the left. *)
Fixpoint leb (a b : str) : bool :=
  match a, b with
  | [], _ => true
  | _ :: _, [] => false
  | x :: a', y :: b' => (x <? y) || ((x =? y) && leb a' b')
  end.

Fixpoint insert (a : str) (l : list str) : list str :=
  match l with
  | [] => [a]
  | b :: l' => if leb a b then a :: l else b :: insert a l'
  end.

(** [sorted(l)] on a list of strings. *)
Fixpoint sorted (l : list str) : list str :=
  match l with
  | [] => []
  | a :: l' => insert a (sorted l')
  end.

End PyStr.
Import PyStr.

Arguments py s%_string.

Definition SLASH : Z := 47.
Definition NUL : Z := 0.
Definition CR : Z := 13.
Definition LF : Z := 10.
Definition STAR : Z := 42.

Definition is_nil {A} (l : list A) : bool :=
  match l with [] => true | _ => false end.

(** ** posixpath *)

Module PosixPath.

Definition sep : str := [SLASH].
Definition curdir : str := py ".".
Definition pardir : str := py "..".

Definition isabs (p : str) : bool := startswith p sep.

(** [os.path.join(a, b)] *)
Definition join (a b : str) : str :=
  if startswith b sep || is_nil a then b
  else if endswith a sep then a ++ b
  else a ++ sep ++ b.

(** The loop of [normpath] over the components; [new_comps] is the list
    built so far. *)
Fixpoint norm_comps (initial_slashes : bool) (new_comps comps : list str)
  : list str :=
  match comps with
  | [] => new_comps
  | comp :: comps' =>
      if eqb comp [] || eqb comp curdir then
        norm_comps initial_slashes new_comps comps'
      else if negb (eqb comp pardir)
              || (negb initial_slashes && is_nil new_comps)
              || (negb (is_nil new_comps) && eqb (last new_comps []) pardir)
      then norm_comps initial_slashes (new_comps ++ [comp]) comps'
      else norm_comps initial_slashes (removelast new_comps) comps'
  end.

(** The number of slashes [normpath] keeps in front: two leading slashes
    are kept, three or more collapse to one. *)
Definition initial_slashes (path : str) : nat :=
  if startswith path sep then
    if startswith path (sep ++ sep) && negb (startswith path (sep ++ sep ++ sep))
    then 2%nat else 1%nat
  else 0%nat.

(** [os.path.normpath(path)] *)
Definition normpath (path : str) : str :=
  if is_nil path then curdir
  else
    let n := initial_slashes path in
    let comps := norm_comps (negb (Nat.eqb n 0)) [] (PyStr.split SLASH path) in
    let path' := List.concat (repeat sep n) ++ PyStr.join sep comps in
    if is_nil path' then curdir else path'.

(** The text up to and including the last slash, and the text after it. *)
Fixpoint cut_last_slash (p : str) : str * str :=
  match p with
  | [] => ([], [])
  | x :: p' =>
      let (h, t) := cut_last_slash p' in
      if negb (is_nil h) then (x :: h, t)
      else if x =? SLASH then ([x], p')
      else ([], x :: p')
  end.

(** [os.path.split(p)] *)
Definition split (p : str) : str * str :=
  let (head, tail) := cut_last_slash p in
  if negb (is_nil head) && negb (forallb (fun c => c =? SLASH) head)
  then (rstrip SLASH head, tail)
  else (head, tail).

(** [os.path.dirname(p)] *)
Definition dirname (p : str) : str := fst (split p).

Section Cwd.

(** The working directory of the process, as [os.getcwd()] returns it. *)
Variable getcwd : str.

(** [os.path.abspath(path)] *)
Definition abspath (path : str) : str :=
  normpath (if startswith path sep then path else join getcwd path).

Fixpoint common_prefix_len (a b : list str) : nat :=
  match a, b with
  | x :: a', y :: b' => if eqb x y then S (common_prefix_len a' b') else O
  | _, _ => O
  end.

Definition nonempty_comps (p : str) : list str :=
  filter (fun x => negb (is_nil x)) (PyStr.split SLASH p).

(** [os.path.relpath(path, start)] for a non-empty [path]; the components of
    the result are put together by [join], left to right. *)
Definition relpath (path start : str) : str :=
  let start_list := nonempty_comps (abspath start) in
  let path_list := nonempty_comps (abspath path) in
  let i := common_prefix_len start_list path_list in
  let rel_list := repeat pardir (List.length start_list - i) ++ skipn i path_list in
  match rel_list with
  | [] => curdir
  | a :: l => fold_left join l a
  end.

End Cwd.

End PosixPath.

(** ** The text layer of [open]: UTF-8 and newline translation *)

Module Text.

Definition is_surrogate (c : Z) : bool := (0xD800 <=? c) && (c <=? 0xDFFF).

(** The bytes of one code point; surrogates and values outside Unicode have
    none ([UnicodeEncodeError]). *)
Definition encode_char (c : Z) : option (list Z) :=
  if c <? 0 then None
  else if c <? 0x80 then Some [c]
  else if c <? 0x800 then Some [0xC0 + c / 64; 0x80 + c mod 64]
  else if c <? 0x10000 then
    if is_surrogate c then None
    else Some [0xE0 + c / 4096; 0x80 + (c / 64) mod 64; 0x80 + c mod 64]
  else if c <? 0x110000 then
    Some [0xF0 + c / 262144; 0x80 + (c / 4096) mod 64;
          0x80 + (c / 64) mod 64; 0x80 + c mod 64]
  else None.

(** [s.encode("utf-8")] *)
Fixpoint encode (s : str) : option (list Z) :=
  match s with
  | [] => Some []
  | c :: s' =>
      match encode_char c, encode s' with
      | Some b, Some bs => Some (b ++ bs)
      | _, _ => None
      end
  end.

Definition is_cont (b : Z) : bool := (0x80 <=? b) && (b <? 0xC0).

(** [bs.decode("utf-8")], strict: overlong forms, surrogates, values above
    U+10FFFF, stray and missing continuation bytes are all rejected
    ([UnicodeDecodeError]). *)
Fixpoint decode (bs : list Z) : option str :=
  match bs with
  | [] => Some []
  | b1 :: r1 =>
      if (0 <=? b1) && (b1 <? 0x80) then option_map (cons b1) (decode r1)
      else if (0xC0 <=? b1) && (b1 <? 0xE0) then
        match r1 with
        | b2 :: r2 =>
            let v := (b1 - 0xC0) * 64 + (b2 - 0x80) in
            if is_cont b2 && (0x80 <=? v)
            then option_map (cons v) (decode r2) else None
        | _ => None
        end
      else if (0xE0 <=? b1) && (b1 <? 0xF0) then
        match r1 with
        | b2 :: b3 :: r3 =>
            let v := (b1 - 0xE0) * 4096 + (b2 - 0x80) * 64 + (b3 - 0x80) in
            if is_cont b2 && is_cont b3 && (0x800 <=? v) && negb (is_surrogate v)
            then option_map (cons v) (decode r3) else None
        | _ => None
        end
      else if (0xF0 <=? b1) && (b1 <? 0xF8) then
        match r1 with
        | b2 :: b3 :: b4 :: r4 =>
            let v := (b1 - 0xF0) * 262144 + (b2 - 0x80) * 4096
                     + (b3 - 0x80) * 64 + (b4 - 0x80) in
            if is_cont b2 && is_cont b3 && is_cont b4
               && (0x10000 <=? v) && (v <? 0x110000)
            then option_map (cons v) (decode r4) else None
        | _ => None
        end
      else None
  end.

(** Reading in text mode with [newline=None]: ["\r\n"] and a lone ["\r"]
    both come out as ["\n"]. *)
Fixpoint universal_newlines (s : str) : str :=
  match s with
  | [] => []
  | c :: s' =>
      if c =? CR then
        match s' with
        | d :: s'' => if d =? LF then LF :: universal_newlines s''
                      else LF :: universal_newlines s'
        | [] => [LF]
        end
      else c :: universal_newlines s'
  end.

(** What [f.read()] returns for a file opened with ["r"], UTF-8. *)
Definition read_text (bs : list Z) : option str :=
  option_map universal_newlines (decode bs).

(** The bytes [f.write(s)] emits for a file opened with ["w"] or ["a"],
    UTF-8; on POSIX the line separator is ["\n"], so nothing is translated. *)
Definition write_text (s : str) : option (list Z) := encode s.

End Text.

(** ** Exceptions *)

Inductive errno := ENOENT | ENOTDIR | EISDIR | EEXIST | ENOTEMPTY | EINVAL | EBUSY.

(** [OSError e] stands for the subclass Python picks for the error number
    ([FileNotFoundError], [NotADirectoryError], [IsADirectoryError],
    [FileExistsError], ...).  The two Unicode errors are subclasses of
    [ValueError] in Python; they are kept apart here because they carry no
    message of the program's own.  [OverflowError] is what the conversion
    of an [int] to a [float] raises when the [int] is too large. *)
Inductive exn :=
| ValueError (msg : str)
| UnicodeEncodeError
| UnicodeDecodeError
| RecursionError
| OverflowError
| OSError (e : errno).

(** ** The directory tree and the system calls *)

Module FS.

#[warnings="-register-all"]
Inductive node :=
| File (data : list Z)
| Dir (entries : list (str * node)).

(** A place in the tree: the names from the root down. *)
Definition loc := list str.

Definition is_dir (n : node) : bool :=
  match n with Dir _ => true | File _ => false end.

Fixpoint assoc (k : str) (es : list (str * node)) : option node :=
  match es with
  | [] => None
  | (k', n) :: es' => if eqb k' k then Some n else assoc k es'
  end.

Fixpoint lookup (n : node) (l : loc) : option node :=
  match l with
  | [] => Some n
  | k :: l' =>
      match n with
      | Dir es => match assoc k es with
                  | Some c => lookup c l'
                  | None => None
                  end
      | File _ => None
      end
  end.

(** Apply [g] to the first entry named [k]. *)
Fixpoint map_entry (k : str) (g : node -> node) (es : list (str * node))
  : list (str * node) :=
  match es with
  | [] => []
  | (k', n) :: es' =>
      if eqb k' k then (k', g n) :: es' else (k', n) :: map_entry k g es'
  end.

(** Apply [g] to the node at [l]. *)
Fixpoint modify (g : node -> node) (l : loc) (n : node) : node :=
  match l with
  | [] => g n
  | k :: l' =>
      match n with
      | Dir es => Dir (map_entry k (modify g l') es)
      | File d => File d
      end
  end.

(** A new entry goes to the end of the listing. *)
Definition add_entry (k : str) (c : node) (n : node) : node :=
  match n with
  | Dir es => Dir (es ++ [(k, c)])
  | File d => File d
  end.

(** The listing without the entry named [k]. *)
Definition del_entry_list (k : str) (es : list (str * node)) : list (str * node) :=
  filter (fun e => negb (eqb (fst e) k)) es.

Definition del_entry (k : str) (n : node) : node :=
  match n with
  | Dir es => Dir (del_entry_list k es)
  | File d => File d
  end.

(** Code points that [os.fsencode] rejects: surrogates other than the
    escapes U+DC80..U+DCFF. *)
Definition bad_surrogate (c : Z) : bool :=
  Text.is_surrogate c && negb ((0xDC80 <=? c) && (c <=? 0xDCFF)).

(** Converting a [str] to a path for a system call. *)
Definition fs_path_exn (p : str) : option exn :=
  if existsb bad_surrogate p then Some UnicodeEncodeError
  else if existsb (Z.eqb NUL) p then Some (ValueError (py "embedded null byte"))
  else None.

Fixpoint drop_empty (l : list str) : list str :=
  match l with
  | [] => []
  | x :: l' => if is_nil x then drop_empty l' else l
  end.

(** The components of a path without the empty ones at its end. *)
Definition strip_trailing (comps : list str) : list str :=
  rev (drop_empty (rev comps)).

Section Kernel.

(** The place of the working directory of the process. *)
Variable cwd : loc.

(** Following components one at a time from [cur]. *)
Fixpoint walk (fs : node) (cur : loc) (comps : list str) : errno + loc :=
  match comps with
  | [] => inr cur
  | c :: comps' =>
      match lookup fs cur with
      | Some (Dir _) =>
          if eqb c [] || eqb c PosixPath.curdir then walk fs cur comps'
          else if eqb c PosixPath.pardir then walk fs (removelast cur) comps'
          else match lookup fs (cur ++ [c]) with
               | Some _ => walk fs (cur ++ [c]) comps'
               | None => inl ENOENT
               end
      | Some (File _) => inl ENOTDIR
      | None => inl ENOENT
      end
  end.

Definition start (path : str) : loc :=
  if PosixPath.isabs path then [] else cwd.

Definition resolve (fs : node) (path : str) : errno + loc :=
  if is_nil path then inl ENOENT
  else walk fs (start path) (PyStr.split SLASH path).

(** [stat(2)] *)
Definition stat (fs : node) (path : str) : errno + node :=
  match resolve fs path with
  | inl e => inl e
  | inr l => match lookup fs l with
             | Some n => inr n
             | None => inl ENOENT
             end
  end.

(** What a call that creates or removes a name looks at: the directory the
    path leads to, the last name, and whether slashes followed it.  [None]
    is the root itself. *)
Definition parent_and_name (fs : node) (path : str)
  : errno + option (loc * str * bool) :=
  if is_nil path then inl ENOENT
  else
    let comps := PyStr.split SLASH path in
    let comps' := strip_trailing comps in
    match comps' with
    | [] => inr None
    | _ =>
        match walk fs (start path) (removelast comps') with
        | inl e => inl e
        | inr p =>
            match lookup fs p with
            | Some (Dir _) =>
                inr (Some (p, last comps' [],
                           negb (Nat.eqb (List.length comps) (List.length comps'))))
            | Some (File _) => inl ENOTDIR
            | None => inl ENOENT
            end
        end
    end.

Definition dot_or_dotdot (name : str) : bool :=
  eqb name PosixPath.curdir || eqb name PosixPath.pardir.

(** [mkdir(2)] *)
Definition mkdir (fs : node) (path : str) : errno + node :=
  match parent_and_name fs path with
  | inl e => inl e
  | inr None => inl EEXIST
  | inr (Some (p, name, _)) =>
      if dot_or_dotdot name then inl EEXIST
      else match lookup fs (p ++ [name]) with
           | Some _ => inl EEXIST
           | None => inr (modify (add_entry name (Dir [])) p fs)
           end
  end.

(** [open(2)] with [O_CREAT], for writing; [trunc] is [O_TRUNC].  The result
    is the place of the file and the tree after the call. *)
Definition open_create (trunc : bool) (fs : node) (path : str)
  : errno + (loc * node) :=
  match parent_and_name fs path with
  | inl e => inl e
  | inr None => inl EISDIR
  | inr (Some (p, name, trailing)) =>
      if trailing || dot_or_dotdot name then inl EISDIR
      else match lookup fs (p ++ [name]) with
           | Some (Dir _) => inl EISDIR
           | Some (File d) =>
               inr (p ++ [name],
                    if trunc then modify (fun _ => File []) (p ++ [name]) fs else fs)
           | None => inr (p ++ [name], modify (add_entry name (File [])) p fs)
           end
  end.

(** [unlink(2)] *)
Definition unlink (fs : node) (path : str) : errno + node :=
  match parent_and_name fs path with
  | inl e => inl e
  | inr None => inl EISDIR
  | inr (Some (p, name, trailing)) =>
      if dot_or_dotdot name then inl EISDIR
      else match lookup fs (p ++ [name]) with
           | None => inl ENOENT
           | Some (Dir _) => inl EISDIR
           | Some (File _) =>
               if trailing then inl ENOTDIR
               else inr (modify (del_entry name) p fs)
           end
  end.

(** [rmdir(2)] *)
Definition rmdir (fs : node) (path : str) : errno + node :=
  match parent_and_name fs path with
  | inl e => inl e
  | inr None => inl EBUSY
  | inr (Some (p, name, _)) =>
      if eqb name PosixPath.curdir then inl EINVAL
      else if eqb name PosixPath.pardir then inl ENOTEMPTY
      else match lookup fs (p ++ [name]) with
           | None => inl ENOENT
           | Some (File _) => inl ENOTDIR
           | Some (Dir (_ :: _)) => inl ENOTEMPTY
           | Some (Dir []) => inr (modify (del_entry name) p fs)
           end
  end.

End Kernel.

(** The triples of [os.walk], top down: the directory, its sub-directories
    and its other entries, then the same for each sub-directory in turn. *)
Fixpoint walk_tree (top : str) (n : node) : list (str * list str * list str) :=
  match n with
  | File _ => []
  | Dir es =>
      (top,
       map fst (filter (fun e => is_dir (snd e)) es),
       map fst (filter (fun e => negb (is_dir (snd e))) es))
      :: (fix below (l : list (str * node)) :=
            match l with
            | [] => []
            | (k, c) :: l' => walk_tree (PosixPath.join top k) c ++ below l'
            end) es
  end.

End FS.
Import FS.

(** ** Calls that may raise and change the tree *)

Definition M (A : Type) : Type := node -> (exn + A) * node.

Definition ret {A} (a : A) : M A := fun fs => (inr a, fs).

Definition raise {A} (e : exn) : M A := fun fs => (inl e, fs).

Definition bind {A B} (m : M A) (k : A -> M B) : M B :=
  fun fs =>
    match m fs with
    | (inr a, fs') => k a fs'
    | (inl e, fs') => (inl e, fs')
    end.

Notation "x <- m ;; k" := (bind m (fun x => k))
  (at level 61, m at next level, right associativity).
Notation "m ;;; k" := (bind m (fun _ => k))
  (at level 61, right associativity).

(** A test on the tree that cannot raise. *)
Definition peek {A} (f : node -> A) : M A := fun fs => (inr (f fs), fs).

(** A system call: the path is converted first, an error number becomes an
    [OSError]. *)
Definition syscall {A} (path : str) (f : node -> errno + (A * node)) : M A :=
  fun fs =>
    match fs_path_exn path with
    | Some e => (inl e, fs)
    | None => match f fs with
              | inl e => (inl (OSError e), fs)
              | inr (a, fs') => (inr a, fs')
              end
    end.

(** ** The size line of [get_workspace_info]

    The total is an [int] while it is below 1024; the loop that steps
    through the units divides it by [1024.0], which makes it a [float].
    The result is formatted with two decimals. *)

Module SizeText.

(** A finite [float]: the number [mant * 2 ^ expo]. *)
Record float := { mant : Z; expo : Z }.

Inductive number := PyInt (n : Z) | PyFloat (x : float).

(** The integer nearest to [a / b] for [b > 0], the even one of two that
    are equally near. *)
Definition round_half_even (a b : Z) : Z :=
  let q := a / b in
  let r := a mod b in
  if (b <? 2 * r) || ((2 * r =? b) && Z.odd q) then q + 1 else q.

(** The conversion of an [int] to a [float]: 53 significant bits are kept,
    rounded to nearest, ties to even; [None] is [OverflowError]. *)
Definition float_of_int (n : Z) : option float :=
  let a := Z.abs n in
  let bits := Z.log2 a + 1 in
  if bits <=? 53 then Some {| mant := n; expo := 0 |}
  else
    let sh := bits - 53 in
    let m := round_half_even a (2 ^ sh) in
    if 2 ^ 1024 <=? m * 2 ^ sh then None
    else Some {| mant := Z.sgn n * m; expo := sh |}.

Definition as_float (t : number) : option float :=
  match t with
  | PyInt n => float_of_int n
  | PyFloat x => Some x
  end.

(** [total_size >= 1024] *)
Definition ge_1024 (t : number) : bool :=
  match t with
  | PyInt n => 1024 <=? n
  | PyFloat x =>
      if 0 <=? expo x then 1024 <=? mant x * 2 ^ expo x
      else 1024 * 2 ^ (- expo x) <=? mant x
  end.

(** [total_size / 1024.0]; the quotient of a [float] of size 1024 or more
    by a power of two is exact. *)
Definition div_1024 (t : number) : option float :=
  option_map (fun x => {| mant := mant x; expo := expo x - 10 |}) (as_float t).

Definition size_units : list str := [py "B"; py "KB"; py "MB"; py "GB"].

(** The [while] loop; it runs at most once for each unit. *)
Fixpoint size_loop (fuel : nat) (total_size : number) (size_index : nat)
  : option (number * nat) :=
  match fuel with
  | O => Some (total_size, size_index)
  | S fuel' =>
      if ge_1024 total_size && (size_index <? List.length size_units - 1)%nat then
        match div_1024 total_size with
        | None => None
        | Some x => size_loop fuel' (PyFloat x) (S size_index)
        end
      else Some (total_size, size_index)
  end.

Fixpoint digits (fuel : nat) (n : Z) (acc : str) : str :=
  match fuel with
  | O => acc
  | S fuel' =>
      let acc' := (48 + n mod 10) :: acc in
      if n <? 10 then acc' else digits fuel' (n / 10) acc'
  end.

(** [str(n)] for [n >= 0]. *)
Definition decimal (n : Z) : str := digits (S (Z.to_nat (Z.log2 n))) n [].

(** The hundredths in [|x|], rounded to nearest, ties to even. *)
Definition hundredths (x : float) : Z :=
  let m := Z.abs (mant x) in
  if 0 <=? expo x then 100 * m * 2 ^ expo x
  else round_half_even (100 * m) (2 ^ (- expo x)).

(** [f"{x:.2f}"] *)
Definition format_2f (x : float) : str :=
  let h := hundredths x in
  (if mant x <? 0 then py "-" else [])
  ++ decimal (h / 100) ++ py "." ++ [48 + (h mod 100) / 10; 48 + (h mod 100) mod 10].

(** The field [total_size] for a total of [total] bytes; [None] is
    [OverflowError]. *)
Definition human_size (total : Z) : option str :=
  match size_loop (List.length size_units) (PyInt total) 0 with
  | None => None
  | Some (total_size, size_index) =>
      match as_float total_size with
      | None => None
      | Some x => Some (format_2f x ++ py " " ++ nth size_index size_units [])
      end
  end.

End SizeText.

Definition is_inr {A B} (r : A + B) : bool :=
  match r with inr _ => true | inl _ => false end.

Section Server.

(** The names of the working directory of the process, from the root. *)
Variable cwd : loc.

(** Python's [str.lower].  It is a parameter of the model: the properties
    of [search_files] hold for whatever it does.  [CaseMap.lower], further
    on, gives it for the Basic Latin block and the Greek letters. *)
Variable lower : str -> str.

Definition getcwd : str := PosixPath.sep ++ PyStr.join PosixPath.sep cwd.

Definition os_path_join := PosixPath.join.
Definition os_path_abspath := PosixPath.abspath getcwd.
Definition os_path_relpath := PosixPath.relpath getcwd.
Definition os_path_dirname := PosixPath.dirname.

(** [os.path.exists], [isdir] and [isfile] answer [False] where the
    underlying [stat] raises. *)
Definition path_test (f : node -> bool) (fs : node) (path : str) : bool :=
  match fs_path_exn path with
  | Some _ => false
  | None => match stat cwd fs path with
            | inr n => f n
            | inl _ => false
            end
  end.

Definition exists_in := path_test (fun _ => true).
Definition isdir_in := path_test is_dir.
Definition isfile_in := path_test (fun n => negb (is_dir n)).

Definition os_path_exists (path : str) : M bool := peek (fun fs => exists_in fs path).
Definition os_path_isdir (path : str) : M bool := peek (fun fs => isdir_in fs path).
Definition os_path_isfile (path : str) : M bool := peek (fun fs => isfile_in fs path).

Definition os_mkdir (path : str) : M unit :=
  syscall path (fun fs => match mkdir cwd fs path with
                          | inl e => inl e
                          | inr fs' => inr (tt, fs')
                          end).

Definition os_remove (path : str) : M unit :=
  syscall path (fun fs => match unlink cwd fs path with
                          | inl e => inl e
                          | inr fs' => inr (tt, fs')
                          end).

Definition os_rmdir (path : str) : M unit :=
  syscall path (fun fs => match rmdir cwd fs path with
                          | inl e => inl e
                          | inr fs' => inr (tt, fs')
                          end).

Definition os_stat (path : str) : M node :=
  syscall path (fun fs => match stat cwd fs path with
                          | inl e => inl e
                          | inr n => inr (n, fs)
                          end).

Definition os_listdir (path : str) : M (list str) :=
  syscall path (fun fs => match stat cwd fs path with
                          | inl e => inl e
                          | inr (File _) => inl ENOTDIR
                          | inr (Dir es) => inr (map fst es, fs)
                          end).

(** [st_size]: the length of a file; a directory reports the size of a
    block. *)
Definition st_size (n : node) : Z :=
  match n with
  | File d => Z.of_nat (List.length d)
  | Dir _ => 4096
  end.

Definition os_path_getsize (path : str) : M Z :=
  n <- os_stat path ;; ret (st_size n).

(** [os.makedirs(name, exist_ok=...)].  The recursion goes to the head of
    the path while the head is missing.  [fuel] bounds its depth, as the
    interpreter's recursion limit does. *)
Fixpoint makedirs_rec (fuel : nat) (name : str) (exist_ok : bool) : M unit :=
  match fuel with
  | O => raise RecursionError
  | S fuel' =>
      let (head0, tail0) := PosixPath.split name in
      let (head, tail) :=
        if is_nil tail0 then PosixPath.split head0 else (head0, tail0) in
      let make : M unit :=
        fun fs =>
          match os_mkdir name fs with
          | (inl (OSError e), fs') =>
              if negb exist_ok || negb (isdir_in fs' name)
              then (inl (OSError e), fs') else (inr tt, fs')
          | r => r
          end in
      let after : M unit :=
        if eqb tail PosixPath.curdir then ret tt else make in
      fun fs =>
        if negb (is_nil head) && negb (is_nil tail) && negb (exists_in fs head)
        then
          match makedirs_rec fuel' head exist_ok fs with
          | (inl (OSError EEXIST), fs') => after fs'
          | (inl e, fs') => (inl e, fs')
          | (inr _, fs') => after fs'
          end
        else make fs
  end.

Definition os_makedirs (name : str) (exist_ok : bool) : M unit :=
  makedirs_rec (S (List.length name)) name exist_ok.

(** [shutil.rmtree(path)]: everything below the directory is removed, then
    [rmdir(path)] is called. *)
Definition shutil_rmtree (path : str) : M unit :=
  n <- os_stat path ;;
  match n with
  | File _ => raise (OSError ENOTDIR)
  | Dir _ =>
      (fun fs => match resolve cwd fs path with
                 | inr l => (inr tt, modify (fun _ => Dir []) l fs)
                 | inl e => (inl (OSError e), fs)
                 end) ;;;
      os_rmdir path
  end.

(** [open(path, "r", encoding="utf-8")] followed by [f.read()]. *)
Definition open_read (path : str) : M str :=
  n <- os_stat path ;;
  match n with
  | Dir _ => raise (OSError EISDIR)
  | File d => match Text.read_text d with
              | Some s => ret s
              | None => raise UnicodeDecodeError
              end
  end.

(** [open(path, mode, encoding="utf-8")] for mode ["w"] ([trunc]) or ["a"];
    the handle is the place of the file. *)
Definition open_write (trunc : bool) (path : str) : M loc :=
  syscall path (fun fs => open_create cwd trunc fs path).

Definition append_data (bs : list Z) (n : node) : node :=
  match n with
  | File d => File (d ++ bs)
  | Dir es => Dir es
  end.

(** [f.write(content)] at the end of the file, then closing it. *)
Definition file_write (h : loc) (content : str) : M unit :=
  match Text.write_text content with
  | None => raise UnicodeEncodeError
  | Some bs => fun fs => (inr tt, modify (append_data bs) h fs)
  end.

(** [os.walk(top)]: an error of the first [scandir] ends the walk
    silently unless it is not an [OSError]. *)
Definition os_walk (top : str) : M (list (str * list str * list str)) :=
  fun fs =>
    match fs_path_exn top with
    | Some e => (inl e, fs)
    | None => match stat cwd fs top with
              | inr n => (inr (walk_tree top n), fs)
              | inl _ => (inr [], fs)
              end
    end.

(** *** The program

    Each tool function returns a dictionary with the fields [result] and
    [text]; the functions below return the [result] field.  The [text]
    field is a rendering of the same value for a human reader and is left
    out. *)

Definition WORKSPACE : str := os_path_abspath (py "workspace").

(** The module creates the workspace when it is loaded. *)
Definition startup : M unit := os_makedirs WORKSPACE true.

Definition CHECK : Z := 0x2705.

Fixpoint list_files_loop (target_dir : str) (items files dirs : list str)
  : M (list str * list str) :=
  match items with
  | [] => ret (files, dirs)
  | item :: items' =>
      let item_path := os_path_join target_dir item in
      d <- os_path_isdir item_path ;;
      if d then list_files_loop target_dir items' files (dirs ++ [item ++ py "/"])
      else list_files_loop target_dir items' (files ++ [item]) dirs
  end.

Definition list_files (directory : str) : M (list str) :=
  let target_dir := os_path_join WORKSPACE directory in
  e <- os_path_exists target_dir ;;
  if negb e then
    raise (ValueError (py "Directory '" ++ directory ++ py "' does not exist in workspace"))
  else
  d <- os_path_isdir target_dir ;;
  if negb d then
    raise (ValueError (py "'" ++ directory ++ py "' is not a directory"))
  else
  items <- os_listdir target_dir ;;
  fd <- list_files_loop target_dir items [] [] ;;
  let (files, dirs) := fd in
  ret (sorted dirs ++ sorted files).

Definition read_file (filename : str) : M str :=
  let filepath := os_path_join WORKSPACE filename in
  f <- os_path_isfile filepath ;;
  if negb f then raise (ValueError (py "File not found"))
  else
  content <- open_read filepath ;;
  ret content.

Definition write_file (filename content : str) : M str :=
  let filepath := os_path_join WORKSPACE filename in
  os_makedirs (os_path_dirname filepath) true ;;;
  h <- open_write true filepath ;;
  file_write h content ;;;
  ret ([CHECK] ++ py " Wrote to " ++ filename).

Definition append_file (filename content : str) : M str :=
  let filepath := os_path_join WORKSPACE filename in
  f <- os_path_isfile filepath ;;
  if negb f then raise (ValueError (py "File not found"))
  else
  h <- open_write false filepath ;;
  file_write h content ;;;
  ret ([CHECK] ++ py " Appended to " ++ filename).

Definition delete_file (filename : str) : M str :=
  let filepath := os_path_join WORKSPACE filename in
  e <- os_path_exists filepath ;;
  if negb e then raise (ValueError (py "File not found"))
  else
  d <- os_path_isdir filepath ;;
  if d then raise (ValueError (py "Use delete_directory for directories"))
  else
  os_remove filepath ;;;
  ret ([CHECK] ++ py " Deleted " ++ filename).

Definition create_directory (directory : str) : M str :=
  let dirpath := os_path_join WORKSPACE directory in
  e <- os_path_exists dirpath ;;
  if e then raise (ValueError (py "Directory already exists"))
  else
  os_makedirs dirpath false ;;;
  ret ([CHECK] ++ py " Created directory " ++ directory).

Definition delete_directory (directory : str) : M str :=
  let dirpath := os_path_join WORKSPACE directory in
  e <- os_path_exists dirpath ;;
  if negb e then raise (ValueError (py "Directory not found"))
  else
  d <- os_path_isdir dirpath ;;
  if negb d then raise (ValueError (py "Path is not a directory"))
  else
  if eqb (os_path_abspath dirpath) (os_path_abspath WORKSPACE) then
    raise (ValueError (py "Cannot delete workspace root"))
  else
  shutil_rmtree dirpath ;;;
  ret ([CHECK] ++ py " Deleted directory " ++ directory).

(** The record [file_info] returns.  The tree has no clock, so the two
    time stamps of the source are left out; [contents] holds the two counts
    the source prints into one string. *)
Record FileInfo := {
  info_name : str;
  info_is_directory : bool;
  info_size : Z;
  info_absolute_path : str;
  info_contents : option (Z * Z)   (* files, directories *)
}.

Fixpoint count_dirs (filepath : str) (items : list str) : M Z :=
  match items with
  | [] => ret 0
  | item :: items' =>
      d <- os_path_isdir (os_path_join filepath item) ;;
      n <- count_dirs filepath items' ;;
      ret ((if d then 1 else 0) + n)
  end.

Definition file_info (filename : str) : M FileInfo :=
  let filepath := os_path_join WORKSPACE filename in
  e <- os_path_exists filepath ;;
  if negb e then raise (ValueError (py "File or directory not found"))
  else
  st <- os_stat filepath ;;
  is_dir <- os_path_isdir filepath ;;
  let info := {| info_name := filename;
                 info_is_directory := is_dir;
                 info_size := if negb is_dir then st_size st else 0;
                 info_absolute_path := os_path_abspath filepath;
                 info_contents := None |} in
  if is_dir then
    items <- os_listdir filepath ;;
    dir_count <- count_dirs filepath items ;;
    let file_count := Z.of_nat (List.length items) - dir_count in
    ret {| info_name := info_name info;
           info_is_directory := info_is_directory info;
           info_size := info_size info;
           info_absolute_path := info_absolute_path info;
           info_contents := Some (file_count, dir_count) |}
  else ret info.

(** The body of the inner loop of [search_files] for one file: the [try]
    block, with [UnicodeDecodeError] and [OSError] caught. *)
Definition search_one (query root file : str) (matches : list (str * Z))
  : M (list (str * Z)) :=
  let filepath := os_path_join root file in
  fun fs =>
    match open_read filepath fs with
    | (inr content, fs') =>
        if contains (lower query) (lower content) then
          let rel_path := os_path_relpath filepath WORKSPACE in
          (inr (matches ++ [(rel_path, count (lower content) (lower query))]), fs')
        else (inr matches, fs')
    | (inl UnicodeDecodeError, fs') => (inr matches, fs')
    | (inl (OSError _), fs') => (inr matches, fs')
    | (inl e, fs') => (inl e, fs')
    end.

Fixpoint search_files_in (query extension root : str) (files : list str)
    (matches : list (str * Z)) : M (list (str * Z)) :=
  match files with
  | [] => ret matches
  | file :: files' =>
      if negb (is_nil extension) && negb (endswith file extension) then
        search_files_in query extension root files' matches
      else
        matches' <- search_one query root file matches ;;
        search_files_in query extension root files' matches'
  end.

Fixpoint search_files_loop (query extension : str)
    (triples : list (str * list str * list str)) (matches : list (str * Z))
  : M (list (str * Z)) :=
  match triples with
  | [] => ret matches
  | (root, _, files) :: triples' =>
      matches' <- search_files_in query extension root files matches ;;
      search_files_loop query extension triples' matches'
  end.

Definition search_files (query extension : str) : M (list (str * Z)) :=
  triples <- os_walk WORKSPACE ;;
  search_files_loop query extension triples [].

Fixpoint find_files_in (pattern root : str) (files matches : list str) : list str :=
  match files with
  | [] => matches
  | file :: files' =>
      if eqb pattern (py "*") || endswith file (lstrip STAR pattern) then
        let rel_path := os_path_relpath (os_path_join root file) WORKSPACE in
        find_files_in pattern root files' (matches ++ [rel_path])
      else find_files_in pattern root files' matches
  end.

Fixpoint find_files_loop (pattern : str)
    (triples : list (str * list str * list str)) (matches : list str) : list str :=
  match triples with
  | [] => matches
  | (root, _, files) :: triples' =>
      find_files_loop pattern triples' (find_files_in pattern root files matches)
  end.

Definition find_files (pattern : str) : M (list str) :=
  triples <- os_walk WORKSPACE ;;
  ret (find_files_loop pattern triples []).

(** The dictionary [info] of [get_workspace_info]: [total_size] is the
    text made of the number of bytes, in units of 1024 with two decimals. *)
Record WorkspaceInfo := {
  ws_path : str;
  ws_total_files : Z;
  ws_total_directories : Z;
  ws_total_size : str
}.

Fixpoint sum_sizes (root : str) (files : list str) (total_size : Z) : M Z :=
  match files with
  | [] => ret total_size
  | file :: files' =>
      let filepath := os_path_join root file in
      fun fs =>
        match os_path_getsize filepath fs with
        | (inr n, fs') => sum_sizes root files' (total_size + n) fs'
        | (inl (OSError _), fs') => sum_sizes root files' total_size fs'
        | (inl e, fs') => (inl e, fs')
        end
  end.

Fixpoint workspace_loop (triples : list (str * list str * list str))
    (total_size file_count dir_count : Z) : M (Z * Z * Z) :=
  match triples with
  | [] => ret (total_size, file_count, dir_count)
  | (root, dirs, files) :: triples' =>
      total_size' <- sum_sizes root files total_size ;;
      workspace_loop triples' total_size'
        (file_count + Z.of_nat (List.length files))
        (dir_count + Z.of_nat (List.length dirs))
  end.

(** The loop over the units and the formatting are [SizeText.human_size];
    the division by [1024.0] raises [OverflowError] for a total too large
    for a [float]. *)
Definition get_workspace_info : M WorkspaceInfo :=
  triples <- os_walk WORKSPACE ;;
  r <- workspace_loop triples 0 0 0 ;;
  let '(total_size, file_count, dir_count) := r in
  match SizeText.human_size total_size with
  | None => raise OverflowError
  | Some text =>
      ret {| ws_path := WORKSPACE;
             ws_total_files := file_count;
             ws_total_directories := dir_count;
             ws_total_size := text |}
  end.

(** *** The catalog *)

Inductive operation :=
| ListFiles (directory : str)
| ReadFile (filename : str)
| WriteFile (filename content : str)
| AppendFile (filename content : str)
| DeleteFile (filename : str)
| CreateDirectory (directory : str)
| DeleteDirectory (directory : str)
| GetFileInfo (filename : str)
| SearchFiles (query extension : str)
| FindFiles (pattern : str)
| GetWorkspaceInfo.

Inductive payload :=
| Names (l : list str)
| Message (s : str)
| Info (i : FileInfo)
| Matches (l : list (str * Z))
| Workspace (w : WorkspaceInfo).

Definition fmap {A B} (f : A -> B) (m : M A) : M B := a <- m ;; ret (f a).

(** The [result] field of what a tool call returns. *)
Definition run (op : operation) : M payload :=
  match op with
  | ListFiles d => fmap Names (list_files d)
  | ReadFile f => fmap Message (read_file f)
  | WriteFile f c => fmap Message (write_file f c)
  | AppendFile f c => fmap Message (append_file f c)
  | DeleteFile f => fmap Message (delete_file f)
  | CreateDirectory d => fmap Message (create_directory d)
  | DeleteDirectory d => fmap Message (delete_directory d)
  | GetFileInfo f => fmap Info (file_info f)
  | SearchFiles q e => fmap Matches (search_files q e)
  | FindFiles p => fmap Names (find_files p)
  | GetWorkspaceInfo => fmap Workspace get_workspace_info
  end.

(** The path argument of an operation, for the operations that take one,
    and the path the operation hands to the file system for it. *)
Definition path_argument (op : operation) : option str :=
  match op with
  | ListFiles a | ReadFile a | WriteFile a _ | AppendFile a _ | DeleteFile a
  | CreateDirectory a | DeleteDirectory a | GetFileInfo a => Some a
  | SearchFiles _ _ | FindFiles _ | GetWorkspaceInfo => None
  end.

Definition resolved_path (op : operation) : option str :=
  option_map (os_path_join WORKSPACE) (path_argument op).

End Server.

(** ** A sample machine *)

Module Sample.

(** [str.lower] on ASCII letters. *)
Definition lower : str -> str :=
  map (fun c => if (65 <=? c) && (c <=? 90) then c + 32 else c).

Definition cwd : loc := [py "srv"].

Definition utf8 (s : str) : list Z :=
  match Text.encode s with Some b => b | None => [] end.

(** /etc/passwd, /srv/workspace/{b.txt, a.txt, sub/{note.txt, deep/}, bin.dat} *)
Definition disk : node :=
  Dir [ (py "etc", Dir [ (py "passwd", File (utf8 (py "root:x:0:0"))) ]);
        (py "srv", Dir [ (py "workspace", Dir [
            (py "b.txt", File (utf8 (py "beta")));
            (py "a.txt", File (utf8 (py "Hello World hello")));
            (py "sub", Dir [ (py "note.txt", File (utf8 (py "say HELLO")));
                             (py "deep", Dir []) ]);
            (py "bin.dat", File [0xFF; 0xFE]) ]) ]) ].

Definition outcome {A} (r : (exn + A) * node) : exn + A := fst r.
Definition after {A} (r : (exn + A) * node) : node := snd r.

End Sample.


(** ** Notions the properties are stated with *)

(** A name that an entry of a directory can have. *)
Definition valid_name (k : str) : bool :=
  negb (is_nil k)
  && negb (existsb (Z.eqb SLASH) k)
  && negb (existsb (Z.eqb NUL) k)
  && negb (existsb bad_surrogate k)
  && negb (eqb k PosixPath.curdir)
  && negb (eqb k PosixPath.pardir).

Fixpoint distinct (l : list str) : bool :=
  match l with
  | [] => true
  | k :: l' => negb (existsb (eqb k) l') && distinct l'
  end.

(** The entries of one directory: valid names, no name twice. *)
Definition entries_ok (es : list (str * node)) : bool :=
  forallb valid_name (map fst es) && distinct (map fst es).

(** A tree that a file system can hold. *)
Fixpoint wf (n : node) : bool :=
  match n with
  | File _ => true
  | Dir es =>
      entries_ok es
      && (fix all (l : list (str * node)) :=
            match l with
            | [] => true
            | (_, c) :: l' => wf c && all l'
            end) es
  end.

(** The absolute path with the given names. *)
Definition abs_path (names : list str) : str :=
  PosixPath.sep ++ PyStr.join PosixPath.sep names.

(** [p] is [root] or lies below it. *)
Definition is_within (root p : str) : bool :=
  eqb p root || startswith p (root ++ PosixPath.sep).

(** The place of the workspace in the tree. *)
Definition workspace_loc (cwd : loc) : loc := cwd ++ [py "workspace"].

(** The kinds of error of the specification.  The program raises
    [ValueError] throughout; the kind is read off the message. *)
Inductive ErrorKind := NotFound | InvalidArgument | AlreadyExists | PermissionDenied.

Definition error_kind (e : exn) : option ErrorKind :=
  match e with
  | ValueError m =>
      if eqb m (py "File not found")
         || eqb m (py "Directory not found")
         || eqb m (py "File or directory not found")
         || (startswith m (py "Directory '")
             && endswith m (py "' does not exist in workspace"))
      then Some NotFound
      else if eqb m (py "Use delete_directory for directories")
              || eqb m (py "Path is not a directory")
              || (startswith m (py "'") && endswith m (py "' is not a directory"))
      then Some InvalidArgument
      else if eqb m (py "Directory already exists") then Some AlreadyExists
      else if eqb m (py "Cannot delete workspace root") then Some PermissionDenied
      else None
  | _ => None
  end.

(** A regular file of the tree: the names of the directories that lead to
    it from where a traversal began, its own name, and its bytes. *)
Definition file_entry : Type := list str * str * list Z.

(** The regular files among the entries of one directory, as listed. *)
Fixpoint files_here (prefix : list str) (es : list (str * node)) : list file_entry :=
  match es with
  | [] => []
  | (k, File d) :: es' => (prefix, k, d) :: files_here prefix es'
  | (_, Dir _) :: es' => files_here prefix es'
  end.

(** The regular files below a directory in the order of a top-down
    traversal: the files of the directory itself as listed, then those of
    each sub-directory in turn. *)
Fixpoint files_below (prefix : list str) (n : node) : list file_entry :=
  match n with
  | File _ => []
  | Dir es =>
      files_here prefix es
      ++ (fix below (l : list (str * node)) :=
            match l with
            | [] => []
            | (k, c) :: l' => files_below (prefix ++ [k]) c ++ below l'
            end) es
  end.

Definition file_dirs (f : file_entry) : list str := fst (fst f).
Definition file_name (f : file_entry) : str := snd (fst f).
Definition file_data (f : file_entry) : list Z := snd f.

(** The path of a file relative to the directory the traversal began at. *)
Definition relative_name (f : file_entry) : str :=
  PyStr.join PosixPath.sep (file_dirs f ++ [file_name f]).

(** The files of the workspace, none if there is no such directory. *)
Definition workspace_files (cwd : loc) (fs : node) : list file_entry :=
  match lookup fs (workspace_loc cwd) with
  | Some n => files_below [] n
  | None => []
  end.

(** The last component [os.makedirs] sees in a path. *)
Definition final_component (p : str) : str :=
  let (head0, tail0) := PosixPath.split p in
  if is_nil tail0 then snd (PosixPath.split head0) else tail0.

(** Whether [find_files] takes a file for a pattern. *)
Definition pattern_matches (pattern : str) (f : file_entry) : bool :=
  eqb pattern (py "*") || endswith (file_name f) (lstrip STAR pattern).

(** What [search_files] reports for one file: nothing if the name does not
    end with the extension asked for, if the bytes are not text, or if the
    text does not contain the query; otherwise the relative path and the
    number of occurrences, both compared in lower case. *)
Definition search_hit (lower : str -> str) (query extension : str) (f : file_entry)
  : list (str * Z) :=
  if negb (is_nil extension) && negb (endswith (file_name f) extension) then []
  else match Text.read_text (file_data f) with
       | None => []
       | Some content =>
           if contains (lower query) (lower content)
           then [(relative_name f, count (lower content) (lower query))]
           else []
       end.

(** The path [os.walk] builds for the directory reached from [top] through
    the given names. *)
Definition path_of (top : str) (names : list str) : str :=
  fold_left PosixPath.join names top.

(** ** Auxiliary notions of the proofs *)

(** What [valid_name] says of a name, as propositions. *)
Record name_ok (k : str) : Prop := {
  name_not_nil : k <> [];
  name_no_slash : ~ In SLASH k;
  name_no_nul : existsb (Z.eqb NUL) k = false;
  name_no_surrogate : existsb bad_surrogate k = false;
  name_not_dot : k <> PosixPath.curdir;
  name_not_dotdot : k <> PosixPath.pardir
}.

(** The components [normpath] keeps when there is no [..]. *)
Definition kept (c : str) : bool := negb (eqb c [] || eqb c PosixPath.curdir).

(** Every place of [a] is a place of [b], of the same kind. *)
Definition sub (a b : node) : Prop :=
  forall l n, lookup a l = Some n ->
  exists n', lookup b l = Some n' /\ is_dir n' = is_dir n.

(** The order of [sorted] as a relation. *)
Definition le (a b : str) : Prop := leb a b = true.

(** The names [list_files] shows for the sub-directories of a listing, and
    for its other entries. *)
Definition dir_names (es : list (str * node)) : list str :=
  map (fun e => fst e ++ py "/") (filter (fun e => is_dir (snd e)) es).

Definition file_names (es : list (str * node)) : list str :=
  map fst (filter (fun e => negb (is_dir (snd e))) es).

(** The relative path [find_files] and [search_files] compute for a file. *)
Definition found (cwd : loc) (f : file_entry) : str :=
  os_path_relpath cwd
    (os_path_join (path_of (WORKSPACE cwd) (file_dirs f)) (file_name f))
    (WORKSPACE cwd).

(** [search_hit] with the path computed as the program does. *)
Definition search_found (cwd : loc) (lower : str -> str) (query extension : str) (f : file_entry) : list (str * Z) :=
  if negb (is_nil extension) && negb (endswith (file_name f) extension) then []
  else match Text.read_text (file_data f) with
       | None => []
       | Some content =>
           if contains (lower query) (lower content)
           then [(found cwd f, count (lower content) (lower query))]
           else []
       end.

(** The components that are not names of entries. *)
Definition special (x : str) : bool :=
  eqb x [] || eqb x PosixPath.curdir || eqb x PosixPath.pardir.

(** The last step of [os.makedirs]: [mkdir], forgiven under [exist_ok] when
    the directory is there. *)
Definition make (cwd : loc) (name : str) (exist_ok : bool) : M unit :=
  fun fs =>
    match os_mkdir cwd name fs with
    | (inl (OSError e), fs') =>
        if negb exist_ok || negb (isdir_in cwd fs' name)
        then (inl (OSError e), fs') else (inr tt, fs')
    | r => r
    end.

(** The head and the tail [os.makedirs] splits a path into. *)
Definition heads (name : str) : str * str :=
  let (head0, tail0) := PosixPath.split name in
  if is_nil tail0 then PosixPath.split head0 else (head0, tail0).

(** A call that leaves the tree as it was. *)
Definition readonly {A} (m : M A) : Prop := forall fs, snd (m fs) = fs.
(** ** Notions for what a call leaves in place *)

(** [l] is [h] or a place below it. *)
Definition below (h l : loc) : Prop := exists r, l = h ++ r.

(** The place [l] holds the same thing in both trees: a file with the same
    bytes, a directory, or nothing. *)
Definition same_at (a b : node) (l : loc) : Prop :=
  match lookup a l, lookup b l with
  | Some (File d), Some (File d') => d = d'
  | Some (Dir _), Some (Dir _) => True
  | None, None => True
  | _, _ => False
  end.

(** The two trees differ at most at [c] and below it. *)
Definition only_below (c : loc) (a b : node) : Prop :=
  forall l, ~ below c l -> same_at a b l.

(** Every file of [a] is a file of [b] with the same bytes, and every
    directory of [a] is a directory of [b]. *)
Definition keeps (a b : node) : Prop :=
  forall l n, lookup a l = Some n ->
    match n with
    | File d => lookup b l = Some (File d)
    | Dir _ => exists es, lookup b l = Some (Dir es)
    end.

(** ** The totals of the workspace *)

(** The number of directories below a directory, at any depth. *)
Fixpoint dirs_below (n : node) : Z :=
  match n with
  | File _ => 0
  | Dir es =>
      (fix count (l : list (str * node)) : Z :=
         match l with
         | [] => 0
         | (_, c) :: l' => (if is_dir c then 1 else 0) + dirs_below c + count l'
         end) es
  end.

(** The directories below the workspace, none if there is no workspace. *)
Definition workspace_dirs (cwd : loc) (fs : node) : Z :=
  match lookup fs (workspace_loc cwd) with
  | Some n => dirs_below n
  | None => 0
  end.

(** The bytes of a list of files, added up. *)
Definition total_bytes (l : list file_entry) : Z :=
  fold_right (fun f acc => Z.of_nat (List.length (file_data f)) + acc) 0 l.

(** ** Where a path without [..] leads *)

(** The names among the components of a path. *)
Definition canon (p : str) : list str := filter kept (PyStr.split SLASH p).

(** A path that is absolute, has no [..] and leads into the workspace. *)
Definition inside (cwd : loc) (path : str) : Prop :=
  startswith path PosixPath.sep = true
  /\ ~ In PosixPath.pardir (PyStr.split SLASH path)
  /\ below (workspace_loc cwd) (canon path).

(** ** The size line, as a reader takes it *)

(** The unit the size is given in: the largest of B, KB, MB and GB that
    the total reaches. *)
Definition unit_index (total : Z) : nat :=
  if total <? 1024 then 0%nat
  else if total <? 1024 ^ 2 then 1%nat
  else if total <? 1024 ^ 3 then 2%nat
  else 3%nat.

(** A number of hundredths written with two decimals. *)
Definition two_decimals (h : Z) : str :=
  SizeText.decimal (h / 100) ++ py "."
  ++ [48 + (h mod 100) / 10; 48 + (h mod 100) mod 10].


(** ** [str.lower]

    CPython lowers a string one character at a time with the lower-case
    mapping of the Unicode database, except the capital sigma U+03A3: it
    becomes the final sigma U+03C2 when a cased character comes before it,
    with only case-ignorable characters between the two, and no cased
    character comes after it in the same way; otherwise it becomes U+03C3.
    The three tables of the database are given here for the Basic Latin
    block and the Greek letters U+0391 to U+03CE: [CaseMap.lower] is
    [str.lower] on the strings of these characters. *)

Module CaseMap.

Definition in_range (lo hi c : Z) : bool := (lo <=? c) && (c <=? hi).

(** The capital letters; each lowers to the code point 32 further on. *)
Definition is_upper (c : Z) : bool :=
  in_range 0x41 0x5A c || in_range 0x391 0x3A1 c || in_range 0x3A3 0x3AB c.

Definition is_cased (c : Z) : bool :=
  is_upper c || in_range 0x61 0x7A c || in_range 0x3AC 0x3CE c.

(** The apostrophe, the full stop, the colon, the circumflex and the
    grave accent. *)
Definition is_case_ignorable (c : Z) : bool :=
  existsb (Z.eqb c) [0x27; 0x2E; 0x3A; 0x5E; 0x60].

Definition to_lower (c : Z) : Z := if is_upper c then c + 32 else c.

Fixpoint first_not_ignorable (s : str) : option Z :=
  match s with
  | [] => None
  | c :: s' => if is_case_ignorable c then first_not_ignorable s' else Some c
  end.

(** What a capital sigma becomes; [before] holds the characters before it,
    the nearest first, and [after] the characters after it. *)
Definition capital_sigma (before after : str) : Z :=
  let final_sigma :=
    match first_not_ignorable before with
    | Some c => is_cased c
    | None => false
    end
    && match first_not_ignorable after with
       | Some c => negb (is_cased c)
       | None => true
       end in
  if final_sigma then 0x3C2 else 0x3C3.

Fixpoint lower_from (before s : str) : str :=
  match s with
  | [] => []
  | c :: s' =>
      (if c =? 0x3A3 then capital_sigma before s' else to_lower c)
      :: lower_from (c :: before) s'
  end.

Definition lower (s : str) : str := lower_from [] s.

End CaseMap.

(** The Greek word for street in capitals, U+039F U+0394 U+039F U+03A3,
    and a machine whose workspace has one file, which holds this word. *)
Definition odos : str := [0x39F; 0x394; 0x39F; 0x3A3].

Definition greek_disk : node :=
  Dir [ (py "srv", Dir [ (py "workspace", Dir [
            (py "odos.txt", File (Sample.utf8 odos)) ]) ]) ].
(** ** The model at work *)

Example join_rel : PosixPath.join (py "/srv/workspace") (py "a/b.txt") = py "/srv/workspace/a/b.txt".
Proof. reflexivity. Qed.

Example join_abs : PosixPath.join (py "/srv/workspace") (py "/etc/passwd") = py "/etc/passwd".
Proof. reflexivity. Qed.

Example join_empty : PosixPath.join (py "/srv/workspace") (py "") = py "/srv/workspace/".
Proof. reflexivity. Qed.

Example norm1 : PosixPath.normpath (py "/srv/workspace/../x/./y//z/") = py "/srv/x/y/z".
Proof. reflexivity. Qed.

Example norm2 : PosixPath.normpath (py "//srv/workspace") = py "//srv/workspace".
Proof. reflexivity. Qed.

Example norm3 : PosixPath.normpath (py "///srv/workspace") = py "/srv/workspace".
Proof. reflexivity. Qed.

Example norm4 : PosixPath.normpath (py "/../..") = py "/".
Proof. reflexivity. Qed.

Example norm5 : PosixPath.normpath (py "a/../../b") = py "../b".
Proof. reflexivity. Qed.

Example split1 : PosixPath.split (py "/srv/workspace/a.txt") = (py "/srv/workspace", py "a.txt").
Proof. reflexivity. Qed.

Example split2 : PosixPath.split (py "/a") = (py "/", py "a").
Proof. reflexivity. Qed.

Example split3 : PosixPath.split (py "/srv/workspace/") = (py "/srv/workspace", py "").
Proof. reflexivity. Qed.

Example split4 : PosixPath.split (py "//a") = (py "//", py "a").
Proof. reflexivity. Qed.

Example rel1 : PosixPath.relpath (py "/srv") (py "/srv/workspace/a/b.txt") (py "/srv/workspace") = py "a/b.txt".
Proof. reflexivity. Qed.

Example rel2 : PosixPath.relpath (py "/srv") (py "/srv/x") (py "/srv/workspace") = py "../x".
Proof. reflexivity. Qed.

Example count1 : count (py "hello world hello") (py "hello") = 2.
Proof. reflexivity. Qed.

Example count2 : count (py "aaaa") (py "aa") = 2.
Proof. reflexivity. Qed.

Example count3 : count (py "abc") (py "") = 4.
Proof. reflexivity. Qed.

Example sorted1 : sorted [py "b.txt"; py "a.txt"; py "a-b"; py "a"] = [py "a"; py "a-b"; py "a.txt"; py "b.txt"].
Proof. reflexivity. Qed.

Example enc1 : Text.encode [0x48; 0xE9; 0x20AC; 0x1F600] =
  Some [0x48; 0xC3; 0xA9; 0xE2; 0x82; 0xAC; 0xF0; 0x9F; 0x98; 0x80].
Proof. reflexivity. Qed.

Example dec1 : Text.decode [0x48; 0xC3; 0xA9; 0xE2; 0x82; 0xAC; 0xF0; 0x9F; 0x98; 0x80]
  = Some [0x48; 0xE9; 0x20AC; 0x1F600].
Proof. reflexivity. Qed.

Example dec_overlong : Text.decode [0xC0; 0x80] = None.
Proof. reflexivity. Qed.

Example dec_surrogate : Text.decode [0xED; 0xA0; 0x80] = None.
Proof. reflexivity. Qed.

Example enc_surrogate : Text.encode [0xD800] = None.
Proof. reflexivity. Qed.

Example nl1 : Text.universal_newlines (py "a" ++ [CR; LF] ++ py "b" ++ [CR] ++ py "c" ++ [LF])
  = py "a" ++ [LF] ++ py "b" ++ [LF] ++ py "c" ++ [LF].
Proof. reflexivity. Qed.

Example ws_sample : WORKSPACE Sample.cwd = py "/srv/workspace".
Proof. reflexivity. Qed.

Example list_sample :
  Sample.outcome (list_files Sample.cwd (py "") Sample.disk)
  = inr [py "sub/"; py "a.txt"; py "b.txt"; py "bin.dat"].
Proof. vm_compute. reflexivity. Qed.

Example search_sample :
  Sample.outcome (search_files Sample.cwd Sample.lower (py "hello") (py "") Sample.disk)
  = inr [(py "a.txt", 2); (py "sub/note.txt", 1)].
Proof. vm_compute. reflexivity. Qed.

Example find_sample :
  Sample.outcome (find_files Sample.cwd (py "*.txt") Sample.disk)
  = inr [py "b.txt"; py "a.txt"; py "sub/note.txt"].
Proof. vm_compute. reflexivity. Qed.

Example write_sample :
  Sample.outcome
    (bind (write_file Sample.cwd (py "new/dir/f.txt") (py "x"))
          (fun _ => read_file Sample.cwd (py "new/dir/f.txt")) Sample.disk)
  = inr (py "x").
Proof. vm_compute. reflexivity. Qed.

Example info_sample :
  Sample.outcome (get_workspace_info Sample.cwd Sample.disk)
  = inr {| ws_path := py "/srv/workspace"; ws_total_files := 4;
           ws_total_directories := 2; ws_total_size := py "32.00 B" |}.
Proof. vm_compute. reflexivity. Qed.
(** ** Facts about strings *)

Module StrFacts.

Lemma eqb_eq (a b : str) : eqb a b = true <-> a = b.
Proof.
  revert b; induction a as [|x a IH]; intros [|y b]; simpl; split; intro H;
    try reflexivity; try discriminate.
  - apply andb_true_iff in H as [H1 H2]. apply Z.eqb_eq in H1.
    apply IH in H2. congruence.
  - injection H as -> ->. rewrite Z.eqb_refl. simpl. now apply IH.
Qed.

Lemma eqb_refl (a : str) : eqb a a = true.
Proof. now apply eqb_eq. Qed.

Lemma eqb_neq (a b : str) : eqb a b = false <-> a <> b.
Proof.
  split; intro H.
  - intros ->. rewrite eqb_refl in H. discriminate.
  - destruct (eqb a b) eqn:E; [apply eqb_eq in E; contradiction | reflexivity].
Qed.

Lemma eqb_sym (a b : str) : eqb a b = eqb b a.
Proof.
  destruct (eqb a b) eqn:E, (eqb b a) eqn:F; try reflexivity.
  - apply eqb_eq in E. subst. rewrite eqb_refl in F. discriminate.
  - apply eqb_eq in F. subst. rewrite eqb_refl in E. discriminate.
Qed.

Lemma startswith_iff (s p : str) :
  startswith s p = true <-> exists r, s = p ++ r.
Proof.
  revert s; induction p as [|y p IH]; intros s; simpl.
  - split; [intros _; now exists s | intros _; reflexivity].
  - destruct s as [|x s].
    + split; [discriminate | intros [r H]; discriminate].
    + rewrite andb_true_iff, Z.eqb_eq, IH. split.
      * intros [-> [r ->]]. now exists r.
      * intros [r H]. injection H as -> ->. split; [reflexivity | now exists r].
Qed.

Lemma startswith_app (p r : str) : startswith (p ++ r) p = true.
Proof. apply startswith_iff. now exists r. Qed.

Lemma endswith_iff (s p : str) :
  endswith s p = true <-> exists r, s = r ++ p.
Proof.
  unfold endswith. rewrite startswith_iff. split; intros [r H].
  - exists (rev r). apply (f_equal (@rev Z)) in H.
    rewrite rev_involutive, rev_app_distr, rev_involutive in H. exact H.
  - exists (rev r). subst. apply rev_app_distr.
Qed.

Lemma endswith_nil (s : str) : endswith s [] = true.
Proof. apply endswith_iff. exists s. now rewrite app_nil_r. Qed.

Lemma split_not_nil (c : Z) (s : str) : PyStr.split c s <> [].
Proof.
  destruct s as [|x s]; simpl; [discriminate|].
  destruct (x =? c); [discriminate|].
  destruct (PyStr.split c s); discriminate.
Qed.

Lemma split_cons_other (c x : Z) (s : str) :
  x <> c ->
  PyStr.split c (x :: s) =
    (x :: hd [] (PyStr.split c s)) :: tl (PyStr.split c s).
Proof.
  intro H. simpl. apply Z.eqb_neq in H. rewrite H.
  destruct (PyStr.split c s) eqn:E; [now apply split_not_nil in E | reflexivity].
Qed.

(** Splitting distributes over a separator. *)
Lemma split_app_sep (c : Z) (a b : str) :
  PyStr.split c (a ++ c :: b) = PyStr.split c a ++ PyStr.split c b.
Proof.
  induction a as [|x a IH]; simpl.
  - now rewrite Z.eqb_refl.
  - destruct (x =? c); [now rewrite IH|].
    rewrite IH. destruct (PyStr.split c a) eqn:E;
      [now apply split_not_nil in E | reflexivity].
Qed.

Lemma split_no_sep (c : Z) (s : str) : ~ In c s -> PyStr.split c s = [s].
Proof.
  induction s as [|x s IH]; intro H; simpl; [reflexivity|].
  destruct (x =? c) eqn:E.
  - apply Z.eqb_eq in E. subst. exfalso. apply H. now left.
  - rewrite IH; [reflexivity | intro; apply H; now right].
Qed.

Lemma split_comps_no_sep (c : Z) (s : str) :
  Forall (fun k => ~ In c k) (PyStr.split c s).
Proof.
  induction s as [|x s IH]; simpl.
  - constructor; [intros [] | constructor].
  - destruct (x =? c) eqn:E.
    + constructor; [intros [] | exact IH].
    + destruct (PyStr.split c s) as [|h r]; [repeat constructor|].
      * intros [H|[]]. subst. now rewrite Z.eqb_refl in E.
      * inversion IH; subst. constructor; [|assumption].
        intros [H|H]; [subst; now rewrite Z.eqb_refl in E | contradiction].
Qed.

Lemma join_cons (sep a : str) (l : list str) :
  l <> [] -> PyStr.join sep (a :: l) = a ++ sep ++ PyStr.join sep l.
Proof. destruct l; [contradiction | reflexivity]. Qed.

Lemma join_app (sep : str) (l1 l2 : list str) :
  l1 <> [] -> l2 <> [] ->
  PyStr.join sep (l1 ++ l2) = PyStr.join sep l1 ++ sep ++ PyStr.join sep l2.
Proof.
  induction l1 as [|a l1 IH]; intros H1 H2; [contradiction|].
  destruct l1 as [|b l1].
  - simpl app at 1. rewrite join_cons by assumption. reflexivity.
  - change ((a :: b :: l1) ++ l2) with (a :: (b :: l1) ++ l2).
    rewrite join_cons by discriminate. rewrite IH by (assumption || discriminate).
    rewrite (join_cons sep a (b :: l1)) by discriminate.
    now rewrite <- !app_assoc.
Qed.

(** Joining slash-free names and splitting again gives the names back. *)
Lemma split_join (c : Z) (l : list str) :
  l <> [] -> Forall (fun k => ~ In c k) l ->
  PyStr.split c (PyStr.join [c] l) = l.
Proof.
  induction l as [|a l IH]; intros H F; [contradiction|].
  inversion F as [|? ? Ha Fl]; subst.
  destruct l as [|b l].
  - simpl. now apply split_no_sep.
  - rewrite join_cons by discriminate.
    change ([c] ++ PyStr.join [c] (b :: l)) with (c :: PyStr.join [c] (b :: l)).
    rewrite split_app_sep, IH by (assumption || discriminate).
    now rewrite split_no_sep.
Qed.

End StrFacts.
Import StrFacts.

(** ** Facts about paths *)

Module PathFacts.

Import PosixPath.

Lemma existsb_eqb_false (c : Z) (s : str) :
  existsb (Z.eqb c) s = false <-> ~ In c s.
Proof.
  induction s as [|x s IH]; simpl.
  - split; [intros _ [] | reflexivity].
  - rewrite orb_false_iff, IH, Z.eqb_neq. split.
    + intros [H1 H2] [H|H]; [now symmetry in H | contradiction].
    + intro H. split; [intro E; apply H; now left | intro E; apply H; now right].
Qed.


Lemma valid_name_ok (k : str) : valid_name k = true <-> name_ok k.
Proof.
  unfold valid_name. rewrite !andb_true_iff, !negb_true_iff, !eqb_neq.
  rewrite existsb_eqb_false. split.
  - intros [[[[[H1 H2] H3] H4] H5] H6]. constructor; try assumption.
    intros ->. discriminate.
  - intros [H1 H2 H3 H4 H5 H6]. repeat split; try assumption.
    destruct k; [contradiction | reflexivity].
Qed.

Lemma names_ok_no_slash (l : list str) :
  forallb valid_name l = true -> Forall (fun k => ~ In SLASH k) l.
Proof.
  rewrite forallb_forall, Forall_forall. intros H k Hk.
  now apply valid_name_ok, H.
Qed.

Lemma workspace_valid : valid_name (py "workspace") = true.
Proof. reflexivity. Qed.

Lemma forallb_snoc {A} (f : A -> bool) (l : list A) (a : A) :
  forallb f (l ++ [a]) = forallb f l && f a.
Proof. rewrite forallb_app. simpl. now rewrite andb_true_r. Qed.

(** *** The shape of absolute paths built from names *)

Lemma abs_path_snoc (l : list str) (k : str) :
  exists x, abs_path (l ++ [k]) = x ++ k /\ x <> [].
Proof.
  unfold abs_path. destruct l as [|a l].
  - exists sep. split; [reflexivity | discriminate].
  - exists (sep ++ PyStr.join sep (a :: l) ++ sep). split.
    + rewrite join_app by discriminate. simpl PyStr.join at 2.
      now rewrite <- !app_assoc.
    + discriminate.
Qed.

Lemma endswith_last (a : str) (x c : Z) : endswith (a ++ [x]) [c] = (x =? c).
Proof.
  unfold endswith. rewrite rev_app_distr. simpl. now rewrite andb_true_r.
Qed.

Lemma name_last (k : str) : k <> [] -> exists a x, k = a ++ [x].
Proof.
  intro H. destruct (exists_last H) as [a [x E]]. now exists a, x.
Qed.

Lemma abs_path_no_trailing_slash (l : list str) (k : str) :
  name_ok k -> endswith (abs_path (l ++ [k])) sep = false.
Proof.
  intros Hk. destruct (abs_path_snoc l k) as [x [E _]]. rewrite E.
  destruct (name_last k (name_not_nil _ Hk)) as [a [c Ek]]. subst k.
  rewrite app_assoc. unfold sep. rewrite endswith_last.
  apply Z.eqb_neq. intros ->. apply (name_no_slash _ Hk).
  apply in_or_app. right. now left.
Qed.

Lemma abs_path_not_nil (l : list str) : is_nil (abs_path l) = false.
Proof. reflexivity. Qed.

Lemma abs_path_isabs (l : list str) : startswith (abs_path l) sep = true.
Proof. reflexivity. Qed.

Lemma split_abs_path (l : list str) :
  l <> [] -> forallb valid_name l = true ->
  PyStr.split SLASH (abs_path l) = [] :: l.
Proof.
  intros H F. unfold abs_path, sep.
  change ([SLASH] ++ PyStr.join [SLASH] l) with ([] ++ SLASH :: PyStr.join [SLASH] l).
  rewrite split_app_sep. simpl PyStr.split at 1.
  now rewrite split_join by (assumption || now apply names_ok_no_slash).
Qed.

Lemma initial_slashes_abs (l : list str) :
  forallb valid_name l = true -> initial_slashes (abs_path l) = 1%nat.
Proof.
  intro F. destruct l as [|k l]; [reflexivity|].
  simpl in F. apply andb_true_iff in F as [Hk _]. apply valid_name_ok in Hk.
  destruct k as [|x k]; [now destruct Hk|].
  assert (Hx : x <> SLASH).
  { intros ->. apply (name_no_slash _ Hk). now left. }
  unfold abs_path. destruct l as [|k' l].
  - simpl PyStr.join. unfold initial_slashes, sep. simpl.
    apply Z.eqb_neq in Hx. now rewrite Hx.
  - rewrite join_cons by discriminate. unfold initial_slashes, sep. simpl.
    apply Z.eqb_neq in Hx. now rewrite Hx.
Qed.


(** Without [..] the loop of [normpath] only drops empty names and dots. *)
Lemma norm_comps_plain (b : bool) (comps acc : list str) :
  ~ In pardir comps ->
  norm_comps b acc comps = acc ++ filter kept comps.
Proof.
  revert acc; induction comps as [|c comps IH]; intros acc H; simpl.
  - now rewrite app_nil_r.
  - assert (Hc : eqb c pardir = false).
    { apply eqb_neq. intros ->. apply H. now left. }
    assert (H' : ~ In pardir comps) by (intro; apply H; now right).
    unfold kept at 1. destruct (eqb c [] || eqb c curdir); simpl.
    + now apply IH.
    + rewrite Hc. simpl. rewrite IH by assumption. now rewrite <- app_assoc.
Qed.

Lemma filter_kept_names (l : list str) :
  forallb valid_name l = true -> filter kept l = l.
Proof.
  induction l as [|k l IH]; simpl; intro F; [reflexivity|].
  apply andb_true_iff in F as [Hk F]. apply valid_name_ok in Hk.
  unfold kept at 1.
  replace (eqb k []) with false
    by (symmetry; apply eqb_neq; apply (name_not_nil _ Hk)).
  replace (eqb k curdir) with false
    by (symmetry; apply eqb_neq; apply (name_not_dot _ Hk)).
  simpl. now rewrite IH.
Qed.

Lemma names_no_pardir (l : list str) :
  forallb valid_name l = true -> ~ In pardir l.
Proof.
  rewrite forallb_forall. intros H Hin. apply H in Hin.
  apply valid_name_ok in Hin. now apply (name_not_dotdot _ Hin).
Qed.

(** A path that begins with one slash and has no [..] is normalised to the
    names it keeps. *)
Lemma normpath_plain (p : str) (comps : list str) :
  initial_slashes p = 1%nat ->
  PyStr.split SLASH p = [] :: comps ->
  ~ In pardir comps ->
  normpath p = abs_path (filter kept comps).
Proof.
  intros Hi Hs Hp. unfold normpath.
  assert (Hn : is_nil p = false) by (destruct p; [discriminate | reflexivity]).
  rewrite Hn, Hi, Hs.
  change (norm_comps (negb (Nat.eqb 1 0)) [] ([] :: comps))
    with (norm_comps true [] comps).
  rewrite norm_comps_plain by assumption. reflexivity.
Qed.

Lemma normpath_abs_path (l : list str) :
  l <> [] -> forallb valid_name l = true -> normpath (abs_path l) = abs_path l.
Proof.
  intros H F.
  rewrite (normpath_plain _ l);
    [ now rewrite filter_kept_names
    | now apply initial_slashes_abs
    | now apply split_abs_path
    | now apply names_no_pardir ].
Qed.

Lemma join_abs_path_name (l : list str) :
  forallb valid_name l = true ->
  join (abs_path l) (py "workspace") = abs_path (l ++ [py "workspace"]).
Proof.
  intro F. unfold join.
  change (startswith (py "workspace") sep) with false.
  rewrite abs_path_not_nil. simpl orb. cbv iota.
  destruct l as [|k l].
  - reflexivity.
  - destruct (@exists_last _ (k :: l)) as [l' [k' E']]; [discriminate|].
    rewrite E' in F |- *. rewrite forallb_snoc in F.
    apply andb_true_iff in F as [_ Hk]. apply valid_name_ok in Hk.
    rewrite abs_path_no_trailing_slash by assumption.
    unfold abs_path. rewrite (join_app _ (l' ++ [k'])).
    + now rewrite <- app_assoc.
    + now destruct l'.
    + discriminate.
Qed.

(** *** The workspace path *)

Section Workspace.

Variable cwd : loc.
Hypothesis cwd_ok : forallb valid_name cwd = true.

Lemma workspace_names_ok : forallb valid_name (workspace_loc cwd) = true.
Proof.
  unfold workspace_loc. rewrite forallb_snoc, cwd_ok. reflexivity.
Qed.

Lemma workspace_loc_not_nil : workspace_loc cwd <> [].
Proof. unfold workspace_loc. clear cwd_ok. now destruct cwd. Qed.

Lemma getcwd_eq : getcwd cwd = abs_path cwd.
Proof. reflexivity. Qed.

Lemma join_getcwd_workspace :
  join (getcwd cwd) (py "workspace") = abs_path (workspace_loc cwd).
Proof. rewrite getcwd_eq. now apply join_abs_path_name. Qed.

(** [WORKSPACE] is the absolute path of the directory [workspace] below the
    working directory. *)
Lemma WORKSPACE_eq : WORKSPACE cwd = abs_path (workspace_loc cwd).
Proof.
  unfold WORKSPACE, os_path_abspath, abspath.
  change (startswith (py "workspace") sep) with false. cbv iota.
  rewrite join_getcwd_workspace.
  apply normpath_abs_path; [apply workspace_loc_not_nil | apply workspace_names_ok].
Qed.

Lemma WORKSPACE_isabs : startswith (WORKSPACE cwd) sep = true.
Proof. rewrite WORKSPACE_eq. reflexivity. Qed.

Lemma WORKSPACE_no_trailing_slash : endswith (WORKSPACE cwd) sep = false.
Proof.
  rewrite WORKSPACE_eq. unfold workspace_loc.
  apply abs_path_no_trailing_slash. now apply valid_name_ok.
Qed.

Lemma split_WORKSPACE : PyStr.split SLASH (WORKSPACE cwd) = [] :: workspace_loc cwd.
Proof.
  rewrite WORKSPACE_eq.
  apply split_abs_path; [apply workspace_loc_not_nil | apply workspace_names_ok].
Qed.

(** Joining the workspace path with an argument. *)
Lemma join_WORKSPACE_rel (arg : str) :
  startswith arg sep = false ->
  os_path_join (WORKSPACE cwd) arg = WORKSPACE cwd ++ SLASH :: arg.
Proof.
  intro H. unfold os_path_join, join. rewrite H, WORKSPACE_no_trailing_slash.
  rewrite WORKSPACE_eq. reflexivity.
Qed.

Lemma join_WORKSPACE_abs (arg : str) :
  startswith arg sep = true -> os_path_join (WORKSPACE cwd) arg = arg.
Proof. intro H. unfold os_path_join, join. now rewrite H. Qed.

Lemma split_join_WORKSPACE (arg : str) :
  startswith arg sep = false ->
  PyStr.split SLASH (os_path_join (WORKSPACE cwd) arg)
  = ([] :: workspace_loc cwd) ++ PyStr.split SLASH arg.
Proof.
  intro H. rewrite join_WORKSPACE_rel by assumption.
  now rewrite split_app_sep, split_WORKSPACE.
Qed.

Lemma initial_slashes_prefix (l : list str) (r : str) :
  l <> [] -> forallb valid_name l = true ->
  initial_slashes (abs_path l ++ r) = 1%nat.
Proof.
  intros Hl F. destruct l as [|k l]; [contradiction|].
  simpl in F. apply andb_true_iff in F as [Hk _]. apply valid_name_ok in Hk.
  destruct k as [|x k]; [now destruct Hk|].
  assert (Hx : x <> SLASH).
  { intros ->. apply (name_no_slash _ Hk). now left. }
  apply Z.eqb_neq in Hx.
  unfold abs_path. destruct l as [|k' l].
  - simpl PyStr.join. unfold initial_slashes, sep. simpl. now rewrite Hx.
  - rewrite join_cons by discriminate. unfold initial_slashes, sep. simpl.
    now rewrite Hx.
Qed.

(** The normal form of the path of a relative argument without [..]. *)
Lemma abspath_join_WORKSPACE (arg : str) :
  startswith arg sep = false ->
  ~ In pardir (PyStr.split SLASH arg) ->
  os_path_abspath cwd (os_path_join (WORKSPACE cwd) arg)
  = abs_path (workspace_loc cwd ++ filter kept (PyStr.split SLASH arg)).
Proof.
  intros Hrel Hpar. unfold os_path_abspath, abspath.
  rewrite join_WORKSPACE_rel by assumption.
  replace (startswith (WORKSPACE cwd ++ SLASH :: arg) sep) with true
    by (rewrite WORKSPACE_eq; reflexivity).
  rewrite (normpath_plain _ (workspace_loc cwd ++ PyStr.split SLASH arg)).
  - rewrite filter_app, filter_kept_names by apply workspace_names_ok. reflexivity.
  - rewrite WORKSPACE_eq.
    apply initial_slashes_prefix; [apply workspace_loc_not_nil | apply workspace_names_ok].
  - now rewrite split_app_sep, split_WORKSPACE.
  - intro Hin. apply in_app_or in Hin as [Hin|Hin]; [|contradiction].
    revert Hin. apply names_no_pardir, workspace_names_ok.
Qed.

Lemma is_within_abs_path (l rest : list str) :
  l <> [] -> is_within (abs_path l) (abs_path (l ++ rest)) = true.
Proof.
  intro Hl. unfold is_within. destruct rest as [|k rest].
  - rewrite app_nil_r, eqb_refl. reflexivity.
  - apply orb_true_iff. right. apply startswith_iff.
    exists (PyStr.join sep (k :: rest)).
    unfold abs_path. rewrite join_app by (assumption || discriminate).
    now rewrite <- !app_assoc.
Qed.

End Workspace.

End PathFacts.
Import PathFacts.

(** ** Facts about the text layer *)

Module TextFacts.

Import Text.

Ltac bool_lia :=
  repeat (rewrite ?andb_true_iff, ?andb_false_iff, ?negb_true_iff, ?negb_false_iff,
            ?Z.leb_le, ?Z.ltb_lt, ?Z.leb_gt, ?Z.ltb_ge);
  Z.to_euclidean_division_equations; lia.

Ltac set_bool b v := replace b with v by (symmetry; bool_lia).

Lemma some_inj {A} (a b : A) : Some a = Some b -> a = b.
Proof. congruence. Qed.

(** Decoding the bytes of a code point gives the code point back. *)
Lemma decode_encode_char (c : Z) (bs rest : list Z) :
  encode_char c = Some bs ->
  decode (bs ++ rest) = option_map (cons c) (decode rest).
Proof.
  unfold encode_char.
  destruct (Z.ltb_spec c 0); [discriminate|].
  destruct (Z.ltb_spec c 0x80).
  { intro E. apply some_inj in E. subst bs. simpl.
    set_bool ((0 <=? c) && (c <? 128)) true. reflexivity. }
  destruct (Z.ltb_spec c 0x800).
  { intro E. apply some_inj in E. subst bs. cbn [app decode].
    set_bool ((0 <=? 0xC0 + c / 64) && (0xC0 + c / 64 <? 0x80)) false.
    set_bool ((0xC0 <=? 0xC0 + c / 64) && (0xC0 + c / 64 <? 0xE0)) true.
    unfold is_cont.
    set_bool ((0x80 <=? 0x80 + c mod 64) && (0x80 + c mod 64 <? 0xC0)) true.
    cbv zeta. cbn [andb].
    replace ((0xC0 + c / 64 - 0xC0) * 64 + (0x80 + c mod 64 - 0x80)) with c
      by (Z.to_euclidean_division_equations; lia).
    set_bool (0x80 <=? c) true. reflexivity. }
  destruct (Z.ltb_spec c 0x10000).
  { unfold is_surrogate.
    destruct ((0xD800 <=? c) && (c <=? 0xDFFF)) eqn:S; [discriminate|].
    intro E. apply some_inj in E. subst bs. cbn [app decode].
    set_bool ((0 <=? 0xE0 + c / 4096) && (0xE0 + c / 4096 <? 0x80)) false.
    set_bool ((0xC0 <=? 0xE0 + c / 4096) && (0xE0 + c / 4096 <? 0xE0)) false.
    set_bool ((0xE0 <=? 0xE0 + c / 4096) && (0xE0 + c / 4096 <? 0xF0)) true.
    unfold is_cont.
    set_bool ((0x80 <=? 0x80 + (c / 64) mod 64) && (0x80 + (c / 64) mod 64 <? 0xC0)) true.
    set_bool ((0x80 <=? 0x80 + c mod 64) && (0x80 + c mod 64 <? 0xC0)) true.
    cbv zeta. cbn [andb].
    replace ((0xE0 + c / 4096 - 0xE0) * 4096 + (0x80 + (c / 64) mod 64 - 0x80) * 64
             + (0x80 + c mod 64 - 0x80)) with c
      by (Z.to_euclidean_division_equations; lia).
    set_bool (0x800 <=? c) true. unfold is_surrogate. rewrite S. reflexivity. }
  destruct (Z.ltb_spec c 0x110000); [|discriminate].
  intro E. apply some_inj in E. subst bs. cbn [app decode].
  set_bool ((0 <=? 0xF0 + c / 262144) && (0xF0 + c / 262144 <? 0x80)) false.
  set_bool ((0xC0 <=? 0xF0 + c / 262144) && (0xF0 + c / 262144 <? 0xE0)) false.
  set_bool ((0xE0 <=? 0xF0 + c / 262144) && (0xF0 + c / 262144 <? 0xF0)) false.
  set_bool ((0xF0 <=? 0xF0 + c / 262144) && (0xF0 + c / 262144 <? 0xF8)) true.
  unfold is_cont.
  set_bool ((0x80 <=? 0x80 + (c / 4096) mod 64) && (0x80 + (c / 4096) mod 64 <? 0xC0)) true.
  set_bool ((0x80 <=? 0x80 + (c / 64) mod 64) && (0x80 + (c / 64) mod 64 <? 0xC0)) true.
  set_bool ((0x80 <=? 0x80 + c mod 64) && (0x80 + c mod 64 <? 0xC0)) true.
  cbv zeta. cbn [andb].
  replace ((0xF0 + c / 262144 - 0xF0) * 262144 + (0x80 + (c / 4096) mod 64 - 0x80) * 4096
           + (0x80 + (c / 64) mod 64 - 0x80) * 64 + (0x80 + c mod 64 - 0x80)) with c
    by (Z.to_euclidean_division_equations; lia).
  set_bool (0x10000 <=? c) true. set_bool (c <? 0x110000) true. reflexivity.
Qed.

(** What was encoded decodes to itself. *)
Lemma decode_encode (s : str) (bs : list Z) :
  encode s = Some bs -> decode bs = Some s.
Proof.
  revert bs; induction s as [|c s IH]; intros bs; simpl.
  - intro E. now injection E as <-.
  - destruct (encode_char c) as [b|] eqn:Ec; [|discriminate].
    destruct (encode s) as [bs'|]; [|discriminate].
    intro E. injection E as <-.
    rewrite (decode_encode_char c b bs' Ec), (IH bs' eq_refl). reflexivity.
Qed.

Lemma encode_app (s t : str) (bs bt : list Z) :
  encode s = Some bs -> encode t = Some bt -> encode (s ++ t) = Some (bs ++ bt).
Proof.
  revert bs; induction s as [|c s IH]; intros bs; simpl.
  - intros E ->. now injection E as <-.
  - destruct (encode_char c) as [b|]; [|discriminate].
    destruct (encode s) as [bs'|]; [|discriminate].
    intros E Et. injection E as <-. rewrite (IH bs' eq_refl Et).
    now rewrite app_assoc.
Qed.

(** Text followed by more bytes decodes to the text followed by what the
    other bytes decode to. *)
Lemma decode_app_len (n : nat) :
  forall (b1 b2 : list Z) (s1 : str),
    (List.length b1 <= n)%nat ->
    decode b1 = Some s1 ->
    decode (b1 ++ b2) = option_map (app s1) (decode b2).
Proof.
  induction n as [|n IH]; intros b1 b2 s1 Hlen H.
  - destruct b1; [|simpl in Hlen; lia]. simpl in H. injection H as <-.
    simpl. now destruct (decode b2).
  - destruct b1 as [|x r]; [simpl in H; injection H as <-; simpl; now destruct (decode b2)|].
    simpl in Hlen. cbn [app]. cbn [decode] in H |- *.
    destruct ((0 <=? x) && (x <? 128)).
    { destruct (decode r) as [s'|] eqn:E; [|discriminate]. simpl in H.
      injection H as <-. rewrite (IH r b2 s') by (lia || assumption).
      now destruct (decode b2). }
    destruct ((192 <=? x) && (x <? 224)).
    { destruct r as [|y r]; [discriminate|]. cbn [app]. cbv zeta in H |- *.
      destruct (is_cont y && (128 <=? (x - 192) * 64 + (y - 128))); [|discriminate].
      destruct (decode r) as [s'|] eqn:E; [|discriminate]. simpl in H.
      injection H as <-. simpl in Hlen. rewrite (IH r b2 s') by (lia || assumption).
      now destruct (decode b2). }
    destruct ((224 <=? x) && (x <? 240)).
    { destruct r as [|y [|z r]]; try discriminate. cbn [app]. cbv zeta in H |- *.
      destruct (is_cont y && is_cont z
                && (2048 <=? (x - 224) * 4096 + (y - 128) * 64 + (z - 128))
                && negb (is_surrogate ((x - 224) * 4096 + (y - 128) * 64 + (z - 128))));
        [|discriminate].
      destruct (decode r) as [s'|] eqn:E; [|discriminate]. simpl in H.
      injection H as <-. simpl in Hlen. rewrite (IH r b2 s') by (lia || assumption).
      now destruct (decode b2). }
    destruct ((240 <=? x) && (x <? 248)); [|discriminate].
    destruct r as [|y [|z [|w r]]]; try discriminate. cbn [app]. cbv zeta in H |- *.
    destruct (is_cont y && is_cont z && is_cont w
              && (65536 <=? (x - 240) * 262144 + (y - 128) * 4096 + (z - 128) * 64 + (w - 128))
              && ((x - 240) * 262144 + (y - 128) * 4096 + (z - 128) * 64 + (w - 128) <? 1114112));
      [|discriminate].
    destruct (decode r) as [s'|] eqn:E; [|discriminate]. simpl in H.
    injection H as <-. simpl in Hlen. rewrite (IH r b2 s') by (lia || assumption).
    now destruct (decode b2).
Qed.

Lemma decode_app (b1 b2 : list Z) (s1 s2 : str) :
  decode b1 = Some s1 -> decode b2 = Some s2 -> decode (b1 ++ b2) = Some (s1 ++ s2).
Proof.
  intros H1 H2. rewrite (decode_app_len (List.length b1) b1 b2 s1 (le_n _) H1), H2.
  reflexivity.
Qed.

(** Without carriage returns the translation of newlines changes nothing. *)
Lemma universal_newlines_plain (s : str) :
  ~ In CR s -> universal_newlines s = s.
Proof.
  induction s as [|c s IH]; intro H; simpl; [reflexivity|].
  destruct (c =? CR) eqn:E.
  - apply Z.eqb_eq in E. subst. exfalso. apply H. now left.
  - rewrite IH; [reflexivity | intro; apply H; now right].
Qed.

(** Reading back what was written. *)
Lemma read_text_written (s : str) (bs : list Z) :
  write_text s = Some bs -> read_text bs = Some (universal_newlines s).
Proof.
  unfold write_text, read_text. intro H. now rewrite (decode_encode s bs H).
Qed.

End TextFacts.
Import TextFacts.

(** ** Facts about the tree *)

Module FsFacts.

Import PosixPath.

(** Induction on trees that reaches the entries of a directory. *)
Lemma node_induction (P : node -> Prop) :
  (forall d, P (File d)) ->
  (forall es, Forall (fun e => P (snd e)) es -> P (Dir es)) ->
  forall n, P n.
Proof.
  intros Hf Hd. fix IH 1. intros [d|es]; [apply Hf | apply Hd].
  induction es as [|e es IHes]; constructor; [apply IH | exact IHes].
Qed.

Lemma lookup_app (n : node) (l1 l2 : loc) :
  lookup n (l1 ++ l2) =
    match lookup n l1 with
    | Some m => lookup m l2
    | None => None
    end.
Proof.
  revert n; induction l1 as [|k l1 IH]; intro n; simpl; [reflexivity|].
  destruct n as [d|es]; [reflexivity|].
  destruct (assoc k es); [apply IH | reflexivity].
Qed.

Lemma lookup_snoc (n : node) (l : loc) (k : str) :
  lookup n (l ++ [k]) =
    match lookup n l with
    | Some (Dir es) => assoc k es
    | _ => None
    end.
Proof.
  rewrite lookup_app. destruct (lookup n l) as [[d|es]|]; simpl; try reflexivity.
  destruct (assoc k es); reflexivity.
Qed.

Lemma lookup_removelast (n m : node) (l : loc) :
  lookup n l = Some m -> exists es, lookup n (removelast l) = Some (Dir es) \/ l = [].
Proof.
  destruct l as [|k l] using rev_ind; intro H.
  - exists []. now right.
  - rewrite removelast_last. rewrite lookup_snoc in H.
    destruct (lookup n l) as [[d|es]|]; try discriminate.
    exists es. now left.
Qed.

(** *** Following components *)

Section Walk.

Lemma walk_app (fs : node) (cur : loc) (a b : list str) :
  walk fs cur (a ++ b) =
    match walk fs cur a with
    | inr l => walk fs l b
    | inl e => inl e
    end.
Proof.
  revert cur; induction a as [|c a IH]; intro cur; simpl; [reflexivity|].
  destruct (lookup fs cur) as [[d|es]|]; try reflexivity.
  destruct (eqb c [] || eqb c curdir); [apply IH|].
  destruct (eqb c pardir); [apply IH|].
  destruct (lookup fs (cur ++ [c])); [apply IH | reflexivity].
Qed.

(** A walk ends at a place of the tree if it starts at one. *)
Lemma walk_exists (fs : node) (comps : list str) (cur l : loc) :
  (exists n, lookup fs cur = Some n) ->
  walk fs cur comps = inr l -> exists n, lookup fs l = Some n.
Proof.
  revert cur; induction comps as [|c comps IH]; intros cur Hc H; simpl in H.
  - now injection H as <-.
  - destruct (lookup fs cur) as [[d|es]|] eqn:E; try discriminate.
    destruct (eqb c [] || eqb c curdir); [apply (IH cur); [now exists (Dir es) | exact H]|].
    destruct (eqb c pardir).
    + apply (IH (removelast cur)); [|assumption].
      destruct (lookup_removelast _ _ _ E) as [es' [H'|H']].
      * now exists (Dir es').
      * subst. now exists (Dir es).
    + destruct (lookup fs (cur ++ [c])) eqn:E'; [|discriminate].
      apply (IH (cur ++ [c])); [now exists n | assumption].
Qed.

Lemma walk_one_name (fs : node) (cur : loc) (k : str) (es : list (str * node)) :
  valid_name k = true ->
  lookup fs cur = Some (Dir es) ->
  walk fs cur [k] =
    match assoc k es with
    | Some _ => inr (cur ++ [k])
    | None => inl ENOENT
    end.
Proof.
  intros Hk Hc. apply valid_name_ok in Hk. simpl. rewrite Hc.
  replace (eqb k []) with false by (symmetry; apply eqb_neq, Hk).
  replace (eqb k curdir) with false by (symmetry; apply eqb_neq, Hk).
  replace (eqb k pardir) with false by (symmetry; apply eqb_neq, Hk).
  simpl. rewrite lookup_snoc, Hc. destruct (assoc k es); reflexivity.
Qed.

Lemma walk_names (fs : node) (names : list str) (cur : loc) (n : node) :
  forallb valid_name names = true ->
  lookup fs (cur ++ names) = Some n ->
  walk fs cur names = inr (cur ++ names).
Proof.
  revert cur; induction names as [|k names IH]; intros cur F H.
  - simpl. now rewrite app_nil_r.
  - simpl in F. apply andb_true_iff in F as [Hk F].
    assert (H' : lookup fs ((cur ++ [k]) ++ names) = Some n)
      by (rewrite <- app_assoc; exact H).
    pose proof H' as H2. rewrite lookup_app in H2.
    destruct (lookup fs (cur ++ [k])) as [c|] eqn:E; [|discriminate].
    pose proof E as E2. rewrite lookup_snoc in E2.
    destruct (lookup fs cur) as [[d|es]|] eqn:Ec; try discriminate.
    change (k :: names) with ([k] ++ names).
    rewrite walk_app, (walk_one_name fs cur k es), E2 by assumption.
    rewrite (IH (cur ++ [k]) F H'). now rewrite <- app_assoc.
Qed.

(** *** One tree containing another *)


Lemma sub_refl (a : node) : sub a a.
Proof. intros l n H. now exists n. Qed.

Lemma sub_trans (a b c : node) : sub a b -> sub b c -> sub a c.
Proof.
  intros H1 H2 l n H. destruct (H1 _ _ H) as [n' [H' E']].
  destruct (H2 _ _ H') as [n'' [H'' E'']]. exists n''. split; congruence.
Qed.

Lemma sub_dir (a b : node) (l : loc) (es : list (str * node)) :
  sub a b -> lookup a l = Some (Dir es) -> exists es', lookup b l = Some (Dir es').
Proof.
  intros S H. destruct (S _ _ H) as [[d|es'] [H' E]]; [discriminate|].
  now exists es'.
Qed.

(** A walk that succeeds in a tree succeeds in any tree that contains it,
    and ends at the same place. *)
Lemma walk_sub (a b : node) (comps : list str) (cur l : loc) :
  sub a b -> walk a cur comps = inr l -> walk b cur comps = inr l.
Proof.
  intro S. revert cur; induction comps as [|c comps IH]; intros cur H; simpl in *.
  - exact H.
  - destruct (lookup a cur) as [[d|es]|] eqn:E; try discriminate.
    destruct (sub_dir _ _ _ _ S E) as [es' ->].
    destruct (eqb c [] || eqb c curdir); [now apply IH|].
    destruct (eqb c pardir); [now apply IH|].
    destruct (lookup a (cur ++ [c])) eqn:E'; [|discriminate].
    destruct (S _ _ E') as [n' [-> _]]. now apply IH.
Qed.

End Walk.

(** *** Changing one node *)

Lemma assoc_map_entry (k x : str) (g : node -> node) (es : list (str * node)) :
  assoc x (map_entry k g es) =
    if eqb x k then option_map g (assoc k es) else assoc x es.
Proof.
  induction es as [|[k' c] es IH]; simpl.
  - now destruct (eqb x k).
  - destruct (eqb k' k) eqn:E; simpl.
    + apply eqb_eq in E. subst k'.
      destruct (eqb x k) eqn:E'.
      * apply eqb_eq in E'. subst x. now rewrite eqb_refl.
      * rewrite eqb_sym, E'. reflexivity.
    + destruct (eqb k' x) eqn:E'.
      * apply eqb_eq in E'. subst x. now rewrite E.
      * exact IH.
Qed.

Lemma lookup_modify (g : node -> node) (l r : loc) (fs n : node) :
  lookup fs l = Some n ->
  lookup (modify g l fs) (l ++ r) = lookup (g n) r.
Proof.
  revert fs; induction l as [|k l IH]; intros fs H; simpl in *.
  - now injection H as ->.
  - destruct fs as [d|es]; [discriminate|].
    rewrite assoc_map_entry, eqb_refl.
    destruct (assoc k es) as [c|]; [|discriminate]. simpl. now apply IH.
Qed.

Lemma lookup_modify_here (g : node -> node) (l : loc) (fs n : node) :
  lookup fs l = Some n -> lookup (modify g l fs) l = Some (g n).
Proof.
  intro H. rewrite <- (app_nil_r l) at 2. now rewrite (lookup_modify g l [] fs n).
Qed.

Lemma modify_missing (g : node -> node) (l : loc) (fs : node) :
  lookup fs l = None -> modify g l fs = fs.
Proof.
  revert fs; induction l as [|k l IH]; intros fs H; simpl in *; [discriminate|].
  destruct fs as [d|es]; [reflexivity|]. f_equal.
  induction es as [|[k' c] es IHes]; simpl in *; [reflexivity|].
  destruct (eqb k' k).
  - now rewrite IH.
  - now rewrite IHes.
Qed.

(** Changing a node into one that contains it gives a tree that contains
    the old one; the same the other way round. *)
Lemma modify_sub (g : node -> node) (l : loc) (fs : node) :
  (forall n, lookup fs l = Some n -> sub n (g n)) -> sub fs (modify g l fs).
Proof.
  revert fs; induction l as [|k l IH]; intros fs H.
  - simpl. now apply H.
  - destruct fs as [d|es]; [apply sub_refl|].
    intros r n Hr. destruct r as [|x r].
    + simpl in Hr. injection Hr as <-. now eexists.
    + simpl in *. rewrite assoc_map_entry.
      destruct (eqb x k) eqn:E.
      * apply eqb_eq in E. subst x.
        destruct (assoc k es) as [c|]; [|discriminate]. simpl.
        apply (IH c); [|assumption]. intros n0 Hn0. now apply H.
      * destruct (assoc x es) as [c|]; [|discriminate]. now exists n.
Qed.

Lemma modify_sub_rev (g : node -> node) (l : loc) (fs : node) :
  (forall n, lookup fs l = Some n -> sub (g n) n) -> sub (modify g l fs) fs.
Proof.
  revert fs; induction l as [|k l IH]; intros fs H.
  - simpl. now apply H.
  - destruct fs as [d|es]; [apply sub_refl|].
    intros r n Hr. destruct r as [|x r].
    + simpl in Hr. injection Hr as <-. now eexists.
    + simpl in *. rewrite assoc_map_entry in Hr.
      destruct (eqb x k) eqn:E.
      * apply eqb_eq in E. subst x.
        destruct (assoc k es) as [c|]; [|discriminate]. simpl in Hr.
        apply (IH c); [|assumption]. intros n0 Hn0. now apply H.
      * destruct (assoc x es) as [c|]; [|discriminate]. now exists n.
Qed.

End FsFacts.
Import FsFacts.

(** ** Facts about the path tests *)

Module TestFacts.

Import PosixPath.

Section Tests.

Variable cwd : loc.

Lemma path_test_inv (f : node -> bool) (fs : node) (p : str) :
  path_test cwd f fs p = true ->
  fs_path_exn p = None /\ exists n, stat cwd fs p = inr n /\ f n = true.
Proof.
  unfold path_test. destruct (fs_path_exn p); [discriminate|].
  destruct (stat cwd fs p) as [e|n]; [discriminate|].
  intro H. split; [reflexivity | now exists n].
Qed.

Lemma path_test_intro (f : node -> bool) (fs n : node) (p : str) :
  fs_path_exn p = None -> stat cwd fs p = inr n -> path_test cwd f fs p = f n.
Proof. unfold path_test. now intros -> ->. Qed.

Lemma isdir_exists (fs : node) (p : str) :
  isdir_in cwd fs p = true -> exists_in cwd fs p = true.
Proof.
  intro H. apply path_test_inv in H as [H1 [n [H2 _]]].
  unfold exists_in. now rewrite (path_test_intro _ fs n).
Qed.

Lemma isfile_exists (fs : node) (p : str) :
  isfile_in cwd fs p = true -> exists_in cwd fs p = true.
Proof.
  intro H. apply path_test_inv in H as [H1 [n [H2 _]]].
  unfold exists_in. now rewrite (path_test_intro _ fs n).
Qed.

Lemma isdir_not_isfile (fs : node) (p : str) :
  isdir_in cwd fs p = true -> isfile_in cwd fs p = false.
Proof.
  intro H. apply path_test_inv in H as [H1 [n [H2 H3]]].
  unfold isfile_in. rewrite (path_test_intro _ fs n) by assumption.
  now rewrite H3.
Qed.

Lemma missing_not_isfile (fs : node) (p : str) :
  exists_in cwd fs p = false -> isfile_in cwd fs p = false.
Proof.
  unfold exists_in, isfile_in, path_test.
  destruct (fs_path_exn p); [reflexivity|].
  destruct (stat cwd fs p); [reflexivity | discriminate].
Qed.

Lemma missing_not_isdir (fs : node) (p : str) :
  exists_in cwd fs p = false -> isdir_in cwd fs p = false.
Proof.
  unfold exists_in, isdir_in, path_test.
  destruct (fs_path_exn p); [reflexivity|].
  destruct (stat cwd fs p); [reflexivity | discriminate].
Qed.

Lemma exists_split (fs : node) (p : str) :
  exists_in cwd fs p = orb (isdir_in cwd fs p) (isfile_in cwd fs p).
Proof.
  unfold exists_in, isdir_in, isfile_in, path_test.
  destruct (fs_path_exn p); [reflexivity|].
  destruct (stat cwd fs p) as [e|n]; [reflexivity|].
  now destruct (is_dir n).
Qed.

Lemma stat_inv (fs n : node) (p : str) :
  stat cwd fs p = inr n ->
  exists l, resolve cwd fs p = inr l /\ lookup fs l = Some n.
Proof.
  unfold stat. destruct (resolve cwd fs p) as [e|l]; [discriminate|].
  destruct (lookup fs l) as [m|] eqn:E; [|discriminate].
  intro H. injection H as <-. now exists l.
Qed.

Lemma stat_intro (fs n : node) (p : str) (l : loc) :
  resolve cwd fs p = inr l -> lookup fs l = Some n -> stat cwd fs p = inr n.
Proof. unfold stat. now intros -> ->. Qed.

End Tests.

End TestFacts.
Import TestFacts.


(** ** Facts about sorting *)

Module SortFacts.


Lemma leb_total (a b : str) : leb a b = true \/ leb b a = true.
Proof.
  revert b; induction a as [|x a IH]; intros [|y b]; simpl; auto.
  destruct (Z.lt_trichotomy x y) as [H|[H|H]].
  - left. apply Z.ltb_lt in H. now rewrite H.
  - subst. rewrite Z.ltb_irrefl, Z.eqb_refl. simpl. apply IH.
  - right. apply Z.ltb_lt in H. now rewrite H.
Qed.

Lemma leb_trans (a b c : str) : leb a b = true -> leb b c = true -> leb a c = true.
Proof.
  revert b c; induction a as [|x a IH]; intros [|y b] [|z c]; simpl; auto;
    try discriminate.
  rewrite !orb_true_iff, !andb_true_iff, !Z.ltb_lt, !Z.eqb_eq.
  intros [H1|[H1 H1']] [H2|[H2 H2']].
  - left. lia.
  - left. lia.
  - left. lia.
  - right. split; [lia | now apply (IH b)].
Qed.

Lemma insert_perm (a : str) (l : list str) : Permutation (insert a l) (a :: l).
Proof.
  induction l as [|b l IH]; simpl; [reflexivity|].
  destruct (leb a b); [reflexivity|].
  rewrite IH. apply perm_swap.
Qed.

Lemma sorted_perm (l : list str) : Permutation (sorted l) l.
Proof.
  induction l as [|a l IH]; simpl; [reflexivity|].
  rewrite insert_perm. now constructor.
Qed.

Lemma insert_sorted (a : str) (l : list str) :
  StronglySorted le l -> StronglySorted le (insert a l).
Proof.
  induction 1 as [|b l S IH F]; simpl.
  - repeat constructor.
  - destruct (leb a b) eqn:E.
    + constructor; [now constructor|]. constructor; [exact E|].
      eapply Forall_impl; [|exact F]. intros c Hc. now apply (leb_trans a b c).
    + constructor; [exact IH|].
      assert (Hba : le b a) by (destruct (leb_total a b); congruence).
      rewrite Forall_forall in *. intros c Hc.
      apply (Permutation_in _ (insert_perm a l)) in Hc as [<-|Hc]; auto.
Qed.

Lemma sorted_sorted (l : list str) : StronglySorted le (sorted l).
Proof.
  induction l as [|a l IH]; simpl; [constructor | now apply insert_sorted].
Qed.

End SortFacts.
Import SortFacts.

(** ** Facts about the entries of a directory *)

Module EntryFacts.

Import PosixPath.

Lemma fs_path_exn_none (p : str) :
  fs_path_exn p = None <->
  existsb bad_surrogate p = false /\ existsb (Z.eqb NUL) p = false.
Proof.
  unfold fs_path_exn.
  destruct (existsb bad_surrogate p), (existsb (Z.eqb NUL) p);
    split; try discriminate; try tauto; intros [? ?]; discriminate.
Qed.

Lemma fs_path_exn_app (p q : str) :
  fs_path_exn p = None -> fs_path_exn q = None -> fs_path_exn (p ++ q) = None.
Proof.
  rewrite !fs_path_exn_none, !existsb_app. intros [-> ->] [-> ->]. now split.
Qed.

Lemma fs_path_exn_name (k : str) : valid_name k = true -> fs_path_exn k = None.
Proof.
  intro H. apply valid_name_ok in H. apply fs_path_exn_none.
  split; apply H.
Qed.

Lemma name_not_abs (k : str) : valid_name k = true -> startswith k sep = false.
Proof.
  intro H. apply valid_name_ok in H. destruct k as [|x k]; [now destruct H|].
  simpl. destruct (x =? SLASH) eqn:E; [|reflexivity].
  apply Z.eqb_eq in E. subst. exfalso. apply (name_no_slash _ H). now left.
Qed.

Lemma split_name (k : str) : valid_name k = true -> PyStr.split SLASH k = [k].
Proof. intro H. apply valid_name_ok in H. apply split_no_sep, H. Qed.

(** The two shapes of [join] with a name. *)
Lemma join_name (target k : str) :
  target <> [] -> valid_name k = true ->
  exists t, PosixPath.join target k = t ++ SLASH :: k
            /\ (target = t \/ target = t ++ [SLASH]).
Proof.
  intros Ht Hk. unfold PosixPath.join. rewrite (name_not_abs k Hk).
  destruct target as [|x target]; [contradiction|]. simpl orb. cbv iota.
  destruct (endswith (x :: target) sep) eqn:E.
  - apply endswith_iff in E as [t E]. exists t. split; [|now right].
    rewrite E. now rewrite <- app_assoc.
  - exists (x :: target). split; [reflexivity | now left].
Qed.

Lemma fs_path_exn_join (target k : str) :
  target <> [] -> fs_path_exn target = None -> valid_name k = true ->
  fs_path_exn (PosixPath.join target k) = None.
Proof.
  intros Ht Hp Hk. destruct (join_name target k Ht Hk) as [t [-> [E|E]]].
  - subst. apply fs_path_exn_app; [assumption|].
    change (SLASH :: k) with ([SLASH] ++ k).
    apply fs_path_exn_app; [reflexivity | now apply fs_path_exn_name].
  - subst. change (SLASH :: k) with ([SLASH] ++ k). rewrite app_assoc.
    apply fs_path_exn_app; [assumption | now apply fs_path_exn_name].
Qed.

Lemma join_not_nil (target k : str) : target <> [] -> PosixPath.join target k <> [].
Proof.
  intros Ht. unfold PosixPath.join.
  destruct (startswith k sep) eqn:E.
  - simpl. intros ->. discriminate.
  - destruct target as [|x t]; [contradiction|]. simpl.
    destruct (endswith (x :: t) sep); discriminate.
Qed.

Section Children.

Variable cwd : loc.

Lemma resolve_not_nil (fs : node) (p : str) (l : loc) :
  resolve cwd fs p = inr l -> p <> [].
Proof. intros H ->. discriminate. Qed.

Lemma start_join (target k : str) :
  target <> [] -> valid_name k = true ->
  start cwd (PosixPath.join target k) = start cwd target.
Proof.
  intros Ht Hk. destruct (join_name target k Ht Hk) as [t [-> [E|E]]]; subst.
  - unfold start, isabs. destruct t as [|x t]; [contradiction | reflexivity].
  - unfold start, isabs. destruct t as [|x t]; reflexivity.
Qed.

(** The path of an entry leads to the entry. *)
Lemma resolve_join_child (fs : node) (target k : str) (l : loc)
    (es : list (str * node)) :
  resolve cwd fs target = inr l ->
  lookup fs l = Some (Dir es) ->
  valid_name k = true ->
  resolve cwd fs (PosixPath.join target k) =
    match assoc k es with
    | Some _ => inr (l ++ [k])
    | None => inl ENOENT
    end.
Proof.
  intros Hr Hl Hk. pose proof (resolve_not_nil _ _ _ Hr) as Ht.
  unfold resolve in *.
  replace (is_nil (PosixPath.join target k)) with false
    by (pose proof (join_not_nil target k Ht);
        destruct (PosixPath.join target k); [contradiction | reflexivity]).
  replace (is_nil target) with false in Hr
    by (destruct target; [contradiction | reflexivity]).
  rewrite start_join by assumption.
  destruct (join_name target k Ht Hk) as [t [-> [E|E]]]; subst.
  - rewrite split_app_sep, (split_name k Hk), walk_app, Hr.
    now apply walk_one_name.
  - change (t ++ [SLASH]) with (t ++ SLASH :: []) in Hr.
    rewrite split_app_sep, walk_app in Hr.
    rewrite split_app_sep, (split_name k Hk), walk_app.
    destruct (walk fs (start cwd (t ++ [SLASH])) (PyStr.split SLASH t)) as [e|l0];
      [discriminate|].
    simpl in Hr. destruct (lookup fs l0) as [[d|es0]|]; try discriminate.
    injection Hr as ->. now apply walk_one_name.
Qed.

Lemma assoc_distinct (es : list (str * node)) (k : str) (c : node) :
  distinct (map fst es) = true -> In (k, c) es -> assoc k es = Some c.
Proof.
  induction es as [|[k' c'] es IH]; simpl; intros D H; [contradiction|].
  apply andb_true_iff in D as [D1 D2]. destruct H as [H|H].
  - injection H as -> ->. now rewrite eqb_refl.
  - destruct (eqb k' k) eqn:E; [|now apply IH].
    apply eqb_eq in E. subst k'. exfalso.
    apply negb_true_iff in D1.
    assert (existsb (eqb k) (map fst es) = true); [|congruence].
    apply existsb_exists. exists k. split; [|apply eqb_refl].
    apply in_map_iff. now exists (k, c).
Qed.

Lemma entries_ok_in (es : list (str * node)) (k : str) (c : node) :
  entries_ok es = true -> In (k, c) es ->
  valid_name k = true /\ assoc k es = Some c.
Proof.
  unfold entries_ok. intros H Hin. apply andb_true_iff in H as [H1 H2]. split.
  - rewrite forallb_forall in H1. apply H1. apply in_map_iff. now exists (k, c).
  - now apply assoc_distinct.
Qed.

(** The kind of an entry, seen through its path. *)
Lemma stat_join_child (fs : node) (target k : str) (l : loc)
    (es : list (str * node)) (c : node) :
  resolve cwd fs target = inr l ->
  lookup fs l = Some (Dir es) ->
  entries_ok es = true -> In (k, c) es ->
  resolve cwd fs (PosixPath.join target k) = inr (l ++ [k])
  /\ stat cwd fs (PosixPath.join target k) = inr c.
Proof.
  intros Hr Hl Hok Hin. destruct (entries_ok_in es k c Hok Hin) as [Hk Ha].
  assert (R : resolve cwd fs (PosixPath.join target k) = inr (l ++ [k])).
  { rewrite (resolve_join_child fs target k l es) by assumption. now rewrite Ha. }
  split; [exact R|]. unfold stat. rewrite R, lookup_snoc, Hl, Ha. reflexivity.
Qed.

Lemma isdir_join_child (fs : node) (target k : str) (l : loc)
    (es : list (str * node)) (c : node) :
  fs_path_exn target = None ->
  resolve cwd fs target = inr l ->
  lookup fs l = Some (Dir es) ->
  entries_ok es = true -> In (k, c) es ->
  isdir_in cwd fs (PosixPath.join target k) = is_dir c.
Proof.
  intros Hp Hr Hl Hok Hin.
  destruct (stat_join_child fs target k l es c Hr Hl Hok Hin) as [_ S].
  destruct (entries_ok_in es k c Hok Hin) as [Hk _].
  unfold isdir_in. apply path_test_intro; [|exact S].
  apply fs_path_exn_join; [now apply (resolve_not_nil fs target l) | assumption..].
Qed.



Lemma list_files_loop_spec (fs : node) (target : str) (l : loc)
    (es : list (str * node)) :
  fs_path_exn target = None ->
  resolve cwd fs target = inr l ->
  lookup fs l = Some (Dir es) ->
  entries_ok es = true ->
  forall (es' : list (str * node)) (files dirs : list str),
    incl es' es ->
    list_files_loop cwd target (map fst es') files dirs fs
    = (inr (files ++ file_names es', dirs ++ dir_names es'), fs).
Proof.
  intros Hp Hr Hl Hok. induction es' as [|[k c] es' IH]; intros files dirs Hin.
  - simpl. unfold ret, file_names, dir_names. simpl. now rewrite !app_nil_r.
  - simpl. unfold bind, os_path_isdir, peek, os_path_join.
    rewrite (isdir_join_child fs target k l es c) by (auto; apply Hin; now left).
    assert (Hin' : incl es' es) by (intros e He; apply Hin; now right).
    unfold file_names, dir_names. simpl. destruct (is_dir c); simpl.
    + rewrite IH by assumption. unfold file_names, dir_names.
      now rewrite <- app_assoc.
    + rewrite IH by assumption. unfold file_names, dir_names.
      now rewrite <- app_assoc.
Qed.

End Children.

End EntryFacts.
Import EntryFacts.

(** ** Facts about the traversal of the workspace *)

Module WalkFacts.

Import PosixPath.

Lemma walk_tree_dir (top : str) (es : list (str * node)) :
  walk_tree top (Dir es) =
    (top, map fst (filter (fun e => is_dir (snd e)) es),
          map fst (filter (fun e => negb (is_dir (snd e))) es))
    :: flat_map (fun e => walk_tree (PosixPath.join top (fst e)) (snd e)) es.
Proof.
  simpl. f_equal.
  induction es as [|[k c] es IH]; simpl; [reflexivity | now rewrite IH].
Qed.

Lemma files_below_dir (prefix : list str) (es : list (str * node)) :
  files_below prefix (Dir es) =
    files_here prefix es
    ++ flat_map (fun e => files_below (prefix ++ [fst e]) (snd e)) es.
Proof.
  simpl. f_equal.
  induction es as [|[k c] es IH]; simpl; [reflexivity | now rewrite IH].
Qed.

Lemma wf_dir (es : list (str * node)) :
  wf (Dir es) = entries_ok es && forallb (fun e => wf (snd e)) es.
Proof.
  simpl. f_equal.
  induction es as [|[k c] es IH]; simpl; [reflexivity | now rewrite IH].
Qed.

Lemma path_of_snoc (top : str) (names : list str) (k : str) :
  path_of top (names ++ [k]) = PosixPath.join (path_of top names) k.
Proof. unfold path_of. now rewrite fold_left_app. Qed.

Lemma join_abs_path (l : list str) (k : str) :
  l <> [] -> forallb valid_name l = true -> valid_name k = true ->
  PosixPath.join (abs_path l) k = abs_path (l ++ [k]).
Proof.
  intros Hl F Hk. unfold PosixPath.join.
  rewrite (name_not_abs k Hk), abs_path_not_nil. simpl orb. cbv iota.
  destruct (@exists_last _ l Hl) as [l' [k' E']]. subst l.
  rewrite forallb_snoc in F. apply andb_true_iff in F as [_ Hk'].
  apply valid_name_ok in Hk'.
  rewrite abs_path_no_trailing_slash by assumption.
  unfold abs_path. rewrite (join_app _ (l' ++ [k'])).
  - now rewrite <- app_assoc.
  - now destruct l'.
  - discriminate.
Qed.

Lemma path_of_abs_path (names l : list str) :
  l <> [] -> forallb valid_name l = true -> forallb valid_name names = true ->
  path_of (abs_path l) names = abs_path (l ++ names).
Proof.
  revert l; induction names as [|k names IH]; intros l Hl F Fn.
  - simpl. now rewrite app_nil_r.
  - simpl in Fn. apply andb_true_iff in Fn as [Hk Fn].
    unfold path_of. simpl. fold (path_of (PosixPath.join (abs_path l) k) names).
    rewrite join_abs_path by assumption.
    rewrite IH.
    + now rewrite <- app_assoc.
    + now destruct l.
    + now rewrite forallb_snoc, F, Hk.
    + assumption.
Qed.

Lemma filter_nonempty_names (l : list str) :
  forallb valid_name l = true -> filter (fun x => negb (is_nil x)) l = l.
Proof.
  induction l as [|k l IH]; simpl; intro F; [reflexivity|].
  apply andb_true_iff in F as [Hk F]. apply valid_name_ok in Hk.
  destruct k; [now destruct Hk|]. simpl. now rewrite IH.
Qed.

Lemma nonempty_comps_abs_path (l : list str) :
  forallb valid_name l = true -> nonempty_comps (abs_path l) = l.
Proof.
  intro F. unfold nonempty_comps. destruct l as [|k l]; [reflexivity|].
  rewrite split_abs_path by (assumption || discriminate).
  exact (filter_nonempty_names (k :: l) F).
Qed.

Lemma common_prefix_len_app (a r : list str) :
  common_prefix_len a (a ++ r) = List.length a.
Proof.
  induction a as [|x a IH]; simpl.
  - now destruct r.
  - now rewrite eqb_refl, IH.
Qed.

Lemma endswith_name (a k : str) :
  valid_name k = true -> endswith (a ++ k) sep = false.
Proof.
  intro Hk. apply valid_name_ok in Hk.
  destruct (name_last k (name_not_nil _ Hk)) as [b [c Ek]]. subst k.
  rewrite app_assoc. unfold sep. rewrite endswith_last.
  apply Z.eqb_neq. intros ->. apply (name_no_slash _ Hk).
  apply in_or_app. right. now left.
Qed.

Lemma join_after_name (a k k' : str) :
  valid_name k = true -> valid_name k' = true ->
  PosixPath.join (a ++ k) k' = (a ++ k) ++ sep ++ k'.
Proof.
  intros Hk Hk'. unfold PosixPath.join.
  rewrite (name_not_abs k' Hk'), (endswith_name a k Hk).
  apply valid_name_ok in Hk. destruct k as [|x k]; [now destruct Hk|].
  now destruct a.
Qed.

Lemma fold_join_names (l : list str) (a k : str) :
  valid_name k = true -> forallb valid_name l = true ->
  fold_left PosixPath.join l (a ++ k) = a ++ PyStr.join sep (k :: l).
Proof.
  revert a k; induction l as [|k' l IH]; intros a k Hk F.
  - reflexivity.
  - simpl in F. apply andb_true_iff in F as [Hk' F].
    simpl fold_left. rewrite join_after_name by assumption.
    replace ((a ++ k) ++ sep ++ k') with ((a ++ k ++ sep) ++ k')
      by now rewrite <- !app_assoc.
    rewrite IH by assumption.
    rewrite (join_cons sep k (k' :: l)) by discriminate.
    now rewrite <- !app_assoc.
Qed.

Section Relative.

Variable cwd : loc.
Hypothesis cwd_ok : forallb valid_name cwd = true.

Lemma path_of_WORKSPACE (names : list str) :
  forallb valid_name names = true ->
  path_of (WORKSPACE cwd) names = abs_path (workspace_loc cwd ++ names).
Proof.
  intro F. rewrite WORKSPACE_eq by assumption.
  apply path_of_abs_path;
    [now apply workspace_loc_not_nil | now apply workspace_names_ok | assumption].
Qed.

Lemma abspath_abs_path (l : list str) :
  l <> [] -> forallb valid_name l = true ->
  os_path_abspath cwd (abs_path l) = abs_path l.
Proof.
  intros Hl F. unfold os_path_abspath, abspath. rewrite abs_path_isabs.
  now apply normpath_abs_path.
Qed.

(** The relative path of a file found by [os.walk] is made of the names
    that lead to it. *)
Lemma relpath_below (dirs : list str) (name : str) :
  forallb valid_name dirs = true -> valid_name name = true ->
  os_path_relpath cwd
    (os_path_join (path_of (WORKSPACE cwd) dirs) name) (WORKSPACE cwd)
  = PyStr.join sep (dirs ++ [name]).
Proof.
  intros Fd Hn.
  assert (Fw := workspace_names_ok cwd cwd_ok).
  assert (Hw := workspace_loc_not_nil cwd).
  assert (Fall : forallb valid_name (workspace_loc cwd ++ dirs) = true)
    by now rewrite forallb_app, Fw, Fd.
  assert (Fall' : forallb valid_name ((workspace_loc cwd ++ dirs) ++ [name]) = true)
    by now rewrite forallb_snoc, Fall, Hn.
  rewrite path_of_WORKSPACE by assumption.
  unfold os_path_join. rewrite join_abs_path;
    [|now destruct (workspace_loc cwd) | assumption..].
  unfold os_path_relpath, relpath.
  fold (os_path_abspath cwd (WORKSPACE cwd)).
  fold (os_path_abspath cwd (abs_path ((workspace_loc cwd ++ dirs) ++ [name]))).
  rewrite WORKSPACE_eq by assumption.
  rewrite !abspath_abs_path;
    [|now destruct (workspace_loc cwd) | assumption | assumption | assumption].
  rewrite !nonempty_comps_abs_path by assumption.
  rewrite <- app_assoc, common_prefix_len_app, Nat.sub_diag, skipn_app, skipn_all,
    Nat.sub_diag. simpl repeat. simpl skipn. simpl app.
  assert (Frest : forallb valid_name (dirs ++ [name]) = true)
    by now rewrite forallb_snoc, Fd, Hn.
  destruct (dirs ++ [name]) as [|k l] eqn:E; [now destruct dirs|].
  simpl in Frest. apply andb_true_iff in Frest as [Hk Fl].
  change k with ([] ++ k) at 1. now rewrite fold_join_names.
Qed.

End Relative.

(** *** The files a traversal meets *)

Lemma files_here_names (prefix : list str) (es : list (str * node)) :
  map file_name (files_here prefix es)
  = map fst (filter (fun e => negb (is_dir (snd e))) es).
Proof.
  induction es as [|[k [d|es']] es IH]; simpl; [reflexivity | | exact IH].
  now rewrite IH.
Qed.

Lemma files_here_dirs (prefix : list str) (es : list (str * node)) :
  Forall (fun f => file_dirs f = prefix) (files_here prefix es).
Proof.
  induction es as [|[k [d|es']] es IH]; simpl; [constructor | | exact IH].
  now constructor.
Qed.

Lemma files_here_in (prefix : list str) (es : list (str * node)) (f : file_entry) :
  In f (files_here prefix es) ->
  file_dirs f = prefix /\ In (file_name f, File (file_data f)) es.
Proof.
  induction es as [|[k [d|es']] es IH]; simpl; [contradiction | |].
  - intros [<-|H]; [split; [reflexivity | now left]|].
    destruct (IH H). split; [assumption | now right].
  - intro H. destruct (IH H). split; [assumption | now right].
Qed.

Lemma entries_ok_names (es : list (str * node)) (e : str * node) :
  entries_ok es = true -> In e es -> valid_name (fst e) = true.
Proof.
  intros H Hin. destruct e as [k c]. now apply (entries_ok_in es k c).
Qed.

(** In a well-formed tree every file found has valid names. *)
Lemma files_below_valid (n : node) :
  forall prefix f,
    wf n = true -> forallb valid_name prefix = true ->
    In f (files_below prefix n) ->
    forallb valid_name (file_dirs f) = true /\ valid_name (file_name f) = true.
Proof.
  induction n as [d|es IH] using node_induction; intros prefix f W Fp Hin.
  - destruct Hin.
  - rewrite wf_dir in W. apply andb_true_iff in W as [Hok Wc].
    rewrite files_below_dir in Hin. apply in_app_or in Hin as [Hin|Hin].
    + apply files_here_in in Hin as [-> Hin]. split; [assumption|].
      now apply (entries_ok_names es _ Hok Hin).
    + apply in_flat_map in Hin as [e [He Hin]].
      rewrite Forall_forall in IH. apply (IH e He (prefix ++ [fst e]) f).
      * rewrite forallb_forall in Wc. now apply Wc.
      * rewrite forallb_snoc, Fp. now rewrite (entries_ok_names es e Hok He).
      * assumption.
Qed.

End WalkFacts.
Import WalkFacts.

(** ** Facts about the workspace directory *)

Module WorkspaceFacts.

Import PosixPath.

Lemma existsb_join (P : Z -> bool) (l : list str) :
  P SLASH = false -> forallb (fun k => negb (existsb P k)) l = true ->
  existsb P (PyStr.join sep l) = false.
Proof.
  intros Hs. induction l as [|k l IH]; intro F; [reflexivity|].
  cbn [forallb] in F. apply andb_true_iff in F as [Hk F]. apply negb_true_iff in Hk.
  destruct l as [|k' l]; [exact Hk|].
  rewrite join_cons by discriminate.
  rewrite !existsb_app, Hk, IH by assumption. simpl. now rewrite Hs.
Qed.

Lemma fs_path_exn_abs_path (l : list str) :
  forallb valid_name l = true -> fs_path_exn (abs_path l) = None.
Proof.
  intro F. apply fs_path_exn_none. unfold abs_path.
  rewrite !existsb_app. split.
  - rewrite existsb_join; [reflexivity | reflexivity |].
    rewrite forallb_forall in *. intros k Hk. apply F, valid_name_ok in Hk.
    now rewrite (name_no_surrogate _ Hk).
  - rewrite existsb_join; [reflexivity | reflexivity |].
    rewrite forallb_forall in *. intros k Hk. apply F, valid_name_ok in Hk.
    now rewrite (name_no_nul _ Hk).
Qed.

Lemma walk_names_inv (fs : node) (names : list str) (cur l : loc) :
  forallb valid_name names = true ->
  walk fs cur names = inr l -> l = cur ++ names.
Proof.
  revert cur; induction names as [|k names IH]; intros cur F H; simpl in *.
  - injection H as <-. now rewrite app_nil_r.
  - apply andb_true_iff in F as [Hk F]. apply valid_name_ok in Hk.
    destruct (lookup fs cur) as [[d|es]|]; try discriminate.
    replace (eqb k []) with false in H by (symmetry; apply eqb_neq, Hk).
    replace (eqb k curdir) with false in H by (symmetry; apply eqb_neq, Hk).
    replace (eqb k pardir) with false in H by (symmetry; apply eqb_neq, Hk).
    simpl in H. destruct (lookup fs (cur ++ [k])); [|discriminate].
    rewrite (IH _ F H). now rewrite <- app_assoc.
Qed.

Lemma assoc_in (k : str) (es : list (str * node)) (c : node) :
  assoc k es = Some c -> In (k, c) es.
Proof.
  induction es as [|[k' c'] es IH]; simpl; [discriminate|].
  destruct (eqb k' k) eqn:E.
  - apply eqb_eq in E. subst. intro H. injection H as ->. now left.
  - intro H. right. now apply IH.
Qed.

(** Every node of a well-formed tree is well formed. *)
Lemma wf_lookup (l : loc) (fs n : node) :
  wf fs = true -> lookup fs l = Some n -> wf n = true.
Proof.
  revert fs; induction l as [|k l IH]; intros fs W H; simpl in H.
  - now injection H as <-.
  - destruct fs as [d|es]; [discriminate|].
    destruct (assoc k es) as [c|] eqn:E; [|discriminate].
    apply (IH c); [|assumption].
    rewrite wf_dir in W. apply andb_true_iff in W as [_ W].
    rewrite forallb_forall in W. apply (W (k, c)). now apply assoc_in.
Qed.

Section Workspace.

Variable cwd : loc.
Hypothesis cwd_ok : forallb valid_name cwd = true.

Lemma fs_path_exn_WORKSPACE : fs_path_exn (WORKSPACE cwd) = None.
Proof.
  rewrite WORKSPACE_eq by assumption.
  apply fs_path_exn_abs_path. now apply workspace_names_ok.
Qed.

Lemma resolve_WORKSPACE_eq (fs : node) :
  resolve cwd fs (WORKSPACE cwd) =
    match lookup fs [] with
    | Some (Dir _) => walk fs [] (workspace_loc cwd)
    | _ => inl ENOTDIR
    end.
Proof.
  unfold resolve. rewrite split_WORKSPACE by assumption.
  rewrite WORKSPACE_eq by assumption. simpl. now destruct fs.
Qed.

Lemma resolve_WORKSPACE (fs n : node) :
  lookup fs (workspace_loc cwd) = Some n ->
  resolve cwd fs (WORKSPACE cwd) = inr (workspace_loc cwd).
Proof.
  intro H. rewrite resolve_WORKSPACE_eq. simpl.
  destruct fs as [d|es].
  - pose proof (workspace_loc_not_nil cwd).
    destruct (workspace_loc cwd); [contradiction | discriminate].
  - apply (walk_names (Dir es) (workspace_loc cwd) [] n);
      [now apply workspace_names_ok | exact H].
Qed.

Lemma stat_WORKSPACE (fs n : node) :
  lookup fs (workspace_loc cwd) = Some n -> stat cwd fs (WORKSPACE cwd) = inr n.
Proof.
  intro H. unfold stat. now rewrite (resolve_WORKSPACE fs n H), H.
Qed.

Lemma stat_WORKSPACE_missing (fs : node) :
  lookup fs (workspace_loc cwd) = None ->
  exists e, stat cwd fs (WORKSPACE cwd) = inl e.
Proof.
  intro H. unfold stat.
  destruct (resolve cwd fs (WORKSPACE cwd)) as [e|l] eqn:R; [now exists e|].
  rewrite resolve_WORKSPACE_eq in R. simpl in R.
  destruct fs as [d|es]; [discriminate|].
  apply walk_names_inv in R; [|now apply workspace_names_ok].
  simpl in R. subst l. rewrite H. now exists ENOENT.
Qed.

(** What [os.walk(WORKSPACE)] yields. *)
Lemma os_walk_WORKSPACE (fs : node) :
  os_walk cwd (WORKSPACE cwd) fs =
    (inr match lookup fs (workspace_loc cwd) with
         | Some n => walk_tree (WORKSPACE cwd) n
         | None => []
         end, fs).
Proof.
  unfold os_walk. rewrite fs_path_exn_WORKSPACE.
  destruct (lookup fs (workspace_loc cwd)) as [n|] eqn:E.
  - now rewrite (stat_WORKSPACE fs n E).
  - destruct (stat_WORKSPACE_missing fs E) as [e ->]. reflexivity.
Qed.

(** *** [find_files] *)


Lemma find_files_in_spec (pattern top : str) (prefix : list str)
    (es : list (str * node)) (acc : list str) :
  top = path_of (WORKSPACE cwd) prefix ->
  find_files_in cwd pattern top
    (map fst (filter (fun e => negb (is_dir (snd e))) es)) acc
  = acc ++ map (found cwd) (filter (pattern_matches pattern) (files_here prefix es)).
Proof.
  intros ->. revert acc.
  induction es as [|[k [d|es']] es IH]; intro acc; simpl.
  - now rewrite app_nil_r.
  - unfold pattern_matches at 1. unfold file_name at 1. simpl.
    destruct (eqb pattern (py "*") || endswith k (lstrip STAR pattern)).
    + rewrite IH. simpl. now rewrite <- app_assoc.
    + apply IH.
  - apply IH.
Qed.

Lemma find_files_loop_tree (pattern : str) (n : node) :
  forall (prefix : list str) (rest : list (str * list str * list str))
         (acc : list str),
    find_files_loop cwd pattern
      (walk_tree (path_of (WORKSPACE cwd) prefix) n ++ rest) acc
    = find_files_loop cwd pattern rest
        (acc ++ map (found cwd) (filter (pattern_matches pattern) (files_below prefix n))).
Proof.
  induction n as [d|es IH] using node_induction; intros prefix rest acc.
  - simpl. now rewrite app_nil_r.
  - rewrite walk_tree_dir, files_below_dir. simpl app.
    simpl find_files_loop.
    rewrite (find_files_in_spec pattern _ prefix es acc eq_refl).
    rewrite filter_app, map_app, app_assoc.
    generalize (acc ++ map (found cwd) (filter (pattern_matches pattern) (files_here prefix es))).
    clear acc. induction es as [|[k c] es IHes]; intro acc.
    + simpl. now rewrite app_nil_r.
    + inversion IH as [|? ? Hc Hes]; subst. simpl flat_map.
      rewrite <- app_assoc, <- path_of_snoc. simpl snd in *. simpl fst.
      rewrite Hc. rewrite IHes by assumption.
      now rewrite filter_app, map_app, app_assoc.
Qed.

Lemma found_relative_name (fs : node) :
  wf fs = true ->
  forall f, In f (workspace_files cwd fs) -> found cwd f = relative_name f.
Proof.
  intros W f Hin. unfold workspace_files in Hin.
  destruct (lookup fs (workspace_loc cwd)) as [n|] eqn:E; [|destruct Hin].
  destruct (files_below_valid n [] f (wf_lookup _ _ _ W E) eq_refl Hin) as [Fd Hn].
  unfold found, relative_name. now apply relpath_below.
Qed.

Lemma find_files_spec (pattern : str) (fs : node) :
  wf fs = true ->
  find_files cwd pattern fs
  = (inr (map relative_name
            (filter (pattern_matches pattern) (workspace_files cwd fs))), fs).
Proof.
  intro W. unfold find_files, bind. rewrite os_walk_WORKSPACE. unfold ret.
  f_equal. f_equal.
  rewrite <- (map_ext_in (found cwd) relative_name).
  - unfold workspace_files.
    destruct (lookup fs (workspace_loc cwd)) as [n|]; [|reflexivity].
    rewrite <- (app_nil_r (walk_tree (WORKSPACE cwd) n)).
    apply (find_files_loop_tree pattern n [] [] []).
  - intros f Hf. apply filter_In in Hf as [Hf _].
    now apply (found_relative_name fs).
Qed.

End Workspace.

End WorkspaceFacts.
Import WorkspaceFacts.

(** ** Facts about [search_files] *)

Module SearchFacts.

Import PosixPath.

Lemma flat_map_ext_in {A B} (g h : A -> list B) (l : list A) :
  (forall a, In a l -> g a = h a) -> flat_map g l = flat_map h l.
Proof.
  induction l as [|a l IH]; intro H; simpl; [reflexivity|].
  rewrite (H a) by now left. rewrite IH; [reflexivity|].
  intros b Hb. apply H. now right.
Qed.

Section Search.

Variable cwd : loc.
Variable lower : str -> str.
Hypothesis cwd_ok : forallb valid_name cwd = true.


Lemma open_read_child (fs : node) (top k : str) (l : loc)
    (es : list (str * node)) (d : list Z) :
  fs_path_exn top = None ->
  resolve cwd fs top = inr l ->
  lookup fs l = Some (Dir es) ->
  entries_ok es = true -> In (k, File d) es ->
  open_read cwd (PosixPath.join top k) fs =
    (match Text.read_text d with
     | Some s => inr s
     | None => inl UnicodeDecodeError
     end, fs).
Proof.
  intros Hp Hr Hl Hok Hin.
  destruct (stat_join_child cwd fs top k l es _ Hr Hl Hok Hin) as [_ S].
  destruct (entries_ok_in es k _ Hok Hin) as [Hk _].
  unfold open_read, bind, os_stat, syscall.
  rewrite fs_path_exn_join, S;
    [|now apply (resolve_not_nil cwd fs top l) | assumption..].
  now destruct (Text.read_text d).
Qed.

Lemma search_files_in_spec (query extension : str) (fs : node) (top : str)
    (prefix : list str) (l : loc) (es : list (str * node)) :
  top = path_of (WORKSPACE cwd) prefix ->
  fs_path_exn top = None ->
  resolve cwd fs top = inr l ->
  lookup fs l = Some (Dir es) ->
  entries_ok es = true ->
  forall (es' : list (str * node)) (acc : list (str * Z)),
    incl es' es ->
    search_files_in cwd lower query extension top
      (map fst (filter (fun e => negb (is_dir (snd e))) es')) acc fs
    = (inr (acc ++ flat_map (search_found cwd lower query extension) (files_here prefix es')),
       fs).
Proof.
  intros -> Hp Hr Hl Hok.
  induction es' as [|[k [d|es'']] es' IH]; intros acc Hin.
  - simpl. unfold ret. now rewrite app_nil_r.
  - assert (Hin' : incl es' es) by (intros e He; apply Hin; now right).
    cbn [filter snd is_dir negb map fst files_here flat_map search_files_in].
    unfold search_found at 1. unfold file_name at 1, file_data at 1.
    cbn [fst snd].
    destruct (negb (is_nil extension) && negb (endswith k extension)).
    + rewrite IH by assumption. reflexivity.
    + unfold bind, search_one, os_path_join.
      rewrite (open_read_child fs _ k l es d Hp Hr Hl Hok) by (apply Hin; now left).
      destruct (Text.read_text d) as [content|].
      * destruct (contains (lower query) (lower content)).
        -- rewrite IH by assumption. unfold found, file_dirs, file_name.
           cbn [fst snd]. now rewrite <- app_assoc.
        -- rewrite IH by assumption. reflexivity.
      * rewrite IH by assumption. reflexivity.
  - assert (Hin' : incl es' es) by (intros e He; apply Hin; now right).
    cbn [filter snd is_dir negb map fst files_here flat_map].
    now apply IH.
Qed.

Lemma search_files_loop_tree (query extension : str) (fs : node) (n : node) :
  forall prefix : list str,
    lookup fs (workspace_loc cwd ++ prefix) = Some n ->
    wf n = true ->
    fs_path_exn (path_of (WORKSPACE cwd) prefix) = None ->
    resolve cwd fs (path_of (WORKSPACE cwd) prefix) = inr (workspace_loc cwd ++ prefix) ->
    forall (rest : list (str * list str * list str)) (acc : list (str * Z)),
      search_files_loop cwd lower query extension
        (walk_tree (path_of (WORKSPACE cwd) prefix) n ++ rest) acc fs
      = search_files_loop cwd lower query extension rest
          (acc ++ flat_map (search_found cwd lower query extension) (files_below prefix n)) fs.
Proof.
  induction n as [d|es IH] using node_induction;
    intros prefix Hl W Hp Hr rest acc.
  - simpl. now rewrite app_nil_r.
  - rewrite wf_dir in W. apply andb_true_iff in W as [Hok Wc].
    rewrite walk_tree_dir, files_below_dir.
    cbn [app search_files_loop]. unfold bind at 1.
    rewrite (search_files_in_spec query extension fs _ prefix _ es
               eq_refl Hp Hr Hl Hok es acc) by apply incl_refl.
    rewrite flat_map_app, app_assoc.
    assert (Inner : forall (es' : list (str * node)) (acc' : list (str * Z)),
      incl es' es ->
      search_files_loop cwd lower query extension
        (flat_map (fun e => walk_tree
                     (PosixPath.join (path_of (WORKSPACE cwd) prefix) (fst e)) (snd e)) es'
         ++ rest) acc' fs
      = search_files_loop cwd lower query extension rest
          (acc' ++ flat_map (search_found cwd lower query extension)
                     (flat_map (fun e => files_below (prefix ++ [fst e]) (snd e)) es'))
          fs); [|apply Inner, incl_refl].
    clear acc. induction es' as [|[k c] es' IHes]; intros acc Hin.
    + simpl. now rewrite app_nil_r.
    + assert (Hkc : In (k, c) es) by (apply Hin; now left).
      assert (Hin' : incl es' es) by (intros e He; apply Hin; now right).
      destruct (entries_ok_in es k c Hok Hkc) as [Hk Ha].
      cbn [flat_map fst snd]. rewrite <- app_assoc, <- path_of_snoc.
      rewrite Forall_forall in IH.
      rewrite (IH (k, c) Hkc (prefix ++ [k])).
      * rewrite IHes by assumption. now rewrite flat_map_app, app_assoc.
      * rewrite app_assoc, lookup_snoc, Hl. exact Ha.
      * rewrite forallb_forall in Wc. now apply (Wc (k, c)).
      * rewrite path_of_snoc. apply fs_path_exn_join;
          [now apply (resolve_not_nil cwd fs _ _ Hr) | assumption..].
      * rewrite path_of_snoc, app_assoc.
        now apply (stat_join_child cwd fs _ k _ es c Hr Hl Hok Hkc).
Qed.

Lemma search_found_hit (query extension : str) (fs : node) :
  wf fs = true ->
  forall f, In f (workspace_files cwd fs) ->
    search_found cwd lower query extension f = search_hit lower query extension f.
Proof.
  intros W f Hin. unfold search_found, search_hit.
  now rewrite (found_relative_name cwd cwd_ok fs W f Hin).
Qed.

Lemma search_files_spec (query extension : str) (fs : node) :
  wf fs = true ->
  search_files cwd lower query extension fs
  = (inr (flat_map (search_hit lower query extension) (workspace_files cwd fs)), fs).
Proof.
  intro W. unfold search_files, bind. rewrite os_walk_WORKSPACE by assumption.
  rewrite <- (flat_map_ext_in (search_found cwd lower query extension))
    by (intros f Hf; now apply (search_found_hit query extension fs W)).
  unfold workspace_files.
  destruct (lookup fs (workspace_loc cwd)) as [n|] eqn:E; [|reflexivity].
  rewrite <- (app_nil_r (walk_tree (WORKSPACE cwd) n)).
  rewrite (search_files_loop_tree query extension fs n []).
  - reflexivity.
  - now rewrite app_nil_r.
  - exact (wf_lookup (workspace_loc cwd) fs n W E).
  - now apply fs_path_exn_WORKSPACE.
  - rewrite app_nil_r. now apply (resolve_WORKSPACE cwd cwd_ok fs n).
Qed.

End Search.

End SearchFacts.
Import SearchFacts.

(** ** Facts about the last component of a path *)

Module ResolveFacts.

Import PosixPath.

Lemma drop_empty_spec (l : list str) :
  exists k, l = repeat [] k ++ drop_empty l
            /\ (drop_empty l = [] \/ hd [] (drop_empty l) <> []).
Proof.
  induction l as [|x l [k [E H]]]; simpl.
  - exists 0%nat. split; [reflexivity | now left].
  - destruct x as [|c x]; simpl.
    + exists (S k). split; [simpl; now f_equal | exact H].
    + exists 0%nat. split; [reflexivity | right; discriminate].
Qed.

Lemma rev_repeat {A} (a : A) (k : nat) : rev (repeat a k) = repeat a k.
Proof.
  induction k as [|k IH]; [reflexivity|].
  simpl. rewrite IH. clear IH. induction k as [|k IH]; [reflexivity|].
  simpl. now rewrite IH.
Qed.

(** The components of a path: the ones before the last name, the last
    name, and the empty ones that trailing slashes leave. *)
Lemma strip_trailing_spec (l : list str) :
  exists k, l = strip_trailing l ++ repeat [] k
            /\ (strip_trailing l = [] \/ last (strip_trailing l) [] <> []).
Proof.
  unfold strip_trailing. destruct (drop_empty_spec (rev l)) as [k [E H]].
  exists k. split.
  - rewrite <- (rev_involutive l) at 1. rewrite E at 1.
    now rewrite rev_app_distr, rev_repeat.
  - destruct H as [H|H]; [left; now rewrite H|]. right.
    destruct (drop_empty (rev l)) as [|x r]; [now elim H|].
    simpl in *. now rewrite last_last.
Qed.

Lemma strip_trailing_snoc (pre : list str) (x : str) :
  x <> [] -> strip_trailing (pre ++ [x]) = pre ++ [x].
Proof.
  intro H. unfold strip_trailing. rewrite rev_app_distr. simpl.
  destruct x; [contradiction|]. simpl. now rewrite rev_involutive.
Qed.

Lemma snoc_decompose (l : list str) :
  l <> [] -> l = removelast l ++ [last l []].
Proof. apply app_removelast_last. Qed.

Lemma walk_empties (fs : node) (cur l : loc) (k : nat) :
  walk fs cur (repeat [] k) = inr l -> l = cur.
Proof.
  induction k as [|k IH]; simpl.
  - intro H. now injection H.
  - destruct (lookup fs cur) as [[d|es]|]; try discriminate. exact IH.
Qed.

Lemma walk_empties_dir (fs : node) (cur : loc) (es : list (str * node)) (k : nat) :
  lookup fs cur = Some (Dir es) -> walk fs cur (repeat [] k) = inr cur.
Proof.
  intro H. induction k as [|k IH]; simpl; [reflexivity|]. now rewrite H.
Qed.


Lemma walk_one (fs : node) (cur : loc) (x : str) (es : list (str * node)) :
  special x = false ->
  lookup fs cur = Some (Dir es) ->
  walk fs cur [x] =
    match assoc x es with
    | Some _ => inr (cur ++ [x])
    | None => inl ENOENT
    end.
Proof.
  unfold special. intros Hx Hc.
  apply orb_false_iff in Hx as [Hx H3]. apply orb_false_iff in Hx as [H1 H2].
  simpl. rewrite Hc, H1, H2, H3. simpl. rewrite lookup_snoc, Hc.
  destruct (assoc x es); reflexivity.
Qed.

(** A walk that ends at a regular file ends with an ordinary name. *)
Lemma walk_to_file (fs : node) (cur : loc) (pre : list str) (x : str)
    (l : loc) (d : list Z) :
  (exists n, lookup fs cur = Some n) ->
  walk fs cur (pre ++ [x]) = inr l ->
  lookup fs l = Some (File d) ->
  special x = false
  /\ exists p es, walk fs cur pre = inr p /\ lookup fs p = Some (Dir es)
                  /\ l = p ++ [x].
Proof.
  intros Hcur H Hl. rewrite walk_app in H.
  destruct (walk fs cur pre) as [e|p] eqn:Hp; [discriminate|].
  destruct (walk_exists fs pre cur p Hcur Hp) as [np Hnp].
  simpl in H. destruct (lookup fs p) as [[d'|es]|] eqn:E; try discriminate.
  unfold special.
  destruct (eqb x [] || eqb x curdir) eqn:E1.
  - injection H as H. subst l. rewrite E in Hl. discriminate.
  - destruct (eqb x pardir) eqn:E2.
    + injection H as H. subst l. exfalso.
      destruct (lookup_removelast fs _ p E) as [es' [H'|H']].
      * rewrite H' in Hl. discriminate.
      * subst p. simpl in Hl, E. rewrite E in Hl. discriminate.
    + split; [reflexivity|].
      destruct (lookup fs (p ++ [x])); [|discriminate].
      injection H as <-. now exists p, es.
Qed.

Section Resolve.

Variable cwd : loc.

(** The start of a walk is a place of the tree whenever the walk does its
    first step. *)
Lemma walk_start_exists (fs : node) (cur : loc) (comps : list str) (l : loc) :
  comps <> [] -> walk fs cur comps = inr l -> exists n, lookup fs cur = Some n.
Proof.
  destruct comps as [|c comps]; [contradiction|]. intros _ H. simpl in H.
  destruct (lookup fs cur) as [n|]; [now exists n | discriminate].
Qed.

Lemma parent_and_name_inv (fs : node) (path : str) (p : loc) (name : str)
    (tr : bool) :
  parent_and_name cwd fs path = inr (Some (p, name, tr)) ->
  path <> []
  /\ name <> []
  /\ exists pre k es,
       PyStr.split SLASH path = (pre ++ [name]) ++ repeat [] k
       /\ walk fs (start cwd path) pre = inr p
       /\ lookup fs p = Some (Dir es)
       /\ (tr = false -> k = 0%nat).
Proof.
  unfold parent_and_name. destruct path as [|c path]; [discriminate|].
  cbn [is_nil]. cbv zeta.
  destruct (strip_trailing_spec (PyStr.split SLASH (c :: path))) as [k [E H]].
  destruct (strip_trailing (PyStr.split SLASH (c :: path))) as [|x comps'] eqn:Es;
    [discriminate|].
  destruct (walk fs (start cwd (c :: path)) (removelast (x :: comps'))) as [e|q] eqn:W;
    [discriminate|].
  destruct (lookup fs q) as [[d|es]|] eqn:L; try discriminate.
  intro I. injection I as <- <- <-.
  destruct H as [H|H]; [discriminate|].
  split; [discriminate|]. split; [exact H|].
  exists (removelast (x :: comps')), k, es. repeat split; try assumption.
  - rewrite <- snoc_decompose by discriminate. exact E.
  - intro T. apply negb_false_iff, Nat.eqb_eq in T.
    rewrite E in T at 1. rewrite length_app, repeat_length in T. simpl in T. lia.
Qed.

Lemma parent_and_name_intro (fs : node) (path : str) (pre : list str)
    (name : str) (p : loc) (es : list (str * node)) :
  path <> [] -> name <> [] ->
  PyStr.split SLASH path = pre ++ [name] ->
  walk fs (start cwd path) pre = inr p ->
  lookup fs p = Some (Dir es) ->
  parent_and_name cwd fs path = inr (Some (p, name, false)).
Proof.
  intros Hp Hn Hs Hw Hl. unfold parent_and_name.
  destruct path as [|c path]; [contradiction|]. cbn [is_nil]. cbv zeta.
  rewrite Hs, strip_trailing_snoc by assumption.
  rewrite removelast_last, last_last, Hw, Hl, Nat.eqb_refl.
  destruct (pre ++ [name]) eqn:E; [now destruct pre | reflexivity].
Qed.

(** Resolving a path whose components before the last name lead to a
    directory. *)
Lemma resolve_through_parent (fs : node) (path : str) (pre : list str)
    (name : str) (k : nat) (p : loc) (es : list (str * node)) :
  path <> [] ->
  PyStr.split SLASH path = (pre ++ [name]) ++ repeat [] k ->
  special name = false ->
  walk fs (start cwd path) pre = inr p ->
  lookup fs p = Some (Dir es) ->
  resolve cwd fs path =
    match assoc name es with
    | None => inl ENOENT
    | Some _ => walk fs (p ++ [name]) (repeat [] k)
    end.
Proof.
  intros Hp Hs Hn Hw Hl. unfold resolve.
  destruct path as [|c path]; [contradiction|]. cbn [is_nil].
  rewrite Hs, !walk_app, Hw, (walk_one fs p name es Hn Hl).
  now destruct (assoc name es).
Qed.

(** A path that leads to a regular file, taken apart. *)
Lemma stat_file_inv (fs : node) (path : str) (d : list Z) :
  stat cwd fs path = inr (File d) ->
  exists (pre : list str) (name : str) (p : loc) (es : list (str * node)),
    PyStr.split SLASH path = pre ++ [name]
    /\ special name = false
    /\ walk fs (start cwd path) pre = inr p
    /\ lookup fs p = Some (Dir es)
    /\ assoc name es = Some (File d)
    /\ resolve cwd fs path = inr (p ++ [name])
    /\ parent_and_name cwd fs path = inr (Some (p, name, false)).
Proof.
  intro S. destruct (stat_inv cwd fs _ path S) as [l [R L]].
  pose proof (resolve_not_nil cwd fs path l R) as Hp.
  unfold resolve in R. destruct path as [|c path]; [contradiction|].
  cbn [is_nil] in R.
  pose proof (split_not_nil SLASH (c :: path)) as Hc.
  rewrite (snoc_decompose _ Hc) in R.
  assert (Hs : exists n, lookup fs (start cwd (c :: path)) = Some n).
  { apply (walk_start_exists fs _ _ l) in R; [exact R | now destruct (removelast _)]. }
  destruct (walk_to_file fs _ _ _ l d Hs R L) as [Hx [p [es [W [Lp ->]]]]].
  exists (removelast (PyStr.split SLASH (c :: path))),
         (last (PyStr.split SLASH (c :: path)) []), p, es.
  assert (Hname : last (PyStr.split SLASH (c :: path)) [] <> []).
  { intro E. unfold special in Hx. rewrite E in Hx. discriminate. }
  assert (A : assoc (last (PyStr.split SLASH (c :: path)) []) es = Some (File d)).
  { rewrite lookup_snoc, Lp in L. exact L. }
  repeat split; try assumption.
  - now apply snoc_decompose.
  - rewrite <- (snoc_decompose _ Hc) in R. unfold resolve. exact R.
  - apply (parent_and_name_intro fs (c :: path)
             (removelast (PyStr.split SLASH (c :: path))) _ p es);
      [discriminate | assumption | now apply snoc_decompose | assumption..].
Qed.

End Resolve.

End ResolveFacts.
Import ResolveFacts.

(** ** Facts about writing and reading files *)

Module FileFacts.

Import PosixPath.

Lemma bind_ok {A B} (m : M A) (k : A -> M B) (fs fs' : node) (b : B) :
  bind m k fs = (inr b, fs') ->
  exists a fs1, m fs = (inr a, fs1) /\ k a fs1 = (inr b, fs').
Proof.
  unfold bind. destruct (m fs) as [[e|a] fs1]; [discriminate|].
  intro H. now exists a, fs1.
Qed.

Lemma bind_step {A B} (m : M A) (k : A -> M B) (fs fs1 : node) (a : A) :
  m fs = (inr a, fs1) -> bind m k fs = k a fs1.
Proof. unfold bind. now intros ->. Qed.

Lemma syscall_ok {A} (path : str) (f : node -> errno + (A * node))
    (fs fs' : node) (a : A) :
  syscall path f fs = (inr a, fs') ->
  fs_path_exn path = None /\ f fs = inr (a, fs').
Proof.
  unfold syscall. destruct (fs_path_exn path); [discriminate|].
  destruct (f fs) as [e|[a' fs1]]; [discriminate|].
  intro H. injection H as <- <-. now split.
Qed.

Lemma sub_file (d d' : list Z) : sub (File d) (File d').
Proof.
  intros l n H. destruct l; [|discriminate]. injection H as <-.
  now exists (File d').
Qed.

Lemma assoc_app (k : str) (es es' : list (str * node)) :
  assoc k (es ++ es') =
    match assoc k es with
    | Some c => Some c
    | None => assoc k es'
    end.
Proof.
  induction es as [|[k' c] es IH]; simpl; [reflexivity|].
  now destruct (eqb k' k).
Qed.

Lemma sub_add_entry (name : str) (c : node) (es : list (str * node)) :
  sub (Dir es) (add_entry name c (Dir es)).
Proof.
  intros l n H. destruct l as [|x r].
  - injection H as <-. now eexists.
  - simpl in *. rewrite assoc_app.
    destruct (assoc x es) as [ch|]; [|discriminate]. now exists n.
Qed.

Lemma sub_modify_file (fs : node) (h : loc) (g : node -> node) :
  (forall d, exists d', g (File d) = File d') ->
  (forall es, g (Dir es) = Dir es) ->
  sub fs (modify g h fs) /\ sub (modify g h fs) fs.
Proof.
  intros Hf Hd. split.
  - apply modify_sub. intros [d|es] _.
    + destruct (Hf d) as [d' ->]. apply sub_file.
    + rewrite Hd. apply sub_refl.
  - apply modify_sub_rev. intros [d|es] _.
    + destruct (Hf d) as [d' ->]. apply sub_file.
    + rewrite Hd. apply sub_refl.
Qed.

Lemma modify_compose (g1 g2 : node -> node) (l : loc) (fs : node) :
  modify g2 l (modify g1 l fs) = modify (fun n => g2 (g1 n)) l fs.
Proof.
  revert fs; induction l as [|k l IH]; intro fs; simpl; [reflexivity|].
  destruct fs as [d|es]; [reflexivity|]. f_equal.
  induction es as [|[k' c] es IHes]; simpl; [reflexivity|].
  destruct (eqb k' k) eqn:E; simpl; rewrite E.
  - now rewrite IH.
  - now rewrite IHes.
Qed.

Lemma modify_fixed (g : node -> node) (l : loc) (fs n : node) :
  lookup fs l = Some n -> g n = n -> modify g l fs = fs.
Proof.
  revert fs; induction l as [|k l IH]; intros fs H G; simpl in *.
  - injection H as ->. exact G.
  - destruct fs as [d|es]; [reflexivity|]. f_equal.
    induction es as [|[k' c] es IHes]; simpl in *; [reflexivity|].
    destruct (eqb k' k).
    + now rewrite IH.
    + now rewrite IHes.
Qed.

Section Files.

Variable cwd : loc.

Lemma resolve_file_intro (fs : node) (path : str) (pre : list str) (name : str)
    (p : loc) (n : node) :
  path <> [] ->
  PyStr.split SLASH path = pre ++ [name] ->
  special name = false ->
  walk fs (start cwd path) pre = inr p ->
  lookup fs (p ++ [name]) = Some n ->
  resolve cwd fs path = inr (p ++ [name]).
Proof.
  intros Hp Hs Hn Hw Hl. pose proof Hl as Hl'. rewrite lookup_snoc in Hl'.
  destruct (lookup fs p) as [[d|es]|] eqn:E; try discriminate.
  rewrite (resolve_through_parent cwd fs path pre name 0 p es);
    try assumption; [now rewrite Hl' | now rewrite app_nil_r].
Qed.

(** What a successful [open] for writing found and did. *)
Lemma open_create_inv (trunc : bool) (fs fs' : node) (path : str) (h : loc) :
  open_create cwd trunc fs path = inr (h, fs') ->
  exists (pre : list str) (name : str) (p : loc) (es : list (str * node)),
    path <> []
    /\ PyStr.split SLASH path = pre ++ [name]
    /\ special name = false
    /\ walk fs (start cwd path) pre = inr p
    /\ lookup fs p = Some (Dir es)
    /\ h = p ++ [name]
    /\ ((exists d, lookup fs h = Some (File d)
                   /\ fs' = if trunc then modify (fun _ => File []) h fs else fs)
        \/ (lookup fs h = None
            /\ fs' = modify (add_entry name (File [])) p fs)).
Proof.
  unfold open_create.
  destruct (parent_and_name cwd fs path) as [e|[[[p name] tr]|]] eqn:P;
    try discriminate.
  destruct tr; [discriminate|]. cbn [orb].
  destruct (dot_or_dotdot name) eqn:D; [discriminate|].
  destruct (parent_and_name_inv cwd fs path p name false P)
    as [Hp [Hn [pre [k [es [Hs [Hw [Hl Hk]]]]]]]].
  rewrite (Hk eq_refl), app_nil_r in Hs.
  assert (Sp : special name = false).
  { unfold special. unfold dot_or_dotdot in D.
    apply orb_false_iff in D as [D1 D2]. rewrite D1, D2.
    apply eqb_neq in Hn. now rewrite Hn. }
  intro H. exists pre, name, p, es.
  destruct (lookup fs (p ++ [name])) as [[d|es']|] eqn:L; try discriminate.
  - injection H as <- <-. repeat split; try assumption.
    left. exists d. now split.
  - injection H as <- <-. repeat split; try assumption.
    right. now split.
Qed.

(** After [open] for writing the path leads to the file opened. *)
Lemma open_create_file (trunc : bool) (fs fs' : node) (path : str) (h : loc) :
  open_create cwd trunc fs path = inr (h, fs') ->
  sub fs fs'
  /\ resolve cwd fs' path = inr h
  /\ exists d, lookup fs' h = Some (File d)
               /\ (trunc = true -> d = [])
               /\ (trunc = false -> lookup fs h = Some (File d) \/ lookup fs h = None /\ d = []).
Proof.
  intro H.
  destruct (open_create_inv trunc fs fs' path h H)
    as [pre [name [p [es [Hp [Hs [Sp [Hw [Hl [Hh Hcase]]]]]]]]]].
  subst h. destruct Hcase as [[d [L Hfs]]|[L Hfs]]; subst fs'.
  - destruct trunc.
    + assert (S : sub fs (modify (fun _ => File []) (p ++ [name]) fs)).
      { apply modify_sub. intros n Hn. rewrite L in Hn. injection Hn as <-.
        apply sub_file. }
      split; [exact S|]. split.
      * apply (resolve_file_intro _ path pre name p (File [])); try assumption.
        -- now apply (walk_sub fs).
        -- exact (lookup_modify_here (fun _ => File []) _ fs (File d) L).
      * exists []. split; [|split; [reflexivity | discriminate]].
        exact (lookup_modify_here (fun _ => File []) _ fs (File d) L).
    + split; [apply sub_refl|]. split.
      * now apply (resolve_file_intro _ path pre name p (File d)).
      * exists d. split; [assumption|]. split; [discriminate | now left].
  - assert (S : sub fs (modify (add_entry name (File [])) p fs)).
    { apply modify_sub. intros n Hn. rewrite Hl in Hn. injection Hn as <-.
      apply sub_add_entry. }
    assert (L' : lookup (modify (add_entry name (File [])) p fs) (p ++ [name])
                 = Some (File [])).
    { rewrite (lookup_modify _ p [name] fs (Dir es) Hl). simpl.
      rewrite lookup_snoc, Hl in L. rewrite assoc_app, L. simpl.
      now rewrite eqb_refl. }
    split; [exact S|]. split.
    + apply (resolve_file_intro _ path pre name p (File [])); try assumption.
      now apply (walk_sub fs).
    + exists []. split; [exact L'|]. split; [reflexivity|]. intros _. now right.
Qed.

(** Changing the bytes of a file does not change where paths lead. *)
Lemma resolve_modify_file (fs : node) (h : loc) (g : node -> node) (path : str)
    (l : loc) :
  (forall d, exists d', g (File d) = File d') ->
  (forall es, g (Dir es) = Dir es) ->
  resolve cwd fs path = inr l ->
  resolve cwd (modify g h fs) path = inr l.
Proof.
  intros Hf Hd. unfold resolve. destruct (is_nil path); [discriminate|].
  apply walk_sub. now apply sub_modify_file.
Qed.

Lemma append_data_file (bs : list Z) :
  (forall d, exists d', append_data bs (File d) = File d')
  /\ (forall es, append_data bs (Dir es) = Dir es).
Proof. split; [intro d; now exists (d ++ bs) | reflexivity]. Qed.

(** The state after [open] and [write]. *)
Lemma written_file (fs : node) (path : str) (h : loc) (d bs : list Z) :
  resolve cwd fs path = inr h ->
  lookup fs h = Some (File d) ->
  stat cwd (modify (append_data bs) h fs) path = inr (File (d ++ bs)).
Proof.
  intros R L. destruct (append_data_file bs) as [Hf Hd].
  apply (stat_intro cwd _ _ _ h).
  - now apply resolve_modify_file.
  - now rewrite (lookup_modify_here _ h fs (File d)).
Qed.

Lemma open_read_file (fs : node) (path : str) (d : list Z) :
  fs_path_exn path = None ->
  stat cwd fs path = inr (File d) ->
  open_read cwd path fs =
    (match Text.read_text d with
     | Some s => inr s
     | None => inl UnicodeDecodeError
     end, fs).
Proof.
  intros Hp S. unfold open_read, bind, os_stat, syscall. rewrite Hp, S.
  now destruct (Text.read_text d).
Qed.

Lemma read_file_of (fs : node) (filename : str) (d : list Z) :
  fs_path_exn (os_path_join (WORKSPACE cwd) filename) = None ->
  stat cwd fs (os_path_join (WORKSPACE cwd) filename) = inr (File d) ->
  read_file cwd filename fs =
    (match Text.read_text d with
     | Some s => inr s
     | None => inl UnicodeDecodeError
     end, fs).
Proof.
  intros Hp S. unfold read_file, bind at 1, os_path_isfile, peek, isfile_in.
  rewrite (path_test_intro cwd _ fs (File d)) by assumption. cbn [is_dir negb].
  unfold bind. rewrite (open_read_file fs _ d Hp S).
  now destruct (Text.read_text d).
Qed.

End Files.

End FileFacts.
Import FileFacts.

(** ** Facts about [os.path.split] and [os.makedirs] *)

Module MakedirsFacts.

Import PosixPath.

Lemma cut_last_slash_spec (p : str) :
  p = fst (cut_last_slash p) ++ snd (cut_last_slash p)
  /\ ~ In SLASH (snd (cut_last_slash p))
  /\ (fst (cut_last_slash p) = []
      \/ exists h0, fst (cut_last_slash p) = h0 ++ [SLASH]).
Proof.
  induction p as [|x p [E [N H]]]; simpl.
  - split; [reflexivity|]. split; [intros [] | now left].
  - destruct (cut_last_slash p) as [h t]. simpl in E, N, H.
    destruct h as [|y h]; simpl.
    + simpl in E. subst t. destruct (x =? SLASH) eqn:X; simpl.
      * apply Z.eqb_eq in X. subst x.
        split; [reflexivity|]. split; [exact N|]. right. now exists [].
      * split; [reflexivity|]. split; [|now left].
        intros [I|I]; [subst; now rewrite Z.eqb_refl in X | now apply N].
    + split; [now rewrite E|]. split; [exact N|].
      right. destruct H as [H|[h0 H]]; [discriminate|].
      exists (x :: h0). simpl. now rewrite H.
Qed.

Lemma lstrip_spec (c : Z) (s : str) :
  exists k, s = repeat c k ++ lstrip c s
            /\ (lstrip c s = [] \/ hd c (lstrip c s) <> c).
Proof.
  induction s as [|x s [k [E H]]]; simpl.
  - exists 0%nat. split; [reflexivity | now left].
  - destruct (x =? c) eqn:X.
    + apply Z.eqb_eq in X. subst x. exists (S k). split; [simpl; now f_equal | exact H].
    + exists 0%nat. split; [reflexivity|]. right. simpl.
      intros ->. now rewrite Z.eqb_refl in X.
Qed.

Lemma rstrip_spec (c : Z) (s : str) :
  exists k, s = rstrip c s ++ repeat c k
            /\ (rstrip c s = [] \/ last (rstrip c s) c <> c).
Proof.
  unfold rstrip. destruct (lstrip_spec c (rev s)) as [k [E H]].
  exists k. split.
  - rewrite <- (rev_involutive s) at 1. rewrite E at 1.
    now rewrite rev_app_distr, rev_repeat.
  - destruct H as [H|H]; [left; now rewrite H|]. right.
    destruct (lstrip c (rev s)) as [|x r]; [now elim H|].
    simpl in *. now rewrite last_last.
Qed.

Lemma split_repeat (c : Z) (k : nat) :
  PyStr.split c (repeat c k) = repeat [] (S k).
Proof.
  induction k as [|k IH]; [reflexivity|].
  simpl repeat at 1. simpl PyStr.split. rewrite Z.eqb_refl, IH. reflexivity.
Qed.

Lemma split_trailing (c : Z) (x : str) (k : nat) :
  PyStr.split c (x ++ repeat c k) = PyStr.split c x ++ repeat [] k.
Proof.
  destruct k as [|k].
  - simpl. now rewrite !app_nil_r.
  - simpl repeat at 1. rewrite split_app_sep, split_repeat. reflexivity.
Qed.

Lemma repeat_snoc {A} (a : A) (k : nat) : repeat a (S k) = repeat a k ++ [a].
Proof.
  induction k as [|k IH]; [reflexivity|].
  simpl in *. now rewrite <- IH.
Qed.

(** What [os.path.split] does to the components of a path. *)
Lemma posix_split_spec (p head tail : str) :
  PosixPath.split p = (head, tail) ->
  head <> [] ->
  exists pre : list str,
    PyStr.split SLASH p = pre ++ [tail]
    /\ (exists rest, p = head ++ rest)
    /\ (forall fs cur l es,
          walk fs cur pre = inr l -> lookup fs l = Some (Dir es) ->
          walk fs cur (PyStr.split SLASH head) = inr l).
Proof.
  unfold PosixPath.split.
  destruct (cut_last_slash_spec p) as [E [N H]].
  destruct (cut_last_slash p) as [h t]. simpl in E, N, H.
  destruct h as [|y h'] eqn:Eh.
  - simpl. intro I. injection I as <- <-. contradiction.
  - rewrite <- Eh in *.
    destruct H as [H|[h0 H]]; [rewrite H in Eh; discriminate|]. clear Eh.
    assert (Hs : PyStr.split SLASH p = PyStr.split SLASH h0 ++ [t]).
    { rewrite E, H, <- app_assoc. simpl app.
      now rewrite split_app_sep, (split_no_sep SLASH t N). }
    replace (negb (is_nil h)) with true by (subst h; now destruct h0).
    cbn [andb].
    destruct (forallb (fun c => c =? SLASH) h) eqn:A; cbn [negb].
    + intros I Hh. injection I as <- <-.
      exists (PyStr.split SLASH h0). split; [exact Hs|]. split.
      * now exists t.
      * intros fs cur l es W L. rewrite H.
        change (h0 ++ [SLASH]) with (h0 ++ SLASH :: []).
        rewrite split_app_sep, walk_app, W. simpl. now rewrite L.
    + intros I Hh. injection I as <- <-.
      destruct (rstrip_spec SLASH h) as [k [Ek Hk]].
      destruct k as [|k].
      { exfalso. simpl in Ek. rewrite app_nil_r in Ek.
        destruct Hk as [Hk|Hk]; [now rewrite Hk in Hh|].
        rewrite <- Ek, H, last_last in Hk. now apply Hk. }
      rewrite repeat_snoc, app_assoc in Ek. rewrite H in Ek at 1.
      apply app_inj_tail in Ek as [Ek _].
      exists (PyStr.split SLASH h0). split; [exact Hs|]. split.
      * destruct (rstrip_spec SLASH h) as [k' [Ek' _]].
        exists (repeat SLASH k' ++ t). rewrite app_assoc, <- Ek'. exact E.
      * intros fs cur l es W L. rewrite Ek, split_trailing, walk_app in W.
        destruct (walk fs cur (PyStr.split SLASH (rstrip SLASH h))) as [e|l0];
          [discriminate|].
        now rewrite (walk_empties fs l0 l k W).
Qed.

Lemma fs_path_exn_prefix (a b : str) :
  fs_path_exn (a ++ b) = None -> fs_path_exn a = None.
Proof.
  rewrite !fs_path_exn_none, !existsb_app, !orb_false_iff. tauto.
Qed.

Lemma fs_path_exn_unclassified (p : str) (e : exn) :
  fs_path_exn p = Some e -> error_kind e = None.
Proof.
  unfold fs_path_exn. destruct (existsb bad_surrogate p).
  - intro H. now injection H as <-.
  - destruct (existsb (Z.eqb NUL) p); [|discriminate].
    intro H. now injection H as <-.
Qed.

Lemma syscall_error {A} (path : str) (f : node -> errno + (A * node))
    (fs fs' : node) (e : exn) :
  syscall path f fs = (inl e, fs') -> error_kind e = None /\ fs' = fs.
Proof.
  unfold syscall. destruct (fs_path_exn path) as [e'|] eqn:P.
  - intro H. injection H as <- <-. split; [|reflexivity].
    now apply (fs_path_exn_unclassified path).
  - destruct (f fs) as [e'|[a fs1]]; [|discriminate].
    intro H. injection H as <- <-. now split.
Qed.

Section Makedirs.

Variable cwd : loc.

Lemma start_prefix (head rest : str) :
  head <> [] -> start cwd (head ++ rest) = start cwd head.
Proof. intro H. destruct head; [contradiction | reflexivity]. Qed.

(** If a path leads somewhere, so does its head. *)
Lemma resolve_head (fs : node) (p head tail : str) (l : loc) :
  resolve cwd fs p = inr l ->
  PosixPath.split p = (head, tail) ->
  head <> [] ->
  exists l' es, resolve cwd fs head = inr l' /\ lookup fs l' = Some (Dir es)
                /\ exists pre, PyStr.split SLASH p = pre ++ [tail]
                               /\ walk fs (start cwd p) pre = inr l'.
Proof.
  intros R S Hh.
  destruct (posix_split_spec p head tail S Hh) as [pre [Hs [[rest Hr] Hw]]].
  unfold resolve in R. destruct (is_nil p) eqn:Np; [discriminate|].
  rewrite Hs, walk_app in R.
  destruct (walk fs (start cwd p) pre) as [e|l1] eqn:W; [discriminate|].
  assert (D : exists es, lookup fs l1 = Some (Dir es)).
  { simpl in R. destruct (lookup fs l1) as [[d|es]|]; try discriminate.
    now exists es. }
  destruct D as [es D]. exists l1, es. split; [|split; [exact D|]].
  - unfold resolve. replace (is_nil head) with false by now destruct head.
    replace (start cwd head) with (start cwd p)
      by (rewrite Hr; now apply start_prefix).
    now apply (Hw fs _ l1 es).
  - now exists pre.
Qed.

Lemma exists_head (fs : node) (p head tail : str) :
  exists_in cwd fs p = true ->
  PosixPath.split p = (head, tail) ->
  head <> [] ->
  isdir_in cwd fs head = true.
Proof.
  intros E S Hh. apply path_test_inv in E as [Hp [n [St _]]].
  destruct (stat_inv cwd fs n p St) as [l [R _]].
  destruct (resolve_head fs p head tail l R S Hh) as [l' [es [R' [L' _]]]].
  destruct (posix_split_spec p head tail S Hh) as [_ [_ [[rest Hr] _]]].
  unfold isdir_in. rewrite (path_test_intro cwd _ fs (Dir es)); [reflexivity | |].
  - rewrite Hr in Hp. now apply fs_path_exn_prefix in Hp.
  - now apply (stat_intro cwd fs _ head l').
Qed.

(** [mkdir] on a path that leads somewhere fails. *)
Lemma mkdir_existing (fs : node) (path : str) (l : loc) :
  resolve cwd fs path = inr l -> exists e, mkdir cwd fs path = inl e.
Proof.
  intro R. unfold mkdir.
  destruct (parent_and_name cwd fs path) as [e|[[[p name] tr]|]] eqn:P;
    [now exists e | | now exists EEXIST].
  destruct (dot_or_dotdot name) eqn:D; [now exists EEXIST|].
  destruct (lookup fs (p ++ [name])) eqn:L; [now exists EEXIST|]. exfalso.
  destruct (parent_and_name_inv cwd fs path p name tr P)
    as [Hp [Hn [pre [k [es [Hs [Hw [Hl _]]]]]]]].
  assert (Sp : special name = false).
  { unfold special. unfold dot_or_dotdot in D.
    apply orb_false_iff in D as [D1 D2]. rewrite D1, D2.
    apply eqb_neq in Hn. now rewrite Hn. }
  rewrite (resolve_through_parent cwd fs path pre name k p es) in R by assumption.
  rewrite lookup_snoc, Hl in L. rewrite L in R. discriminate.
Qed.



(** One step of [os.makedirs]. *)
Lemma makedirs_rec_step (fuel : nat) (name : str) (exist_ok : bool) (fs : node) :
  makedirs_rec cwd (S fuel) name exist_ok fs =
    if negb (is_nil (fst (heads name))) && negb (is_nil (snd (heads name)))
       && negb (exists_in cwd fs (fst (heads name)))
    then
      match makedirs_rec cwd fuel (fst (heads name)) exist_ok fs with
      | (inl (OSError EEXIST), fs') =>
          if eqb (snd (heads name)) curdir then (inr tt, fs')
          else make cwd name exist_ok fs'
      | (inl e, fs') => (inl e, fs')
      | (inr _, fs') =>
          if eqb (snd (heads name)) curdir then (inr tt, fs')
          else make cwd name exist_ok fs'
      end
    else make cwd name exist_ok fs.
Proof.
  unfold heads. cbn [makedirs_rec].
  destruct (PosixPath.split name) as [head0 tail0].
  destruct (if is_nil tail0 then PosixPath.split head0 else (head0, tail0))
    as [head tail].
  cbn [fst snd]. unfold make, ret.
  destruct (negb (is_nil head) && negb (is_nil tail) && negb (exists_in cwd fs head));
    [|reflexivity].
  destruct (makedirs_rec cwd fuel head exist_ok fs) as [[e|u] fs'].
  - destruct e as [m| | | | |e]; try reflexivity.
    destruct e; try reflexivity; now destruct (eqb tail curdir).
  - now destruct (eqb tail curdir).
Qed.

Lemma final_component_heads (name : str) :
  final_component name = snd (heads name).
Proof.
  unfold final_component, heads. destruct (PosixPath.split name) as [head0 tail0].
  now destruct (is_nil tail0).
Qed.

(** The head [os.makedirs] looks at exists when the path does. *)
Lemma exists_heads (fs : node) (name : str) :
  exists_in cwd fs name = true ->
  fst (heads name) <> [] ->
  exists_in cwd fs (fst (heads name)) = true.
Proof.
  intros E. unfold heads.
  destruct (PosixPath.split name) as [head0 tail0] eqn:S0.
  destruct (is_nil tail0).
  - destruct (PosixPath.split head0) as [head tail] eqn:S1. simpl. intro Hh.
    assert (H0 : head0 <> []) by (intros ->; now injection S1 as <- <-).
    apply isdir_exists, (exists_head fs head0 head tail); try assumption.
    apply isdir_exists. now apply (exists_head fs name head0 tail0).
  - simpl. intro Hh. apply isdir_exists.
    now apply (exists_head fs name head0 tail0).
Qed.

(** On a directory that exists, [makedirs] with [exist_ok] does nothing. *)
Lemma makedirs_existing (fuel : nat) (name : str) (fs : node) :
  isdir_in cwd fs name = true ->
  makedirs_rec cwd (S fuel) name true fs = (inr tt, fs).
Proof.
  intro D. rewrite makedirs_rec_step.
  assert (E := isdir_exists cwd fs name D).
  replace (negb (is_nil (fst (heads name))) && negb (is_nil (snd (heads name)))
           && negb (exists_in cwd fs (fst (heads name)))) with false.
  - unfold make, os_mkdir, syscall.
    apply path_test_inv in E as [Hp [n [St _]]]. rewrite Hp.
    destruct (stat_inv cwd fs n name St) as [l [R _]].
    destruct (mkdir_existing fs name l R) as [e ->]. now rewrite D.
  - symmetry. destruct (fst (heads name)) as [|c h] eqn:Eh; [reflexivity|].
    rewrite <- Eh. rewrite (exists_heads fs name E) by (rewrite Eh; discriminate).
    now rewrite andb_false_r.
Qed.

(** A directory that [mkdir] made is there. *)
Lemma mkdir_created (fs fs' : node) (path : str) :
  os_mkdir cwd path fs = (inr tt, fs') -> isdir_in cwd fs' path = true.
Proof.
  intro H. apply syscall_ok in H as [Hp H].
  destruct (mkdir cwd fs path) as [e|fs1] eqn:Mk; [discriminate|].
  injection H as <-. unfold mkdir in Mk.
  destruct (parent_and_name cwd fs path) as [e|[[[p name] tr]|]] eqn:P;
    try discriminate.
  destruct (dot_or_dotdot name) eqn:D; [discriminate|].
  destruct (lookup fs (p ++ [name])) eqn:L; [discriminate|].
  injection Mk as <-.
  destruct (parent_and_name_inv cwd fs path p name tr P)
    as [Hpath [Hn [pre [k [es [Hs [Hw [Hl _]]]]]]]].
  assert (Sp : special name = false).
  { unfold special. unfold dot_or_dotdot in D.
    apply orb_false_iff in D as [D1 D2]. rewrite D1, D2.
    apply eqb_neq in Hn. now rewrite Hn. }
  set (fs' := modify (add_entry name (Dir [])) p fs).
  assert (S : sub fs fs').
  { apply modify_sub. intros n Hn'. rewrite Hl in Hn'. injection Hn' as <-.
    apply sub_add_entry. }
  assert (Lp : lookup fs' p = Some (Dir (es ++ [(name, Dir [])])))
    by exact (lookup_modify_here (add_entry name (Dir [])) p fs (Dir es) Hl).
  assert (A : assoc name (es ++ [(name, Dir [])]) = Some (Dir [])).
  { rewrite lookup_snoc, Hl in L. rewrite assoc_app, L. simpl. now rewrite eqb_refl. }
  assert (Lc : lookup fs' (p ++ [name]) = Some (Dir [])) by now rewrite lookup_snoc, Lp.
  unfold isdir_in. rewrite (path_test_intro cwd _ fs' (Dir [])); [reflexivity | exact Hp |].
  apply (stat_intro cwd fs' _ path (p ++ [name])); [|exact Lc].
  rewrite (resolve_through_parent cwd fs' path pre name k p _ Hpath Hs Sp
             (walk_sub fs fs' pre _ p S Hw) Lp).
  rewrite A. now apply (walk_empties_dir fs' _ []).
Qed.

Lemma make_ok_strict (fs fs' : node) (name : str) :
  make cwd name false fs = (inr tt, fs') -> isdir_in cwd fs' name = true.
Proof.
  unfold make. destruct (os_mkdir cwd name fs) as [[e|[]] fs1] eqn:Mk.
  - destruct e; discriminate.
  - intro H. injection H as <-. now apply (mkdir_created fs).
Qed.

(** When [makedirs] returns for a path that does not end in a dot, the
    path is a directory. *)
Lemma makedirs_created (fuel : nat) (name : str) (fs fs' : node) :
  makedirs_rec cwd (S fuel) name false fs = (inr tt, fs') ->
  final_component name <> curdir ->
  isdir_in cwd fs' name = true.
Proof.
  rewrite makedirs_rec_step, final_component_heads. intros H Hf.
  apply eqb_neq in Hf. rewrite Hf in H.
  destruct (negb (is_nil (fst (heads name))) && negb (is_nil (snd (heads name)))
            && negb (exists_in cwd fs (fst (heads name)))).
  - destruct (makedirs_rec cwd fuel (fst (heads name)) false fs) as [[e|u] fs1].
    + destruct e as [m| | | | |e]; try discriminate.
      destruct e; try discriminate. now apply (make_ok_strict fs1).
    + now apply (make_ok_strict fs1).
  - now apply (make_ok_strict fs).
Qed.

Lemma make_error (fs fs' : node) (name : str) (ok : bool) (e : exn) :
  make cwd name ok fs = (inl e, fs') -> error_kind e = None.
Proof.
  unfold make. destruct (os_mkdir cwd name fs) as [[e'|[]] fs1] eqn:Mk; [|discriminate].
  apply syscall_error in Mk as [U _].
  destruct e' as [m| | | | |e']; try (intro H; injection H as <- <-; exact U).
  destruct (negb ok || negb (isdir_in cwd fs1 name)); [|discriminate].
  intro H. now injection H as <- <-.
Qed.

(** No error of [makedirs] is one of the errors of the program. *)
Lemma makedirs_error (fuel : nat) :
  forall (name : str) (ok : bool) (fs fs' : node) (e : exn),
    makedirs_rec cwd fuel name ok fs = (inl e, fs') -> error_kind e = None.
Proof.
  induction fuel as [|fuel IH]; intros name ok fs fs' e.
  - simpl. unfold raise. intro H. now injection H as <- <-.
  - rewrite makedirs_rec_step.
    destruct (negb (is_nil (fst (heads name))) && negb (is_nil (snd (heads name)))
              && negb (exists_in cwd fs (fst (heads name)))).
    + destruct (makedirs_rec cwd fuel (fst (heads name)) ok fs) as [[e1|u] fs1] eqn:R.
      * pose proof (IH _ _ _ _ _ R) as U.
        destruct e1 as [m| | | | |e1];
          try (intro H; injection H as <- <-; exact U).
        destruct e1; try (intro H; injection H as <- <-; exact U).
        destruct (eqb (snd (heads name)) curdir); [discriminate|].
        apply make_error.
      * destruct (eqb (snd (heads name)) curdir); [discriminate|].
        apply make_error.
    + apply make_error.
Qed.

End Makedirs.

End MakedirsFacts.
Import MakedirsFacts.

(** ** The recursion of [os.makedirs] ends within the fuel given *)

Module FuelFacts.

Import PosixPath.

Lemma split_lengths (p : str) :
  (List.length (fst (PosixPath.split p)) + List.length (snd (PosixPath.split p))
   <= List.length p)%nat.
Proof.
  unfold PosixPath.split. destruct (cut_last_slash_spec p) as [E _].
  destruct (cut_last_slash p) as [h t]. simpl in E.
  assert (H : (List.length h + List.length t = List.length p)%nat)
    by (rewrite E; now rewrite length_app).
  destruct (negb (is_nil h) && negb (forallb (fun c => c =? SLASH) h)); simpl; [|lia].
  destruct (rstrip_spec SLASH h) as [k [Ek _]].
  assert ((List.length (rstrip SLASH h) <= List.length h)%nat); [|lia].
  rewrite Ek at 2. rewrite length_app. lia.
Qed.

Lemma heads_shorter (name : str) :
  snd (heads name) <> [] ->
  (List.length (fst (heads name)) < List.length name)%nat.
Proof.
  unfold heads. pose proof (split_lengths name) as H0.
  destruct (PosixPath.split name) as [head0 tail0]. simpl in H0.
  destruct (is_nil tail0).
  - pose proof (split_lengths head0) as H1.
    destruct (PosixPath.split head0) as [head tail]. simpl in *. intro Ht.
    destruct tail; [contradiction|]. simpl in H1. lia.
  - simpl. intro Ht. destruct tail0; [contradiction|]. simpl in H0. lia.
Qed.

Section Fuel.

Variable cwd : loc.

Lemma fs_path_exn_not_recursion (p : str) : fs_path_exn p <> Some RecursionError.
Proof.
  unfold fs_path_exn. destruct (existsb bad_surrogate p); [discriminate|].
  destruct (existsb (Z.eqb NUL) p); discriminate.
Qed.

Lemma make_not_recursion (name : str) (ok : bool) (fs fs' : node) :
  make cwd name ok fs <> (inl RecursionError, fs').
Proof.
  unfold make, os_mkdir, syscall.
  pose proof (fs_path_exn_not_recursion name) as N.
  destruct (fs_path_exn name) as [e|].
  - destruct e; try discriminate; [now elim N|].
    destruct (negb ok || negb (isdir_in cwd fs name)); discriminate.
  - destruct (mkdir cwd fs name) as [e|fs1]; [|discriminate].
    destruct (negb ok || negb (isdir_in cwd fs name)); discriminate.
Qed.

(** With more fuel than the path has characters, [os.makedirs] never runs
    out of it. *)
Lemma makedirs_fuel_enough (fuel : nat) :
  forall (name : str) (ok : bool) (fs fs' : node),
    (List.length name < fuel)%nat ->
    makedirs_rec cwd fuel name ok fs <> (inl RecursionError, fs').
Proof.
  induction fuel as [|fuel IH]; intros name ok fs fs' Hlen; [lia|].
  rewrite makedirs_rec_step.
  destruct (negb (is_nil (fst (heads name))) && negb (is_nil (snd (heads name)))
            && negb (exists_in cwd fs (fst (heads name)))) eqn:C;
    [|apply make_not_recursion].
  apply andb_true_iff in C as [C _]. apply andb_true_iff in C as [_ Ct].
  assert (Hh : (List.length (fst (heads name)) < fuel)%nat).
  { assert (Hs : snd (heads name) <> [])
      by (destruct (snd (heads name)); [discriminate Ct | discriminate]).
    pose proof (heads_shorter name Hs). lia. }
  destruct (makedirs_rec cwd fuel (fst (heads name)) ok fs) as [[e|u] fs1] eqn:R.
  - destruct e as [m| | | | |e].
    + discriminate.
    + discriminate.
    + discriminate.
    + exfalso. exact (IH _ ok fs fs1 Hh R).
    + discriminate.
    + destruct e; try discriminate.
      destruct (eqb (snd (heads name)) curdir); [discriminate | apply make_not_recursion].
  - destruct (eqb (snd (heads name)) curdir); [discriminate | apply make_not_recursion].
Qed.

Lemma os_makedirs_total (name : str) (ok : bool) (fs fs' : node) :
  os_makedirs cwd name ok fs <> (inl RecursionError, fs').
Proof. apply makedirs_fuel_enough. lia. Qed.

End Fuel.

End FuelFacts.
Import FuelFacts.

(** ** Facts about [write_file] and [append_file] *)

Module WriteFacts.

Import PosixPath.

Lemma split_head_not_nil (p : str) :
  In SLASH p -> fst (PosixPath.split p) <> [].
Proof.
  intro Hin. unfold PosixPath.split.
  destruct (cut_last_slash_spec p) as [E [N H]].
  destruct (cut_last_slash p) as [h t]. simpl in E, N, H.
  assert (Hh : h <> []).
  { intros ->. simpl in E. subst t. contradiction. }
  replace (negb (is_nil h)) with true by now destruct h.
  cbn [andb]. destruct (forallb (fun c => c =? SLASH) h) eqn:A; cbn [negb fst].
  - exact Hh.
  - destruct (rstrip_spec SLASH h) as [k [Ek _]]. intro R.
    rewrite R in Ek. simpl in Ek. rewrite Ek in A.
    assert (forallb (fun c => c =? SLASH) (repeat SLASH k) = true); [|congruence].
    clear. induction k; [reflexivity | simpl; now rewrite IHk].
Qed.

Section Write.

Variable cwd : loc.
Hypothesis cwd_ok : forallb valid_name cwd = true.

Lemma filepath_has_slash (filename : str) :
  In SLASH (os_path_join (WORKSPACE cwd) filename).
Proof.
  destruct (startswith filename sep) eqn:A.
  - rewrite join_WORKSPACE_abs by assumption.
    apply startswith_iff in A as [r ->]. now left.
  - rewrite join_WORKSPACE_rel by assumption.
    apply in_or_app. right. now left.
Qed.

(** The directory part of the path of a file is a directory. *)
Lemma dirname_of_file (fs : node) (path : str) (d : list Z) :
  In SLASH path ->
  fs_path_exn path = None ->
  stat cwd fs path = inr (File d) ->
  isdir_in cwd fs (os_path_dirname path) = true.
Proof.
  intros Hs Hp S. unfold os_path_dirname, dirname.
  destruct (PosixPath.split path) as [head tail] eqn:Sp.
  pose proof (split_head_not_nil path Hs) as Hh. rewrite Sp in Hh. simpl in *.
  apply (exists_head cwd fs path head tail); [|assumption..].
  unfold exists_in. now rewrite (path_test_intro cwd _ fs (File d)).
Qed.

Lemma open_create_existing (trunc : bool) (fs : node) (path : str) (d : list Z) :
  stat cwd fs path = inr (File d) ->
  exists h, resolve cwd fs path = inr h
            /\ lookup fs h = Some (File d)
            /\ open_create cwd trunc fs path
               = inr (h, if trunc then modify (fun _ => File []) h fs else fs).
Proof.
  intro S.
  destruct (stat_file_inv cwd fs path d S)
    as [pre [name [p [es [Hs [Sp [Hw [Hl [A [R P]]]]]]]]]].
  exists (p ++ [name]).
  assert (L : lookup fs (p ++ [name]) = Some (File d)) by now rewrite lookup_snoc, Hl.
  repeat split; try assumption.
  unfold open_create. rewrite P. cbn [orb].
  replace (dot_or_dotdot name) with false.
  - now rewrite L.
  - unfold special in Sp. unfold dot_or_dotdot.
    apply orb_false_iff in Sp as [Sp1 Sp2]. apply orb_false_iff in Sp1 as [_ Sp1].
    now rewrite Sp1, Sp2.
Qed.

(** [append_file] on a file that exists. *)
Lemma append_file_existing (fs : node) (filename content : str) (d bs : list Z) :
  fs_path_exn (os_path_join (WORKSPACE cwd) filename) = None ->
  stat cwd fs (os_path_join (WORKSPACE cwd) filename) = inr (File d) ->
  Text.encode content = Some bs ->
  exists fs',
    append_file cwd filename content fs
    = (inr ([CHECK] ++ py " Appended to " ++ filename), fs')
    /\ stat cwd fs' (os_path_join (WORKSPACE cwd) filename) = inr (File (d ++ bs)).
Proof.
  intros Hp S E.
  destruct (open_create_existing false fs _ d S) as [h [R [L O]]].
  exists (modify (append_data bs) h fs). split.
  - unfold append_file, bind at 1, os_path_isfile, peek, isfile_in.
    rewrite (path_test_intro cwd _ fs (File d)) by assumption. cbn [is_dir negb].
    unfold bind, open_write, syscall. rewrite Hp, O.
    unfold file_write, Text.write_text. rewrite E. reflexivity.
  - now apply written_file.
Qed.

(** [write_file] on a file that exists. *)
Lemma write_file_existing (fs : node) (filename content : str) (d bs : list Z) :
  fs_path_exn (os_path_join (WORKSPACE cwd) filename) = None ->
  stat cwd fs (os_path_join (WORKSPACE cwd) filename) = inr (File d) ->
  Text.encode content = Some bs ->
  exists h,
    resolve cwd fs (os_path_join (WORKSPACE cwd) filename) = inr h
    /\ lookup fs h = Some (File d)
    /\ write_file cwd filename content fs
       = (inr ([CHECK] ++ py " Wrote to " ++ filename),
          modify (fun _ => File bs) h fs).
Proof.
  intros Hp S E.
  destruct (open_create_existing true fs _ d S) as [h [R [L O]]].
  exists h. repeat split; try assumption.
  unfold write_file, bind at 1, os_makedirs.
  rewrite makedirs_existing
    by (apply (dirname_of_file fs _ d); [apply filepath_has_slash | assumption..]).
  unfold bind, open_write, syscall. rewrite Hp, O.
  unfold file_write, Text.write_text. rewrite E.
  unfold ret. now rewrite modify_compose.
Qed.

(** What a successful [write_file] leaves behind. *)
Lemma write_file_ok (fs fs' : node) (filename content r : str) :
  write_file cwd filename content fs = (inr r, fs') ->
  r = [CHECK] ++ py " Wrote to " ++ filename
  /\ fs_path_exn (os_path_join (WORKSPACE cwd) filename) = None
  /\ exists bs,
       Text.encode content = Some bs
       /\ stat cwd fs' (os_path_join (WORKSPACE cwd) filename) = inr (File bs).
Proof.
  unfold write_file. intro H.
  apply bind_ok in H as [u [fsa [_ H]]].
  apply bind_ok in H as [h [fsb [O H]]].
  apply bind_ok in H as [u' [fsc [W H]]].
  unfold ret in H. injection H as Hr Hfs. subst r fs'.
  apply syscall_ok in O as [Hp O].
  destruct (open_create_file cwd true fsa fsb _ h O) as [_ [R [d [L [Hd _]]]]].
  rewrite (Hd eq_refl) in L.
  unfold file_write, Text.write_text in W.
  destruct (Text.encode content) as [bs|]; [|discriminate].
  injection W as W. subst fsc.
  split; [reflexivity|]. split; [exact Hp|]. exists bs. split; [reflexivity|].
  exact (written_file cwd fsb _ h [] bs R L).
Qed.

End Write.

End WriteFacts.
Import WriteFacts.

(** ** Facts about removing directories and about errors *)

Module DirFacts.

Import PosixPath.

Lemma bind_error {A B} (m : M A) (k : A -> M B) (fs fs' : node) (e : exn) :
  bind m k fs = (inl e, fs') ->
  m fs = (inl e, fs')
  \/ exists a fs1, m fs = (inr a, fs1) /\ k a fs1 = (inl e, fs').
Proof.
  unfold bind. destruct (m fs) as [[e1|a] fs1].
  - intro H. injection H as <- <-. now left.
  - intro H. right. now exists a, fs1.
Qed.

Lemma assoc_del_entry (x k : str) (es : list (str * node)) :
  assoc x (del_entry_list k es) = if eqb x k then None else assoc x es.
Proof.
  unfold del_entry_list. induction es as [|[k' c] es IH]; simpl.
  - now destruct (eqb x k).
  - destruct (eqb k' k) eqn:E; simpl.
    + rewrite IH. apply eqb_eq in E. subst k'.
      destruct (eqb x k) eqn:E'; [reflexivity|].
      rewrite eqb_sym, E'. reflexivity.
    + rewrite IH. destruct (eqb k' x) eqn:E'; [|reflexivity].
      apply eqb_eq in E'. subst k'. now rewrite E.
Qed.

Lemma sub_del_entry (k : str) (n : node) : sub (del_entry k n) n.
Proof.
  destruct n as [d|es]; [apply sub_refl|].
  intros l m H. destruct l as [|x r].
  - injection H as <-. now eexists.
  - simpl in *. rewrite assoc_del_entry in H.
    destruct (eqb x k); [discriminate|].
    destruct (assoc x es); [|discriminate]. now exists m.
Qed.

(** *** Calls that leave the tree alone *)


Lemma readonly_ret {A} (a : A) : readonly (ret a).
Proof. now intro. Qed.

Lemma readonly_raise {A} (e : exn) : readonly (@raise A e).
Proof. now intro. Qed.

Lemma readonly_peek {A} (f : node -> A) : readonly (peek f).
Proof. now intro. Qed.

Lemma readonly_bind {A B} (m : M A) (k : A -> M B) :
  readonly m -> (forall a, readonly (k a)) -> readonly (bind m k).
Proof.
  intros Hm Hk fs. unfold bind. specialize (Hm fs).
  destruct (m fs) as [[e|a] fs1]; simpl in *; subst; [reflexivity | apply Hk].
Qed.

Lemma readonly_fmap {A B} (f : A -> B) (m : M A) : readonly m -> readonly (fmap f m).
Proof. intro H. apply readonly_bind; [exact H | intro; apply readonly_ret]. Qed.

Lemma readonly_error {A} (m : M A) (fs fs' : node) (r : exn + A) :
  readonly m -> m fs = (r, fs') -> fs' = fs.
Proof. intros H E. specialize (H fs). rewrite E in H. exact H. Qed.

Section Dirs.

Variable cwd : loc.
Variable lower : str -> str.

Lemma readonly_os_stat (path : str) : readonly (os_stat cwd path).
Proof.
  intro fs. unfold os_stat, syscall. destruct (fs_path_exn path); [reflexivity|].
  now destruct (stat cwd fs path).
Qed.

Lemma readonly_os_listdir (path : str) : readonly (os_listdir cwd path).
Proof.
  intro fs. unfold os_listdir, syscall. destruct (fs_path_exn path); [reflexivity|].
  destruct (stat cwd fs path) as [e|[d|es]]; reflexivity.
Qed.

Lemma readonly_os_walk (top : str) : readonly (os_walk cwd top).
Proof.
  intro fs. unfold os_walk. destruct (fs_path_exn top); [reflexivity|].
  now destruct (stat cwd fs top).
Qed.

Lemma readonly_open_read (path : str) : readonly (open_read cwd path).
Proof.
  apply readonly_bind; [apply readonly_os_stat|].
  intros [d|es]; [|apply readonly_raise].
  destruct (Text.read_text d); [apply readonly_ret | apply readonly_raise].
Qed.

Lemma readonly_list_files_loop (target : str) (items files dirs : list str) :
  readonly (list_files_loop cwd target items files dirs).
Proof.
  revert files dirs; induction items as [|item items IH]; intros files dirs.
  - apply readonly_ret.
  - simpl. apply readonly_bind; [apply readonly_peek|]. intros []; apply IH.
Qed.

Lemma readonly_list_files (directory : str) : readonly (list_files cwd directory).
Proof.
  unfold list_files.
  apply readonly_bind; [apply readonly_peek|]. intros []; [|apply readonly_raise].
  cbn [negb]. apply readonly_bind; [apply readonly_peek|].
  intros []; [|apply readonly_raise]. cbn [negb].
  apply readonly_bind; [apply readonly_os_listdir|]. intro items.
  apply readonly_bind; [apply readonly_list_files_loop|].
  intros [files dirs]. apply readonly_ret.
Qed.

Lemma readonly_read_file (filename : str) : readonly (read_file cwd filename).
Proof.
  unfold read_file.
  apply readonly_bind; [apply readonly_peek|]. intros []; [|apply readonly_raise].
  cbn [negb]. apply readonly_bind; [apply readonly_open_read|].
  intro. apply readonly_ret.
Qed.

Lemma readonly_count_dirs (filepath : str) (items : list str) :
  readonly (count_dirs cwd filepath items).
Proof.
  induction items as [|item items IH]; simpl; [apply readonly_ret|].
  apply readonly_bind; [apply readonly_peek|]. intro d.
  apply readonly_bind; [exact IH|]. intro. apply readonly_ret.
Qed.

Lemma readonly_file_info (filename : str) : readonly (file_info cwd filename).
Proof.
  unfold file_info.
  apply readonly_bind; [apply readonly_peek|]. intros []; [|apply readonly_raise].
  cbn [negb]. apply readonly_bind; [apply readonly_os_stat|]. intro st.
  apply readonly_bind; [apply readonly_peek|]. intros []; [|apply readonly_ret].
  apply readonly_bind; [apply readonly_os_listdir|]. intro items.
  apply readonly_bind; [apply readonly_count_dirs|]. intro. apply readonly_ret.
Qed.

Lemma readonly_search_one (query root file : str) (matches : list (str * Z)) :
  readonly (search_one cwd lower query root file matches).
Proof.
  intro fs. unfold search_one.
  pose proof (readonly_open_read (os_path_join root file) fs) as H.
  destruct (open_read cwd (os_path_join root file) fs) as [[e|content] fs1];
    simpl in H; subst fs1.
  - destruct e; reflexivity.
  - now destruct (contains (lower query) (lower content)).
Qed.

Lemma readonly_search_files_in (query extension root : str) (files : list str)
    (matches : list (str * Z)) :
  readonly (search_files_in cwd lower query extension root files matches).
Proof.
  revert matches; induction files as [|file files IH]; intro matches; simpl.
  - apply readonly_ret.
  - destruct (negb (is_nil extension) && negb (endswith file extension)); [apply IH|].
    apply readonly_bind; [apply readonly_search_one | intro; apply IH].
Qed.

Lemma readonly_search_files_loop (query extension : str)
    (triples : list (str * list str * list str)) (matches : list (str * Z)) :
  readonly (search_files_loop cwd lower query extension triples matches).
Proof.
  revert matches; induction triples as [|[[root dirs] files] triples IH];
    intro matches; simpl.
  - apply readonly_ret.
  - apply readonly_bind; [apply readonly_search_files_in | intro; apply IH].
Qed.

Lemma readonly_search_files (query extension : str) :
  readonly (search_files cwd lower query extension).
Proof.
  apply readonly_bind; [apply readonly_os_walk|]. intro.
  apply readonly_search_files_loop.
Qed.

Lemma readonly_find_files (pattern : str) : readonly (find_files cwd pattern).
Proof.
  apply readonly_bind; [apply readonly_os_walk|]. intro. apply readonly_ret.
Qed.

Lemma readonly_sum_sizes (root : str) (files : list str) (total : Z) :
  readonly (sum_sizes cwd root files total).
Proof.
  revert total; induction files as [|file files IH]; intro total; simpl.
  - apply readonly_ret.
  - intro fs.
    assert (H : readonly (os_path_getsize cwd (os_path_join root file))).
    { apply readonly_bind; [apply readonly_os_stat | intro; apply readonly_ret]. }
    specialize (H fs).
    destruct (os_path_getsize cwd (os_path_join root file) fs) as [[e|n] fs1];
      simpl in H; subst fs1.
    + destruct e; try reflexivity. apply IH.
    + apply IH.
Qed.

Lemma readonly_workspace_loop (triples : list (str * list str * list str))
    (a b c : Z) :
  readonly (workspace_loop cwd triples a b c).
Proof.
  revert a b c; induction triples as [|[[root dirs] files] triples IH];
    intros a b c; simpl.
  - apply readonly_ret.
  - apply readonly_bind; [apply readonly_sum_sizes | intro; apply IH].
Qed.

Lemma readonly_get_workspace_info : readonly (get_workspace_info cwd).
Proof.
  apply readonly_bind; [apply readonly_os_walk|]. intro.
  apply readonly_bind; [apply readonly_workspace_loop|].
  intros [[x y] z].
  destruct (SizeText.human_size x); [apply readonly_ret | apply readonly_raise].
Qed.

(** *** [shutil.rmtree] *)

Lemma rmdir_inv (fs fs' : node) (path : str) :
  rmdir cwd fs path = inr fs' ->
  exists (p : loc) (name : str) (tr : bool),
    parent_and_name cwd fs path = inr (Some (p, name, tr))
    /\ special name = false
    /\ fs' = modify (del_entry name) p fs.
Proof.
  unfold rmdir.
  destruct (parent_and_name cwd fs path) as [e|[[[p name] tr]|]] eqn:P;
    try discriminate.
  destruct (eqb name curdir) eqn:D1; [discriminate|].
  destruct (eqb name pardir) eqn:D2; [discriminate|].
  destruct (lookup fs (p ++ [name])) as [[d|[|e es]]|]; try discriminate.
  intro H. injection H as <-. exists p, name, tr. repeat split.
  unfold special. rewrite D1, D2.
  destruct (parent_and_name_inv cwd fs path p name tr P) as [_ [Hn _]].
  apply eqb_neq in Hn. now rewrite Hn.
Qed.

(** A directory that [rmdir] removed is gone. *)
Lemma rmdir_gone (fs fs' : node) (path : str) :
  rmdir cwd fs path = inr fs' -> exists e, stat cwd fs' path = inl e.
Proof.
  intro H. destruct (rmdir_inv fs fs' path H) as [p [name [tr [P [Sp ->]]]]].
  destruct (parent_and_name_inv cwd fs path p name tr P)
    as [Hpath [Hn [pre [k [es [Hs [Hw [Hl _]]]]]]]].
  set (fs' := modify (del_entry name) p fs).
  assert (S : sub fs' fs).
  { apply modify_sub_rev. intros n _. apply sub_del_entry. }
  unfold stat.
  destruct (resolve cwd fs' path) as [e|l] eqn:R; [now exists e|]. exfalso.
  unfold resolve in R. destruct (is_nil path); [discriminate|].
  rewrite Hs, !walk_app in R.
  destruct (walk fs' (start cwd path) pre) as [e|q] eqn:W; [discriminate|].
  pose proof (walk_sub fs' fs pre _ q S W) as W'. rewrite Hw in W'.
  injection W' as <-.
  assert (Lp : lookup fs' p = Some (Dir (del_entry_list name es)))
    by exact (lookup_modify_here (del_entry name) p fs (Dir es) Hl).
  rewrite (walk_one fs' p name _ Sp Lp), assoc_del_entry, eqb_refl in R.
  discriminate.
Qed.

Lemma rmtree_gone (fs fs' : node) (path : str) :
  shutil_rmtree cwd path fs = (inr tt, fs') -> exists_in cwd fs' path = false.
Proof.
  unfold shutil_rmtree. intro H.
  apply bind_ok in H as [n [fs0 [_ H]]].
  destruct n as [d|es]; [discriminate|].
  apply bind_ok in H as [u [fs1 [_ H]]].
  apply syscall_ok in H as [Hp H].
  destruct (rmdir cwd fs1 path) as [e|fs2] eqn:Rm; [discriminate|].
  injection H as <-.
  destruct (rmdir_gone fs1 fs2 path Rm) as [e St].
  unfold exists_in, path_test. now rewrite Hp, St.
Qed.

Lemma rmtree_error (fs fs' : node) (path : str) (e : exn) :
  shutil_rmtree cwd path fs = (inl e, fs') -> error_kind e = None.
Proof.
  unfold shutil_rmtree. intro H.
  apply bind_error in H as [H|[n [fs0 [_ H]]]].
  - now apply syscall_error in H.
  - destruct n as [d|es].
    + unfold raise in H. now injection H as <- <-.
    + apply bind_error in H as [H|[u [fs1 [_ H]]]].
      * destruct (resolve cwd fs0 path);
          [injection H as <- <-; reflexivity | discriminate].
      * now apply syscall_error in H.
Qed.

(** *** Errors of the operations that change the tree *)

Lemma file_write_error (h : loc) (content : str) (fs fs' : node) (e : exn) :
  file_write h content fs = (inl e, fs') -> error_kind e = None.
Proof.
  unfold file_write. destruct (Text.write_text content); [discriminate|].
  unfold raise. intro H. now injection H as <- <-.
Qed.

Lemma write_file_error (f c : str) (fs fs' : node) (e : exn) :
  write_file cwd f c fs = (inl e, fs') -> error_kind e = None.
Proof.
  unfold write_file. intro H.
  apply bind_error in H as [H|[u [fs1 [_ H]]]];
    [now apply makedirs_error in H|].
  apply bind_error in H as [H|[h [fs2 [_ H]]]];
    [now apply syscall_error in H|].
  apply bind_error in H as [H|[u' [fs3 [_ H]]]];
    [now apply file_write_error in H | discriminate].
Qed.

Lemma append_file_error (f c : str) (fs fs' : node) (e : exn) :
  append_file cwd f c fs = (inl e, fs') -> fs' = fs \/ error_kind e = None.
Proof.
  unfold append_file. intro H.
  apply bind_error in H as [H|[b [fs1 [Hb H]]]]; [discriminate|].
  unfold os_path_isfile, peek in Hb. injection Hb as <- <-.
  destruct (isfile_in cwd fs _); cbn [negb] in H.
  - right. apply bind_error in H as [H|[h [fs2 [_ H]]]];
      [now apply syscall_error in H|].
    apply bind_error in H as [H|[u' [fs3 [_ H]]]];
      [now apply file_write_error in H | discriminate].
  - left. unfold raise in H. now injection H.
Qed.

Lemma delete_file_error (f : str) (fs fs' : node) (e : exn) :
  delete_file cwd f fs = (inl e, fs') -> fs' = fs \/ error_kind e = None.
Proof.
  unfold delete_file. intro H.
  apply bind_error in H as [H|[b [fs1 [Hb H]]]]; [discriminate|].
  unfold os_path_exists, peek in Hb. injection Hb as <- <-.
  destruct (exists_in cwd fs _); cbn [negb] in H;
    [|left; unfold raise in H; now injection H].
  apply bind_error in H as [H|[b [fs1 [Hb H]]]]; [discriminate|].
  unfold os_path_isdir, peek in Hb. injection Hb as <- <-.
  destruct (isdir_in cwd fs _); [left; unfold raise in H; now injection H|].
  right. apply bind_error in H as [H|[u [fs2 [_ H]]]];
    [now apply syscall_error in H | discriminate].
Qed.

Lemma create_directory_error (d : str) (fs fs' : node) (e : exn) :
  create_directory cwd d fs = (inl e, fs') -> fs' = fs \/ error_kind e = None.
Proof.
  unfold create_directory. intro H.
  apply bind_error in H as [H|[b [fs1 [Hb H]]]]; [discriminate|].
  unfold os_path_exists, peek in Hb. injection Hb as <- <-.
  destruct (exists_in cwd fs _); [left; unfold raise in H; now injection H|].
  right. apply bind_error in H as [H|[u [fs2 [_ H]]]];
    [now apply makedirs_error in H | discriminate].
Qed.

Lemma delete_directory_error (d : str) (fs fs' : node) (e : exn) :
  delete_directory cwd d fs = (inl e, fs') -> fs' = fs \/ error_kind e = None.
Proof.
  unfold delete_directory. intro H.
  apply bind_error in H as [H|[b [fs1 [Hb H]]]]; [discriminate|].
  unfold os_path_exists, peek in Hb. injection Hb as <- <-.
  destruct (exists_in cwd fs _); cbn [negb] in H;
    [|left; unfold raise in H; now injection H].
  apply bind_error in H as [H|[b [fs1 [Hb H]]]]; [discriminate|].
  unfold os_path_isdir, peek in Hb. injection Hb as <- <-.
  destruct (isdir_in cwd fs _); cbn [negb] in H;
    [|left; unfold raise in H; now injection H].
  destruct (eqb _ _); [left; unfold raise in H; now injection H|].
  right. apply bind_error in H as [H|[u [fs2 [_ H]]]];
    [now apply rmtree_error in H | discriminate].
Qed.

Lemma fmap_error {A B} (g : A -> B) (m : M A) (fs fs' : node) (e : exn) :
  fmap g m fs = (inl e, fs') -> m fs = (inl e, fs').
Proof.
  unfold fmap. intro H. apply bind_error in H as [H|[a [fs1 [_ H]]]];
    [exact H | discriminate].
Qed.

End Dirs.

End DirFacts.
Import DirFacts.

(** ** Facts about creating the directories of a path *)

Module CreateFacts.

Import PosixPath.

Lemma cut_last_slash_app (h t : str) :
  ~ In SLASH t -> cut_last_slash (h ++ SLASH :: t) = (h ++ [SLASH], t).
Proof.
  intro N. induction h as [|x h IH]; simpl.
  - assert (E : cut_last_slash t = ([], t)).
    { clear -N. induction t as [|y t IH]; [reflexivity|]. simpl.
      rewrite IH by (intro; apply N; now right). simpl.
      destruct (y =? SLASH) eqn:Y; [|reflexivity].
      apply Z.eqb_eq in Y. subst. exfalso. apply N. now left. }
    rewrite E. reflexivity.
  - rewrite IH. now destruct h.
Qed.

Lemma lstrip_no (c : Z) (s : str) : hd (c + 1) s <> c -> lstrip c s = s.
Proof.
  destruct s as [|x s]; [reflexivity|]. simpl. intro H.
  apply Z.eqb_neq in H. now rewrite H.
Qed.

Lemma rstrip_snoc (c : Z) (s : str) :
  endswith s [c] = false -> rstrip c (s ++ [c]) = s.
Proof.
  intro H. unfold rstrip. rewrite rev_app_distr. simpl. rewrite Z.eqb_refl.
  unfold endswith in H. simpl in H.
  destruct (rev s) as [|x r] eqn:E.
  - simpl. apply (f_equal (@rev Z)) in E. now rewrite rev_involutive in E.
  - simpl in *. rewrite andb_true_r in H. rewrite H.
    rewrite <- E. apply rev_involutive.
Qed.

Lemma abs_path_snoc_eq (L : list str) (k : str) :
  L <> [] -> abs_path (L ++ [k]) = abs_path L ++ SLASH :: k.
Proof.
  intro H. unfold abs_path. rewrite join_app by (assumption || discriminate).
  now rewrite <- app_assoc.
Qed.

Lemma abs_path_not_all_slashes (L : list str) :
  L <> [] -> forallb valid_name L = true ->
  forallb (fun c => c =? SLASH) (abs_path L ++ [SLASH]) = false.
Proof.
  intros H F. destruct L as [|k L]; [contradiction|].
  simpl in F. apply andb_true_iff in F as [Hk _]. apply valid_name_ok in Hk.
  destruct k as [|x k]; [now destruct Hk|].
  assert (Hx : (x =? SLASH) = false).
  { apply Z.eqb_neq. intros ->. apply (name_no_slash _ Hk). now left. }
  unfold abs_path. destruct L as [|k' L].
  - simpl. now rewrite Hx.
  - rewrite join_cons by discriminate. simpl. now rewrite Hx.
Qed.

(** [os.path.split] on the absolute path of names. *)
Lemma split_abs_path_snoc (L : list str) (k : str) :
  L <> [] -> forallb valid_name L = true -> valid_name k = true ->
  PosixPath.split (abs_path (L ++ [k])) = (abs_path L, k).
Proof.
  intros HL F Hk. pose proof Hk as Hk'. apply valid_name_ok in Hk'.
  unfold PosixPath.split.
  rewrite abs_path_snoc_eq, cut_last_slash_app by (assumption || apply Hk').
  replace (negb (is_nil (abs_path L ++ [SLASH]))) with true by reflexivity.
  rewrite abs_path_not_all_slashes by assumption. cbn [andb negb].
  rewrite rstrip_snoc; [reflexivity|].
  destruct (@exists_last _ L HL) as [L' [k' E]]. subst L.
  rewrite forallb_snoc in F. apply andb_true_iff in F as [_ Hk2].
  apply abs_path_no_trailing_slash. now apply valid_name_ok.
Qed.

Lemma heads_abs_path_snoc (L : list str) (k : str) :
  L <> [] -> forallb valid_name L = true -> valid_name k = true ->
  heads (abs_path (L ++ [k])) = (abs_path L, k).
Proof.
  intros HL F Hk. unfold heads. rewrite split_abs_path_snoc by assumption.
  apply valid_name_ok in Hk. destruct k; [now destruct Hk | reflexivity].
Qed.

Section Create.

Variable cwd : loc.

Lemma start_abs_path (L : list str) : start cwd (abs_path L) = [].
Proof. reflexivity. Qed.

(** Where the absolute path of names leads. *)
Lemma resolve_abs_path (fs : node) (L : list str) (n : node) :
  L <> [] -> forallb valid_name L = true ->
  lookup fs L = Some n ->
  resolve cwd fs (abs_path L) = inr L.
Proof.
  intros HL F H. unfold resolve. rewrite abs_path_not_nil, start_abs_path.
  rewrite split_abs_path by assumption. simpl.
  destruct fs as [d|es].
  - destruct L; [contradiction | discriminate].
  - now apply (walk_names (Dir es) L [] n).
Qed.

Lemma resolve_abs_path_inv (fs : node) (L : list str) (l : loc) :
  L <> [] -> forallb valid_name L = true ->
  resolve cwd fs (abs_path L) = inr l ->
  l = L /\ exists n, lookup fs L = Some n.
Proof.
  intros HL F R. unfold resolve in R.
  rewrite abs_path_not_nil, start_abs_path, split_abs_path in R by assumption.
  simpl in R. destruct fs as [d|es]; [discriminate|].
  pose proof (walk_names_inv (Dir es) L [] l F R) as E. simpl in E. subst l.
  split; [reflexivity|].
  apply (walk_exists (Dir es) L [] L); [now exists (Dir es) | exact R].
Qed.

Lemma exists_abs_path (fs : node) (L : list str) :
  L <> [] -> forallb valid_name L = true ->
  exists_in cwd fs (abs_path L) = match lookup fs L with Some _ => true | None => false end.
Proof.
  intros HL F. unfold exists_in, path_test.
  rewrite fs_path_exn_abs_path by assumption. unfold stat.
  destruct (lookup fs L) as [n|] eqn:E.
  - now rewrite (resolve_abs_path fs L n HL F E), E.
  - destruct (resolve cwd fs (abs_path L)) as [e|l] eqn:R; [reflexivity|].
    destruct (resolve_abs_path_inv fs L l HL F R) as [_ [n Hn]]. congruence.
Qed.

Lemma isdir_abs_path (fs : node) (L : list str) (es : list (str * node)) :
  L <> [] -> forallb valid_name L = true ->
  lookup fs L = Some (Dir es) ->
  isdir_in cwd fs (abs_path L) = true.
Proof.
  intros HL F H. unfold isdir_in.
  rewrite (path_test_intro cwd _ fs (Dir es)); [reflexivity | |].
  - now apply fs_path_exn_abs_path.
  - apply (stat_intro cwd fs _ _ L); [|exact H].
    now apply (resolve_abs_path fs L (Dir es)).
Qed.

Lemma special_name (k : str) : valid_name k = true -> special k = false.
Proof.
  intro H. apply valid_name_ok in H. unfold special.
  replace (eqb k []) with false by (symmetry; apply eqb_neq, H).
  replace (eqb k curdir) with false by (symmetry; apply eqb_neq, H).
  replace (eqb k pardir) with false by (symmetry; apply eqb_neq, H).
  reflexivity.
Qed.

Lemma dot_or_dotdot_name (k : str) : valid_name k = true -> dot_or_dotdot k = false.
Proof.
  intro H. apply valid_name_ok in H. unfold dot_or_dotdot.
  replace (eqb k curdir) with false by (symmetry; apply eqb_neq, H).
  replace (eqb k pardir) with false by (symmetry; apply eqb_neq, H).
  reflexivity.
Qed.

(** What a call looks at for the absolute path of names. *)
Lemma parent_and_name_abs_path (fs : node) (L : list str) (k : str)
    (es : list (str * node)) :
  L <> [] -> forallb valid_name L = true -> valid_name k = true ->
  lookup fs L = Some (Dir es) ->
  parent_and_name cwd fs (abs_path (L ++ [k])) = inr (Some (L, k, false)).
Proof.
  intros HL F Hk H.
  assert (F' : forallb valid_name (L ++ [k]) = true) by now rewrite forallb_snoc, F, Hk.
  apply (parent_and_name_intro cwd fs _ ([] :: L) k L es).
  - intro E. pose proof (abs_path_not_nil (L ++ [k])) as N. now rewrite E in N.
  - apply valid_name_ok in Hk. apply Hk.
  - rewrite split_abs_path by (assumption || now destruct L). reflexivity.
  - rewrite start_abs_path. simpl. destruct fs as [d|es0].
    + destruct L; [contradiction | discriminate].
    + now apply (walk_names (Dir es0) L [] (Dir es)).
  - exact H.
Qed.

(** [mkdir] of a name that is missing in a directory that exists. *)
Lemma make_creates (fs : node) (L : list str) (k : str) (es : list (str * node))
    (ok : bool) :
  L <> [] -> forallb valid_name L = true -> valid_name k = true ->
  lookup fs L = Some (Dir es) ->
  lookup fs (L ++ [k]) = None ->
  make cwd (abs_path (L ++ [k])) ok fs
  = (inr tt, modify (add_entry k (Dir [])) L fs).
Proof.
  intros HL F Hk H N. unfold make, os_mkdir, syscall.
  rewrite fs_path_exn_abs_path by now rewrite forallb_snoc, F, Hk.
  unfold mkdir. rewrite (parent_and_name_abs_path fs L k es) by assumption.
  now rewrite dot_or_dotdot_name, N.
Qed.

Lemma created_dir (fs : node) (L : list str) (k : str) (es : list (str * node)) :
  lookup fs L = Some (Dir es) ->
  lookup fs (L ++ [k]) = None ->
  sub fs (modify (add_entry k (Dir [])) L fs)
  /\ lookup (modify (add_entry k (Dir [])) L fs) (L ++ [k]) = Some (Dir []).
Proof.
  intros H N. split.
  - apply modify_sub. intros n Hn. rewrite H in Hn. injection Hn as <-.
    apply sub_add_entry.
  - rewrite (lookup_modify _ L [k] fs (Dir es) H). simpl.
    rewrite lookup_snoc, H in N. rewrite assoc_app, N. simpl. now rewrite eqb_refl.
Qed.

(** [os.makedirs] along a chain of names none of which is a regular file:
    it returns, removes nothing, and leaves a directory at the end of the
    chain, an empty one unless the directory was there. *)
Lemma makedirs_chain (names : list str) :
  forall (l : list str) (fs : node) (fuel : nat),
    l <> [] -> forallb valid_name l = true ->
    forallb valid_name names = true ->
    (exists es, lookup fs l = Some (Dir es)) ->
    (forall p q d, names = p ++ q -> lookup fs (l ++ p) <> Some (File d)) ->
    (List.length names < fuel)%nat ->
    exists fs' es',
      makedirs_rec cwd fuel (abs_path (l ++ names)) true fs = (inr tt, fs')
      /\ sub fs fs'
      /\ lookup fs' (l ++ names) = Some (Dir es')
      /\ (fs' = fs \/ es' = []).
Proof.
  induction names as [|k ns IH] using rev_ind;
    intros l fs fuel Hl Fl Fn [es Hes] Hfree Hfuel.
  - destruct fuel as [|fuel]; [simpl in Hfuel; lia|].
    rewrite app_nil_r. exists fs, es.
    rewrite makedirs_existing by now apply (isdir_abs_path fs l es).
    repeat split; [apply sub_refl | assumption | now left].
  - rewrite forallb_snoc in Fn. apply andb_true_iff in Fn as [Fns Hk].
    rewrite length_app in Hfuel. simpl in Hfuel.
    destruct fuel as [|fuel]; [lia|].
    assert (HL : l ++ ns <> []) by now destruct l.
    assert (FL : forallb valid_name (l ++ ns) = true) by now rewrite forallb_app, Fl, Fns.
    rewrite app_assoc.
    destruct (lookup fs ((l ++ ns) ++ [k])) as [[d|es1]|] eqn:Target.
    + exfalso. apply (Hfree (ns ++ [k]) [] d); [now rewrite app_nil_r|].
      now rewrite app_assoc.
    + exists fs, es1.
      rewrite makedirs_existing.
      * repeat split; [apply sub_refl | assumption | now left].
      * apply (isdir_abs_path fs _ es1); [now destruct (l ++ ns) | | assumption].
        now rewrite forallb_snoc, FL, Hk.
    + rewrite makedirs_rec_step, heads_abs_path_snoc by assumption. cbn [fst snd].
      replace (eqb k curdir) with false
        by (symmetry; apply eqb_neq; apply valid_name_ok in Hk; apply Hk).
      replace (is_nil (abs_path (l ++ ns))) with false by reflexivity.
      replace (is_nil k) with false
        by (apply valid_name_ok in Hk; destruct k; [now destruct Hk | reflexivity]).
      cbn [negb andb]. rewrite exists_abs_path by assumption.
      destruct (lookup fs (l ++ ns)) as [[d|es0]|] eqn:Parent.
      * exfalso. apply (Hfree ns [k] d); [reflexivity | assumption].
      * cbn [negb]. rewrite (make_creates fs (l ++ ns) k es0) by assumption.
        destruct (created_dir fs (l ++ ns) k es0 Parent Target) as [S C].
        eexists; exists []. repeat split; [exact S | exact C | now right].
      * cbn [negb].
        destruct (IH l fs fuel Hl Fl Fns (ex_intro _ es Hes)) as [fs1 [es1 [M [S1 [L1 E1]]]]].
        { intros p q d E. apply (Hfree p (q ++ [k]) d). now rewrite E, app_assoc. }
        { lia. }
        rewrite M.
        destruct E1 as [E1|E1]; [subst fs1; congruence|]. subst es1.
        assert (T1 : lookup fs1 ((l ++ ns) ++ [k]) = None)
          by now rewrite lookup_snoc, L1.
        rewrite (make_creates fs1 (l ++ ns) k [] true HL FL Hk L1 T1).
        destruct (created_dir fs1 (l ++ ns) k [] L1 T1) as [S C].
        eexists; exists []. repeat split;
          [exact (sub_trans _ _ _ S1 S) | exact C | now right].
Qed.

End Create.

End CreateFacts.
Import CreateFacts.

Module CreateFileFacts.

Import PosixPath.

Lemma join_length (L : list str) :
  forallb valid_name L = true ->
  (List.length L <= List.length (PyStr.join sep L))%nat.
Proof.
  induction L as [|k L IH]; intro F; [simpl; lia|].
  cbn [forallb] in F. apply andb_true_iff in F as [Hk F].
  apply valid_name_ok in Hk. destruct k as [|x k]; [now destruct Hk|].
  destruct L as [|k' L]; [simpl; lia|].
  rewrite join_cons by discriminate. specialize (IH F).
  rewrite !length_app. simpl in *. lia.
Qed.

Lemma join_names_relative (L : list str) (k : str) :
  forallb valid_name (L ++ [k]) = true ->
  startswith (PyStr.join sep (L ++ [k])) sep = false.
Proof.
  intro F. destruct L as [|a L].
  - simpl in *. rewrite andb_true_r in F. now apply name_not_abs.
  - simpl app in *. cbn [forallb] in F. apply andb_true_iff in F as [Ha _].
    rewrite join_cons by now destruct L.
    apply valid_name_ok in Ha. destruct a as [|x a]; [now destruct Ha|].
    simpl. destruct (x =? SLASH) eqn:X; [|reflexivity].
    apply Z.eqb_eq in X. subst. exfalso. apply (name_no_slash _ Ha). now left.
Qed.

Section CreateFile.

Variable cwd : loc.
Hypothesis cwd_ok : forallb valid_name cwd = true.

Lemma filepath_of_names (names : list str) (name : str) :
  forallb valid_name (names ++ [name]) = true ->
  os_path_join (WORKSPACE cwd) (PyStr.join sep (names ++ [name]))
  = abs_path ((workspace_loc cwd ++ names) ++ [name]).
Proof.
  intro F. rewrite join_WORKSPACE_rel by (assumption || now apply join_names_relative).
  rewrite WORKSPACE_eq by assumption. unfold abs_path.
  replace ((workspace_loc cwd ++ names) ++ [name])
    with (workspace_loc cwd ++ (names ++ [name])) by apply app_assoc.
  rewrite (join_app sep (workspace_loc cwd) (names ++ [name]));
    [now rewrite <- app_assoc | now apply workspace_loc_not_nil | now destruct names].
Qed.

(** [write_file] below the workspace when nothing is in the way: the call
    returns, the file holds the bytes of the content, and nothing that was
    in the tree has gone.  The directories of the path that were missing
    are there afterwards, since the file is. *)
Lemma write_file_creates (fs : node) (names : list str) (name content : str)
    (bs : list Z) (es : list (str * node)) :
  forallb valid_name (names ++ [name]) = true ->
  lookup fs (workspace_loc cwd) = Some (Dir es) ->
  (forall p q d, names = p ++ q -> lookup fs (workspace_loc cwd ++ p) <> Some (File d)) ->
  (forall es', lookup fs ((workspace_loc cwd ++ names) ++ [name]) <> Some (Dir es')) ->
  Text.encode content = Some bs ->
  exists fs1,
    write_file cwd (PyStr.join sep (names ++ [name])) content fs
    = (inr ([CHECK] ++ py " Wrote to " ++ PyStr.join sep (names ++ [name])), fs1)
    /\ lookup fs1 ((workspace_loc cwd ++ names) ++ [name]) = Some (File bs)
    /\ sub fs fs1.
Proof.
  intros F Hws Hfree Htarget E.
  pose proof F as F'. rewrite forallb_snoc in F'.
  apply andb_true_iff in F' as [Fn Hk].
  assert (Fw := workspace_names_ok cwd cwd_ok).
  assert (Hw := workspace_loc_not_nil cwd).
  set (L := workspace_loc cwd ++ names) in *.
  assert (HL : L <> []) by (unfold L; now destruct (workspace_loc cwd)).
  assert (FL : forallb valid_name L = true) by (unfold L; now rewrite forallb_app, Fw, Fn).
  unfold write_file. rewrite (filepath_of_names names name F). fold L.
  unfold os_path_dirname, dirname. rewrite split_abs_path_snoc by assumption.
  cbn [fst].
  destruct (makedirs_chain cwd names (workspace_loc cwd) fs
              (S (List.length (abs_path L))) Hw Fw Fn (ex_intro _ es Hws) Hfree)
    as [fs1 [es1 [M [S1 [L1 E1]]]]].
  { pose proof (join_length L FL) as J. unfold abs_path. rewrite length_app.
    unfold L in J at 1. rewrite length_app in J. simpl. lia. }
  fold L in M, L1.
  unfold os_makedirs. rewrite (bind_step _ _ fs fs1 tt M).
  assert (T1 : forall es', lookup fs1 (L ++ [name]) <> Some (Dir es')).
  { destruct E1 as [E1|E1]; [subst fs1; exact Htarget|]. subst es1.
    intros es'. now rewrite lookup_snoc, L1. }
  assert (O : exists fs2,
            open_create cwd true fs1 (abs_path (L ++ [name])) = inr (L ++ [name], fs2)).
  { unfold open_create.
    rewrite (parent_and_name_abs_path cwd fs1 L name es1) by assumption.
    cbn [orb]. rewrite dot_or_dotdot_name by assumption.
    destruct (lookup fs1 (L ++ [name])) as [[d|es']|] eqn:T;
      [eauto | now elim (T1 es') | eauto]. }
  destruct O as [fs2 O].
  destruct (open_create_file cwd true fs1 fs2 _ _ O) as [S2 [R [d [L2 [Hd _]]]]].
  rewrite (Hd eq_refl) in L2.
  assert (OW : open_write cwd true (abs_path (L ++ [name])) fs1 = (inr (L ++ [name]), fs2)).
  { unfold open_write, syscall.
    rewrite fs_path_exn_abs_path by now rewrite forallb_snoc, FL, Hk.
    now rewrite O. }
  rewrite (bind_step _ _ fs1 fs2 _ OW).
  unfold bind, file_write, Text.write_text. rewrite E. unfold ret.
  exists (modify (append_data bs) (L ++ [name]) fs2). split; [reflexivity|]. split.
  - exact (lookup_modify_here (append_data bs) _ fs2 (File []) L2).
  - apply (sub_trans _ _ _ S1), (sub_trans _ _ _ S2).
    destruct (append_data_file bs) as [Hf Hdir].
    now apply sub_modify_file.
Qed.

End CreateFile.

End CreateFileFacts.
Import CreateFileFacts.
(** ** Facts about what a change of the tree leaves in place *)

Module FrameFacts.

Import PosixPath.

Lemma below_refl (h : loc) : below h h.
Proof. exists []. now rewrite app_nil_r. Qed.

Lemma below_trans (a b c : loc) : below a b -> below b c -> below a c.
Proof. intros [r ->] [s ->]. exists (r ++ s). now rewrite app_assoc. Qed.

Lemma below_app (h r : loc) : below h (h ++ r).
Proof. now exists r. Qed.

Lemma below_cons (k : str) (h l : loc) : below (k :: h) (k :: l) <-> below h l.
Proof.
  split; intros [r H].
  - injection H as ->. now exists r.
  - subst l. now exists r.
Qed.

Lemma same_at_refl (a : node) (l : loc) : same_at a a l.
Proof. unfold same_at. now destruct (lookup a l) as [[d|es]|]. Qed.

Lemma same_at_trans (a b c : node) (l : loc) :
  same_at a b l -> same_at b c l -> same_at a c l.
Proof.
  unfold same_at.
  destruct (lookup a l) as [[d|es]|], (lookup b l) as [[d'|es']|],
    (lookup c l) as [[d''|es'']|]; try tauto; congruence.
Qed.

Lemma same_at_sym (a b : node) (l : loc) : same_at a b l -> same_at b a l.
Proof.
  unfold same_at.
  destruct (lookup a l) as [[d|es]|], (lookup b l) as [[d'|es']|]; try tauto; congruence.
Qed.

Lemma same_at_file (a b : node) (l : loc) (d : list Z) :
  same_at a b l -> lookup a l = Some (File d) -> lookup b l = Some (File d).
Proof.
  unfold same_at. intros H E. rewrite E in H.
  destruct (lookup b l) as [[d'|es']|]; try tauto. now subst.
Qed.

Lemma same_at_dir (a b : node) (l : loc) (es : list (str * node)) :
  same_at a b l -> lookup a l = Some (Dir es) -> exists es', lookup b l = Some (Dir es').
Proof.
  unfold same_at. intros H E. rewrite E in H.
  destruct (lookup b l) as [[d'|es']|]; try tauto. now exists es'.
Qed.

Lemma same_at_none (a b : node) (l : loc) :
  same_at a b l -> lookup a l = None -> lookup b l = None.
Proof.
  unfold same_at. intros H E. rewrite E in H.
  now destruct (lookup b l) as [[d'|es']|].
Qed.

Lemma only_below_refl (c : loc) (a : node) : only_below c a a.
Proof. intros l _. apply same_at_refl. Qed.

Lemma only_below_trans (c : loc) (a b d : node) :
  only_below c a b -> only_below c b d -> only_below c a d.
Proof. intros H1 H2 l N. eapply same_at_trans; [apply H1 | apply H2]; exact N. Qed.

Lemma only_below_weaken (c c' : loc) (a b : node) :
  below c' c -> only_below c a b -> only_below c' a b.
Proof.
  intros B H l N. apply H. intro B'. apply N. eapply below_trans; eassumption.
Qed.

(** A change made at [h] shows at [h] and below it only. *)
Lemma modify_only_below (g : node -> node) (h : loc) :
  forall fs, only_below h fs (modify g h fs).
Proof.
  induction h as [|k h IH]; intros fs l N.
  - exfalso. apply N. now exists l.
  - destruct l as [|x l].
    + unfold same_at. simpl. destruct fs as [d|es]; [reflexivity|exact I].
    + unfold same_at. destruct fs as [d|es]; simpl; [exact I|].
      rewrite assoc_map_entry.
      destruct (eqb x k) eqn:E.
      * apply eqb_eq in E. subst x.
        destruct (assoc k es) as [c|]; simpl; [|exact I].
        apply IH. intro B. apply N. now apply below_cons.
      * destruct (assoc x es) as [c|]; [|exact I]. apply same_at_refl.
Qed.

(** A change of the entry [k] of the directory at [p] shows at that entry
    and below it only. *)
Lemma modify_entry_only_below (g : node -> node) (p : loc) (k : str) (fs : node) :
  (forall d, g (File d) = File d) ->
  (forall es, exists es', g (Dir es) = Dir es'
                          /\ forall x, x <> k -> assoc x es' = assoc x es) ->
  only_below (p ++ [k]) fs (modify g p fs).
Proof.
  intros Hf Hd l N.
  destruct (lookup fs p) as [n|] eqn:Lp.
  2:{ rewrite (modify_missing g p fs Lp). apply same_at_refl. }
  assert (D : (exists r, l = p ++ r) \/ ~ below p l).
  { clear. revert l. induction p as [|a p IH]; intro l.
    - left. now exists l.
    - destruct l as [|x l].
      + right. intros [r H]. discriminate.
      + destruct (eqb x a) eqn:E.
        * apply eqb_eq in E. subst x. destruct (IH l) as [[r ->]|B].
          -- left. now exists r.
          -- right. intro B'. apply B. now apply below_cons in B'.
        * right. intros [r H]. injection H as -> _. now rewrite eqb_refl in E. }
  destruct D as [[r ->]|B]; [|now apply modify_only_below].
  unfold same_at. rewrite (lookup_modify g p r fs n Lp), lookup_app, Lp.
  destruct r as [|x r].
  - simpl. destruct n as [d|es]; [now rewrite Hf|].
    destruct (Hd es) as [es' [-> _]]. exact I.
  - destruct n as [d|es]; [rewrite Hf; exact I|].
    destruct (Hd es) as [es' [-> Ha]]. simpl.
    rewrite Ha.
    + destruct (assoc x es) as [c|]; [|exact I].
      destruct (lookup c r) as [[d|es'']|]; auto.
    + intros ->. apply N. exists r. now rewrite <- app_assoc.
Qed.

Lemma add_entry_only_below (p : loc) (k : str) (c : node) (fs : node) :
  lookup fs (p ++ [k]) = None ->
  only_below (p ++ [k]) fs (modify (add_entry k c) p fs).
Proof.
  intro L. apply modify_entry_only_below; [reflexivity|].
  intro es. exists (es ++ [(k, c)]). split; [reflexivity|].
  intros x Hx. rewrite assoc_app. destruct (assoc x es); [reflexivity|].
  simpl. destruct (eqb k x) eqn:E; [|reflexivity].
  apply eqb_eq in E. now subst.
Qed.

Lemma del_entry_only_below (p : loc) (k : str) (fs : node) :
  only_below (p ++ [k]) fs (modify (del_entry k) p fs).
Proof.
  apply modify_entry_only_below; [reflexivity|].
  intro es. exists (del_entry_list k es). split; [reflexivity|].
  intros x Hx. rewrite DirFacts.assoc_del_entry.
  apply eqb_neq in Hx. now rewrite Hx.
Qed.

Lemma keeps_refl (a : node) : keeps a a.
Proof. intros l [d|es] H; [exact H | now exists es]. Qed.

Lemma keeps_trans (a b c : node) : keeps a b -> keeps b c -> keeps a c.
Proof.
  intros H1 H2 l n L. specialize (H1 l n L). destruct n as [d|es].
  - exact (H2 l (File d) H1).
  - destruct H1 as [es' H1]. exact (H2 l (Dir es') H1).
Qed.

Lemma keeps_sub (a b : node) : keeps a b -> sub a b.
Proof.
  intros H l n L. specialize (H l n L). destruct n as [d|es].
  - now exists (File d).
  - destruct H as [es' H]. now exists (Dir es').
Qed.

Lemma lookup_below_none (fs : node) (c l : loc) :
  lookup fs c = None -> below c l -> lookup fs l = None.
Proof. intros H [r ->]. now rewrite lookup_app, H. Qed.

Lemma lookup_below_file (fs : node) (c l : loc) (d : list Z) :
  lookup fs c = Some (File d) -> below c l -> l <> c -> lookup fs l = None.
Proof.
  intros H [r ->] N. rewrite lookup_app, H. destruct r as [|x r]; [|reflexivity].
  now rewrite app_nil_r in N.
Qed.

(** A change below a place that held nothing keeps all there was. *)
Lemma only_below_keeps (c : loc) (a b : node) :
  only_below c a b -> lookup a c = None -> keeps a b.
Proof.
  intros H Lc l n L.
  assert (N : ~ below c l).
  { intro B. rewrite (lookup_below_none a c l Lc B) in L. discriminate. }
  specialize (H l N). destruct n as [d|es].
  - now apply (same_at_file a b).
  - now apply (same_at_dir a b l es).
Qed.

End FrameFacts.
Import FrameFacts.
(** ** Facts about where the system calls change the tree *)

Module CallFacts.

Import PosixPath.

Section Calls.

Variable cwd : loc.

Lemma mkdir_inv (fs fs' : node) (path : str) :
  mkdir cwd fs path = inr fs' ->
  exists (p : loc) (name : str) (tr : bool),
    parent_and_name cwd fs path = inr (Some (p, name, tr))
    /\ special name = false
    /\ lookup fs (p ++ [name]) = None
    /\ fs' = modify (add_entry name (Dir [])) p fs.
Proof.
  unfold mkdir.
  destruct (parent_and_name cwd fs path) as [e|[[[p name] tr]|]] eqn:P;
    try discriminate.
  destruct (dot_or_dotdot name) eqn:D; [discriminate|].
  destruct (lookup fs (p ++ [name])) eqn:L; [discriminate|].
  intro H. injection H as <-. exists p, name, tr.
  split; [reflexivity|]. split; [|now split].
  unfold dot_or_dotdot in D. apply orb_false_iff in D. destruct D as [D1 D2].
  unfold special. rewrite D1, D2.
  destruct (parent_and_name_inv cwd fs path p name tr P) as [_ [Hn _]].
  apply eqb_neq in Hn. now rewrite Hn.
Qed.

Lemma unlink_inv (fs fs' : node) (path : str) :
  unlink cwd fs path = inr fs' ->
  exists (p : loc) (name : str) (d : list Z),
    parent_and_name cwd fs path = inr (Some (p, name, false))
    /\ special name = false
    /\ lookup fs (p ++ [name]) = Some (File d)
    /\ fs' = modify (del_entry name) p fs.
Proof.
  unfold unlink.
  destruct (parent_and_name cwd fs path) as [e|[[[p name] tr]|]] eqn:P;
    try discriminate.
  destruct (dot_or_dotdot name) eqn:D; [discriminate|].
  destruct (lookup fs (p ++ [name])) as [[d|es]|] eqn:L; try discriminate.
  destruct tr; [discriminate|].
  intro H. injection H as <-. exists p, name, d.
  split; [reflexivity|]. split; [|now split].
  unfold dot_or_dotdot in D. apply orb_false_iff in D. destruct D as [D1 D2].
  unfold special. rewrite D1, D2.
  destruct (parent_and_name_inv cwd fs path p name false P) as [_ [Hn _]].
  apply eqb_neq in Hn. now rewrite Hn.
Qed.

Lemma rmdir_empty (fs fs' : node) (path : str) :
  rmdir cwd fs path = inr fs' ->
  exists (p : loc) (name : str) (tr : bool),
    parent_and_name cwd fs path = inr (Some (p, name, tr))
    /\ special name = false
    /\ lookup fs (p ++ [name]) = Some (Dir [])
    /\ fs' = modify (del_entry name) p fs.
Proof.
  intro H. destruct (rmdir_inv cwd fs fs' path H) as [p [name [tr [P [Sp E]]]]].
  exists p, name, tr. repeat split; try assumption.
  unfold rmdir in H. rewrite P in H.
  destruct (eqb name curdir); [discriminate|].
  destruct (eqb name pardir); [discriminate|].
  now destruct (lookup fs (p ++ [name])) as [[d|[|e es]]|].
Qed.

(** [mkdir] keeps all there was, whatever its outcome. *)
Lemma os_mkdir_keeps (path : str) (fs fs' : node) (r : exn + unit) :
  os_mkdir cwd path fs = (r, fs') -> keeps fs fs'.
Proof.
  unfold os_mkdir, syscall.
  destruct (fs_path_exn path); [intro H; injection H as _ <-; apply keeps_refl|].
  destruct (mkdir cwd fs path) as [e|fs1] eqn:M;
    intro H; injection H as _ <-; [apply keeps_refl|].
  destruct (mkdir_inv fs fs1 path M) as [p [name [tr [_ [_ [L ->]]]]]].
  apply (only_below_keeps (p ++ [name])); [|exact L].
  now apply add_entry_only_below.
Qed.

Lemma make_keeps (name : str) (ok : bool) (fs fs' : node) (r : exn + unit) :
  make cwd name ok fs = (r, fs') -> keeps fs fs'.
Proof.
  unfold make. destruct (os_mkdir cwd name fs) as [[e|u] fs1] eqn:M.
  - pose proof (os_mkdir_keeps name fs fs1 _ M) as K.
    destruct e; try (intro H; injection H as _ <-; exact K).
    destruct (negb ok || negb (isdir_in cwd fs1 name));
      intro H; injection H as _ <-; exact K.
  - intro H. injection H as _ <-. exact (os_mkdir_keeps name fs fs1 _ M).
Qed.

Lemma makedirs_keeps (fuel : nat) :
  forall (name : str) (ok : bool) (fs fs' : node) (r : exn + unit),
    makedirs_rec cwd fuel name ok fs = (r, fs') -> keeps fs fs'.
Proof.
  induction fuel as [|fuel IH]; intros name ok fs fs' r.
  - simpl. intro H. injection H as _ <-. apply keeps_refl.
  - rewrite makedirs_rec_step.
    destruct (negb (is_nil (fst (heads name))) && negb (is_nil (snd (heads name)))
              && negb (exists_in cwd fs (fst (heads name)))).
    2:{ apply make_keeps. }
    destruct (makedirs_rec cwd fuel (fst (heads name)) ok fs) as [[e|u] fs1] eqn:R.
    + pose proof (IH _ _ _ _ _ R) as K.
      destruct e as [m| | | | |[]]; try (intro H; injection H as _ <-; exact K).
      destruct (eqb (snd (heads name)) curdir).
      * intro H; injection H as _ <-; exact K.
      * intro H. eapply keeps_trans; [exact K|]. eapply make_keeps; exact H.
    + pose proof (IH _ _ _ _ _ R) as K.
      destruct (eqb (snd (heads name)) curdir).
      * intro H; injection H as _ <-; exact K.
      * intro H. eapply keeps_trans; [exact K|]. eapply make_keeps; exact H.
Qed.

Lemma os_makedirs_keeps (name : str) (ok : bool) (fs fs' : node) (r : exn + unit) :
  os_makedirs cwd name ok fs = (r, fs') -> keeps fs fs'.
Proof. apply makedirs_keeps. Qed.

(** A file that is not the one at [h] does not lie below [h] when [h]
    holds a file or nothing. *)
Lemma file_elsewhere (fs : node) (h l : loc) (d : list Z) :
  lookup fs l = Some (File d) ->
  (forall es, lookup fs h <> Some (Dir es)) ->
  l <> h -> ~ below h l.
Proof.
  intros L Nd Ne B.
  destruct (lookup fs h) as [[d'|es]|] eqn:Lh.
  - rewrite (lookup_below_file fs h l d' Lh B Ne) in L. discriminate.
  - now elim (Nd es).
  - rewrite (lookup_below_none fs h l Lh B) in L. discriminate.
Qed.

End Calls.

End CallFacts.
Import CallFacts.
(** ** The steps of the calls that write *)

Module StepFacts.

Import PosixPath.

Lemma bind_cases {A B} (m : M A) (k : A -> M B) (fs fs' : node) (r : exn + B) :
  bind m k fs = (r, fs') ->
  (exists e, m fs = (inl e, fs') /\ r = inl e)
  \/ exists a fs1, m fs = (inr a, fs1) /\ k a fs1 = (r, fs').
Proof.
  unfold bind. destruct (m fs) as [[e|a] fs1].
  - intro H. injection H as <- <-. left. now exists e.
  - intro H. right. now exists a, fs1.
Qed.

Lemma syscall_cases {A} (path : str) (f : node -> errno + (A * node))
    (fs fs' : node) (r : exn + A) :
  syscall path f fs = (r, fs') ->
  (fs' = fs /\ exists e, r = inl e)
  \/ exists a, fs_path_exn path = None /\ f fs = inr (a, fs') /\ r = inr a.
Proof.
  unfold syscall. destruct (fs_path_exn path) as [e|].
  - intro H. injection H as <- <-. left. split; [reflexivity | now exists e].
  - destruct (f fs) as [e|[a fs1]]; intro H; injection H as <- <-.
    + left. split; [reflexivity | now eexists].
    + right. now exists a.
Qed.

Section Steps.

Variable cwd : loc.

(** The course of [write_file]: the directories are made, the file is
    opened and cut to nothing, the bytes are written. *)
Lemma write_file_steps (f c : str) (fs fs' : node) (r : exn + str) :
  write_file cwd f c fs = (r, fs') ->
  exists fs1,
    keeps fs fs1
    /\ ((fs' = fs1 /\ exists e, r = inl e)
        \/ exists h fs2,
             fs_path_exn (os_path_join (WORKSPACE cwd) f) = None
             /\ open_create cwd true fs1 (os_path_join (WORKSPACE cwd) f) = inr (h, fs2)
             /\ ((Text.encode c = None /\ fs' = fs2 /\ r = inl UnicodeEncodeError)
                 \/ exists bs, Text.encode c = Some bs
                               /\ fs' = modify (append_data bs) h fs2
                               /\ r = inr ([CHECK] ++ py " Wrote to " ++ f))).
Proof.
  unfold write_file. intro H.
  apply bind_cases in H as [[e [H ->]]|[u [fs1 [M H]]]].
  { exists fs'. split; [exact (os_makedirs_keeps cwd _ _ _ _ _ H)|].
    left. split; [reflexivity | now exists e]. }
  exists fs1. split; [exact (os_makedirs_keeps cwd _ _ _ _ _ M)|].
  apply bind_cases in H as [[e [H ->]]|[h [fs2 [O H]]]].
  { left. apply syscall_cases in H as [[-> _]|[a [_ [_ H]]]]; [|discriminate].
    split; [reflexivity | now exists e]. }
  right. exists h, fs2.
  apply syscall_cases in O as [[_ [e O]]|[a [Hp [O Ha]]]]; [discriminate|].
  injection Ha as <-.
  split; [exact Hp|]. split; [exact O|].
  unfold file_write, Text.write_text in H.
  destruct (Text.encode c) as [bs|].
  - right. exists bs. split; [reflexivity|].
    unfold bind, ret in H. injection H as <- <-. now split.
  - left. unfold bind, raise in H. injection H as <- <-. now split.
Qed.

(** The course of [append_file] once the test has passed. *)
Lemma append_file_steps (f c : str) (fs fs' : node) (r : exn + str) :
  append_file cwd f c fs = (r, fs') ->
  (isfile_in cwd fs (os_path_join (WORKSPACE cwd) f) = false
   /\ fs' = fs /\ r = inl (ValueError (py "File not found")))
  \/ (isfile_in cwd fs (os_path_join (WORKSPACE cwd) f) = true
      /\ ((fs' = fs /\ exists e, r = inl e)
          \/ exists h fs2,
               open_create cwd false fs (os_path_join (WORKSPACE cwd) f) = inr (h, fs2)
               /\ ((Text.encode c = None /\ fs' = fs2 /\ r = inl UnicodeEncodeError)
                   \/ exists bs, Text.encode c = Some bs
                                 /\ fs' = modify (append_data bs) h fs2
                                 /\ r = inr ([CHECK] ++ py " Appended to " ++ f)))).
Proof.
  unfold append_file. intro H.
  apply bind_cases in H as [[e [H _]]|[b [fs1 [Hb H]]]]; [discriminate|].
  unfold os_path_isfile, peek in Hb. injection Hb as <- <-.
  destruct (isfile_in cwd fs _); cbn [negb] in H.
  2:{ left. unfold raise in H. injection H as <- <-. now repeat split. }
  right. split; [reflexivity|].
  apply bind_cases in H as [[e [H ->]]|[h [fs2 [O H]]]].
  { left. apply syscall_cases in H as [[-> _]|[a [_ [_ H]]]]; [|discriminate].
    split; [reflexivity | now exists e]. }
  right. exists h, fs2.
  apply syscall_cases in O as [[_ [e O]]|[a [Hp [O Ha]]]]; [discriminate|].
  injection Ha as <-. split; [exact O|].
  unfold file_write, Text.write_text in H.
  destruct (Text.encode c) as [bs|].
  - right. exists bs. split; [reflexivity|].
    unfold bind, ret in H. injection H as <- <-. now split.
  - left. unfold bind, raise in H. injection H as <- <-. now split.
Qed.

(** What opening a file for writing changes: the file itself, or the new
    entry. *)
Lemma open_create_frame (trunc : bool) (fs fs' : node) (path : str) (h : loc) :
  open_create cwd trunc fs path = inr (h, fs') ->
  only_below h fs fs' /\ forall es, lookup fs h <> Some (Dir es).
Proof.
  intro O.
  destruct (open_create_inv cwd trunc fs fs' path h O)
    as [pre [name [p [es [_ [_ [_ [_ [_ [-> [[d [L ->]]|[L ->]]]]]]]]]]]].
  - split; [|intros es' E; congruence].
    destruct trunc; [apply modify_only_below | apply only_below_refl].
  - split; [|intros es' E; congruence].
    now apply add_entry_only_below.
Qed.

(** A file other than the one written to keeps its bytes. *)
Lemma write_file_other (f c : str) (fs fs' : node) (r : exn + str) :
  write_file cwd f c fs = (r, fs') ->
  forall l d,
    lookup fs l = Some (File d) ->
    resolve cwd fs' (os_path_join (WORKSPACE cwd) f) <> inr l ->
    lookup fs' l = Some (File d).
Proof.
  intros H l d L N.
  destruct (write_file_steps f c fs fs' r H) as [fs1 [K [[-> _]|[h [fs2 [_ [O W]]]]]]].
  - exact (K l (File d) L).
  - pose proof (K l (File d) L) as L1.
    destruct (open_create_frame true fs1 fs2 _ h O) as [F Nd].
    destruct (open_create_file cwd true fs1 fs2 _ h O) as [_ [R [d2 [L2 _]]]].
    assert (R' : resolve cwd fs' (os_path_join (WORKSPACE cwd) f) = inr h).
    { destruct W as [[_ [-> _]]|[bs [_ [-> _]]]]; [exact R|].
      apply resolve_modify_file; [apply append_data_file.. | exact R]. }
    assert (Ne : l <> h) by (intros ->; now apply N).
    assert (B : ~ below h l) by exact (file_elsewhere fs1 h l d L1 Nd Ne).
    pose proof (same_at_file fs1 fs2 l d (F l B) L1) as L2'.
    destruct W as [[_ [-> _]]|[bs [_ [-> _]]]]; [exact L2'|].
    exact (same_at_file _ _ l d (modify_only_below _ h fs2 l B) L2').
Qed.

(** [write_file] takes nothing away, whatever its outcome. *)
Lemma write_file_sub (f c : str) (fs fs' : node) (r : exn + str) :
  write_file cwd f c fs = (r, fs') -> sub fs fs'.
Proof.
  intro H.
  destruct (write_file_steps f c fs fs' r H) as [fs1 [K [[-> _]|[h [fs2 [_ [O W]]]]]]].
  - now apply keeps_sub.
  - apply (sub_trans fs fs1); [now apply keeps_sub|].
    destruct (open_create_file cwd true fs1 fs2 _ h O) as [S _].
    apply (sub_trans fs1 fs2); [exact S|].
    destruct W as [[_ [-> _]]|[bs [_ [-> _]]]]; [apply sub_refl|].
    apply sub_modify_file; apply append_data_file.
Qed.

End Steps.

End StepFacts.
Import StepFacts.
(** ** What removing and creating leave behind *)

Module EffectFacts.

Import PosixPath.

Section Effects.

Variable cwd : loc.

(** Once an entry is taken out of its directory the path to it leads
    nowhere. *)
Lemma entry_gone (fs : node) (path : str) (p : loc) (name : str) (tr : bool) :
  parent_and_name cwd fs path = inr (Some (p, name, tr)) ->
  special name = false ->
  lookup (modify (del_entry name) p fs) (p ++ [name]) = None
  /\ exists e, stat cwd (modify (del_entry name) p fs) path = inl e.
Proof.
  intros P Sp.
  destruct (parent_and_name_inv cwd fs path p name tr P)
    as [Hpath [Hn [pre [k [es [Hs [Hw [Hl _]]]]]]]].
  set (fs' := modify (del_entry name) p fs).
  assert (Lp : lookup fs' p = Some (Dir (del_entry_list name es)))
    by exact (lookup_modify_here (del_entry name) p fs (Dir es) Hl).
  split.
  { rewrite lookup_snoc, Lp, assoc_del_entry. now rewrite eqb_refl. }
  assert (S : sub fs' fs).
  { apply modify_sub_rev. intros n _. apply sub_del_entry. }
  unfold stat.
  destruct (resolve cwd fs' path) as [e|l] eqn:R; [now exists e|]. exfalso.
  unfold resolve in R. destruct (is_nil path); [discriminate|].
  rewrite Hs, !walk_app in R.
  destruct (walk fs' (start cwd path) pre) as [e|q] eqn:W; [discriminate|].
  pose proof (walk_sub fs' fs pre _ q S W) as W'. rewrite Hw in W'.
  injection W' as <-.
  rewrite (walk_one fs' p name _ Sp Lp), assoc_del_entry, eqb_refl in R.
  discriminate.
Qed.

(** [delete_file] on a regular file. *)
Lemma delete_file_effect (fs : node) (f : str) :
  isfile_in cwd fs (os_path_join (WORKSPACE cwd) f) = true ->
  exists h fs',
    resolve cwd fs (os_path_join (WORKSPACE cwd) f) = inr h
    /\ delete_file cwd f fs = (inr ([CHECK] ++ py " Deleted " ++ f), fs')
    /\ lookup fs' h = None
    /\ only_below h fs fs'
    /\ exists_in cwd fs' (os_path_join (WORKSPACE cwd) f) = false.
Proof.
  intro F. set (path := os_path_join (WORKSPACE cwd) f) in *.
  pose proof (isfile_exists cwd fs path F) as E.
  assert (D : isdir_in cwd fs path = false).
  { destruct (isdir_in cwd fs path) eqn:D; [|reflexivity].
    apply isdir_not_isfile in D. congruence. }
  destruct (path_test_inv cwd _ fs path F) as [Hp [[d|es] [St Hk]]]; [|discriminate].
  destruct (stat_file_inv cwd fs path d St)
    as [pre [name [p [es [Hs [Sp [Hw [Hl [Ha [R P]]]]]]]]]].
  exists (p ++ [name]), (modify (del_entry name) p fs).
  split; [exact R|].
  assert (L : lookup fs (p ++ [name]) = Some (File d)) by now rewrite lookup_snoc, Hl.
  assert (U : unlink cwd fs path = inr (modify (del_entry name) p fs)).
  { unfold unlink. rewrite P.
    unfold special in Sp. apply orb_false_iff in Sp as [Sp D2].
    apply orb_false_iff in Sp as [_ D1].
    unfold dot_or_dotdot. now rewrite D1, D2, L. }
  split.
  { unfold delete_file. fold path.
    unfold bind at 1. unfold os_path_exists, peek. rewrite E. cbn [negb].
    unfold bind at 1. unfold os_path_isdir, peek. rewrite D.
    unfold bind, os_remove, syscall. now rewrite Hp, U. }
  destruct (entry_gone fs path p name false P Sp) as [G [e St']].
  split; [exact G|]. split; [apply del_entry_only_below|].
  unfold exists_in, path_test. now rewrite Hp, St'.
Qed.

(** [shutil.rmtree] that returns has removed the directory the path led
    to, with all below it, and nothing else. *)
Lemma rmtree_effect (fs fs' : node) (path : str) :
  shutil_rmtree cwd path fs = (inr tt, fs') ->
  exists h es,
    resolve cwd fs path = inr h
    /\ lookup fs h = Some (Dir es)
    /\ lookup fs' h = None
    /\ only_below h fs fs'.
Proof.
  unfold shutil_rmtree. intro H.
  apply bind_ok in H as [n [fs0 [St H]]].
  apply syscall_ok in St as [Hp St].
  destruct (stat cwd fs path) as [e|n'] eqn:St'; [discriminate|].
  injection St as -> <-.
  destruct n as [d|es]; [discriminate|].
  apply bind_ok in H as [u [fs1 [E H]]].
  destruct (stat_inv cwd fs (Dir es) path St') as [l [R L]].
  rewrite R in E. injection E as _ <-.
  apply syscall_ok in H as [_ H].
  set (fs1 := modify (fun _ => Dir []) l fs) in *.
  destruct (rmdir cwd fs1 path) as [e|fs2] eqn:Rm; [discriminate|].
  injection H as <-.
  destruct (rmdir_empty cwd fs1 fs2 path Rm) as [p [name [tr [P [Sp [Le ->]]]]]].
  destruct (parent_and_name_inv cwd fs1 path p name tr P)
    as [Hpath [Hn [pre [k [es1 [Hs [Hw [Hl _]]]]]]]].
  assert (S : sub fs1 fs).
  { apply modify_sub_rev. intros n Hn'. rewrite L in Hn'. injection Hn' as <-.
    intros x m Hx. destruct x; [|discriminate]. injection Hx as <-.
    now exists (Dir es). }
  assert (R1 : resolve cwd fs1 path = inr (p ++ [name])).
  { rewrite (resolve_through_parent cwd fs1 path pre name k p es1); try assumption.
    pose proof Le as Le'. rewrite lookup_snoc, Hl in Le'. rewrite Le'.
    now apply (walk_empties_dir fs1 _ []). }
  assert (El : l = p ++ [name]).
  { unfold resolve in R, R1. destruct (is_nil path); [discriminate|].
    pose proof (walk_sub fs1 fs _ _ _ S R1) as R2. congruence. }
  subst l. exists (p ++ [name]), es.
  split; [exact R|]. split; [exact L|].
  destruct (entry_gone fs1 path p name tr P Sp) as [G _].
  split; [exact G|].
  apply (only_below_trans _ fs fs1).
  - apply modify_only_below.
  - apply del_entry_only_below.
Qed.

Lemma delete_directory_effect (fs fs' : node) (d r : str) :
  delete_directory cwd d fs = (inr r, fs') ->
  r = [CHECK] ++ py " Deleted directory " ++ d
  /\ exists h es,
       resolve cwd fs (os_path_join (WORKSPACE cwd) d) = inr h
       /\ lookup fs h = Some (Dir es)
       /\ lookup fs' h = None
       /\ only_below h fs fs'.
Proof.
  unfold delete_directory. intro H.
  apply bind_ok in H as [b [fs1 [Hb H]]].
  unfold os_path_exists, peek in Hb. injection Hb as <- <-.
  destruct (exists_in cwd fs _); cbn [negb] in H; [|discriminate].
  apply bind_ok in H as [b [fs1 [Hb H]]].
  unfold os_path_isdir, peek in Hb. injection Hb as <- <-.
  destruct (isdir_in cwd fs _); cbn [negb] in H; [|discriminate].
  destruct (eqb _ _); [discriminate|].
  apply bind_ok in H as [[] [fs1 [Rm H]]].
  unfold ret in H. injection H as <- <-.
  split; [reflexivity|]. now apply rmtree_effect.
Qed.

(** [os.makedirs] towards a place that holds nothing makes every
    directory that is missing on the way. *)
Lemma makedirs_fresh (names : list str) :
  forall (ok : bool) (l : list str) (fs : node) (fuel : nat),
    l <> [] -> forallb valid_name l = true ->
    forallb valid_name names = true ->
    (exists es, lookup fs l = Some (Dir es)) ->
    (forall p q d, names = p ++ q -> lookup fs (l ++ p) <> Some (File d)) ->
    lookup fs (l ++ names) = None ->
    (List.length names < fuel)%nat ->
    exists fs',
      makedirs_rec cwd fuel (abs_path (l ++ names)) ok fs = (inr tt, fs')
      /\ lookup fs' (l ++ names) = Some (Dir []).
Proof.
  induction names as [|k ns IH] using rev_ind;
    intros ok l fs fuel Hl Fl Fn [es Hes] Hfree Target Hfuel.
  - rewrite app_nil_r in Target. congruence.
  - rewrite forallb_snoc in Fn. apply andb_true_iff in Fn as [Fns Hk].
    rewrite length_app in Hfuel. simpl in Hfuel.
    destruct fuel as [|fuel]; [lia|].
    assert (HL : l ++ ns <> []) by now destruct l.
    assert (FL : forallb valid_name (l ++ ns) = true) by now rewrite forallb_app, Fl, Fns.
    rewrite app_assoc in Target |- *.
    rewrite makedirs_rec_step, heads_abs_path_snoc by assumption. cbn [fst snd].
    replace (eqb k curdir) with false
      by (symmetry; apply eqb_neq; apply valid_name_ok in Hk; apply Hk).
    replace (is_nil (abs_path (l ++ ns))) with false by reflexivity.
    replace (is_nil k) with false
      by (apply valid_name_ok in Hk; destruct k; [now destruct Hk | reflexivity]).
    cbn [negb andb]. rewrite exists_abs_path by assumption.
    destruct (lookup fs (l ++ ns)) as [[d|es0]|] eqn:Parent.
    + exfalso. apply (Hfree ns [k] d); [reflexivity | assumption].
    + cbn [negb]. rewrite (make_creates cwd fs (l ++ ns) k es0) by assumption.
      destruct (created_dir fs (l ++ ns) k es0 Parent Target) as [_ C].
      eexists. split; [reflexivity | exact C].
    + cbn [negb].
      destruct (IH ok l fs fuel Hl Fl Fns (ex_intro _ es Hes)) as [fs1 [M L1]].
      { intros p q d E. apply (Hfree p (q ++ [k]) d). now rewrite E, app_assoc. }
      { exact Parent. }
      { lia. }
      rewrite M.
      assert (T1 : lookup fs1 ((l ++ ns) ++ [k]) = None)
        by now rewrite lookup_snoc, L1.
      rewrite (make_creates cwd fs1 (l ++ ns) k [] ok HL FL Hk L1 T1).
      destruct (created_dir fs1 (l ++ ns) k [] L1 T1) as [_ C].
      eexists. split; [reflexivity | exact C].
Qed.

Hypothesis cwd_ok : forallb valid_name cwd = true.

(** [create_directory] for a path of names that leads to nothing. *)
Lemma create_directory_fresh (fs : node) (names : list str) (name : str)
    (es : list (str * node)) :
  forallb valid_name (names ++ [name]) = true ->
  lookup fs (workspace_loc cwd) = Some (Dir es) ->
  (forall p q d, names = p ++ q -> lookup fs (workspace_loc cwd ++ p) <> Some (File d)) ->
  lookup fs ((workspace_loc cwd ++ names) ++ [name]) = None ->
  exists fs',
    create_directory cwd (PyStr.join sep (names ++ [name])) fs
    = (inr ([CHECK] ++ py " Created directory " ++ PyStr.join sep (names ++ [name])), fs')
    /\ lookup fs' ((workspace_loc cwd ++ names) ++ [name]) = Some (Dir [])
    /\ keeps fs fs'.
Proof.
  intros F Hws Hfree Target.
  assert (Fw := workspace_names_ok cwd cwd_ok).
  assert (Hw := workspace_loc_not_nil cwd).
  set (L := workspace_loc cwd ++ names) in *.
  assert (HL : L ++ [name] <> []) by now destruct L.
  assert (FL : forallb valid_name (L ++ [name]) = true).
  { unfold L. now rewrite <- app_assoc, forallb_app, Fw, F. }
  unfold create_directory. rewrite (filepath_of_names cwd cwd_ok names name F). fold L.
  unfold bind at 1. unfold os_path_exists, peek.
  rewrite (exists_abs_path cwd fs (L ++ [name]) HL FL), Target.
  destruct (makedirs_fresh (names ++ [name]) false (workspace_loc cwd) fs
              (S (List.length (abs_path (L ++ [name])))) Hw Fw F (ex_intro _ es Hws))
    as [fs1 [M L1]].
  { intros p q d E. destruct q as [|x q] using rev_ind.
    - rewrite app_nil_r in E. subst p. unfold L in Target.
      rewrite <- app_assoc in Target. congruence.
    - rewrite app_assoc in E. apply app_inj_tail in E as [E _].
      now apply (Hfree p q d). }
  { unfold L in Target. now rewrite <- app_assoc in Target. }
  { pose proof (join_length (L ++ [name]) FL) as J. unfold abs_path.
    unfold L in J at 1. rewrite !length_app in J. rewrite !length_app.
    simpl in *. lia. }
  unfold L in *. rewrite <- !app_assoc. rewrite <- !app_assoc in M.
  unfold os_makedirs.
  unfold bind. rewrite M. unfold ret.
  exists fs1. split; [reflexivity|]. split; [exact L1|].
  exact (makedirs_keeps cwd _ _ _ _ _ _ M).
Qed.

End Effects.

End EffectFacts.
Import EffectFacts.
(** ** The normal form of a path that exists *)

Module GuardFacts.

Import PosixPath.

Lemma last_in {A} (l : list A) (d : A) : l <> [] -> In (last l d) l.
Proof.
  induction l as [|a l IH]; [contradiction|]. intros _.
  destruct l as [|b l]; [now left|]. right. apply IH. discriminate.
Qed.

Lemma Forall_removelast {A} (P : A -> Prop) (l : list A) :
  Forall P l -> Forall P (removelast l).
Proof.
  induction 1 as [|a l Ha Hl IH]; [constructor|].
  simpl. destruct l; [constructor|]. now constructor.
Qed.

Lemma incl_removelast {A} (l : list A) : incl (removelast l) l.
Proof.
  induction l as [|a l IH]; [easy|]. simpl. destruct l as [|b l]; [easy|].
  intros x [->|H]; [now left|]. right. now apply IH.
Qed.

(** Where following the components leads is what [normpath] makes of them:
    in a tree without links, stepping back with [..] undoes a step. *)
Lemma norm_comps_walk (fs : node) (comps : list str) :
  forall cur l,
    Forall (fun x => special x = false) cur ->
    walk fs cur comps = inr l ->
    norm_comps true cur comps = l
    /\ Forall (fun x => special x = false) l
    /\ incl l (cur ++ comps).
Proof.
  induction comps as [|c comps IH]; intros cur l F W.
  - simpl in *. injection W as <-. repeat split; [exact F|].
    rewrite app_nil_r. apply incl_refl.
  - simpl in W. destruct (lookup fs cur) as [[d|es]|]; try discriminate.
    cbn [norm_comps].
    destruct (eqb c [] || eqb c curdir) eqn:E1.
    { destruct (IH cur l F W) as [N [Fl I]]. repeat split; try assumption.
      intros x Hx. apply I in Hx. apply in_app_iff in Hx as [Hx|Hx];
        apply in_app_iff; [now left | right; now right]. }
    destruct (eqb c pardir) eqn:E2.
    + cbn [negb orb andb].
      assert (E3 : negb (is_nil cur) && eqb (last cur []) pardir = false).
      { destruct cur as [|a cur]; [reflexivity|]. cbn [is_nil negb andb].
        assert (Hl : In (last (a :: cur) []) (a :: cur)) by now apply last_in.
        rewrite Forall_forall in F. specialize (F _ Hl).
        unfold special in F. now apply orb_false_iff in F as [_ F]. }
      rewrite E3.
      destruct (IH (removelast cur) l (Forall_removelast _ _ F) W) as [N [Fl I]].
      repeat split; try assumption.
      intros x Hx. apply I in Hx. apply in_app_iff in Hx as [Hx|Hx];
        apply in_app_iff; [left; now apply incl_removelast | right; now right].
    + cbn [negb orb].
      destruct (lookup fs (cur ++ [c])); [|discriminate].
      assert (F' : Forall (fun x => special x = false) (cur ++ [c])).
      { apply Forall_app. split; [exact F|]. constructor; [|constructor].
        unfold special. apply orb_false_iff in E1 as [E1 E1'].
        now rewrite E1, E1', E2. }
      destruct (IH (cur ++ [c]) l F' W) as [N [Fl I]].
      repeat split; try assumption.
      intros x Hx. apply I in Hx. rewrite <- app_assoc in Hx. exact Hx.
Qed.

Lemma initial_slashes_abs_pos (p : str) :
  startswith p sep = true ->
  initial_slashes p = 1%nat \/ initial_slashes p = 2%nat.
Proof.
  intro H. unfold initial_slashes. rewrite H.
  destruct (startswith p (sep ++ sep) && negb (startswith p (sep ++ sep ++ sep)));
    [now right | now left].
Qed.

Section Resolved.

Variable cwd : loc.

(** The normal form of an absolute path that leads somewhere names the
    place it leads to. *)
Lemma normpath_resolved (fs : node) (p : str) (l : loc) :
  startswith p sep = true ->
  resolve cwd fs p = inr l ->
  normpath p = List.concat (repeat sep (initial_slashes p)) ++ PyStr.join sep l
  /\ Forall (fun x => x <> [] /\ ~ In SLASH x) l.
Proof.
  intros A R. unfold resolve in R.
  destruct (is_nil p) eqn:Hn; [discriminate|].
  unfold start, isabs in R. rewrite A in R.
  destruct (norm_comps_walk fs _ [] l (Forall_nil _) R) as [N [Fl I]].
  split.
  - unfold normpath. rewrite Hn.
    replace (negb (Nat.eqb (initial_slashes p) 0)) with true
      by (destruct (initial_slashes_abs_pos p A) as [-> | ->]; reflexivity).
    rewrite N.
    destruct (initial_slashes_abs_pos p A) as [-> | ->]; reflexivity.
  - rewrite Forall_forall in Fl |- *. intros x Hx. split.
    + intros ->. specialize (Fl _ Hx). discriminate.
    + pose proof (split_comps_no_sep SLASH p) as S.
      rewrite Forall_forall in S. apply S. now apply I.
Qed.

Lemma join_names_inj (l l' : list str) :
  Forall (fun x => x <> [] /\ ~ In SLASH x) l ->
  Forall (fun x => x <> [] /\ ~ In SLASH x) l' ->
  PyStr.join sep l = PyStr.join sep l' -> l = l'.
Proof.
  intros F F' E.
  assert (N : forall m, Forall (fun x => x <> [] /\ ~ In SLASH x) m ->
                        m <> [] -> PyStr.join sep m <> []).
  { intros [|a m] Fm Hm; [contradiction|]. inversion Fm as [|? ? [Ha _] _]. subst.
    destruct m; [exact Ha|]. rewrite join_cons by discriminate.
    destruct a; [contradiction | discriminate]. }
  assert (S : forall m, Forall (fun x => x <> [] /\ ~ In SLASH x) m ->
                        Forall (fun k => ~ In SLASH k) m).
  { intros m Fm. eapply Forall_impl; [|exact Fm]. now intros a [_ Ha]. }
  destruct l as [|a l], l' as [|a' l']; [reflexivity | | |].
  - exfalso. apply (N (a' :: l') F'); [discriminate | now symmetry].
  - exfalso. apply (N (a :: l) F); [discriminate | assumption].
  - rewrite <- (split_join SLASH (a :: l)), <- (split_join SLASH (a' :: l'));
      [| discriminate | now apply S | discriminate | now apply S].
    unfold sep in E. now rewrite E.
Qed.

Hypothesis cwd_ok : forallb valid_name cwd = true.

Lemma names_plain (l : list str) :
  forallb valid_name l = true -> Forall (fun x => x <> [] /\ ~ In SLASH x) l.
Proof.
  intro F. rewrite forallb_forall in F. apply Forall_forall. intros x Hx.
  specialize (F x Hx). apply valid_name_ok in F. split; apply F.
Qed.

Lemma join_WORKSPACE_isabs (d : str) :
  startswith (os_path_join (WORKSPACE cwd) d) sep = true.
Proof.
  destruct (startswith d sep) eqn:A.
  - now rewrite join_WORKSPACE_abs.
  - rewrite join_WORKSPACE_rel by assumption. rewrite (WORKSPACE_eq cwd cwd_ok).
    reflexivity.
Qed.

Lemma join_WORKSPACE_slashes (d : str) :
  startswith d sep = false \/ initial_slashes d <> 2%nat ->
  initial_slashes (os_path_join (WORKSPACE cwd) d) = 1%nat.
Proof.
  intros [A|A].
  - rewrite join_WORKSPACE_rel by assumption. rewrite (WORKSPACE_eq cwd cwd_ok).
    apply initial_slashes_prefix;
      [apply workspace_loc_not_nil | now apply workspace_names_ok].
  - destruct (startswith d sep) eqn:B.
    + rewrite join_WORKSPACE_abs by assumption.
      destruct (initial_slashes_abs_pos d B); [assumption | contradiction].
    + rewrite join_WORKSPACE_rel by assumption. rewrite (WORKSPACE_eq cwd cwd_ok).
      apply initial_slashes_prefix;
        [apply workspace_loc_not_nil | now apply workspace_names_ok].
Qed.

(** [abspath] of the path of an argument that leads somewhere. *)
Lemma abspath_resolved (fs : node) (d : str) (h : loc) :
  startswith d sep = false \/ initial_slashes d <> 2%nat ->
  resolve cwd fs (os_path_join (WORKSPACE cwd) d) = inr h ->
  os_path_abspath cwd (os_path_join (WORKSPACE cwd) d) = abs_path h
  /\ Forall (fun x => x <> [] /\ ~ In SLASH x) h.
Proof.
  intros A R. unfold os_path_abspath, abspath.
  rewrite join_WORKSPACE_isabs.
  destruct (normpath_resolved fs _ h (join_WORKSPACE_isabs d) R) as [N F].
  rewrite N, (join_WORKSPACE_slashes d A). split; [|exact F].
  reflexivity.
Qed.

(** The test that guards the workspace in [delete_directory]. *)
Lemma guard_exact (fs : node) (d : str) (h : loc) :
  startswith d sep = false \/ initial_slashes d <> 2%nat ->
  resolve cwd fs (os_path_join (WORKSPACE cwd) d) = inr h ->
  eqb (os_path_abspath cwd (os_path_join (WORKSPACE cwd) d))
      (os_path_abspath cwd (WORKSPACE cwd)) = true
  <-> h = workspace_loc cwd.
Proof.
  intros A R.
  destruct (abspath_resolved fs d h A R) as [-> F].
  rewrite (WORKSPACE_eq cwd cwd_ok) at 1.
  rewrite (abspath_abs_path cwd);
    [| apply workspace_loc_not_nil | now apply workspace_names_ok].
  rewrite eqb_eq. split.
  - intro E. unfold abs_path in E. apply app_inv_head in E.
    apply join_names_inj; [exact F | | exact E].
    apply names_plain. now apply workspace_names_ok.
  - now intros ->.
Qed.

End Resolved.

End GuardFacts.
Import GuardFacts.
(** ** Facts about [file_info] and [get_workspace_info] *)

Module InfoFacts.

Import PosixPath.

Lemma dirs_below_dir (es : list (str * node)) :
  dirs_below (Dir es)
  = Z.of_nat (List.length (filter (fun e => is_dir (snd e)) es))
    + fold_right (fun e acc => dirs_below (snd e) + acc) 0 es.
Proof.
  change (dirs_below (Dir es))
    with ((fix count (l : list (str * node)) : Z :=
             match l with
             | [] => 0
             | (_, c) :: l' => (if is_dir c then 1 else 0) + dirs_below c + count l'
             end) es).
  induction es as [|[k c] es IH]; [reflexivity|].
  rewrite IH. cbn [filter snd fold_right].
  destruct (is_dir c); cbn [List.length]; lia.
Qed.

Lemma total_bytes_app (a b : list file_entry) :
  total_bytes (a ++ b) = total_bytes a + total_bytes b.
Proof.
  unfold total_bytes. induction a as [|f a IH]; simpl; [reflexivity|].
  rewrite IH. lia.
Qed.

Lemma filter_lengths {A} (f : A -> bool) (l : list A) :
  (List.length (filter f l) + List.length (filter (fun x => negb (f x)) l)
   = List.length l)%nat.
Proof.
  induction l as [|a l IH]; [reflexivity|]. simpl.
  destruct (f a); simpl; lia.
Qed.

Section Info.

Variable cwd : loc.
Hypothesis cwd_ok : forallb valid_name cwd = true.

(** The loop of [file_info] that counts the sub-directories. *)
Lemma count_dirs_spec (fs : node) (target : str) (l : loc)
    (es : list (str * node)) :
  fs_path_exn target = None ->
  resolve cwd fs target = inr l ->
  lookup fs l = Some (Dir es) ->
  entries_ok es = true ->
  forall es' : list (str * node),
    incl es' es ->
    count_dirs cwd target (map fst es') fs
    = (inr (Z.of_nat (List.length (filter (fun e => is_dir (snd e)) es'))), fs).
Proof.
  intros Hp Hr Hl Hok. induction es' as [|[k c] es' IH]; intro Hin.
  - reflexivity.
  - assert (Hin' : incl es' es) by (intros e He; apply Hin; now right).
    cbn [map fst count_dirs]. unfold bind at 1. unfold os_path_isdir, peek.
    unfold os_path_join.
    rewrite (isdir_join_child cwd fs target k l es c Hp Hr Hl Hok)
      by (apply Hin; now left).
    unfold bind. rewrite (IH Hin'). unfold ret. cbn [filter snd].
    destruct (is_dir c); cbn [List.length]; f_equal; f_equal; lia.
Qed.

Lemma file_info_file (fs : node) (f : str) :
  isfile_in cwd fs (os_path_join (WORKSPACE cwd) f) = true ->
  exists h d,
    resolve cwd fs (os_path_join (WORKSPACE cwd) f) = inr h
    /\ lookup fs h = Some (File d)
    /\ file_info cwd f fs
       = (inr {| info_name := f;
                 info_is_directory := false;
                 info_size := Z.of_nat (List.length d);
                 info_absolute_path :=
                   os_path_abspath cwd (os_path_join (WORKSPACE cwd) f);
                 info_contents := None |}, fs).
Proof.
  intro F. set (path := os_path_join (WORKSPACE cwd) f) in *.
  pose proof (isfile_exists cwd fs path F) as E.
  assert (D : isdir_in cwd fs path = false).
  { destruct (isdir_in cwd fs path) eqn:D; [|reflexivity].
    apply isdir_not_isfile in D. congruence. }
  destruct (path_test_inv cwd _ fs path F) as [Hp [[d|es] [St Hk]]]; [|discriminate].
  destruct (stat_inv cwd fs _ path St) as [h [R L]].
  exists h, d. split; [exact R|]. split; [exact L|].
  unfold file_info. fold path.
  unfold bind at 1. unfold os_path_exists, peek. rewrite E. cbn [negb].
  unfold bind at 1. unfold os_stat, syscall. rewrite Hp, St.
  unfold bind at 1. unfold os_path_isdir, peek. rewrite D. reflexivity.
Qed.

Lemma file_info_directory (fs : node) (f : str) (es : list (str * node)) :
  isdir_in cwd fs (os_path_join (WORKSPACE cwd) f) = true ->
  stat cwd fs (os_path_join (WORKSPACE cwd) f) = inr (Dir es) ->
  entries_ok es = true ->
  file_info cwd f fs
  = (inr {| info_name := f;
            info_is_directory := true;
            info_size := 0;
            info_absolute_path :=
              os_path_abspath cwd (os_path_join (WORKSPACE cwd) f);
            info_contents :=
              Some (Z.of_nat (List.length (filter (fun e => negb (is_dir (snd e))) es)),
                    Z.of_nat (List.length (filter (fun e => is_dir (snd e)) es))) |},
     fs).
Proof.
  intros D St Hok. set (path := os_path_join (WORKSPACE cwd) f) in *.
  pose proof (isdir_exists cwd fs path D) as E.
  destruct (path_test_inv cwd _ fs path D) as [Hp _].
  destruct (stat_inv cwd fs _ path St) as [h [R L]].
  unfold file_info. fold path.
  unfold bind at 1. unfold os_path_exists, peek. rewrite E. cbn [negb].
  unfold bind at 1. unfold os_stat, syscall. rewrite Hp, St.
  unfold bind at 1. unfold os_path_isdir, peek. rewrite D.
  unfold bind at 1. unfold os_listdir, syscall. rewrite Hp, St.
  unfold bind. rewrite (count_dirs_spec fs path h es Hp R L Hok es (incl_refl _)).
  unfold ret. cbn [negb info_name info_is_directory info_size info_absolute_path].
  do 5 f_equal. rewrite length_map.
  pose proof (filter_lengths (fun e : str * node => is_dir (snd e)) es). lia.
Qed.

(** The inner loop of [get_workspace_info] over the files of one
    directory. *)
Lemma sum_sizes_spec (fs : node) (top : str) (prefix : list str) (l : loc)
    (es : list (str * node)) :
  fs_path_exn top = None ->
  resolve cwd fs top = inr l ->
  lookup fs l = Some (Dir es) ->
  entries_ok es = true ->
  forall (es' : list (str * node)) (total : Z),
    incl es' es ->
    sum_sizes cwd top (map fst (filter (fun e => negb (is_dir (snd e))) es')) total fs
    = (inr (total + total_bytes (files_here prefix es')), fs).
Proof.
  intros Hp Hr Hl Hok.
  induction es' as [|[k [d|es'']] es' IH]; intros total Hin.
  - simpl. unfold ret. now rewrite Z.add_0_r.
  - assert (Hin' : incl es' es) by (intros e He; apply Hin; now right).
    assert (Hk : In (k, File d) es) by (apply Hin; now left).
    cbn [filter snd is_dir negb map fst files_here sum_sizes].
    destruct (stat_join_child cwd fs top k l es _ Hr Hl Hok Hk) as [_ S].
    destruct (entries_ok_in es k _ Hok Hk) as [Hv _].
    unfold os_path_getsize, bind, os_stat, syscall, os_path_join.
    rewrite fs_path_exn_join, S;
      [|now apply (resolve_not_nil cwd fs top l) | assumption..].
    unfold ret. rewrite IH by assumption.
    unfold total_bytes. cbn [fold_right file_data snd st_size].
    f_equal. f_equal. lia.
  - assert (Hin' : incl es' es) by (intros e He; apply Hin; now right).
    cbn [filter snd is_dir negb map fst files_here].
    now apply IH.
Qed.

Lemma workspace_loop_tree (fs : node) (n : node) :
  forall prefix : list str,
    lookup fs (workspace_loc cwd ++ prefix) = Some n ->
    wf n = true ->
    fs_path_exn (path_of (WORKSPACE cwd) prefix) = None ->
    resolve cwd fs (path_of (WORKSPACE cwd) prefix) = inr (workspace_loc cwd ++ prefix) ->
    forall (rest : list (str * list str * list str)) (ts fc dc : Z),
      workspace_loop cwd (walk_tree (path_of (WORKSPACE cwd) prefix) n ++ rest)
        ts fc dc fs
      = workspace_loop cwd rest
          (ts + total_bytes (files_below prefix n))
          (fc + Z.of_nat (List.length (files_below prefix n)))
          (dc + dirs_below n) fs.
Proof.
  induction n as [d|es IH] using node_induction;
    intros prefix Hl W Hp Hr rest ts fc dc.
  - simpl. now rewrite !Z.add_0_r.
  - rewrite wf_dir in W. apply andb_true_iff in W as [Hok Wc].
    rewrite walk_tree_dir, files_below_dir, dirs_below_dir.
    cbn [app workspace_loop]. unfold bind at 1.
    rewrite (sum_sizes_spec fs _ prefix _ es Hp Hr Hl Hok es ts) by apply incl_refl.
    rewrite <- (files_here_names prefix es).
    rewrite total_bytes_app, length_app, !length_map.
    assert (Inner : forall (es' : list (str * node)) (ts' fc' dc' : Z),
      incl es' es ->
      workspace_loop cwd
        (flat_map (fun e => walk_tree
                     (PosixPath.join (path_of (WORKSPACE cwd) prefix) (fst e)) (snd e)) es'
         ++ rest) ts' fc' dc' fs
      = workspace_loop cwd rest
          (ts' + total_bytes (flat_map (fun e => files_below (prefix ++ [fst e]) (snd e)) es'))
          (fc' + Z.of_nat (List.length
                   (flat_map (fun e => files_below (prefix ++ [fst e]) (snd e)) es')))
          (dc' + fold_right (fun e acc => dirs_below (snd e) + acc) 0 es') fs).
    { induction es' as [|[k c] es' IHes]; intros ts' fc' dc' Hin.
      - simpl. now rewrite !Z.add_0_r.
      - assert (Hkc : In (k, c) es) by (apply Hin; now left).
        assert (Hin' : incl es' es) by (intros e He; apply Hin; now right).
        destruct (entries_ok_in es k c Hok Hkc) as [Hk Ha].
        cbn [flat_map fst snd fold_right]. rewrite <- app_assoc, <- path_of_snoc.
        rewrite Forall_forall in IH.
        rewrite (IH (k, c) Hkc (prefix ++ [k])).
        + rewrite IHes by assumption.
          rewrite total_bytes_app, length_app, Nat2Z.inj_add. cbn [snd].
          f_equal; lia.
        + rewrite app_assoc, lookup_snoc, Hl. exact Ha.
        + rewrite forallb_forall in Wc. now apply (Wc (k, c)).
        + rewrite path_of_snoc. apply fs_path_exn_join;
            [now apply (resolve_not_nil cwd fs _ _ Hr) | assumption..].
        + rewrite path_of_snoc, app_assoc.
          now apply (stat_join_child cwd fs _ k _ es c Hr Hl Hok Hkc). }
    rewrite Inner by apply incl_refl. rewrite Nat2Z.inj_add. f_equal; lia.
Qed.

Lemma get_workspace_info_spec (fs : node) :
  wf fs = true ->
  get_workspace_info cwd fs
  = (match SizeText.human_size (total_bytes (workspace_files cwd fs)) with
     | Some text =>
         inr {| ws_path := WORKSPACE cwd;
                ws_total_files := Z.of_nat (List.length (workspace_files cwd fs));
                ws_total_directories := workspace_dirs cwd fs;
                ws_total_size := text |}
     | None => inl OverflowError
     end, fs).
Proof.
  intro W. unfold get_workspace_info, bind. rewrite os_walk_WORKSPACE by assumption.
  unfold workspace_files, workspace_dirs.
  destruct (lookup fs (workspace_loc cwd)) as [n|] eqn:E; [|reflexivity].
  rewrite <- (app_nil_r (walk_tree (WORKSPACE cwd) n)).
  rewrite (workspace_loop_tree fs n []).
  - cbn [app Z.add workspace_loop]. unfold ret.
    now destruct (SizeText.human_size _).
  - now rewrite app_nil_r.
  - exact (wf_lookup (workspace_loc cwd) fs n W E).
  - now apply fs_path_exn_WORKSPACE.
  - rewrite app_nil_r. now apply (resolve_WORKSPACE cwd cwd_ok fs n).
Qed.

End Info.

End InfoFacts.
Import InfoFacts.
(** ** The tree stays one that a file system can hold *)

Module WfFacts.

Import PosixPath.

Lemma map_entry_names (k : str) (g : node -> node) (es : list (str * node)) :
  map fst (map_entry k g es) = map fst es.
Proof.
  induction es as [|[k' c] es IH]; [reflexivity|]. simpl.
  destruct (eqb k' k); simpl; [reflexivity | now rewrite IH].
Qed.

Lemma wf_map_entry (k : str) (g : node -> node) (es : list (str * node)) :
  wf (Dir es) = true ->
  (forall c, assoc k es = Some c -> wf (g c) = true) ->
  wf (Dir (map_entry k g es)) = true.
Proof.
  rewrite !wf_dir. unfold entries_ok. rewrite map_entry_names.
  intros W H. apply andb_true_iff in W as [-> W]. cbn [andb].
  induction es as [|[k' c] es IH]; [reflexivity|].
  simpl in W, H |- *. apply andb_true_iff in W as [Wc W].
  destruct (eqb k' k).
  - simpl. now rewrite W, (H c eq_refl).
  - simpl. rewrite Wc. cbn [andb]. now apply IH.
Qed.

Lemma wf_modify (g : node -> node) (l : loc) :
  forall fs,
    wf fs = true ->
    (forall n, lookup fs l = Some n -> wf n = true -> wf (g n) = true) ->
    wf (modify g l fs) = true.
Proof.
  induction l as [|k l IH]; intros fs W H.
  - simpl. now apply H.
  - destruct fs as [d|es]; [reflexivity|]. cbn [modify].
    apply wf_map_entry; [exact W|]. intros c Hc. apply IH.
    + rewrite wf_dir in W. apply andb_true_iff in W as [_ W].
      rewrite forallb_forall in W. apply (W (k, c)). now apply assoc_in.
    + intros n Hn. apply H. simpl. now rewrite Hc.
Qed.

Lemma assoc_none_names (k : str) (es : list (str * node)) :
  assoc k es = None -> existsb (eqb k) (map fst es) = false.
Proof.
  induction es as [|[k' c] es IH]; [reflexivity|]. simpl.
  rewrite (eqb_sym k k'). destruct (eqb k' k); [discriminate|]. exact IH.
Qed.

Lemma distinct_snoc (l : list str) (k : str) :
  distinct l = true -> existsb (eqb k) l = false -> distinct (l ++ [k]) = true.
Proof.
  induction l as [|a l IH]; [reflexivity|]. simpl.
  intros D E. apply andb_true_iff in D as [Da D].
  apply orb_false_iff in E as [Ea E].
  rewrite existsb_app. simpl. rewrite (eqb_sym a k), Ea, orb_false_r.
  apply negb_true_iff in Da. rewrite Da. cbn [negb orb andb]. now apply IH.
Qed.

Lemma wf_add_entry (k : str) (c : node) (es : list (str * node)) :
  wf (Dir es) = true -> valid_name k = true -> assoc k es = None ->
  wf c = true -> wf (add_entry k c (Dir es)) = true.
Proof.
  intros W Hk Ha Wc. cbn [add_entry]. rewrite wf_dir in *.
  apply andb_true_iff in W as [Ok W]. unfold entries_ok in *.
  apply andb_true_iff in Ok as [F D].
  rewrite map_app, !forallb_app, F, W. cbn [map fst forallb snd].
  rewrite Hk, Wc. cbn [andb]. rewrite andb_true_r.
  apply distinct_snoc; [exact D | now apply assoc_none_names].
Qed.

Lemma distinct_filter (f : str -> bool) (l : list str) :
  distinct l = true -> distinct (filter f l) = true.
Proof.
  induction l as [|a l IH]; [reflexivity|]. simpl.
  intro D. apply andb_true_iff in D as [Da D].
  assert (E : forall x, existsb (eqb x) l = false ->
                        existsb (eqb x) (filter f l) = false).
  { intros x. clear. induction l as [|b l IH]; [reflexivity|]. simpl.
    intro H. apply orb_false_iff in H as [H1 H2].
    destruct (f b); simpl; [rewrite H1|]; now apply IH. }
  destruct (f a); [|now apply IH]. simpl.
  apply negb_true_iff in Da. rewrite (E a Da). cbn [negb andb]. now apply IH.
Qed.

Lemma wf_del_entry (k : str) (n : node) :
  wf n = true -> wf (del_entry k n) = true.
Proof.
  destruct n as [d|es]; [reflexivity|]. cbn [del_entry]. rewrite !wf_dir.
  intro W. apply andb_true_iff in W as [Ok W]. unfold entries_ok in *.
  apply andb_true_iff in Ok as [F D]. unfold del_entry_list.
  assert (M : map fst (filter (fun e : str * node => negb (eqb (fst e) k)) es)
              = filter (fun x => negb (eqb x k)) (map fst es)).
  { clear. induction es as [|[k' c] es IH]; [reflexivity|]. simpl.
    destruct (negb (eqb k' k)); simpl; now rewrite IH. }
  rewrite M. apply andb_true_iff. split; [apply andb_true_iff; split|].
  - rewrite forallb_forall in F |- *. intros x Hx. apply F.
    now apply filter_In in Hx.
  - now apply distinct_filter.
  - rewrite forallb_forall in W |- *. intros x Hx. apply W.
    now apply filter_In in Hx.
Qed.

(** The characters of a component are characters of the path. *)
Lemma split_comp_chars (c : Z) (s k : str) (x : Z) :
  In k (PyStr.split c s) -> In x k -> In x s.
Proof.
  revert k. induction s as [|y s IH]; intros k Hk Hx.
  - simpl in Hk. destruct Hk as [<-|[]]. contradiction.
  - simpl in Hk. destruct (y =? c).
    + destruct Hk as [<-|Hk]; [contradiction|]. right. now apply (IH k).
    + destruct (PyStr.split c s) as [|h r] eqn:E.
      * destruct Hk as [<-|[]]. destruct Hx as [<-|[]]. now left.
      * destruct Hk as [<-|Hk].
        -- destruct Hx as [<-|Hx]; [now left|]. right. apply (IH h); [now left | exact Hx].
        -- right. apply (IH k); [now right | exact Hx].
Qed.

Lemma existsb_comp (P : Z -> bool) (c : Z) (s k : str) :
  In k (PyStr.split c s) -> existsb P s = false -> existsb P k = false.
Proof.
  intros Hk H. destruct (existsb P k) eqn:E; [|reflexivity].
  apply existsb_exists in E as [x [Hx Px]].
  assert (T : existsb P s = true).
  { apply existsb_exists. exists x. split; [|exact Px].
    now apply (split_comp_chars c s k). }
  congruence.
Qed.

Section Preserved.

Variable cwd : loc.

(** The name a call creates or removes is a valid one. *)
Lemma entry_name_valid (fs : node) (path : str) (p : loc) (name : str) (tr : bool) :
  fs_path_exn path = None ->
  parent_and_name cwd fs path = inr (Some (p, name, tr)) ->
  special name = false ->
  valid_name name = true.
Proof.
  intros Hp P Sp.
  destruct (parent_and_name_inv cwd fs path p name tr P)
    as [_ [Hn [pre [k [es [Hs _]]]]]].
  assert (I : In name (PyStr.split SLASH path)).
  { rewrite Hs. apply in_app_iff. left. apply in_app_iff. right. now left. }
  apply fs_path_exn_none in Hp as [H1 H2].
  apply valid_name_ok. unfold special in Sp.
  apply orb_false_iff in Sp as [Sp S3]. apply orb_false_iff in Sp as [S1 S2].
  constructor.
  - exact Hn.
  - pose proof (split_comps_no_sep SLASH path) as S.
    rewrite Forall_forall in S. now apply S.
  - exact (existsb_comp _ SLASH path name I H2).
  - exact (existsb_comp _ SLASH path name I H1).
  - now apply eqb_neq.
  - now apply eqb_neq.
Qed.

Lemma wf_added (fs : node) (p : loc) (k : str) (c : node) :
  wf fs = true -> valid_name k = true -> wf c = true ->
  lookup fs (p ++ [k]) = None ->
  wf (modify (add_entry k c) p fs) = true.
Proof.
  intros W Hk Wc L. apply wf_modify; [exact W|].
  intros n Hn Wn. destruct n as [d|es]; [reflexivity|].
  apply wf_add_entry; try assumption.
  now rewrite lookup_snoc, Hn in L.
Qed.

Lemma wf_os_mkdir (path : str) (fs fs' : node) (r : exn + unit) :
  wf fs = true -> os_mkdir cwd path fs = (r, fs') -> wf fs' = true.
Proof.
  intros W H. unfold os_mkdir in H.
  apply syscall_cases in H as [[-> _]|[a [Hp [H _]]]]; [exact W|].
  destruct (mkdir cwd fs path) as [e|fs1] eqn:M; [discriminate|].
  injection H as _ <-.
  destruct (mkdir_inv cwd fs fs1 path M) as [p [name [tr [P [Sp [L ->]]]]]].
  apply wf_added; try assumption; [|reflexivity].
  exact (entry_name_valid fs path p name tr Hp P Sp).
Qed.

Lemma wf_make (name : str) (ok : bool) (fs fs' : node) (r : exn + unit) :
  wf fs = true -> make cwd name ok fs = (r, fs') -> wf fs' = true.
Proof.
  intro W. unfold make. destruct (os_mkdir cwd name fs) as [[e|u] fs1] eqn:M.
  - pose proof (wf_os_mkdir name fs fs1 _ W M) as K.
    destruct e; try (intro H; injection H as _ <-; exact K).
    destruct (negb ok || negb (isdir_in cwd fs1 name));
      intro H; injection H as _ <-; exact K.
  - intro H. injection H as _ <-. exact (wf_os_mkdir name fs fs1 _ W M).
Qed.

Lemma wf_makedirs (fuel : nat) :
  forall (name : str) (ok : bool) (fs fs' : node) (r : exn + unit),
    wf fs = true -> makedirs_rec cwd fuel name ok fs = (r, fs') -> wf fs' = true.
Proof.
  induction fuel as [|fuel IH]; intros name ok fs fs' r W.
  - simpl. intro H. now injection H as _ <-.
  - rewrite makedirs_rec_step.
    destruct (negb (is_nil (fst (heads name))) && negb (is_nil (snd (heads name)))
              && negb (exists_in cwd fs (fst (heads name)))).
    2:{ now apply wf_make. }
    destruct (makedirs_rec cwd fuel (fst (heads name)) ok fs) as [[e|u] fs1] eqn:R.
    + pose proof (IH _ _ _ _ _ W R) as K.
      destruct e as [m| | | | |[]]; try (intro H; injection H as _ <-; exact K).
      destruct (eqb (snd (heads name)) curdir).
      * intro H; injection H as _ <-; exact K.
      * now apply wf_make.
    + pose proof (IH _ _ _ _ _ W R) as K.
      destruct (eqb (snd (heads name)) curdir).
      * intro H; injection H as _ <-; exact K.
      * now apply wf_make.
Qed.

Lemma wf_open_create (trunc : bool) (fs fs' : node) (path : str) (h : loc) :
  wf fs = true -> fs_path_exn path = None ->
  open_create cwd trunc fs path = inr (h, fs') -> wf fs' = true.
Proof.
  intros W Hp O. pose proof O as O'. unfold open_create in O'.
  destruct (parent_and_name cwd fs path) as [e|[[[p name] tr]|]] eqn:P;
    try discriminate.
  destruct (tr || dot_or_dotdot name) eqn:T; [discriminate|].
  apply orb_false_iff in T as [_ T].
  assert (Sp : special name = false).
  { unfold dot_or_dotdot in T. apply orb_false_iff in T as [T1 T2].
    unfold special. rewrite T1, T2.
    destruct (parent_and_name_inv cwd fs path p name tr P) as [_ [Hn _]].
    apply eqb_neq in Hn. now rewrite Hn. }
  destruct (lookup fs (p ++ [name])) as [[d|es]|] eqn:L; try discriminate.
  - injection O' as _ <-. destruct trunc; [|exact W].
    apply wf_modify; [exact W | reflexivity].
  - injection O' as _ <-. apply wf_added; try assumption; [|reflexivity].
    exact (entry_name_valid fs path p name tr Hp P Sp).
Qed.

Lemma wf_append_data (bs : list Z) (h : loc) (fs : node) :
  wf fs = true -> wf (modify (append_data bs) h fs) = true.
Proof.
  intro W. apply wf_modify; [exact W|]. now intros [d|es].
Qed.

Lemma wf_write_file (f c : str) (fs fs' : node) (r : exn + str) :
  wf fs = true -> write_file cwd f c fs = (r, fs') -> wf fs' = true.
Proof.
  intros W H. unfold write_file in H.
  apply bind_cases in H as [[e [H _]]|[u [fs1 [M H]]]];
    [exact (wf_makedirs _ _ _ _ _ _ W H)|].
  pose proof (wf_makedirs _ _ _ _ _ _ W M) as W1.
  apply bind_cases in H as [[e [H _]]|[h [fs2 [O H]]]].
  { apply syscall_cases in H as [[-> _]|[a [_ [_ H]]]]; [exact W1 | discriminate]. }
  apply syscall_cases in O as [[_ [e O]]|[a [Hp [O Ha]]]]; [discriminate|].
  pose proof (wf_open_create true fs1 fs2 _ a W1 Hp O) as W2.
  unfold file_write in H. destruct (Text.write_text c) as [bs|].
  - unfold bind, ret in H. injection H as _ <-. now apply wf_append_data.
  - unfold bind, raise in H. now injection H as _ <-.
Qed.

Lemma wf_append_file (f c : str) (fs fs' : node) (r : exn + str) :
  wf fs = true -> append_file cwd f c fs = (r, fs') -> wf fs' = true.
Proof.
  intros W H. unfold append_file in H.
  apply bind_cases in H as [[e [H _]]|[b [fs1 [Hb H]]]]; [discriminate|].
  unfold os_path_isfile, peek in Hb. injection Hb as <- <-.
  destruct (isfile_in cwd fs _); cbn [negb] in H;
    [|unfold raise in H; now injection H as _ <-].
  apply bind_cases in H as [[e [H _]]|[h [fs2 [O H]]]].
  { apply syscall_cases in H as [[-> _]|[a [_ [_ H]]]]; [exact W | discriminate]. }
  apply syscall_cases in O as [[_ [e O]]|[a [Hp [O Ha]]]]; [discriminate|].
  pose proof (wf_open_create false fs fs2 _ a W Hp O) as W2.
  unfold file_write in H. destruct (Text.write_text c) as [bs|].
  - unfold bind, ret in H. injection H as _ <-. now apply wf_append_data.
  - unfold bind, raise in H. now injection H as _ <-.
Qed.

Lemma wf_delete_file (f : str) (fs fs' : node) (r : exn + str) :
  wf fs = true -> delete_file cwd f fs = (r, fs') -> wf fs' = true.
Proof.
  intros W H. unfold delete_file in H.
  apply bind_cases in H as [[e [H _]]|[b [fs1 [Hb H]]]]; [discriminate|].
  unfold os_path_exists, peek in Hb. injection Hb as <- <-.
  destruct (exists_in cwd fs _); cbn [negb] in H;
    [|unfold raise in H; now injection H as _ <-].
  apply bind_cases in H as [[e [H _]]|[b [fs1 [Hb H]]]]; [discriminate|].
  unfold os_path_isdir, peek in Hb. injection Hb as <- <-.
  destruct (isdir_in cwd fs _); [unfold raise in H; now injection H as _ <-|].
  assert (R : forall r1 fs1, os_remove cwd (os_path_join (WORKSPACE cwd) f) fs = (r1, fs1)
                             -> wf fs1 = true).
  { intros r1 fs1 R. unfold os_remove in R.
    apply syscall_cases in R as [[-> _]|[a [_ [R _]]]]; [exact W|].
    destruct (unlink cwd fs _) as [e|fs2] eqn:U; [discriminate|].
    injection R as _ <-.
    destruct (unlink_inv cwd fs fs2 _ U) as [p [name [d [_ [_ [_ ->]]]]]].
    apply wf_modify; [exact W|]. intros n _. apply wf_del_entry. }
  apply bind_cases in H as [[e [H _]]|[u [fs1 [O H]]]]; [now apply (R _ _ H)|].
  unfold ret in H. injection H as _ <-. now apply (R _ _ O).
Qed.

Lemma wf_create_directory (d : str) (fs fs' : node) (r : exn + str) :
  wf fs = true -> create_directory cwd d fs = (r, fs') -> wf fs' = true.
Proof.
  intros W H. unfold create_directory in H.
  apply bind_cases in H as [[e [H _]]|[b [fs1 [Hb H]]]]; [discriminate|].
  unfold os_path_exists, peek in Hb. injection Hb as <- <-.
  destruct (exists_in cwd fs _); [unfold raise in H; now injection H as _ <-|].
  apply bind_cases in H as [[e [H _]]|[u [fs1 [M H]]]];
    [exact (wf_makedirs _ _ _ _ _ _ W H)|].
  unfold ret in H. injection H as _ <-. exact (wf_makedirs _ _ _ _ _ _ W M).
Qed.

Lemma wf_rmtree (path : str) (fs fs' : node) (r : exn + unit) :
  wf fs = true -> shutil_rmtree cwd path fs = (r, fs') -> wf fs' = true.
Proof.
  intros W H. unfold shutil_rmtree in H.
  apply bind_cases in H as [[e [H _]]|[n [fs1 [St H]]]].
  { unfold os_stat in H. apply syscall_cases in H as [[-> _]|[a [_ [H _]]]]; [exact W|].
    destruct (stat cwd fs path); [discriminate | now injection H as _ <-]. }
  assert (fs1 = fs) as ->.
  { unfold os_stat in St. apply syscall_cases in St as [[-> _]|[a [_ [St _]]]]; [reflexivity|].
    destruct (stat cwd fs path); [discriminate | now injection St as _ <-]. }
  destruct n as [d|es]; [unfold raise in H; now injection H as _ <-|].
  apply bind_cases in H as [[e [H _]]|[u [fs1 [E H]]]].
  { destruct (resolve cwd fs path); [now injection H as _ <- | discriminate]. }
  assert (W1 : wf fs1 = true).
  { destruct (resolve cwd fs path) as [e|l]; [discriminate|].
    injection E as _ <-. apply wf_modify; [exact W | reflexivity]. }
  unfold os_rmdir in H.
  apply syscall_cases in H as [[-> _]|[a [_ [H _]]]]; [exact W1|].
  destruct (rmdir cwd fs1 path) as [e|fs2] eqn:Rm; [discriminate|].
  injection H as _ <-.
  destruct (rmdir_inv cwd fs1 fs2 path Rm) as [p [name [tr [_ [_ ->]]]]].
  apply wf_modify; [exact W1|]. intros n _. apply wf_del_entry.
Qed.

Lemma wf_delete_directory (d : str) (fs fs' : node) (r : exn + str) :
  wf fs = true -> delete_directory cwd d fs = (r, fs') -> wf fs' = true.
Proof.
  intros W H. unfold delete_directory in H.
  apply bind_cases in H as [[e [H _]]|[b [fs1 [Hb H]]]]; [discriminate|].
  unfold os_path_exists, peek in Hb. injection Hb as <- <-.
  destruct (exists_in cwd fs _); cbn [negb] in H;
    [|unfold raise in H; now injection H as _ <-].
  apply bind_cases in H as [[e [H _]]|[b [fs1 [Hb H]]]]; [discriminate|].
  unfold os_path_isdir, peek in Hb. injection Hb as <- <-.
  destruct (isdir_in cwd fs _); cbn [negb] in H;
    [|unfold raise in H; now injection H as _ <-].
  destruct (eqb _ _); [unfold raise in H; now injection H as _ <-|].
  apply bind_cases in H as [[e [H _]]|[u [fs1 [M H]]]];
    [exact (wf_rmtree _ _ _ _ W H)|].
  unfold ret in H. injection H as _ <-. exact (wf_rmtree _ _ _ _ W M).
Qed.

End Preserved.

End WfFacts.
Import WfFacts.
(** ** Facts about what the queries report *)

Module QueryFacts.

Import PosixPath.

Lemma count_scan_nonneg (sub s : str) : forall k, 0 <= count_scan sub s k.
Proof.
  induction s as [|x s IH]; intro k; cbn [count_scan]; [lia|].
  destruct k; [|apply IH].
  destruct (startswith (x :: s) sub); [|apply IH].
  specialize (IH (Nat.pred (List.length sub))). lia.
Qed.

Lemma contains_count_scan (sub s : str) :
  sub <> [] -> contains sub s = true -> 1 <= count_scan sub s 0.
Proof.
  intro Hs. induction s as [|x s IH]; intro C.
  - destruct sub; [contradiction | discriminate].
  - cbn [contains] in C. cbn [count_scan].
    destruct (startswith (x :: s) sub).
    + pose proof (count_scan_nonneg sub s (Nat.pred (List.length sub))). lia.
    + now apply IH.
Qed.

(** A text that contains [sub] counts it at least once. *)
Lemma contains_count (sub s : str) : contains sub s = true -> 1 <= count s sub.
Proof.
  intro C. unfold count. destruct sub as [|y sub]; [lia|].
  now apply contains_count_scan.
Qed.

Lemma contains_nil (s : str) : contains [] s = true.
Proof. now destruct s. Qed.

(** A file that a traversal lists is in the tree where its names say. *)
Lemma files_below_lookup (n : node) :
  forall prefix f,
    wf n = true ->
    In f (files_below prefix n) ->
    exists rel,
      file_dirs f = prefix ++ rel
      /\ lookup n (rel ++ [file_name f]) = Some (File (file_data f)).
Proof.
  induction n as [d|es IH] using node_induction; intros prefix f W Hin.
  - destruct Hin.
  - rewrite wf_dir in W. apply andb_true_iff in W as [Hok Wc].
    rewrite files_below_dir in Hin. apply in_app_or in Hin as [Hin|Hin].
    + apply files_here_in in Hin as [-> Hin]. exists [].
      split; [now rewrite app_nil_r|]. simpl.
      destruct (entries_ok_in es _ _ Hok Hin) as [_ ->]. reflexivity.
    + apply in_flat_map in Hin as [[k c] [He Hin]].
      rewrite Forall_forall in IH.
      destruct (IH (k, c) He (prefix ++ [k]) f) as [rel [Hd Hl]].
      * rewrite forallb_forall in Wc. now apply (Wc (k, c)).
      * exact Hin.
      * exists (k :: rel). split; [now rewrite Hd, <- app_assoc|].
        cbn [app lookup]. destruct (entries_ok_in es k c Hok He) as [_ ->].
        exact Hl.
Qed.


Section Queries.

Variable cwd : loc.
Variable lower : str -> str.
Hypothesis cwd_ok : forallb valid_name cwd = true.

(** A file of the workspace, by its relative name. *)
Lemma workspace_file_found (fs : node) (f : file_entry) :
  wf fs = true ->
  In f (workspace_files cwd fs) ->
  forallb valid_name (file_dirs f ++ [file_name f]) = true
  /\ lookup fs ((workspace_loc cwd ++ file_dirs f) ++ [file_name f])
     = Some (File (file_data f))
  /\ os_path_join (WORKSPACE cwd) (relative_name f)
     = abs_path ((workspace_loc cwd ++ file_dirs f) ++ [file_name f]).
Proof.
  intros W Hin. unfold workspace_files in Hin.
  destruct (lookup fs (workspace_loc cwd)) as [n|] eqn:E; [|destruct Hin].
  pose proof (wf_lookup _ _ _ W E) as Wn.
  destruct (files_below_valid n [] f Wn eq_refl Hin) as [Fd Hn].
  destruct (files_below_lookup n [] f Wn Hin) as [rel [Hd Hl]].
  simpl in Hd. subst rel.
  assert (F : forallb valid_name (file_dirs f ++ [file_name f]) = true)
    by now rewrite forallb_snoc, Fd, Hn.
  split; [exact F|]. split.
  - rewrite <- app_assoc, lookup_app, E. exact Hl.
  - unfold relative_name. now apply filepath_of_names.
Qed.

Lemma workspace_file_stat (fs : node) (f : file_entry) :
  wf fs = true ->
  In f (workspace_files cwd fs) ->
  fs_path_exn (os_path_join (WORKSPACE cwd) (relative_name f)) = None
  /\ stat cwd fs (os_path_join (WORKSPACE cwd) (relative_name f))
     = inr (File (file_data f)).
Proof.
  intros W Hin.
  destruct (workspace_file_found fs f W Hin) as [F [L ->]].
  assert (FL : forallb valid_name ((workspace_loc cwd ++ file_dirs f) ++ [file_name f])
               = true).
  { rewrite <- app_assoc, forallb_app, F.
    now rewrite (workspace_names_ok cwd cwd_ok). }
  split; [now apply fs_path_exn_abs_path|].
  apply (stat_intro cwd fs _ _ ((workspace_loc cwd ++ file_dirs f) ++ [file_name f]));
    [|exact L].
  apply (resolve_abs_path cwd fs _ (File (file_data f)));
    [now destruct (workspace_loc cwd ++ file_dirs f) | exact FL | exact L].
Qed.


Lemma search_hit_positive (query extension : str) (f : file_entry) (e : str * Z) :
  In e (search_hit lower query extension f) -> 1 <= snd e.
Proof.
  unfold search_hit.
  destruct (negb (is_nil extension) && negb (endswith (file_name f) extension));
    [intros []|].
  destruct (Text.read_text (file_data f)) as [content|]; [|intros []].
  destruct (contains (lower query) (lower content)) eqn:C; [|intros []].
  intros [<-|[]]. simpl. now apply contains_count.
Qed.

End Queries.

End QueryFacts.
Import QueryFacts.
(** ** Paths without [..] stay below the directory they start in *)

Module ConfineFacts.

Import PosixPath.

Lemma filter_kept_empties (k : nat) : filter kept (repeat [] k) = [].
Proof. induction k; [reflexivity | exact IHk]. Qed.

Lemma kept_not_special (x : str) : special x = false -> kept x = true.
Proof.
  unfold special, kept. intro H. apply orb_false_iff in H as [H _].
  now rewrite H.
Qed.

Lemma kept_plain (x : str) : kept x = true -> x <> pardir -> special x = false.
Proof.
  unfold special, kept. intros H N. apply negb_true_iff in H. rewrite H.
  now apply eqb_neq.
Qed.

(** Without [..] the components are followed downwards only. *)
Lemma walk_plain (fs : node) (comps : list str) :
  forall cur l,
    ~ In pardir comps ->
    walk fs cur comps = inr l -> l = cur ++ filter kept comps.
Proof.
  induction comps as [|c comps IH]; intros cur l N W.
  - simpl in *. injection W as <-. now rewrite app_nil_r.
  - simpl in W. destruct (lookup fs cur) as [[d|es]|]; try discriminate.
    assert (N' : ~ In pardir comps) by (intro; apply N; now right).
    cbn [filter].
    assert (Kc : kept c = negb (eqb c [] || eqb c curdir)) by reflexivity.
    destruct (eqb c [] || eqb c curdir); cbn [negb] in Kc; rewrite Kc;
      [now apply IH|].
    destruct (eqb c pardir) eqn:E.
    { apply eqb_eq in E. subst c. exfalso. apply N. now left. }
    destruct (lookup fs (cur ++ [c])); [|discriminate].
    rewrite (IH _ _ N' W). now rewrite <- app_assoc.
Qed.

Lemma lookup_prefix_dir (fs : node) (l r : loc) (n : node) :
  lookup fs (l ++ r) = Some n -> r <> [] -> exists es, lookup fs l = Some (Dir es).
Proof.
  rewrite lookup_app. destruct (lookup fs l) as [[d|es]|]; try discriminate.
  - destruct r; [contradiction | discriminate].
  - intros _ _. now exists es.
Qed.

Lemma walk_plain_dir (fs : node) (comps : list str) :
  forall cur es,
    ~ In pardir comps ->
    lookup fs (cur ++ filter kept comps) = Some (Dir es) ->
    walk fs cur comps = inr (cur ++ filter kept comps).
Proof.
  induction comps as [|c comps IH]; intros cur es N L.
  - simpl. now rewrite app_nil_r.
  - assert (N' : ~ In pardir comps) by (intro; apply N; now right).
    assert (D : exists es', lookup fs cur = Some (Dir es')).
    { destruct (filter kept (c :: comps)) as [|x r] eqn:E.
      - rewrite app_nil_r in L. now exists es.
      - now apply (lookup_prefix_dir fs cur (x :: r) (Dir es)). }
    destruct D as [es' D]. cbn [walk filter] in *. rewrite D.
    assert (Kc : kept c = negb (eqb c [] || eqb c curdir)) by reflexivity.
    destruct (eqb c [] || eqb c curdir); cbn [negb] in Kc; rewrite Kc in *;
      [now apply (IH cur es)|].
    destruct (eqb c pardir) eqn:E.
    { apply eqb_eq in E. subst c. exfalso. apply N. now left. }
    replace (cur ++ c :: filter kept comps) with ((cur ++ [c]) ++ filter kept comps) in *
      by now rewrite <- app_assoc.
    assert (C : exists n, lookup fs (cur ++ [c]) = Some n).
    { rewrite lookup_app in L. destruct (lookup fs (cur ++ [c])) as [n|]; [|discriminate].
      now exists n. }
    destruct C as [n ->]. now apply (IH _ es).
Qed.

(** What [os.path.split] does to the names of a path. *)
Lemma posix_split_comps (p head tail : str) :
  PosixPath.split p = (head, tail) ->
  head <> [] ->
  exists pre : list str,
    PyStr.split SLASH p = pre ++ [tail]
    /\ filter kept (PyStr.split SLASH head) = filter kept pre
    /\ (forall x, In x (PyStr.split SLASH head) -> x = [] \/ In x pre).
Proof.
  unfold PosixPath.split.
  destruct (cut_last_slash_spec p) as [E [N H]].
  destruct (cut_last_slash p) as [h t]. simpl in E, N, H.
  destruct h as [|y h'] eqn:Eh.
  - simpl. intro I. injection I as <- <-. contradiction.
  - rewrite <- Eh in *.
    destruct H as [H|[h0 H]]; [rewrite H in Eh; discriminate|]. clear Eh.
    assert (Hs : PyStr.split SLASH p = PyStr.split SLASH h0 ++ [t]).
    { rewrite E, H, <- app_assoc. simpl app.
      now rewrite split_app_sep, (split_no_sep SLASH t N). }
    replace (negb (is_nil h)) with true by (subst h; now destruct h0).
    cbn [andb].
    destruct (forallb (fun c => c =? SLASH) h) eqn:A; cbn [negb].
    + intros I Hh. injection I as <- <-.
      exists (PyStr.split SLASH h0). split; [exact Hs|].
      rewrite H. change (h0 ++ [SLASH]) with (h0 ++ SLASH :: []).
      rewrite split_app_sep. cbn [PyStr.split]. split.
      * rewrite filter_app. cbn [filter]. change (kept []) with false.
        now rewrite app_nil_r.
      * intros x Hx. apply in_app_iff in Hx as [Hx|[<-|[]]]; [now right | now left].
    + intros I Hh. injection I as <- <-.
      destruct (rstrip_spec SLASH h) as [k [Ek Hk]].
      destruct k as [|k].
      { exfalso. simpl in Ek. rewrite app_nil_r in Ek.
        destruct Hk as [Hk|Hk]; [now rewrite Hk in Hh|].
        rewrite <- Ek, H, last_last in Hk. now apply Hk. }
      rewrite repeat_snoc, app_assoc in Ek. rewrite H in Ek at 1.
      apply app_inj_tail in Ek as [Ek _].
      exists (PyStr.split SLASH h0). split; [exact Hs|].
      rewrite Ek, split_trailing. split.
      * now rewrite filter_app, filter_kept_empties, app_nil_r.
      * intros x Hx. right. apply in_app_iff. now left.
Qed.

(** The same for the head and the tail [os.makedirs] works with. *)
Lemma heads_comps (name : str) :
  fst (heads name) <> [] ->
  canon name = canon (fst (heads name)) ++ filter kept [snd (heads name)]
  /\ (forall x, In x (PyStr.split SLASH (fst (heads name))) ->
                x = [] \/ In x (PyStr.split SLASH name)).
Proof.
  unfold heads, canon.
  destruct (PosixPath.split name) as [head0 tail0] eqn:S0.
  destruct (is_nil tail0) eqn:T0.
  - destruct (PosixPath.split head0) as [head tail] eqn:S1. cbn [fst snd].
    intro Hh.
    assert (H0 : head0 <> []).
    { intros ->. cbv in S1. injection S1 as <- _. now apply Hh. }
    destruct (posix_split_comps name head0 tail0 S0 H0) as [pre0 [Hs0 [Hk0 Hi0]]].
    destruct (posix_split_comps head0 head tail S1 Hh) as [pre [Hs [Hk Hi]]].
    destruct tail0; [|discriminate]. split.
    + rewrite Hs0, filter_app. cbn [filter]. change (kept []) with false.
      rewrite app_nil_r, <- Hk0, Hs, filter_app, Hk. reflexivity.
    + intros x Hx. destruct (Hi x Hx) as [->|Hp]; [now left|].
      assert (Hx0 : In x (PyStr.split SLASH head0))
        by (rewrite Hs; apply in_app_iff; now left).
      destruct (Hi0 x Hx0) as [->|Hp0]; [now left|].
      right. rewrite Hs0. apply in_app_iff. now left.
  - cbn [fst snd]. intro Hh.
    destruct (posix_split_comps name head0 tail0 S0 Hh) as [pre0 [Hs0 [Hk0 Hi0]]].
    split.
    + now rewrite Hs0, filter_app, Hk0.
    + intros x Hx. destruct (Hi0 x Hx) as [->|Hp0]; [now left|].
      right. rewrite Hs0. apply in_app_iff. now left.
Qed.

(** A character of a string is the separator or lies in a component. *)
Lemma chars_of_split (c : Z) (s : str) (x : Z) :
  In x s -> x = c \/ exists k, In k (PyStr.split c s) /\ In x k.
Proof.
  induction s as [|y s IH]; [intros []|].
  intros [<-|Hx].
  - destruct (Z.eq_dec y c) as [->|Ne]; [now left|]. right.
    rewrite split_cons_other by assumption.
    exists (y :: hd [] (PyStr.split c s)). split; now left.
  - destruct (IH Hx) as [->|[k [Hk Hxk]]]; [now left|]. right.
    simpl. destruct (y =? c).
    + exists k. split; [now right | assumption].
    + destruct (PyStr.split c s) as [|h r]; [destruct Hk|].
      destruct Hk as [<-|Hk].
      * exists (y :: h). split; [now left | now right].
      * exists k. split; [now right | assumption].
Qed.

(** A path made of names, dots and slashes is one the system accepts. *)
Lemma fs_path_exn_comps (p : str) :
  (forall k, In k (PyStr.split SLASH p) ->
             k = [] \/ k = curdir \/ valid_name k = true) ->
  fs_path_exn p = None.
Proof.
  intro H. apply fs_path_exn_none.
  assert (G : forall P : Z -> bool,
            P SLASH = false -> P 46 = false ->
            (forall k, valid_name k = true -> existsb P k = false) ->
            existsb P p = false).
  { intros P P1 P2 P3. destruct (existsb P p) eqn:E; [|reflexivity].
    apply existsb_exists in E as [x [Hx Px]].
    destruct (chars_of_split SLASH p x Hx) as [->|[k [Hk Hxk]]]; [congruence|].
    destruct (H k Hk) as [->|[->|V]]; [destruct Hxk | |].
    - change curdir with [46] in Hxk. destruct Hxk as [<-|[]]. congruence.
    - specialize (P3 k V).
      assert (T : existsb P k = true) by (apply existsb_exists; now exists x).
      congruence. }
  split; apply G; try reflexivity.
  - intros k V. apply valid_name_ok in V. apply V.
  - intros k V. apply valid_name_ok in V. apply V.
Qed.

Section Confine.

Variable cwd : loc.

(** Where a call that creates or removes a name makes its change. *)
Lemma entry_place (fs : node) (path : str) (p : loc) (name : str) (tr : bool) :
  parent_and_name cwd fs path = inr (Some (p, name, tr)) ->
  special name = false ->
  startswith path sep = true ->
  ~ In pardir (PyStr.split SLASH path) ->
  p ++ [name] = canon path.
Proof.
  intros P Sp A N.
  destruct (parent_and_name_inv cwd fs path p name tr P)
    as [_ [_ [pre [k [es [Hs [Hw _]]]]]]].
  unfold start, isabs in Hw. rewrite A in Hw.
  assert (Np : ~ In pardir pre).
  { intro I. apply N. rewrite Hs. apply in_app_iff. left. apply in_app_iff. now left. }
  rewrite (walk_plain fs pre [] p Np Hw). unfold canon. rewrite Hs.
  rewrite !filter_app, filter_kept_empties, app_nil_r. cbn [filter app].
  now rewrite (kept_not_special name Sp).
Qed.

Lemma resolve_place (fs : node) (path : str) (l : loc) :
  resolve cwd fs path = inr l ->
  startswith path sep = true ->
  ~ In pardir (PyStr.split SLASH path) ->
  l = canon path.
Proof.
  intros R A N. unfold resolve in R. destruct (is_nil path); [discriminate|].
  unfold start, isabs in R. rewrite A in R.
  exact (walk_plain fs _ [] l N R).
Qed.

Lemma os_mkdir_place (path : str) (fs fs' : node) (r : exn + unit) :
  startswith path sep = true ->
  ~ In pardir (PyStr.split SLASH path) ->
  os_mkdir cwd path fs = (r, fs') ->
  only_below (canon path) fs fs'.
Proof.
  intros A N H. unfold os_mkdir in H.
  apply syscall_cases in H as [[-> _]|[a [_ [H _]]]]; [apply only_below_refl|].
  destruct (mkdir cwd fs path) as [e|fs1] eqn:M; [discriminate|].
  injection H as _ <-.
  destruct (mkdir_inv cwd fs fs1 path M) as [p [name [tr [P [Sp [L ->]]]]]].
  rewrite <- (entry_place fs path p name tr P Sp A N).
  now apply add_entry_only_below.
Qed.

Lemma make_place (path : str) (ok : bool) (fs fs' : node) (r : exn + unit) :
  startswith path sep = true ->
  ~ In pardir (PyStr.split SLASH path) ->
  make cwd path ok fs = (r, fs') ->
  only_below (canon path) fs fs'.
Proof.
  intros A N. unfold make.
  destruct (os_mkdir cwd path fs) as [[e|u] fs1] eqn:M.
  - pose proof (os_mkdir_place path fs fs1 _ A N M) as K.
    destruct e; try (intro H; injection H as _ <-; exact K).
    destruct (negb ok || negb (isdir_in cwd fs1 path));
      intro H; injection H as _ <-; exact K.
  - intro H. injection H as _ <-. exact (os_mkdir_place path fs fs1 _ A N M).
Qed.

Lemma os_remove_place (path : str) (fs fs' : node) (r : exn + unit) :
  startswith path sep = true ->
  ~ In pardir (PyStr.split SLASH path) ->
  os_remove cwd path fs = (r, fs') ->
  only_below (canon path) fs fs'.
Proof.
  intros A N H. unfold os_remove in H.
  apply syscall_cases in H as [[-> _]|[a [_ [H _]]]]; [apply only_below_refl|].
  destruct (unlink cwd fs path) as [e|fs1] eqn:M; [discriminate|].
  injection H as _ <-.
  destruct (unlink_inv cwd fs fs1 path M) as [p [name [d [P [Sp [L ->]]]]]].
  rewrite <- (entry_place fs path p name false P Sp A N).
  apply del_entry_only_below.
Qed.

Lemma open_write_place (trunc : bool) (path : str) (fs fs' : node) (r : exn + loc) :
  startswith path sep = true ->
  ~ In pardir (PyStr.split SLASH path) ->
  open_write cwd trunc path fs = (r, fs') ->
  only_below (canon path) fs fs' /\ (forall h, r = inr h -> h = canon path).
Proof.
  intros A N H. unfold open_write in H.
  apply syscall_cases in H as [[-> [e ->]]|[h [_ [O ->]]]].
  { split; [apply only_below_refl | discriminate]. }
  destruct (open_create_frame cwd trunc fs fs' path h O) as [F _].
  destruct (open_create_file cwd trunc fs fs' path h O) as [_ [R _]].
  assert (E : h = canon path) by exact (resolve_place fs' path h R A N).
  split; [now rewrite <- E|]. intros h' Hh. now injection Hh as <-.
Qed.

Lemma rmtree_place (path : str) (fs fs' : node) (r : exn + unit) :
  startswith path sep = true ->
  ~ In pardir (PyStr.split SLASH path) ->
  shutil_rmtree cwd path fs = (r, fs') ->
  only_below (canon path) fs fs'.
Proof.
  intros A N H. unfold shutil_rmtree in H.
  apply bind_cases in H as [[e [H _]]|[n [fs1 [St H]]]].
  { rewrite (readonly_error _ _ _ _ (readonly_os_stat cwd path) H).
    apply only_below_refl. }
  assert (fs1 = fs) as ->
    by exact (readonly_error _ _ _ _ (readonly_os_stat cwd path) St).
  clear St.
  destruct n as [d|es]; [unfold raise in H; injection H as _ <-; apply only_below_refl|].
  apply bind_cases in H as [[e [H _]]|[u [fs1 [E H]]]].
  { destruct (resolve cwd fs path); [|discriminate].
    injection H as _ <-. apply only_below_refl. }
  destruct (resolve cwd fs path) as [e|l] eqn:R; [discriminate|].
  injection E as _ <-.
  rewrite (resolve_place fs path l R A N) in *.
  apply (only_below_trans _ fs (modify (fun _ => Dir []) (canon path) fs)).
  { apply modify_only_below. }
  unfold os_rmdir in H.
  apply syscall_cases in H as [[-> _]|[a [_ [H _]]]]; [apply only_below_refl|].
  destruct (rmdir cwd _ path) as [e|fs2] eqn:Rm; [discriminate|].
  injection H as _ <-.
  destruct (rmdir_inv cwd _ fs2 path Rm) as [p [name [tr [P [Sp ->]]]]].
  rewrite <- (entry_place _ path p name tr P Sp A N).
  apply del_entry_only_below.
Qed.

Hypothesis cwd_ok : forallb valid_name cwd = true.

Lemma cwd_names_plain (x : str) :
  In x cwd -> x <> pardir /\ valid_name x = true.
Proof.
  intro I. rewrite forallb_forall in cwd_ok. specialize (cwd_ok x I).
  split; [|exact cwd_ok]. apply valid_name_ok in cwd_ok. apply cwd_ok.
Qed.

(** The path an operation makes of a relative argument without [..]. *)
Lemma inside_join (a : str) :
  startswith a sep = false ->
  ~ In pardir (PyStr.split SLASH a) ->
  inside cwd (os_path_join (WORKSPACE cwd) a)
  /\ canon (os_path_join (WORKSPACE cwd) a) = workspace_loc cwd ++ canon a.
Proof.
  intros A N.
  assert (S := split_join_WORKSPACE cwd cwd_ok a A).
  assert (C : canon (os_path_join (WORKSPACE cwd) a) = workspace_loc cwd ++ canon a).
  { unfold canon. rewrite S, filter_app. cbn [filter]. change (kept []) with false.
    cbn iota. rewrite filter_kept_names by now apply workspace_names_ok.
    reflexivity. }
  split; [|exact C]. split; [now apply join_WORKSPACE_isabs|]. split.
  - rewrite S. intro I. apply in_app_iff in I as [[I|I]|I]; [discriminate | | now apply N].
    apply (names_no_pardir (workspace_loc cwd)); [now apply workspace_names_ok | exact I].
  - rewrite C. apply below_app.
Qed.

(** [os.makedirs] on a path that leads into the workspace changes nothing
    outside it, provided the working directory is there. *)
Lemma makedirs_inside (fuel : nat) :
  forall (name : str) (ok : bool) (fs fs' : node) (r : exn + unit),
    inside cwd name ->
    (exists es, lookup fs cwd = Some (Dir es)) ->
    makedirs_rec cwd fuel name ok fs = (r, fs') ->
    only_below (workspace_loc cwd) fs fs'.
Proof.
  induction fuel as [|fuel IH]; intros name ok fs fs' r [A [N B]] Hc.
  - simpl. intro H. injection H as _ <-. apply only_below_refl.
  - assert (Mk : forall fs1 r1 fs2, make cwd name ok fs1 = (r1, fs2) ->
                                    only_below (workspace_loc cwd) fs1 fs2).
    { intros fs1 r1 fs2 M. apply (only_below_weaken (canon name)); [exact B|].
      exact (make_place name ok fs1 fs2 r1 A N M). }
    rewrite makedirs_rec_step.
    destruct (negb (is_nil (fst (heads name)))) eqn:Hh; cbn [andb]; [|apply Mk].
    destruct (negb (is_nil (snd (heads name)))) eqn:Ht; cbn [andb]; [|apply Mk].
    destruct (exists_in cwd fs (fst (heads name))) eqn:Ex; cbn [negb]; [apply Mk|].
    assert (Hh' : fst (heads name) <> [])
      by (intro E; rewrite E in Hh; discriminate).
    destruct (heads_comps name Hh') as [Hcanon Hin].
    set (head := fst (heads name)) in *. set (tail := snd (heads name)) in *.
    assert (Ah : startswith head sep = true).
    { destruct (heads name) as [h t] eqn:E. unfold heads in E.
      destruct (PosixPath.split name) as [h0 t0] eqn:S0.
      assert (P0 : h0 <> [] -> exists rest, name = h0 ++ rest).
      { intro H0. now destruct (posix_split_spec name h0 t0 S0 H0) as [_ [_ [X _]]]. }
      assert (Q : exists rest, name = head ++ rest).
      { destruct (is_nil t0).
        - destruct (PosixPath.split h0) as [h1 t1] eqn:S1.
          injection E as <- <-. subst head. cbn [fst] in *.
          assert (H0 : h0 <> []) by (intros ->; cbv in S1; injection S1 as <- _; now apply Hh').
          destruct (posix_split_spec h0 h1 t1 S1 Hh') as [_ [_ [[r1 X1] _]]].
          destruct (P0 H0) as [r0 X0]. exists (r1 ++ r0). now rewrite app_assoc, <- X1.
        - injection E as <- <-. subst head. cbn [fst] in *. now apply P0. }
      destruct Q as [rest Q]. rewrite Q in A. subst head. cbn [fst] in *.
      destruct h; [contradiction | exact A]. }
    assert (Nh : ~ In pardir (PyStr.split SLASH head)).
    { intro I. destruct (Hin _ I) as [E|E]; [discriminate | now apply N]. }
    destruct B as [X B].
    assert (D : below (workspace_loc cwd) (canon head)
                \/ canon head = cwd).
    { rewrite Hcanon in B. cbn [filter] in B. destruct (kept tail).
      - destruct X as [|x X _] using rev_ind.
        + right. rewrite app_nil_r in B. unfold workspace_loc in B.
          now apply app_inj_tail in B as [-> _].
        + left. rewrite app_assoc in B. apply app_inj_tail in B as [-> _].
          apply below_app.
      - left. rewrite app_nil_r in B. rewrite B. apply below_app. }
    destruct D as [D|D].
    + destruct (makedirs_rec cwd fuel head ok fs) as [[e|u] fs1] eqn:R.
      * pose proof (IH head ok fs fs1 _ (conj Ah (conj Nh D)) Hc R) as K.
        destruct e as [m| | | | |[]]; try (intro H; injection H as _ <-; exact K).
        destruct (eqb tail curdir).
        -- intro H; injection H as _ <-; exact K.
        -- intro H. eapply only_below_trans; [exact K | exact (Mk _ _ _ H)].
      * pose proof (IH head ok fs fs1 _ (conj Ah (conj Nh D)) Hc R) as K.
        destruct (eqb tail curdir).
        -- intro H; injection H as _ <-; exact K.
        -- intro H. eapply only_below_trans; [exact K | exact (Mk _ _ _ H)].
    + exfalso. destruct Hc as [es Hc].
      assert (Hp : fs_path_exn head = None).
      { apply fs_path_exn_comps. intros k Hk.
        destruct (eqb k []) eqn:E1; [left; now apply eqb_eq|].
        destruct (eqb k curdir) eqn:E2; [right; left; now apply eqb_eq|].
        right. right.
        assert (Ik : In k (canon head)).
        { unfold canon. apply filter_In. split; [exact Hk|].
          unfold kept. now rewrite E1, E2. }
        rewrite D in Ik. now apply cwd_names_plain. }
      assert (W : resolve cwd fs head = inr cwd).
      { unfold resolve. replace (is_nil head) with false by now destruct head.
        unfold start, isabs. rewrite Ah.
        pose proof (walk_plain_dir fs (PyStr.split SLASH head) [] es Nh) as Wk.
        cbn [app] in Wk. fold (canon head) in Wk. rewrite D in Wk. now apply Wk. }
      unfold exists_in in Ex.
      rewrite (path_test_intro cwd _ fs (Dir es) head Hp) in Ex; [discriminate|].
      now apply (stat_intro cwd fs _ head cwd).
Qed.

Lemma inside_dirname (a : str) :
  startswith a sep = false ->
  ~ In pardir (PyStr.split SLASH a) ->
  inside cwd (os_path_dirname (os_path_join (WORKSPACE cwd) a)).
Proof.
  intros A N. destruct (inside_join a A N) as [[Ap [Np _]] _].
  set (path := os_path_join (WORKSPACE cwd) a) in *.
  unfold os_path_dirname, dirname.
  destruct (PosixPath.split path) as [head tail] eqn:S. cbn [fst].
  assert (Hh : head <> []).
  { pose proof (split_head_not_nil path (filepath_has_slash cwd cwd_ok a)) as H.
    now rewrite S in H. }
  destruct (posix_split_comps path head tail S Hh) as [pre [Hs [Hk Hi]]].
  destruct (posix_split_spec path head tail S Hh) as [_ [_ [[rest Hr] _]]].
  split; [|split].
  - rewrite Hr in Ap. destruct head; [contradiction | exact Ap].
  - intro I. destruct (Hi _ I) as [E|E]; [discriminate|].
    apply Np. rewrite Hs. apply in_app_iff. now left.
  - unfold canon. rewrite Hk.
    pose proof (split_join_WORKSPACE cwd cwd_ok a A) as Sj. fold path in Sj.
    rewrite Hs in Sj.
    destruct (PyStr.split SLASH a) as [|x sa] eqn:Ea using rev_ind.
    { now elim (split_not_nil SLASH a). }
    clear IHsa. rewrite app_assoc in Sj. apply app_inj_tail in Sj as [-> _].
    rewrite filter_app. cbn [filter]. change (kept []) with false. cbn iota.
    rewrite filter_kept_names by now apply workspace_names_ok.
    apply below_app.
Qed.

Lemma file_write_place (h : loc) (content : str) (fs fs' : node) (r : exn + unit) :
  file_write h content fs = (r, fs') -> only_below h fs fs'.
Proof.
  unfold file_write. destruct (Text.write_text content) as [bs|].
  - intro H. injection H as _ <-. apply modify_only_below.
  - unfold raise. intro H. injection H as _ <-. apply only_below_refl.
Qed.

Section Operations.

Variable a : str.
Hypothesis relative : startswith a sep = false.
Hypothesis plain : ~ In pardir (PyStr.split SLASH a).

Local Abbreviation path := (os_path_join (WORKSPACE cwd) a).

Lemma path_inside : inside cwd path.
Proof. now apply inside_join. Qed.

Lemma place_inside (fs fs' : node) :
  only_below (canon path) fs fs' -> only_below (workspace_loc cwd) fs fs'.
Proof.
  apply only_below_weaken. destruct path_inside as [_ [_ B]]. exact B.
Qed.

Lemma delete_file_inside (fs fs' : node) (r : exn + str) :
  delete_file cwd a fs = (r, fs') -> only_below (workspace_loc cwd) fs fs'.
Proof.
  destruct path_inside as [Ap [Np _]].
  unfold delete_file.  intro H.
  apply bind_cases in H as [[e [H _]]|[b [fs1 [Hb H]]]]; [discriminate|].
  unfold os_path_exists, peek in Hb. injection Hb as <- <-.
  destruct (exists_in cwd fs path); cbn [negb] in H;
    [|unfold raise in H; injection H as _ <-; apply only_below_refl].
  apply bind_cases in H as [[e [H _]]|[b [fs1 [Hb H]]]]; [discriminate|].
  unfold os_path_isdir, peek in Hb. injection Hb as <- <-.
  destruct (isdir_in cwd fs path);
    [unfold raise in H; injection H as _ <-; apply only_below_refl|].
  apply place_inside.
  apply bind_cases in H as [[e [H _]]|[u [fs1 [O H]]]].
  - exact (os_remove_place path fs fs' _ Ap Np H).
  - unfold ret in H. injection H as _ <-.
    exact (os_remove_place path fs fs1 _ Ap Np O).
Qed.

Lemma open_and_write_inside (trunc : bool) (content : str) (k : M str)
    (fs fs' : node) (r : exn + str) :
  (forall fs1, snd (k fs1) = fs1) ->
  bind (open_write cwd trunc path) (fun h => bind (file_write h content) (fun _ => k))
    fs = (r, fs') ->
  only_below (workspace_loc cwd) fs fs'.
Proof.
  destruct path_inside as [Ap [Np _]].
  intros Hk H. apply place_inside.
  apply bind_cases in H as [[e [H _]]|[h [fs1 [O H]]]].
  { now destruct (open_write_place trunc path fs fs' _ Ap Np H). }
  destruct (open_write_place trunc path fs fs1 _ Ap Np O) as [F E].
  rewrite <- (E h eq_refl).
  rewrite <- (E h eq_refl) in F.
  apply (only_below_trans _ fs fs1); [exact F|].
  apply bind_cases in H as [[e [H _]]|[u [fs2 [Wr H]]]].
  - exact (file_write_place h content fs1 fs' _ H).
  - pose proof (Hk fs2) as K. rewrite H in K. simpl in K. subst fs'.
    exact (file_write_place h content fs1 fs2 _ Wr).
Qed.

Lemma append_file_inside (content : str) (fs fs' : node) (r : exn + str) :
  append_file cwd a content fs = (r, fs') -> only_below (workspace_loc cwd) fs fs'.
Proof.
  unfold append_file.  intro H.
  apply bind_cases in H as [[e [H _]]|[b [fs1 [Hb H]]]]; [discriminate|].
  unfold os_path_isfile, peek in Hb. injection Hb as <- <-.
  destruct (isfile_in cwd fs path); cbn [negb] in H;
    [|unfold raise in H; injection H as _ <-; apply only_below_refl].
  now apply (open_and_write_inside false content
               (ret ([CHECK] ++ py " Appended to " ++ a)) fs fs' r).
Qed.

Section WorkingDirectory.

Variable fs : node.
Hypothesis cwd_there : exists es, lookup fs cwd = Some (Dir es).

Lemma create_directory_inside (fs' : node) (r : exn + str) :
  create_directory cwd a fs = (r, fs') -> only_below (workspace_loc cwd) fs fs'.
Proof.
  unfold create_directory.  intro H.
  apply bind_cases in H as [[e [H _]]|[b [fs1 [Hb H]]]]; [discriminate|].
  unfold os_path_exists, peek in Hb. injection Hb as <- <-.
  destruct (exists_in cwd fs path);
    [unfold raise in H; injection H as _ <-; apply only_below_refl|].
  apply bind_cases in H as [[e [H _]]|[u [fs1 [O H]]]].
  - exact (makedirs_inside _ path false fs fs' _ path_inside cwd_there H).
  - unfold ret in H. injection H as _ <-.
    exact (makedirs_inside _ path false fs fs1 _ path_inside cwd_there O).
Qed.

Lemma write_file_inside (content : str) (fs' : node) (r : exn + str) :
  write_file cwd a content fs = (r, fs') -> only_below (workspace_loc cwd) fs fs'.
Proof.
  unfold write_file.  intro H.
  apply bind_cases in H as [[e [H _]]|[u [fs1 [O H]]]].
  - exact (makedirs_inside _ _ true fs fs' _
             (inside_dirname a relative plain) cwd_there H).
  - apply (only_below_trans _ fs fs1).
    + exact (makedirs_inside _ _ true fs fs1 _
               (inside_dirname a relative plain) cwd_there O).
    + now apply (open_and_write_inside true content
                   (ret ([CHECK] ++ py " Wrote to " ++ a)) fs1 fs' r).
Qed.

End WorkingDirectory.

Lemma delete_directory_inside (fs fs' : node) (r : exn + str) :
  delete_directory cwd a fs = (r, fs') -> only_below (workspace_loc cwd) fs fs'.
Proof.
  destruct path_inside as [Ap [Np _]].
  unfold delete_directory.  intro H.
  apply bind_cases in H as [[e [H _]]|[b [fs1 [Hb H]]]]; [discriminate|].
  unfold os_path_exists, peek in Hb. injection Hb as <- <-.
  destruct (exists_in cwd fs path); cbn [negb] in H;
    [|unfold raise in H; injection H as _ <-; apply only_below_refl].
  apply bind_cases in H as [[e [H _]]|[b [fs1 [Hb H]]]]; [discriminate|].
  unfold os_path_isdir, peek in Hb. injection Hb as <- <-.
  destruct (isdir_in cwd fs path); cbn [negb] in H;
    [|unfold raise in H; injection H as _ <-; apply only_below_refl].
  destruct (eqb _ _); [unfold raise in H; injection H as _ <-; apply only_below_refl|].
  apply place_inside.
  apply bind_cases in H as [[e [H _]]|[u [fs1 [O H]]]].
  - exact (rmtree_place path fs fs' _ Ap Np H).
  - unfold ret in H. injection H as _ <-.
    exact (rmtree_place path fs fs1 _ Ap Np O).
Qed.

End Operations.

End Confine.

End ConfineFacts.
Import ConfineFacts.
(** ** Facts about the creation of the workspace when the module is loaded *)

Module StartupFacts.

Import PosixPath.

Section Startup.

Variable cwd : loc.
Hypothesis cwd_ok : forallb valid_name cwd = true.

Lemma heads_WORKSPACE : heads (WORKSPACE cwd) = (abs_path cwd, py "workspace").
Proof.
  rewrite (WORKSPACE_eq cwd cwd_ok). unfold workspace_loc.
  destruct cwd as [|c l] eqn:E; [reflexivity|].
  apply heads_abs_path_snoc; [discriminate | assumption | reflexivity].
Qed.

Lemma exists_getcwd (fs : node) (es : list (str * node)) :
  lookup fs cwd = Some (Dir es) -> exists_in cwd fs (abs_path cwd) = true.
Proof.
  intro L. destruct cwd as [|c l] eqn:E.
  - simpl in L. injection L as ->. reflexivity.
  - rewrite <- E in *. rewrite exists_abs_path; [now rewrite L | | assumption].
    rewrite E. discriminate.
Qed.

Lemma parent_and_name_WORKSPACE (fs : node) (es : list (str * node)) :
  lookup fs cwd = Some (Dir es) ->
  parent_and_name cwd fs (WORKSPACE cwd) = inr (Some (cwd, py "workspace", false)).
Proof.
  intro L. rewrite (WORKSPACE_eq cwd cwd_ok). unfold workspace_loc.
  destruct cwd as [|c l] eqn:E.
  - simpl in L. injection L as ->. reflexivity.
  - rewrite <- E in *.
    apply (parent_and_name_abs_path (c :: l) fs cwd (py "workspace") es);
      [rewrite E; discriminate | assumption | reflexivity | assumption].
Qed.

Lemma mkdir_WORKSPACE (fs : node) (es : list (str * node)) :
  lookup fs cwd = Some (Dir es) ->
  os_mkdir cwd (WORKSPACE cwd) fs =
    match lookup fs (workspace_loc cwd) with
    | Some _ => (inl (OSError EEXIST), fs)
    | None => (inr tt, modify (add_entry (py "workspace") (Dir [])) cwd fs)
    end.
Proof.
  intro L. unfold os_mkdir, syscall.
  rewrite (fs_path_exn_WORKSPACE cwd cwd_ok). unfold mkdir.
  rewrite (parent_and_name_WORKSPACE fs es L).
  change (dot_or_dotdot (py "workspace")) with false. cbn iota.
  fold (workspace_loc cwd). now destruct (lookup fs (workspace_loc cwd)).
Qed.

(** What loading the module does to the tree. *)
Lemma startup_spec (fs : node) (es : list (str * node)) :
  lookup fs cwd = Some (Dir es) ->
  startup cwd fs =
    match lookup fs (workspace_loc cwd) with
    | Some (File _) => (inl (OSError EEXIST), fs)
    | Some (Dir _) => (inr tt, fs)
    | None => (inr tt, modify (add_entry (py "workspace") (Dir [])) cwd fs)
    end.
Proof.
  intro L. unfold startup, os_makedirs.
  rewrite makedirs_rec_step, heads_WORKSPACE. cbn [fst snd].
  rewrite (exists_getcwd fs es L), andb_false_r.
  unfold make. rewrite (mkdir_WORKSPACE fs es L).
  destruct (lookup fs (workspace_loc cwd)) as [[d|es']|] eqn:T; [| |reflexivity].
  - cbn [negb orb].
    replace (isdir_in cwd fs (WORKSPACE cwd)) with false; [reflexivity|].
    symmetry. unfold isdir_in.
    rewrite (path_test_intro cwd _ fs (File d));
      [reflexivity | now apply fs_path_exn_WORKSPACE | now apply stat_WORKSPACE].
  - cbn [negb orb].
    replace (isdir_in cwd fs (WORKSPACE cwd)) with true; [reflexivity|].
    symmetry. unfold isdir_in.
    rewrite (path_test_intro cwd _ fs (Dir es'));
      [reflexivity | now apply fs_path_exn_WORKSPACE | now apply stat_WORKSPACE].
Qed.

End Startup.

End StartupFacts.
Import StartupFacts.
(** ** Facts about the size line *)

Module SizeFacts.

Import SizeText.

Lemma float_of_int_small (n : Z) :
  0 <= n < 2 ^ 53 -> float_of_int n = Some {| mant := n; expo := 0 |}.
Proof.
  intro H. unfold float_of_int.
  replace (Z.log2 (Z.abs n) + 1 <=? 53) with true; [reflexivity|].
  symmetry. apply Z.leb_le. rewrite Z.abs_eq by lia.
  destruct (Z.eq_dec n 0) as [->|Ne]; [simpl; lia|].
  assert (Z.log2 n < 53) by (apply Z.log2_lt_pow2; lia). lia.
Qed.

Lemma round_by_one (a : Z) : round_half_even a 1 = a.
Proof.
  unfold round_half_even. rewrite Z.div_1_r, Z.mod_1_r. reflexivity.
Qed.

Lemma format_scaled (n : Z) (k : Z) :
  0 <= n -> 0 < k ->
  format_2f {| mant := n; expo := - k |}
  = two_decimals (round_half_even (100 * n) (2 ^ k)).
Proof.
  intros Hn Hk. unfold format_2f, hundredths, two_decimals. cbn [mant expo].
  replace (0 <=? - k) with false by (symmetry; apply Z.leb_gt; lia).
  replace (n <? 0) with false by (symmetry; apply Z.ltb_ge; lia).
  rewrite Z.opp_involutive, Z.abs_eq by lia. reflexivity.
Qed.

Lemma format_whole (n : Z) :
  0 <= n -> format_2f {| mant := n; expo := 0 |} = two_decimals (100 * n).
Proof.
  intro Hn. unfold format_2f, hundredths, two_decimals. cbn [mant expo].
  replace (n <? 0) with false by (symmetry; apply Z.ltb_ge; lia).
  rewrite Z.abs_eq by lia. change (0 <=? 0) with true. cbn iota.
  change (2 ^ 0) with 1. now rewrite Z.mul_1_r.
Qed.

(** The size line for a total that a [float] holds exactly. *)
Lemma human_size_exact (n : Z) :
  0 <= n < 2 ^ 53 ->
  human_size n
  = Some (two_decimals
            (round_half_even (100 * n) (1024 ^ Z.of_nat (unit_index n)))
          ++ py " " ++ nth (unit_index n) size_units []).
Proof.
  intro H. unfold human_size, unit_index.
  change (List.length size_units) with 4%nat.
  assert (F := float_of_int_small n H).
  assert (Hn : 0 <= n) by lia.
  cbn [size_loop ge_1024].
  destruct (n <? 1024) eqn:E1.
  { apply Z.ltb_lt in E1.
    replace (1024 <=? n) with false by (symmetry; apply Z.leb_gt; lia).
    cbn [andb as_float]. rewrite F, format_whole by assumption.
    change (1024 ^ Z.of_nat 0) with 1. now rewrite round_by_one. }
  apply Z.ltb_ge in E1.
  replace (1024 <=? n) with true by (symmetry; apply Z.leb_le; lia).
  change (0 <? List.length size_units - 1)%nat with true.
  cbn [andb]. unfold div_1024 at 1. cbn [as_float]. rewrite F.
  cbn [option_map mant expo].
  change (0 - 10) with (- (10)). cbn [size_loop ge_1024 expo mant].
  change (0 <=? - (10)) with false. cbn iota.
  change (1024 * 2 ^ (- - (10))) with (1024 ^ 2).
  change (1 <? List.length size_units - 1)%nat with true.
  destruct (n <? 1024 ^ 2) eqn:E2.
  { apply Z.ltb_lt in E2.
    replace (1024 ^ 2 <=? n) with false by (symmetry; apply Z.leb_gt; lia).
    cbn [andb as_float]. rewrite (format_scaled n 10) by lia. reflexivity. }
  apply Z.ltb_ge in E2.
  replace (1024 ^ 2 <=? n) with true by (symmetry; apply Z.leb_le; lia).
  cbn [andb]. unfold div_1024 at 1. cbn [as_float option_map mant expo].
  change (- (10) - 10) with (- (20)). cbn [size_loop ge_1024 expo mant].
  change (0 <=? - (20)) with false. cbn iota.
  change (1024 * 2 ^ (- - (20))) with (1024 ^ 3).
  change (2 <? List.length size_units - 1)%nat with true.
  destruct (n <? 1024 ^ 3) eqn:E3.
  { apply Z.ltb_lt in E3.
    replace (1024 ^ 3 <=? n) with false by (symmetry; apply Z.leb_gt; lia).
    cbn [andb as_float]. rewrite (format_scaled n 20) by lia. reflexivity. }
  apply Z.ltb_ge in E3.
  replace (1024 ^ 3 <=? n) with true by (symmetry; apply Z.leb_le; lia).
  cbn [andb]. unfold div_1024 at 1. cbn [as_float option_map mant expo].
  change (- (20) - 10) with (- (30)). cbn [size_loop ge_1024 expo mant].
  change (3 <? List.length size_units - 1)%nat with false.
  rewrite andb_false_r. cbn [as_float].
  rewrite (format_scaled n 30) by lia. reflexivity.
Qed.

(** The rounded quotient is within half a unit of the exact one. *)
Lemma round_half_even_near (a b : Z) :
  0 < b -> 2 * Z.abs (round_half_even a b * b - a) <= b.
Proof.
  intro Hb. unfold round_half_even.
  pose proof (Z.div_mod a b ltac:(lia)) as E.
  pose proof (Z.mod_pos_bound a b Hb) as B.
  destruct ((b <? 2 * (a mod b)) || ((2 * (a mod b) =? b) && Z.odd (a / b))) eqn:T.
  - assert (b <= 2 * (a mod b)).
    { apply orb_true_iff in T as [T|T]; [apply Z.ltb_lt in T; lia|].
      apply andb_true_iff in T as [T _]. apply Z.eqb_eq in T. lia. }
    rewrite Z.abs_eq by nia. nia.
  - apply orb_false_iff in T as [T _]. apply Z.ltb_ge in T.
    rewrite Z.abs_neq by nia. nia.
Qed.

Lemma round_half_even_le (a b : Z) : round_half_even a b <= a / b + 1.
Proof.
  unfold round_half_even.
  destruct ((b <? 2 * (a mod b)) || ((2 * (a mod b) =? b) && Z.odd (a / b))); lia.
Qed.

Lemma float_of_int_defined (n : Z) :
  0 <= n < 2 ^ 1023 -> float_of_int n <> None.
Proof.
  intros [Hn Hb]. unfold float_of_int. rewrite Z.abs_eq by assumption.
  destruct (Z.log2 n + 1 <=? 53) eqn:B; [discriminate|].
  apply Z.leb_gt in B.
  assert (Pn : 0 < n)
    by (destruct (Z.eq_dec n 0) as [->|]; [discriminate B | lia]).
  set (sh := Z.log2 n + 1 - 53).
  assert (Hsh : 0 < sh) by (unfold sh; lia).
  assert (L : Z.log2 n < 1023) by (apply Z.log2_lt_pow2; assumption).
  pose proof (Z.log2_spec n Pn) as [_ U].
  assert (P : 0 < 2 ^ sh) by (apply Z.pow_pos_nonneg; lia).
  assert (E : 2 ^ Z.succ (Z.log2 n) = 2 ^ 53 * 2 ^ sh).
  { rewrite <- Z.pow_add_r by lia. f_equal. unfold sh. lia. }
  assert (Q : n / 2 ^ sh < 2 ^ 53).
  { apply Z.div_lt_upper_bound; [assumption|]. rewrite Z.mul_comm, <- E. exact U. }
  pose proof (round_half_even_le n (2 ^ sh)) as R.
  assert (M : round_half_even n (2 ^ sh) * 2 ^ sh <= 2 ^ 53 * 2 ^ sh)
    by (apply Z.mul_le_mono_nonneg_r; lia).
  assert (T : 2 ^ Z.succ (Z.log2 n) <= 2 ^ 1023)
    by (apply Z.pow_le_mono_r; lia).
  assert (K : 2 ^ 1023 < 2 ^ 1024) by (apply Z.pow_lt_mono_r; lia).
  replace (2 ^ 1024 <=? round_half_even n (2 ^ sh) * 2 ^ sh) with false;
    [discriminate|].
  symmetry. apply Z.leb_gt. rewrite <- E in M. lia.
Qed.

Lemma size_loop_float (fuel : nat) (x : float) (i : nat) :
  exists (y : float) (j : nat), size_loop fuel (PyFloat x) i = Some (PyFloat y, j).
Proof.
  revert x i. induction fuel as [|fuel IH]; intros x i; cbn [size_loop].
  - now exists x, i.
  - destruct (ge_1024 (PyFloat x) && (i <? List.length size_units - 1)%nat).
    + cbn [div_1024 as_float option_map]. apply IH.
    + now exists x, i.
Qed.

(** The size line fails exactly when the total is too large for a
    [float]. *)
Lemma human_size_overflow (n : Z) :
  human_size n = None <-> float_of_int n = None.
Proof.
  unfold human_size.
  change (List.length size_units) with (S 3). generalize 3%nat. intro k.
  cbn [size_loop ge_1024].
  destruct (1024 <=? n).
  - change (0 <? List.length size_units - 1)%nat with true.
    cbn [andb]. unfold div_1024. cbn [as_float].
    destruct (float_of_int n) as [x|]; cbn [option_map]; [|tauto].
    destruct (size_loop_float k {| mant := mant x; expo := expo x - 10 |} 1)
      as [y [j ->]].
    cbn [as_float]. split; discriminate.
  - cbn [andb as_float]. destruct (float_of_int n); [split; discriminate | tauto].
Qed.

Lemma human_size_defined (n : Z) :
  0 <= n < 2 ^ 1023 -> human_size n <> None.
Proof.
  intros H E. apply human_size_overflow in E.
  exact (float_of_int_defined n H E).
Qed.

End SizeFacts.
Import SizeFacts.
(** ** More facts about [list_files] *)

Module ListingFacts.

Import PosixPath.

Section Listing.

Variable cwd : loc.


Hypothesis cwd_ok : forallb valid_name cwd = true.


End Listing.

End ListingFacts.
Import ListingFacts.

(** ** The claims *)

(** *** Claim C10 *)

(** C10.  When the path of [append_file] exists but is a directory, the
    call fails with the message "File not found", the very error of a
    missing target (kind NotFound), and the tree is untouched; [delete_file]
    on the same path fails with "Use delete_directory for directories"
    (kind InvalidArgument).  The test in [append_file] is [os.path.isfile]
    alone. *)
Theorem C10_append_file_on_directory (cwd : loc) (fs : node) (f c : str) :
  isdir_in cwd fs (os_path_join (WORKSPACE cwd) f) = true ->
  append_file cwd f c fs = (inl (ValueError (py "File not found")), fs)
  /\ error_kind (ValueError (py "File not found")) = Some NotFound
  /\ delete_file cwd f fs
     = (inl (ValueError (py "Use delete_directory for directories")), fs)
  /\ error_kind (ValueError (py "Use delete_directory for directories"))
     = Some InvalidArgument
  /\ (forall g : str,
        exists_in cwd fs (os_path_join (WORKSPACE cwd) g) = false ->
        append_file cwd g c fs = (inl (ValueError (py "File not found")), fs)).
Proof.
  intro H. repeat split.
  - unfold append_file, bind, os_path_isfile, peek.
    now rewrite (isdir_not_isfile cwd fs _ H).
  - unfold delete_file, bind, os_path_exists, os_path_isdir, peek.
    rewrite (isdir_exists cwd fs _ H). cbn [negb]. now rewrite H.
  - intros g Hg. unfold append_file, bind, os_path_isfile, peek.
    now rewrite (missing_not_isfile cwd fs _ Hg).
Qed.

Lemma C10_append_file_on_directory_witness :
  isdir_in Sample.cwd Sample.disk (os_path_join (WORKSPACE Sample.cwd) (py "sub")) = true
  /\ append_file Sample.cwd (py "sub") (py "x") Sample.disk
     = (inl (ValueError (py "File not found")), Sample.disk).
Proof.
  split; [reflexivity|].
  apply (proj1 (C10_append_file_on_directory Sample.cwd Sample.disk
                  (py "sub") (py "x") eq_refl)).
Defined.

(** *** Claim C1 *)

(** C1, as stated, fails: the operations join the argument to the workspace
    path and use the result as it is.  An argument that climbs with [..]
    or is absolute leads outside the workspace, and the call is carried
    out there: [write_file] creates /srv/evil.txt and [read_file] returns
    the content of /etc/passwd. *)
Lemma C1_traversal_escapes :
  resolved_path Sample.cwd (WriteFile (py "../evil.txt") (py "x"))
    = Some (py "/srv/workspace/../evil.txt")
  /\ os_path_abspath Sample.cwd (py "/srv/workspace/../evil.txt") = py "/srv/evil.txt"
  /\ is_within (WORKSPACE Sample.cwd) (py "/srv/evil.txt") = false
  /\ lookup Sample.disk [py "srv"; py "evil.txt"] = None
  /\ is_inr (fst (run Sample.cwd Sample.lower
                    (WriteFile (py "../evil.txt") (py "x")) Sample.disk)) = true
  /\ lookup (snd (run Sample.cwd Sample.lower
                    (WriteFile (py "../evil.txt") (py "x")) Sample.disk))
            [py "srv"; py "evil.txt"] = Some (File [120])
  /\ resolved_path Sample.cwd (ReadFile (py "/etc/passwd")) = Some (py "/etc/passwd")
  /\ is_within (WORKSPACE Sample.cwd) (py "/etc/passwd") = false
  /\ fst (run Sample.cwd Sample.lower (ReadFile (py "/etc/passwd")) Sample.disk)
     = inr (Message (py "root:x:0:0")).
Proof. vm_compute. repeat split. Qed.

(** C1, amended.  For every operation that takes a path and every argument
    that is relative and has no [..] among its components, the path the
    operation resolves, once made absolute, is the workspace path or lies
    below it. *)
Theorem C1_relative_argument_stays_inside (cwd : loc) (op : operation) (a p : str) :
  forallb valid_name cwd = true ->
  path_argument op = Some a ->
  resolved_path cwd op = Some p ->
  PosixPath.isabs a = false ->
  ~ In PosixPath.pardir (PyStr.split SLASH a) ->
  is_within (WORKSPACE cwd) (os_path_abspath cwd p) = true.
Proof.
  intros Hcwd Ha Hp Hrel Hpar.
  unfold resolved_path in Hp. rewrite Ha in Hp. simpl in Hp. injection Hp as <-.
  rewrite abspath_join_WORKSPACE by assumption.
  rewrite WORKSPACE_eq by assumption.
  apply is_within_abs_path, workspace_loc_not_nil; assumption.
Qed.

Lemma C1_relative_argument_stays_inside_witness :
  is_within (WORKSPACE Sample.cwd)
    (os_path_abspath Sample.cwd (py "/srv/workspace/sub/./note.txt")) = true.
Proof.
  apply (C1_relative_argument_stays_inside Sample.cwd
           (ReadFile (py "sub/./note.txt")) (py "sub/./note.txt")).
  - reflexivity.
  - reflexivity.
  - reflexivity.
  - reflexivity.
  - vm_compute. intros [H|[H|[H|[]]]]; discriminate H.
Defined.

(** *** Claim C2 *)

(** C2 is what the guard in [delete_directory] is there for, and the guard
    misses an alias.  With the workspace at /srv/workspace the argument
    //srv/workspace names the workspace directory itself, but [abspath]
    keeps the two leading slashes, the comparison with the workspace path
    fails, and the whole workspace is removed. *)
Theorem C2_root_removed_through_alias :
  WORKSPACE Sample.cwd = py "/srv/workspace"
  /\ resolve Sample.cwd Sample.disk (py "//srv/workspace")
     = resolve Sample.cwd Sample.disk (WORKSPACE Sample.cwd)
  /\ resolve Sample.cwd Sample.disk (WORKSPACE Sample.cwd)
     = inr (workspace_loc Sample.cwd)
  /\ os_path_abspath Sample.cwd (py "//srv/workspace") = py "//srv/workspace"
  /\ fst (delete_directory Sample.cwd (py "//srv/workspace") Sample.disk)
     = inr ([CHECK] ++ py " Deleted directory //srv/workspace")
  /\ lookup (snd (delete_directory Sample.cwd (py "//srv/workspace") Sample.disk))
            (workspace_loc Sample.cwd) = None
  /\ (forall d, In d [py ""; py "."; py "./"; py "/srv/workspace"; py "/srv/workspace/";
                      py "sub/.."] ->
       delete_directory Sample.cwd d Sample.disk
       = (inl (ValueError (py "Cannot delete workspace root")), Sample.disk)).
Proof.
  repeat split; try (vm_compute; reflexivity).
  intros d Hd. simpl in Hd.
  repeat (destruct Hd as [<-|Hd]; [vm_compute; reflexivity|]).
  destruct Hd.
Qed.

(** *** Claim C6 *)

(** C6.  For a directory [d] that exists, [list_files d] returns one list
    made of two runs: first the names of the sub-directories, each with a
    slash appended, then the names of the other entries; each run holds
    exactly the entries of its kind and is in increasing order of code
    points; an empty directory gives the empty list; the tree is left as it
    was. *)
Theorem C6_list_files_order (cwd : loc) (fs : node) (d : str)
    (es : list (str * node)) :
  isdir_in cwd fs (os_path_join (WORKSPACE cwd) d) = true ->
  stat cwd fs (os_path_join (WORKSPACE cwd) d) = inr (Dir es) ->
  entries_ok es = true ->
  exists ds fl : list str,
    list_files cwd d fs = (inr (ds ++ fl), fs)
    /\ Permutation ds (dir_names es)
    /\ Permutation fl (file_names es)
    /\ StronglySorted le ds
    /\ StronglySorted le fl
    /\ (es = [] -> ds ++ fl = []).
Proof.
  intros Hd Hs Hok.
  exists (sorted (dir_names es)), (sorted (file_names es)).
  pose proof (path_test_inv cwd _ _ _ Hd) as [Hp _].
  destruct (stat_inv cwd _ _ _ Hs) as [l [Hr Hl]].
  split; [|repeat split].
  - unfold list_files, bind, os_path_exists, os_path_isdir, peek.
    rewrite (isdir_exists cwd fs _ Hd). cbn [negb]. rewrite Hd. cbn [negb].
    unfold os_listdir, syscall. rewrite Hp, Hs.
    rewrite (list_files_loop_spec cwd fs _ l es Hp Hr Hl Hok es [] [])
      by apply incl_refl.
    reflexivity.
  - apply sorted_perm.
  - apply sorted_perm.
  - apply sorted_sorted.
  - apply sorted_sorted.
  - intros ->. reflexivity.
Qed.

Lemma C6_list_files_order_witness :
  exists ds fl : list str,
    list_files Sample.cwd (py "") Sample.disk = (inr (ds ++ fl), Sample.disk)
    /\ Permutation ds [py "sub/"]
    /\ Permutation fl [py "b.txt"; py "a.txt"; py "bin.dat"]
    /\ StronglySorted le ds
    /\ StronglySorted le fl.
Proof.
  destruct (C6_list_files_order Sample.cwd Sample.disk (py "")
              [ (py "b.txt", File (Sample.utf8 (py "beta")));
                (py "a.txt", File (Sample.utf8 (py "Hello World hello")));
                (py "sub", Dir [ (py "note.txt", File (Sample.utf8 (py "say HELLO")));
                                 (py "deep", Dir []) ]);
                (py "bin.dat", File [0xFF; 0xFE]) ]
              eq_refl eq_refl eq_refl)
    as [ds [fl [H1 [H2 [H3 [H4 [H5 _]]]]]]].
  exists ds, fl. repeat split; assumption.
Defined.

(** *** Claim C5 *)

(** C5.  [find_files "*"] returns every regular file below the workspace;
    for any other pattern it returns exactly the files whose name ends with
    the pattern without its leading stars.  In both cases the result lists
    the paths relative to the workspace in the order of the traversal, and
    the tree is left as it was. *)
Theorem C5_find_files_suffix (cwd : loc) (fs : node) (pattern : str) :
  forallb valid_name cwd = true ->
  wf fs = true ->
  find_files cwd (py "*") fs
    = (inr (map relative_name (workspace_files cwd fs)), fs)
  /\ (pattern <> py "*" ->
      find_files cwd pattern fs
      = (inr (map relative_name
                (filter (fun f => endswith (file_name f) (lstrip STAR pattern))
                        (workspace_files cwd fs))), fs)).
Proof.
  intros Hcwd W. split.
  - rewrite (find_files_spec cwd Hcwd (py "*") fs W). do 3 f_equal.
    apply forallb_filter_id. apply forallb_forall. now intros f _.
  - intro Hp. rewrite (find_files_spec cwd Hcwd pattern fs W). do 3 f_equal.
    apply filter_ext. intro f. unfold pattern_matches.
    apply eqb_neq in Hp. now rewrite Hp.
Qed.

Lemma C5_find_files_suffix_witness :
  find_files Sample.cwd (py "*.txt") Sample.disk
  = (inr [py "b.txt"; py "a.txt"; py "sub/note.txt"], Sample.disk).
Proof.
  rewrite (proj2 (C5_find_files_suffix Sample.cwd Sample.disk (py "*.txt")
                    eq_refl eq_refl)).
  - reflexivity.
  - intro H. vm_compute in H. discriminate H.
Defined.

(** *** Claim C8 *)

(** C8, as stated, fails.  The query and the text are compared after
    [str.lower] has been applied to each, and that is not a comparison
    without regard to case: a capital sigma that ends a word lowers to the
    final sigma, a capital sigma on its own to the other small sigma.  A
    file that holds the word [odos], which ends with a capital sigma,
    contains the query made of a capital sigma as it is written, and is
    not reported. *)
Lemma C8_query_in_text_not_reported :
  read_file Sample.cwd (py "odos.txt") greek_disk = (inr odos, greek_disk)
  /\ contains [0x3A3] odos = true
  /\ CaseMap.lower [0x3A3] = [0x3C3]
  /\ CaseMap.lower odos = [0x3BF; 0x3B4; 0x3BF; 0x3C2]
  /\ search_files Sample.cwd CaseMap.lower [0x3A3] (py "") greek_disk
     = (inr [], greek_disk).
Proof. repeat split; vm_compute; reflexivity. Qed.

(** C8, amended.  [search_files] never fails and leaves the tree as it
    was.  Its result has, in the order of the traversal, one entry for each regular
    file below the workspace whose name ends with the extension asked for
    (every file when the extension is empty, the default), whose bytes are
    UTF-8 text, and whose text in lower case contains the query in lower
    case; the entry holds the relative path and the number of occurrences
    of the lowered query in the lowered text.  Files whose bytes do not
    decode contribute nothing. *)
Theorem C8_search_files_matches (cwd : loc) (lower : str -> str) (fs : node)
    (query extension : str) :
  forallb valid_name cwd = true ->
  wf fs = true ->
  search_files cwd lower query extension fs
    = (inr (flat_map (search_hit lower query extension) (workspace_files cwd fs)), fs)
  /\ (forall f : file_entry,
        search_hit lower query (py "") f =
          match Text.read_text (file_data f) with
          | None => []
          | Some content =>
              if contains (lower query) (lower content)
              then [(relative_name f, count (lower content) (lower query))]
              else []
          end).
Proof.
  intros Hcwd W. split.
  - now apply search_files_spec.
  - reflexivity.
Qed.

Lemma C8_search_files_matches_witness :
  search_files Sample.cwd Sample.lower (py "hello") (py "") Sample.disk
  = (inr [(py "a.txt", 2); (py "sub/note.txt", 1)], Sample.disk).
Proof.
  rewrite (proj1 (C8_search_files_matches Sample.cwd Sample.lower Sample.disk
                    (py "hello") (py "") eq_refl eq_refl)).
  reflexivity.
Defined.

(** *** Claim C3 *)

(** C3, as stated, fails.  What [read_file] returns is the text with its
    line ends translated: a content with a carriage return is written
    byte for byte and read back changed.  Nor does every file name work:
    the name of a directory that exists makes [write_file] fail. *)
Lemma C3_carriage_return_not_preserved :
  Text.encode (py "a" ++ [CR; LF] ++ py "b") <> None
  /\ fst (write_file Sample.cwd (py "f.txt") (py "a" ++ [CR; LF] ++ py "b") Sample.disk)
     = inr ([CHECK] ++ py " Wrote to f.txt")
  /\ fst (read_file Sample.cwd (py "f.txt")
            (snd (write_file Sample.cwd (py "f.txt")
                    (py "a" ++ [CR; LF] ++ py "b") Sample.disk)))
     = inr (py "a" ++ [LF] ++ py "b")
  /\ py "a" ++ [LF] ++ py "b" <> py "a" ++ [CR; LF] ++ py "b"
  /\ fst (write_file Sample.cwd (py "sub") (py "x") Sample.disk)
     = inl (OSError EISDIR).
Proof.
  split; [vm_compute; discriminate|].
  split; [vm_compute; reflexivity|].
  split; [vm_compute; reflexivity|].
  split; [vm_compute; discriminate|].
  vm_compute; reflexivity.
Qed.

(** C3, amended.  Whenever [write_file f c] returns, [read_file f] returns
    [c] with its line ends translated ("\r\n" and "\r" read as "\n"), which
    is [c] itself when [c] has no carriage return; writing the same content
    again returns and leaves the same tree, so any number of repetitions
    does; and the directory part of the path is a directory.  When the
    target is a regular file already and [c] can be encoded, [write_file]
    returns.  When [f] is made of valid names, the workspace is there, no
    directory on the way is a regular file, the target is not a directory
    and [c] can be encoded, [write_file] returns, the file holds the bytes
    of [c] (so every directory on the way is there, made if it was
    missing), and nothing that was in the tree has gone. *)
Theorem C3_write_then_read (cwd : loc) (fs : node) (f c : str) :
  forallb valid_name cwd = true ->
  (forall (r : str) (fs1 : node),
     write_file cwd f c fs = (inr r, fs1) ->
     read_file cwd f fs1 = (inr (Text.universal_newlines c), fs1)
     /\ (~ In CR c -> read_file cwd f fs1 = (inr c, fs1))
     /\ write_file cwd f c fs1 = (inr r, fs1)
     /\ isdir_in cwd fs1 (os_path_dirname (os_path_join (WORKSPACE cwd) f)) = true)
  /\ (isfile_in cwd fs (os_path_join (WORKSPACE cwd) f) = true ->
      Text.encode c <> None ->
      exists (r : str) (fs1 : node), write_file cwd f c fs = (inr r, fs1))
  /\ (forall (names : list str) (name : str) (bs : list Z) (es : list (str * node)),
        f = PyStr.join PosixPath.sep (names ++ [name]) ->
        forallb valid_name (names ++ [name]) = true ->
        lookup fs (workspace_loc cwd) = Some (Dir es) ->
        (forall p q d, names = p ++ q ->
                       lookup fs (workspace_loc cwd ++ p) <> Some (File d)) ->
        (forall es', lookup fs ((workspace_loc cwd ++ names) ++ [name])
                     <> Some (Dir es')) ->
        Text.encode c = Some bs ->
        exists fs1 : node,
          write_file cwd f c fs = (inr ([CHECK] ++ py " Wrote to " ++ f), fs1)
          /\ lookup fs1 ((workspace_loc cwd ++ names) ++ [name]) = Some (File bs)
          /\ sub fs fs1).
Proof.
  intro Hcwd. split; [|split].
  - intros r fs1 H.
    destruct (write_file_ok cwd fs fs1 f c r H) as [-> [Hp [bs [E S]]]].
    assert (Rd : read_file cwd f fs1 = (inr (Text.universal_newlines c), fs1)).
    { rewrite (read_file_of cwd fs1 f bs Hp S).
      now rewrite (read_text_written c bs E). }
    split; [exact Rd|]. split; [|split].
    + intro Hcr. rewrite Rd. now rewrite universal_newlines_plain.
    + destruct (write_file_existing cwd Hcwd fs1 f c bs bs Hp S E) as [h [R [L ->]]].
      f_equal. now apply (modify_fixed _ h fs1 (File bs)).
    + apply (dirname_of_file cwd fs1 _ bs);
        [now apply filepath_has_slash | assumption..].
  - intros Hf He. destruct (Text.encode c) as [bs|] eqn:E; [|contradiction].
    apply path_test_inv in Hf as [Hp [n [S Hn]]].
    destruct n as [d|es]; [|discriminate].
    destruct (write_file_existing cwd Hcwd fs f c d bs Hp S E) as [h [_ [_ W]]].
    eauto.
  - intros names name bs es -> F Hws Hfree Htarget E.
    now apply (write_file_creates cwd Hcwd fs names name c bs es).
Qed.

Lemma C3_write_then_read_witness :
  read_file Sample.cwd (py "new/dir/f.txt")
    (snd (write_file Sample.cwd (py "new/dir/f.txt") (py "line" ++ [LF]) Sample.disk))
  = (inr (py "line" ++ [LF]),
     snd (write_file Sample.cwd (py "new/dir/f.txt") (py "line" ++ [LF]) Sample.disk))
  /\ exists fs1 : node,
       write_file Sample.cwd (py "new/dir/f.txt") (py "line" ++ [LF]) Sample.disk
       = (inr ([CHECK] ++ py " Wrote to new/dir/f.txt"), fs1)
       /\ lookup Sample.disk [py "srv"; py "workspace"; py "new"] = None
       /\ lookup fs1 [py "srv"; py "workspace"; py "new"; py "dir"; py "f.txt"]
          = Some (File (Sample.utf8 (py "line" ++ [LF]))).
Proof.
  split.
  - apply (proj1 (C3_write_then_read Sample.cwd Sample.disk (py "new/dir/f.txt")
                    (py "line" ++ [LF]) eq_refl)
             ([CHECK] ++ py " Wrote to new/dir/f.txt")).
    + vm_compute. reflexivity.
    + vm_compute. intros [H|[H|[H|[H|[H|[]]]]]]; discriminate H.
  - destruct (proj2 (proj2 (C3_write_then_read Sample.cwd Sample.disk
                              (py "new/dir/f.txt") (py "line" ++ [LF]) eq_refl))
                [py "new"; py "dir"] (py "f.txt") (Sample.utf8 (py "line" ++ [LF]))
                [ (py "b.txt", File (Sample.utf8 (py "beta")));
                  (py "a.txt", File (Sample.utf8 (py "Hello World hello")));
                  (py "sub", Dir [ (py "note.txt", File (Sample.utf8 (py "say HELLO")));
                                   (py "deep", Dir []) ]);
                  (py "bin.dat", File [0xFF; 0xFE]) ]
                eq_refl eq_refl eq_refl)
      as [fs1 [W [L _]]].
    + intros p q d E.
      destruct p as [|a [|b [|x p]]]; simpl in E.
      * vm_compute. discriminate.
      * injection E as <- _. vm_compute. discriminate.
      * injection E as <- <- _. vm_compute. discriminate.
      * destruct p; discriminate E.
    + intro es'. vm_compute. discriminate.
    + reflexivity.
    + exists fs1. split; [exact W|]. split; [reflexivity | exact L].
Defined.

(** *** Claim C4 *)

(** C4, as stated, fails for the same reason as C3: the three texts are
    joined byte for byte, and a carriage return among them is read back as
    a line feed. *)
Lemma C4_carriage_return_not_preserved :
  fst (read_file Sample.cwd (py "b.txt") Sample.disk) = inr (py "beta")
  /\ fst (bind (append_file Sample.cwd (py "b.txt") [CR])
            (fun _ => bind (append_file Sample.cwd (py "b.txt") (py "x"))
                        (fun _ => read_file Sample.cwd (py "b.txt")))
            Sample.disk)
     = inr (py "beta" ++ [LF] ++ py "x")
  /\ py "beta" ++ [LF] ++ py "x" <> py "beta" ++ [CR] ++ py "x".
Proof.
  split; [vm_compute; reflexivity|].
  split; [vm_compute; reflexivity|].
  vm_compute; discriminate.
Qed.

(** C4, amended.  For a regular file whose bytes decode to [c0] and for
    texts [c1] and [c2] that can be encoded, the two calls of [append_file]
    return and [read_file] then returns [c0 ++ c1 ++ c2] with its line
    ends translated, which is [c0 ++ c1 ++ c2] itself when none of the
    three has a carriage return.  Where the path is not a regular file,
    [append_file] fails with "File not found" (kind NotFound) and changes
    nothing. *)
Theorem C4_append_twice (cwd : loc) (fs : node) (f c0 c1 c2 : str) (d0 : list Z) :
  isfile_in cwd fs (os_path_join (WORKSPACE cwd) f) = true ->
  stat cwd fs (os_path_join (WORKSPACE cwd) f) = inr (File d0) ->
  Text.decode d0 = Some c0 ->
  Text.encode c1 <> None ->
  Text.encode c2 <> None ->
  (exists (r1 r2 : str) (fs1 fs2 : node),
     append_file cwd f c1 fs = (inr r1, fs1)
     /\ append_file cwd f c2 fs1 = (inr r2, fs2)
     /\ read_file cwd f fs2 = (inr (Text.universal_newlines (c0 ++ c1 ++ c2)), fs2)
     /\ (~ In CR (c0 ++ c1 ++ c2) -> read_file cwd f fs2 = (inr (c0 ++ c1 ++ c2), fs2)))
  /\ (forall g c : str,
        isfile_in cwd fs (os_path_join (WORKSPACE cwd) g) = false ->
        append_file cwd g c fs = (inl (ValueError (py "File not found")), fs)
        /\ error_kind (ValueError (py "File not found")) = Some NotFound).
Proof.
  intros Hf S D0 E1 E2. split.
  - destruct (Text.encode c1) as [b1|] eqn:Eb1; [|contradiction].
    destruct (Text.encode c2) as [b2|] eqn:Eb2; [|contradiction].
    apply path_test_inv in Hf as [Hp _].
    destruct (append_file_existing cwd fs f c1 d0 b1 Hp S Eb1) as [fs1 [A1 S1]].
    destruct (append_file_existing cwd fs1 f c2 (d0 ++ b1) b2 Hp S1 Eb2)
      as [fs2 [A2 S2]].
    exists ([CHECK] ++ py " Appended to " ++ f), ([CHECK] ++ py " Appended to " ++ f),
           fs1, fs2.
    assert (Rd : read_file cwd f fs2
                 = (inr (Text.universal_newlines (c0 ++ c1 ++ c2)), fs2)).
    { rewrite (read_file_of cwd fs2 f _ Hp S2). unfold Text.read_text.
      rewrite <- app_assoc.
      rewrite (decode_app d0 (b1 ++ b2) c0 (c1 ++ c2) D0
                 (decode_app b1 b2 c1 c2 (decode_encode c1 b1 Eb1)
                    (decode_encode c2 b2 Eb2))).
      reflexivity. }
    repeat split; try assumption.
    intro Hcr. rewrite Rd. now rewrite universal_newlines_plain.
  - intros g c Hg. split; [|reflexivity].
    unfold append_file, bind, os_path_isfile, peek. now rewrite Hg.
Qed.

Lemma C4_append_twice_witness :
  exists (r1 r2 : str) (fs1 fs2 : node),
    append_file Sample.cwd (py "b.txt") (py "-1") Sample.disk = (inr r1, fs1)
    /\ append_file Sample.cwd (py "b.txt") (py "-2") fs1 = (inr r2, fs2)
    /\ read_file Sample.cwd (py "b.txt") fs2 = (inr (py "beta-1-2"), fs2).
Proof.
  destruct (proj1 (C4_append_twice Sample.cwd Sample.disk (py "b.txt")
                     (py "beta") (py "-1") (py "-2") (Sample.utf8 (py "beta"))
                     eq_refl eq_refl eq_refl
                     (fun H => eq_ind (Text.encode (py "-1"))
                                 (fun o => match o with Some _ => True | None => False end)
                                 I None H)
                     (fun H => eq_ind (Text.encode (py "-2"))
                                 (fun o => match o with Some _ => True | None => False end)
                                 I None H)))
    as [r1 [r2 [fs1 [fs2 [A1 [A2 [R _]]]]]]].
  exists r1, r2, fs1, fs2. repeat split; assumption.
Defined.

(** *** Claim C7 *)

(** C7, as stated, fails.  For the path new/../b.txt/. the first
    [create_directory] returns ([os.makedirs] stops early for a path that
    ends in a dot once it has made new) although the path leads through the
    regular file b.txt; the second call then fails in [mkdir] with
    [NotADirectoryError], not with "Directory already exists".  And a
    [delete_directory] that fails is not followed by "Directory not found":
    on the workspace itself both calls fail with "Cannot delete workspace
    root". *)
Lemma C7_second_create_is_not_already_exists :
  fst (create_directory Sample.cwd (py "new/../b.txt/.") Sample.disk)
    = inr ([CHECK] ++ py " Created directory new/../b.txt/.")
  /\ fst (create_directory Sample.cwd (py "new/../b.txt/.")
            (snd (create_directory Sample.cwd (py "new/../b.txt/.") Sample.disk)))
     = inl (OSError ENOTDIR)
  /\ isdir_in Sample.cwd Sample.disk (os_path_join (WORKSPACE Sample.cwd) (py "")) = true
  /\ fst (delete_directory Sample.cwd (py "") Sample.disk)
     = inl (ValueError (py "Cannot delete workspace root"))
  /\ fst (delete_directory Sample.cwd (py "")
            (snd (delete_directory Sample.cwd (py "") Sample.disk)))
     = inl (ValueError (py "Cannot delete workspace root")).
Proof. repeat split; vm_compute; reflexivity. Qed.

(** C7, amended.  If [create_directory d] returns and the path of [d] does
    not end in a dot component, an immediate second [create_directory d]
    fails with "Directory already exists" (kind AlreadyExists) and changes
    nothing; the first call fails so whenever the path exists already, as a
    file or as a directory.  If [delete_directory d] returns, an immediate
    second [delete_directory d] fails with "Directory not found" (kind
    NotFound) and changes nothing. *)
Theorem C7_create_and_delete_twice (cwd : loc) (fs : node) (d : str) :
  (forall (r : str) (fs1 : node),
     create_directory cwd d fs = (inr r, fs1) ->
     final_component (os_path_join (WORKSPACE cwd) d) <> PosixPath.curdir ->
     create_directory cwd d fs1
     = (inl (ValueError (py "Directory already exists")), fs1))
  /\ (exists_in cwd fs (os_path_join (WORKSPACE cwd) d) = true ->
      create_directory cwd d fs
      = (inl (ValueError (py "Directory already exists")), fs))
  /\ (forall (r : str) (fs1 : node),
        delete_directory cwd d fs = (inr r, fs1) ->
        delete_directory cwd d fs1
        = (inl (ValueError (py "Directory not found")), fs1))
  /\ error_kind (ValueError (py "Directory already exists")) = Some AlreadyExists
  /\ error_kind (ValueError (py "Directory not found")) = Some NotFound.
Proof.
  assert (Again : forall fs0,
            exists_in cwd fs0 (os_path_join (WORKSPACE cwd) d) = true ->
            create_directory cwd d fs0
            = (inl (ValueError (py "Directory already exists")), fs0)).
  { intros fs0 E. unfold create_directory, bind, os_path_exists, peek.
    now rewrite E. }
  split; [|split; [apply Again | split; [|split; reflexivity]]].
  - intros r fs1 H Hf. apply Again. apply isdir_exists.
    unfold create_directory in H.
    apply bind_ok in H as [b [fs0 [Hb H]]].
    unfold os_path_exists, peek in Hb. injection Hb as <- <-.
    destruct (exists_in cwd fs _); [discriminate|].
    apply bind_ok in H as [u [fs2 [Mk H]]].
    unfold ret in H. injection H as _ <-. destruct u.
    now apply (makedirs_created cwd _ _ fs fs2 Mk).
  - intros r fs1 H. unfold delete_directory in H.
    apply bind_ok in H as [b [fs0 [Hb H]]].
    unfold os_path_exists, peek in Hb. injection Hb as <- <-.
    destruct (exists_in cwd fs _); [|discriminate]. cbn [negb] in H.
    apply bind_ok in H as [b [fs0 [Hb H]]].
    unfold os_path_isdir, peek in Hb. injection Hb as <- <-.
    destruct (isdir_in cwd fs _); [|discriminate]. cbn [negb] in H.
    destruct (eqb _ _); [discriminate|].
    apply bind_ok in H as [u [fs2 [Rm H]]].
    unfold ret in H. injection H as _ <-. destruct u.
    unfold delete_directory, bind, os_path_exists, peek.
    now rewrite (rmtree_gone cwd fs fs2 _ Rm).
Qed.

Lemma C7_create_and_delete_twice_witness :
  create_directory Sample.cwd (py "fresh/dir")
    (snd (create_directory Sample.cwd (py "fresh/dir") Sample.disk))
  = (inl (ValueError (py "Directory already exists")),
     snd (create_directory Sample.cwd (py "fresh/dir") Sample.disk))
  /\ delete_directory Sample.cwd (py "sub")
       (snd (delete_directory Sample.cwd (py "sub") Sample.disk))
     = (inl (ValueError (py "Directory not found")),
        snd (delete_directory Sample.cwd (py "sub") Sample.disk)).
Proof.
  split.
  - apply (proj1 (C7_create_and_delete_twice Sample.cwd Sample.disk (py "fresh/dir"))
             ([CHECK] ++ py " Created directory fresh/dir")).
    + vm_compute. reflexivity.
    + vm_compute. discriminate.
  - apply (proj1 (proj2 (proj2 (C7_create_and_delete_twice Sample.cwd Sample.disk
                                  (py "sub"))))
             ([CHECK] ++ py " Deleted directory sub")).
    vm_compute. reflexivity.
Defined.

(** *** Claim C9 *)

(** C9.  Whenever an operation of the catalog fails with an error of one of
    the four kinds (NotFound, InvalidArgument, AlreadyExists,
    PermissionDenied), the tree after the call is the tree before it: these
    errors are raised by the tests that come before the first call that
    changes anything. *)
Theorem C9_classified_errors_change_nothing (cwd : loc) (lower : str -> str)
    (op : operation) (fs fs' : node) (e : exn) :
  run cwd lower op fs = (inl e, fs') ->
  error_kind e <> None ->
  fs' = fs.
Proof.
  intros H K. destruct op; apply fmap_error in H.
  - exact (readonly_error _ fs fs' _ (readonly_list_files cwd directory) H).
  - exact (readonly_error _ fs fs' _ (readonly_read_file cwd filename) H).
  - now apply write_file_error in H.
  - now destruct (append_file_error cwd _ _ fs fs' e H).
  - now destruct (delete_file_error cwd _ fs fs' e H).
  - now destruct (create_directory_error cwd _ fs fs' e H).
  - now destruct (delete_directory_error cwd _ fs fs' e H).
  - exact (readonly_error _ fs fs' _ (readonly_file_info cwd filename) H).
  - exact (readonly_error _ fs fs' _ (readonly_search_files cwd lower query extension) H).
  - exact (readonly_error _ fs fs' _ (readonly_find_files cwd pattern) H).
  - exact (readonly_error _ fs fs' _ (readonly_get_workspace_info cwd) H).
Qed.

Lemma C9_classified_errors_change_nothing_witness :
  error_kind (ValueError (py "Cannot delete workspace root")) = Some PermissionDenied
  /\ snd (run Sample.cwd Sample.lower (DeleteDirectory (py "./")) Sample.disk)
     = Sample.disk.
Proof.
  split; [reflexivity|].
  apply (C9_classified_errors_change_nothing Sample.cwd Sample.lower
           (DeleteDirectory (py "./")) Sample.disk _
           (ValueError (py "Cannot delete workspace root"))).
  - vm_compute. reflexivity.
  - vm_compute. discriminate.
Defined.
(** ** Further properties of the program *)

(** *** The queries *)

(** X1.  The six operations that only ask ([list_files], [read_file],
    [file_info], [search_files], [find_files], [get_workspace_info]) leave
    the tree exactly as it was, for every argument and whether they return
    or fail. *)
Theorem queries_change_nothing (cwd : loc) (lower : str -> str) (fs : node) :
  (forall d, snd (list_files cwd d fs) = fs)
  /\ (forall f, snd (read_file cwd f fs) = fs)
  /\ (forall f, snd (file_info cwd f fs) = fs)
  /\ (forall q e, snd (search_files cwd lower q e fs) = fs)
  /\ (forall p, snd (find_files cwd p fs) = fs)
  /\ snd (get_workspace_info cwd fs) = fs.
Proof.
  repeat split; intros.
  - apply readonly_list_files.
  - apply readonly_read_file.
  - apply readonly_file_info.
  - apply readonly_search_files.
  - apply readonly_find_files.
  - apply readonly_get_workspace_info.
Qed.

(** X2.  [read_file] on a regular file returns the text its bytes decode
    to, with the line ends translated, and fails with [UnicodeDecodeError]
    when the bytes are not UTF-8; that error is none of the four kinds, and
    the tree is as it was in both cases. *)
Theorem read_file_outcome (cwd : loc) (fs : node) (f : str) (d : list Z) :
  isfile_in cwd fs (os_path_join (WORKSPACE cwd) f) = true ->
  stat cwd fs (os_path_join (WORKSPACE cwd) f) = inr (File d) ->
  read_file cwd f fs
  = (match Text.decode d with
     | Some s => inr (Text.universal_newlines s)
     | None => inl UnicodeDecodeError
     end, fs)
  /\ error_kind UnicodeDecodeError = None.
Proof.
  intros F St. split; [|reflexivity].
  destruct (path_test_inv cwd _ fs _ F) as [Hp _].
  rewrite (read_file_of cwd fs f d Hp St). unfold Text.read_text.
  now destruct (Text.decode d).
Qed.

Lemma read_file_outcome_witness :
  read_file Sample.cwd (py "bin.dat") Sample.disk = (inl UnicodeDecodeError, Sample.disk)
  /\ read_file Sample.cwd (py "b.txt") Sample.disk = (inr (py "beta"), Sample.disk).
Proof.
  split.
  - exact (proj1 (read_file_outcome Sample.cwd Sample.disk (py "bin.dat") [0xFF; 0xFE]
                    eq_refl eq_refl)).
  - exact (proj1 (read_file_outcome Sample.cwd Sample.disk (py "b.txt")
                    (Sample.utf8 (py "beta")) eq_refl eq_refl)).
Defined.

(** *** Writing *)

(** X3.  When the content cannot be encoded (it holds a surrogate),
    [write_file] on a regular file fails with [UnicodeEncodeError] after the
    file has been opened for writing: the file is left empty, its former
    content is lost.  [append_file] fails with the same error and leaves
    the file as it was. *)
Theorem write_file_unencodable_truncates (cwd : loc) (fs : node) (f c : str) :
  forallb valid_name cwd = true ->
  isfile_in cwd fs (os_path_join (WORKSPACE cwd) f) = true ->
  Text.encode c = None ->
  exists fs',
    write_file cwd f c fs = (inl UnicodeEncodeError, fs')
    /\ stat cwd fs' (os_path_join (WORKSPACE cwd) f) = inr (File [])
    /\ read_file cwd f fs' = (inr [], fs')
    /\ append_file cwd f c fs = (inl UnicodeEncodeError, fs).
Proof.
  intros Hcwd F E. set (path := os_path_join (WORKSPACE cwd) f) in *.
  destruct (path_test_inv cwd _ fs path F) as [Hp [[d|es] [St Hk]]]; [|discriminate].
  destruct (open_create_existing cwd true fs path d St) as [h [R [L O]]].
  destruct (open_create_existing cwd false fs path d St) as [h' [_ [_ O']]].
  exists (modify (fun _ => File []) h fs).
  destruct (open_create_file cwd true fs _ path h O) as [_ [R' [d' [L' [Hd _]]]]].
  rewrite (Hd eq_refl) in L'.
  assert (St' : stat cwd (modify (fun _ => File []) h fs) path = inr (File []))
    by now apply (stat_intro cwd _ _ path h).
  split; [|split; [exact St'|split]].
  - unfold write_file. fold path. unfold os_makedirs.
    rewrite (bind_step _ _ fs fs tt).
    + unfold bind, open_write, syscall. rewrite Hp, O.
      unfold file_write, Text.write_text. now rewrite E.
    + apply makedirs_existing.
      apply (dirname_of_file cwd fs path d);
        [now apply filepath_has_slash | exact Hp | exact St].
  - now rewrite (read_file_of cwd _ f [] Hp St').
  - unfold append_file. fold path. unfold bind at 1.
    unfold os_path_isfile, peek. rewrite F. cbn [negb].
    unfold bind, open_write, syscall. rewrite Hp, O'.
    unfold file_write, Text.write_text. now rewrite E.
Qed.

Lemma write_file_unencodable_truncates_witness :
  exists fs',
    write_file Sample.cwd (py "b.txt") [0xD800] Sample.disk = (inl UnicodeEncodeError, fs')
    /\ stat Sample.cwd fs' (os_path_join (WORKSPACE Sample.cwd) (py "b.txt"))
       = inr (File [])
    /\ stat Sample.cwd Sample.disk (os_path_join (WORKSPACE Sample.cwd) (py "b.txt"))
       = inr (File (Sample.utf8 (py "beta"))).
Proof.
  destruct (write_file_unencodable_truncates Sample.cwd Sample.disk (py "b.txt") [0xD800]
              eq_refl eq_refl eq_refl) as [fs' [W [S _]]].
  exists fs'. split; [exact W|]. split; [exact S | reflexivity].
Defined.

(** X4.  Whatever its outcome, [write_file] removes nothing from the tree,
    and every regular file other than the one its path leads to afterwards
    keeps its bytes. *)
Theorem write_file_changes_one_file (cwd : loc) (fs fs' : node) (f c : str)
    (r : exn + str) :
  write_file cwd f c fs = (r, fs') ->
  sub fs fs'
  /\ forall l d,
       lookup fs l = Some (File d) ->
       resolve cwd fs' (os_path_join (WORKSPACE cwd) f) <> inr l ->
       lookup fs' l = Some (File d).
Proof.
  intro H. split.
  - exact (write_file_sub cwd f c fs fs' r H).
  - exact (write_file_other cwd f c fs fs' r H).
Qed.

Lemma write_file_changes_one_file_witness :
  lookup (snd (write_file Sample.cwd (py "sub/../a.txt") (py "x") Sample.disk))
    [py "srv"; py "workspace"; py "b.txt"]
  = Some (File (Sample.utf8 (py "beta"))).
Proof.
  apply (proj2 (write_file_changes_one_file Sample.cwd Sample.disk _
                  (py "sub/../a.txt") (py "x") _ (surjective_pairing _))).
  - reflexivity.
  - vm_compute. discriminate.
Defined.

(** X5.  [append_file] either leaves the tree as it was, or it has added
    the bytes of the content to the end of the regular file its path leads
    to and changed nothing else: no file or directory appears or goes. *)
Theorem append_file_changes_one_file (cwd : loc) (fs fs' : node) (f c : str)
    (r : exn + str) :
  append_file cwd f c fs = (r, fs') ->
  fs' = fs
  \/ exists h d bs,
       resolve cwd fs (os_path_join (WORKSPACE cwd) f) = inr h
       /\ lookup fs h = Some (File d)
       /\ Text.encode c = Some bs
       /\ lookup fs' h = Some (File (d ++ bs))
       /\ only_below h fs fs'.
Proof.
  intro H. set (path := os_path_join (WORKSPACE cwd) f) in *.
  destruct (append_file_steps cwd f c fs fs' r H)
    as [[_ [-> _]]|[F [[-> _]|[h [fs2 [O W]]]]]]; [now left | now left|].
  fold path in F, O.
  destruct (path_test_inv cwd _ fs path F) as [Hp [[d|es] [St Hk]]]; [|discriminate].
  destruct (open_create_existing cwd false fs path d St) as [h' [R [L O']]].
  rewrite O' in O. injection O as <- <-.
  destruct W as [[_ [-> _]]|[bs [E [-> _]]]]; [now left|].
  right. exists h', d, bs. repeat split; try assumption.
  - exact (lookup_modify_here (append_data bs) h' fs (File d) L).
  - apply modify_only_below.
Qed.

Lemma append_file_changes_one_file_witness :
  lookup (snd (append_file Sample.cwd (py "b.txt") (py "!") Sample.disk))
    [py "srv"; py "workspace"; py "b.txt"]
  = Some (File (Sample.utf8 (py "beta!"))).
Proof.
  destruct (append_file_changes_one_file Sample.cwd Sample.disk _ (py "b.txt") (py "!") _
              (surjective_pairing _)) as [E|[h [d [bs [R [L [En [L' _]]]]]]]].
  - exfalso. vm_compute in E. discriminate E.
  - vm_compute in R. injection R as <-.
    vm_compute in L. injection L as <-.
    vm_compute in En. injection En as <-.
    exact L'.
Defined.

(** *** Removing *)

(** X6.  [delete_file] on a regular file returns; the file is gone and
    everything else in the tree is as it was; a second [delete_file] and a
    [read_file] on the same name then fail with "File not found". *)
Theorem delete_file_removes_one_file (cwd : loc) (fs : node) (f : str) :
  isfile_in cwd fs (os_path_join (WORKSPACE cwd) f) = true ->
  exists h fs',
    resolve cwd fs (os_path_join (WORKSPACE cwd) f) = inr h
    /\ delete_file cwd f fs = (inr ([CHECK] ++ py " Deleted " ++ f), fs')
    /\ lookup fs' h = None
    /\ only_below h fs fs'
    /\ delete_file cwd f fs' = (inl (ValueError (py "File not found")), fs')
    /\ read_file cwd f fs' = (inl (ValueError (py "File not found")), fs').
Proof.
  intro F. destruct (delete_file_effect cwd fs f F) as [h [fs' [R [D [G [O E]]]]]].
  exists h, fs'. repeat split; try assumption.
  - unfold delete_file, bind, os_path_exists, peek. now rewrite E.
  - unfold read_file, bind, os_path_isfile, peek.
    now rewrite (missing_not_isfile cwd fs' _ E).
Qed.

Lemma delete_file_removes_one_file_witness :
  exists h fs',
    resolve Sample.cwd Sample.disk (os_path_join (WORKSPACE Sample.cwd) (py "sub/note.txt"))
    = inr h
    /\ delete_file Sample.cwd (py "sub/note.txt") Sample.disk
       = (inr ([CHECK] ++ py " Deleted sub/note.txt"), fs')
    /\ lookup fs' h = None
    /\ only_below h Sample.disk fs'.
Proof.
  destruct (delete_file_removes_one_file Sample.cwd Sample.disk (py "sub/note.txt") eq_refl)
    as [h [fs' [R [D [G [O _]]]]]].
  now exists h, fs'.
Defined.

(** X7.  When [delete_directory] returns, the directory its path led to is
    gone with all that was below it, and every place of the tree that is
    not in that directory holds what it held before. *)
Theorem delete_directory_removes_subtree (cwd : loc) (fs fs' : node) (d r : str) :
  delete_directory cwd d fs = (inr r, fs') ->
  r = [CHECK] ++ py " Deleted directory " ++ d
  /\ exists h es,
       resolve cwd fs (os_path_join (WORKSPACE cwd) d) = inr h
       /\ lookup fs h = Some (Dir es)
       /\ (forall l, below h l -> lookup fs' l = None)
       /\ only_below h fs fs'.
Proof.
  intro H. destruct (delete_directory_effect cwd fs fs' d r H)
    as [Hr [h [es [R [L [G O]]]]]].
  split; [exact Hr|]. exists h, es. repeat split; try assumption.
  intros l B. exact (lookup_below_none fs' h l G B).
Qed.

Lemma delete_directory_removes_subtree_witness :
  exists h es,
    resolve Sample.cwd Sample.disk (os_path_join (WORKSPACE Sample.cwd) (py "sub")) = inr h
    /\ lookup Sample.disk h = Some (Dir es)
    /\ (forall l, below h l ->
          lookup (snd (delete_directory Sample.cwd (py "sub") Sample.disk)) l = None)
    /\ only_below h Sample.disk (snd (delete_directory Sample.cwd (py "sub") Sample.disk)).
Proof.
  exact (proj2 (delete_directory_removes_subtree Sample.cwd Sample.disk _ (py "sub")
                  ([CHECK] ++ py " Deleted directory sub") eq_refl)).
Defined.

(** X8.  The guard of [delete_directory] is exact for every argument that
    is relative or does not begin with exactly two slashes: when the path
    is a directory, the call fails with "Cannot delete workspace root" if
    the path leads to the workspace directory, by whatever detour, and
    never does so if it leads elsewhere. *)
Theorem delete_directory_guard_exact (cwd : loc) (fs : node) (d : str) (h : loc) :
  forallb valid_name cwd = true ->
  startswith d PosixPath.sep = false \/ PosixPath.initial_slashes d <> 2%nat ->
  isdir_in cwd fs (os_path_join (WORKSPACE cwd) d) = true ->
  resolve cwd fs (os_path_join (WORKSPACE cwd) d) = inr h ->
  (h = workspace_loc cwd ->
   delete_directory cwd d fs
   = (inl (ValueError (py "Cannot delete workspace root")), fs))
  /\ (h <> workspace_loc cwd ->
      fst (delete_directory cwd d fs)
      <> inl (ValueError (py "Cannot delete workspace root"))).
Proof.
  intros Hcwd A D R.
  pose proof (guard_exact cwd Hcwd fs d h A R) as G.
  pose proof (isdir_exists cwd fs _ D) as E.
  split.
  - intro Hh. apply G in Hh.
    unfold delete_directory.
    unfold bind at 1. unfold os_path_exists, peek. rewrite E. cbn [negb].
    unfold bind at 1. unfold os_path_isdir, peek. rewrite D. cbn [negb].
    now rewrite Hh.
  - intros Hh.
    destruct (delete_directory cwd d fs) as [r fs'] eqn:H. cbn [fst]. intros ->.
    unfold delete_directory in H.
    apply bind_error in H as [H|[b [fs1 [Hb H]]]]; [discriminate|].
    unfold os_path_exists, peek in Hb. injection Hb as <- <-.
    rewrite E in H. cbn [negb] in H.
    apply bind_error in H as [H|[b [fs1 [Hb H]]]]; [discriminate|].
    unfold os_path_isdir, peek in Hb. injection Hb as <- <-.
    rewrite D in H. cbn [negb] in H.
    destruct (eqb (os_path_abspath cwd (os_path_join (WORKSPACE cwd) d))
                  (os_path_abspath cwd (WORKSPACE cwd))) eqn:T.
    { apply Hh. now apply G. }
    apply bind_error in H as [H|[u [fs1 [_ H]]]]; [|discriminate].
    now apply rmtree_error in H.
Qed.

Lemma delete_directory_guard_exact_witness :
  delete_directory Sample.cwd (py "sub/deep/../..") Sample.disk
  = (inl (ValueError (py "Cannot delete workspace root")), Sample.disk).
Proof.
  apply (proj1 (delete_directory_guard_exact Sample.cwd Sample.disk (py "sub/deep/../..")
                  [py "srv"; py "workspace"] eq_refl (or_introl eq_refl) eq_refl eq_refl)).
  reflexivity.
Defined.

(** X9.  For a relative argument without [..], [delete_directory] never
    removes the workspace directory itself, whatever its outcome. *)
Theorem delete_directory_keeps_workspace (cwd : loc) (fs fs' : node) (d : str)
    (r : exn + str) (es : list (str * node)) :
  forallb valid_name cwd = true ->
  startswith d PosixPath.sep = false ->
  ~ In PosixPath.pardir (PyStr.split SLASH d) ->
  lookup fs (workspace_loc cwd) = Some (Dir es) ->
  delete_directory cwd d fs = (r, fs') ->
  exists es', lookup fs' (workspace_loc cwd) = Some (Dir es').
Proof.
  intros Hcwd A N L H.
  destruct (inside_join cwd Hcwd d A N) as [[Ap [Np _]] C].
  set (path := os_path_join (WORKSPACE cwd) d) in *.
  assert (Same : fs' = fs -> exists es', lookup fs' (workspace_loc cwd) = Some (Dir es'))
    by (intros ->; now exists es).
  unfold delete_directory in H. fold path in H.
  apply bind_cases in H as [[e [H _]]|[b [fs1 [Hb H]]]]; [discriminate|].
  unfold os_path_exists, peek in Hb. injection Hb as <- <-.
  destruct (exists_in cwd fs path); cbn [negb] in H;
    [|unfold raise in H; injection H as _ <-; now apply Same].
  apply bind_cases in H as [[e [H _]]|[b [fs1 [Hb H]]]]; [discriminate|].
  unfold os_path_isdir, peek in Hb. injection Hb as <- <-.
  destruct (isdir_in cwd fs path) eqn:D; cbn [negb] in H;
    [|unfold raise in H; injection H as _ <-; now apply Same].
  destruct (path_test_inv cwd _ fs path D) as [_ [n [St _]]].
  destruct (stat_inv cwd fs n path St) as [h [R _]].
  pose proof (guard_exact cwd Hcwd fs d h (or_introl A) R) as G. fold path in G.
  destruct (eqb (os_path_abspath cwd path) (os_path_abspath cwd (WORKSPACE cwd))) eqn:T;
    [unfold raise in H; injection H as _ <-; now apply Same|].
  assert (Hh : h <> workspace_loc cwd) by (intro X; apply G in X; congruence).
  rewrite (resolve_place cwd fs path h R Ap Np), C in Hh.
  assert (F : only_below (canon path) fs fs').
  { apply bind_cases in H as [[e [H _]]|[u [fs1 [O H]]]].
    - exact (rmtree_place cwd path fs fs' _ Ap Np H).
    - unfold ret in H. injection H as _ <-.
      exact (rmtree_place cwd path fs fs1 _ Ap Np O). }
  apply (same_at_dir fs fs' _ es); [|exact L].
  apply F. rewrite C. intros [x X].
  destruct (canon d) as [|k q]; [now rewrite app_nil_r in Hh|].
  apply (f_equal (@List.length str)) in X. rewrite !length_app in X. simpl in X. lia.
Qed.

Lemma delete_directory_keeps_workspace_witness :
  exists es',
    lookup (snd (delete_directory Sample.cwd (py "sub/./deep") Sample.disk))
      (workspace_loc Sample.cwd) = Some (Dir es').
Proof.
  apply (delete_directory_keeps_workspace Sample.cwd Sample.disk _ (py "sub/./deep")
           (fst (delete_directory Sample.cwd (py "sub/./deep") Sample.disk))
           [ (py "b.txt", File (Sample.utf8 (py "beta")));
             (py "a.txt", File (Sample.utf8 (py "Hello World hello")));
             (py "sub", Dir [ (py "note.txt", File (Sample.utf8 (py "say HELLO")));
                              (py "deep", Dir []) ]);
             (py "bin.dat", File [0xFF; 0xFE]) ]
           eq_refl eq_refl).
  - vm_compute. intros [H|[H|[H|[]]]]; discriminate H.
  - reflexivity.
  - apply surjective_pairing.
Defined.

(** *** Creating *)

(** X10.  [create_directory] for a path of names below the workspace that
    leads to nothing, with no regular file on the way: the call returns,
    the directory is there and empty, every directory on the way is there,
    and every file and directory that was in the tree still is, the files
    with their bytes. *)
Theorem create_directory_makes_missing_parents (cwd : loc) (fs : node)
    (names : list str) (name : str) (es : list (str * node)) :
  forallb valid_name cwd = true ->
  forallb valid_name (names ++ [name]) = true ->
  lookup fs (workspace_loc cwd) = Some (Dir es) ->
  (forall p q d, names = p ++ q -> lookup fs (workspace_loc cwd ++ p) <> Some (File d)) ->
  lookup fs ((workspace_loc cwd ++ names) ++ [name]) = None ->
  exists fs',
    create_directory cwd (PyStr.join PosixPath.sep (names ++ [name])) fs
    = (inr ([CHECK] ++ py " Created directory "
            ++ PyStr.join PosixPath.sep (names ++ [name])), fs')
    /\ lookup fs' ((workspace_loc cwd ++ names) ++ [name]) = Some (Dir [])
    /\ (forall p q, names = p ++ q ->
          exists es', lookup fs' (workspace_loc cwd ++ p) = Some (Dir es'))
    /\ keeps fs fs'.
Proof.
  intros Hcwd F Hws Hfree Target.
  destruct (create_directory_fresh cwd Hcwd fs names name es F Hws Hfree Target)
    as [fs' [C [L K]]].
  exists fs'. repeat split; try assumption.
  intros p q ->.
  apply (lookup_prefix_dir fs' (workspace_loc cwd ++ p) (q ++ [name]) (Dir [])).
  - now rewrite <- !app_assoc in *.
  - now destruct q.
Qed.

Lemma create_directory_makes_missing_parents_witness :
  exists fs',
    create_directory Sample.cwd (py "x/y/z") Sample.disk
    = (inr ([CHECK] ++ py " Created directory x/y/z"), fs')
    /\ lookup fs' [py "srv"; py "workspace"; py "x"; py "y"; py "z"] = Some (Dir [])
    /\ keeps Sample.disk fs'.
Proof.
  destruct (create_directory_makes_missing_parents Sample.cwd Sample.disk
              [py "x"; py "y"] (py "z")
              [ (py "b.txt", File (Sample.utf8 (py "beta")));
                (py "a.txt", File (Sample.utf8 (py "Hello World hello")));
                (py "sub", Dir [ (py "note.txt", File (Sample.utf8 (py "say HELLO")));
                                 (py "deep", Dir []) ]);
                (py "bin.dat", File [0xFF; 0xFE]) ]
              eq_refl eq_refl eq_refl)
    as [fs' [C [L [_ K]]]].
  - intros p q d E.
    destruct p as [|a [|b [|x p]]]; simpl in E.
    + vm_compute. discriminate.
    + injection E as <- _. vm_compute. discriminate.
    + injection E as <- <- _. vm_compute. discriminate.
    + destruct p; discriminate E.
  - reflexivity.
  - exists fs'. split; [exact C|]. split; [exact L | exact K].
Defined.

(** X11.  Whatever its argument and its outcome, [create_directory] takes
    nothing away and alters no file: every regular file keeps its bytes and
    every directory stays a directory. *)
Theorem create_directory_keeps_everything (cwd : loc) (fs fs' : node) (d : str)
    (r : exn + str) :
  create_directory cwd d fs = (r, fs') -> keeps fs fs'.
Proof.
  unfold create_directory. intro H.
  apply bind_cases in H as [[e [H _]]|[b [fs1 [Hb H]]]]; [discriminate|].
  unfold os_path_exists, peek in Hb. injection Hb as <- <-.
  destruct (exists_in cwd fs _).
  - unfold raise in H. injection H as _ <-. apply keeps_refl.
  - apply bind_cases in H as [[e [H _]]|[u [fs1 [M H]]]].
    + exact (os_makedirs_keeps cwd _ _ _ _ _ H).
    + unfold ret in H. injection H as _ <-.
      exact (os_makedirs_keeps cwd _ _ _ _ _ M).
Qed.

Lemma create_directory_keeps_everything_witness :
  keeps Sample.disk
    (snd (create_directory Sample.cwd (py "new/../b.txt/x") Sample.disk))
  /\ lookup (snd (create_directory Sample.cwd (py "new/../b.txt/x") Sample.disk))
       [py "srv"; py "workspace"; py "new"] = Some (Dir []).
Proof.
  split.
  - exact (create_directory_keeps_everything Sample.cwd Sample.disk _
             (py "new/../b.txt/x") _ (surjective_pairing _)).
  - reflexivity.
Defined.

(** X12.  Loading the module, with the working directory in place: if
    there is no entry named workspace it is made, an empty directory, and
    everything else is kept; if there is such a directory nothing changes;
    if there is a regular file of that name the module fails to load with
    [FileExistsError].  After a load that succeeded a second load changes
    nothing. *)
Theorem startup_makes_workspace (cwd : loc) (fs : node) (es : list (str * node)) :
  forallb valid_name cwd = true ->
  lookup fs cwd = Some (Dir es) ->
  match lookup fs (workspace_loc cwd) with
  | Some (File _) => startup cwd fs = (inl (OSError EEXIST), fs)
  | Some (Dir _) => startup cwd fs = (inr tt, fs)
  | None =>
      exists fs',
        startup cwd fs = (inr tt, fs')
        /\ lookup fs' (workspace_loc cwd) = Some (Dir [])
        /\ keeps fs fs'
        /\ startup cwd fs' = (inr tt, fs')
  end.
Proof.
  intros Hcwd L. rewrite (startup_spec cwd Hcwd fs es L).
  destruct (lookup fs (workspace_loc cwd)) as [[d|es']|] eqn:T; [reflexivity..|].
  exists (modify (add_entry (py "workspace") (Dir [])) cwd fs).
  destruct (created_dir fs cwd (py "workspace") es L T) as [_ C].
  assert (K : keeps fs (modify (add_entry (py "workspace") (Dir [])) cwd fs)).
  { apply (only_below_keeps (workspace_loc cwd)); [|exact T].
    now apply add_entry_only_below. }
  split; [reflexivity|]. split; [exact C|]. split; [exact K|].
  destruct (K cwd (Dir es) L) as [es1 L1].
  rewrite (startup_spec cwd Hcwd _ es1 L1). fold (workspace_loc cwd) in C.
  now rewrite C.
Qed.

Lemma startup_makes_workspace_witness :
  exists fs',
    startup [] (Dir [ (py "etc", Dir []) ]) = (inr tt, fs')
    /\ lookup fs' [py "workspace"] = Some (Dir [])
    /\ keeps (Dir [ (py "etc", Dir []) ]) fs'
    /\ startup [] fs' = (inr tt, fs').
Proof.
  exact (startup_makes_workspace [] (Dir [ (py "etc", Dir []) ]) [ (py "etc", Dir []) ]
           eq_refl eq_refl).
Defined.

(** *** Information *)

(** X13.  [file_info] on a regular file: the name is the argument as
    given, [is_directory] is false, the size is the number of bytes of the
    file, there is no [contents] entry, and [absolute_path] is the path
    made of the names that lead to the file from the root, provided the
    argument is relative or does not begin with exactly two slashes. *)
Theorem file_info_of_file (cwd : loc) (fs : node) (f : str) :
  forallb valid_name cwd = true ->
  startswith f PosixPath.sep = false \/ PosixPath.initial_slashes f <> 2%nat ->
  isfile_in cwd fs (os_path_join (WORKSPACE cwd) f) = true ->
  exists h d,
    resolve cwd fs (os_path_join (WORKSPACE cwd) f) = inr h
    /\ lookup fs h = Some (File d)
    /\ file_info cwd f fs
       = (inr {| info_name := f;
                 info_is_directory := false;
                 info_size := Z.of_nat (List.length d);
                 info_absolute_path := abs_path h;
                 info_contents := None |}, fs).
Proof.
  intros Hcwd A F.
  destruct (file_info_file cwd fs f F) as [h [d [R [L I]]]].
  exists h, d. split; [exact R|]. split; [exact L|].
  destruct (abspath_resolved cwd Hcwd fs f h A R) as [E _].
  now rewrite I, E.
Qed.

Lemma file_info_of_file_witness :
  file_info Sample.cwd (py "sub/../a.txt") Sample.disk
  = (inr {| info_name := py "sub/../a.txt";
            info_is_directory := false;
            info_size := 17;
            info_absolute_path := py "/srv/workspace/a.txt";
            info_contents := None |}, Sample.disk).
Proof.
  destruct (file_info_of_file Sample.cwd Sample.disk (py "sub/../a.txt")
              eq_refl (or_introl eq_refl) eq_refl) as [h [d [R [L I]]]].
  vm_compute in R. injection R as <-.
  vm_compute in L. injection L as <-.
  exact I.
Defined.

(** X14.  [file_info] on a directory: [is_directory] is true, the size is
    0 whatever the directory holds, [contents] counts the entries that are
    not directories and those that are, and [absolute_path] is the path
    made of the names that lead to the directory. *)
Theorem file_info_of_directory (cwd : loc) (fs : node) (f : str) (h : loc)
    (es : list (str * node)) :
  forallb valid_name cwd = true ->
  startswith f PosixPath.sep = false \/ PosixPath.initial_slashes f <> 2%nat ->
  resolve cwd fs (os_path_join (WORKSPACE cwd) f) = inr h ->
  fs_path_exn (os_path_join (WORKSPACE cwd) f) = None ->
  lookup fs h = Some (Dir es) ->
  entries_ok es = true ->
  file_info cwd f fs
  = (inr {| info_name := f;
            info_is_directory := true;
            info_size := 0;
            info_absolute_path := abs_path h;
            info_contents :=
              Some (Z.of_nat (List.length (filter (fun e => negb (is_dir (snd e))) es)),
                    Z.of_nat (List.length (filter (fun e => is_dir (snd e)) es))) |},
     fs).
Proof.
  intros Hcwd A R Hp L Hok.
  pose proof (stat_intro cwd fs _ _ h R L) as St.
  assert (D : isdir_in cwd fs (os_path_join (WORKSPACE cwd) f) = true).
  { unfold isdir_in. now rewrite (path_test_intro cwd _ fs (Dir es) _ Hp St). }
  rewrite (file_info_directory cwd fs f es D St Hok).
  destruct (abspath_resolved cwd Hcwd fs f h A R) as [E _].
  now rewrite E.
Qed.

Lemma file_info_of_directory_witness :
  file_info Sample.cwd (py "sub/") Sample.disk
  = (inr {| info_name := py "sub/";
            info_is_directory := true;
            info_size := 0;
            info_absolute_path := py "/srv/workspace/sub";
            info_contents := Some (1, 1) |}, Sample.disk).
Proof.
  exact (file_info_of_directory Sample.cwd Sample.disk (py "sub/")
           [py "srv"; py "workspace"; py "sub"]
           [ (py "note.txt", File (Sample.utf8 (py "say HELLO"))); (py "deep", Dir []) ]
           eq_refl (or_introl eq_refl) eq_refl eq_refl eq_refl eq_refl).
Defined.

(** X15.  After [write_file] has returned, [file_info] on the same name
    reports a regular file whose size is the number of bytes of the content
    in UTF-8, which is more than its number of characters when the content
    is not ASCII. *)
Theorem file_info_after_write (cwd : loc) (fs fs' : node) (f c r : str) :
  write_file cwd f c fs = (inr r, fs') ->
  exists bs info,
    Text.encode c = Some bs
    /\ file_info cwd f fs' = (inr info, fs')
    /\ info_name info = f
    /\ info_is_directory info = false
    /\ info_size info = Z.of_nat (List.length bs)
    /\ info_contents info = None.
Proof.
  intro H. destruct (write_file_ok cwd fs fs' f c r H) as [_ [Hp [bs [E St]]]].
  assert (F : isfile_in cwd fs' (os_path_join (WORKSPACE cwd) f) = true).
  { unfold isfile_in. now rewrite (path_test_intro cwd _ fs' (File bs) _ Hp St). }
  destruct (file_info_file cwd fs' f F) as [h [d [R [L I]]]].
  assert (d = bs) as ->.
  { unfold stat in St. rewrite R, L in St. now injection St. }
  exists bs. eexists. split; [exact E|]. split; [exact I|]. now repeat split.
Qed.

Lemma file_info_after_write_witness :
  exists info,
    file_info Sample.cwd (py "e.txt")
      (snd (write_file Sample.cwd (py "e.txt") [0x20AC] Sample.disk))
    = (inr info, snd (write_file Sample.cwd (py "e.txt") [0x20AC] Sample.disk))
    /\ info_size info = 3.
Proof.
  destruct (file_info_after_write Sample.cwd Sample.disk _ (py "e.txt") [0x20AC]
              ([CHECK] ++ py " Wrote to e.txt") (surjective_pairing _))
    as [bs [info [E [I [_ [_ [S _]]]]]]].
  vm_compute in E. injection E as <-.
  exists info. split; [exact I | exact S].
Defined.

(** X16.  On a well-formed tree [get_workspace_info] changes nothing, and
    fails only with [OverflowError], when the total size is too large to
    be made a [float]; no total below 2^1023 bytes is.  Otherwise it
    reports the workspace path, the number of regular files below the
    workspace at any depth, the number of directories below it at any
    depth (the workspace itself not counted), and as [total_size] the
    text [SizeText.human_size] makes of the sum of the sizes of the files.
    When the workspace is missing the counts are 0 and the size is
    "0.00 B". *)
Theorem get_workspace_info_totals (cwd : loc) (fs : node) :
  forallb valid_name cwd = true ->
  wf fs = true ->
  get_workspace_info cwd fs
  = (match SizeText.human_size (total_bytes (workspace_files cwd fs)) with
     | Some text =>
         inr {| ws_path := WORKSPACE cwd;
                ws_total_files := Z.of_nat (List.length (workspace_files cwd fs));
                ws_total_directories := workspace_dirs cwd fs;
                ws_total_size := text |}
     | None => inl OverflowError
     end, fs)
  /\ (SizeText.human_size (total_bytes (workspace_files cwd fs)) = None
      <-> SizeText.float_of_int (total_bytes (workspace_files cwd fs)) = None)
  /\ (total_bytes (workspace_files cwd fs) < 2 ^ 1023 ->
      SizeText.human_size (total_bytes (workspace_files cwd fs)) <> None)
  /\ (lookup fs (workspace_loc cwd) = None ->
      get_workspace_info cwd fs
      = (inr {| ws_path := WORKSPACE cwd; ws_total_files := 0;
                ws_total_directories := 0; ws_total_size := py "0.00 B" |}, fs)).
Proof.
  intros Hcwd W.
  assert (P : forall l, 0 <= total_bytes l).
  { intro l. unfold total_bytes. induction l as [|f l IH]; cbn [fold_right]; lia. }
  split; [now apply get_workspace_info_spec|].
  split; [apply human_size_overflow|].
  split.
  - intro B. apply human_size_defined. split; [apply P | exact B].
  - intro N. rewrite (get_workspace_info_spec cwd Hcwd fs W).
    unfold workspace_files, workspace_dirs. rewrite N. reflexivity.
Qed.

Lemma get_workspace_info_totals_witness :
  get_workspace_info Sample.cwd Sample.disk
  = (inr {| ws_path := py "/srv/workspace"; ws_total_files := 4;
            ws_total_directories := 2; ws_total_size := py "32.00 B" |},
     Sample.disk).
Proof.
  exact (proj1 (get_workspace_info_totals Sample.cwd Sample.disk eq_refl eq_refl)).
Defined.

(** X17.  Whenever [get_workspace_info] returns, the number of files it
    reports is the number of paths [find_files "*"] returns on the same
    tree; and it returns when the total size is below 2^1023 bytes. *)
Theorem total_files_is_find_files_count (cwd : loc) (fs : node) :
  forallb valid_name cwd = true ->
  wf fs = true ->
  exists found : list str,
    find_files cwd (py "*") fs = (inr found, fs)
    /\ (forall info : WorkspaceInfo,
          fst (get_workspace_info cwd fs) = inr info ->
          ws_total_files info = Z.of_nat (List.length found))
    /\ (total_bytes (workspace_files cwd fs) < 2 ^ 1023 ->
        exists info : WorkspaceInfo, get_workspace_info cwd fs = (inr info, fs)).
Proof.
  intros Hcwd W. eexists.
  split; [apply (find_files_spec cwd Hcwd (py "*") fs W)|].
  assert (L : Z.of_nat (List.length (workspace_files cwd fs))
              = Z.of_nat (List.length
                  (map relative_name
                     (filter (pattern_matches (py "*")) (workspace_files cwd fs))))).
  { rewrite length_map. f_equal. f_equal.
    induction (workspace_files cwd fs) as [|x l IH]; [reflexivity|].
    cbn [filter]. change (pattern_matches (py "*") x) with true. cbn iota.
    now rewrite <- IH. }
  assert (P : forall l, 0 <= total_bytes l).
  { intro l. unfold total_bytes. induction l as [|f l IH]; cbn [fold_right]; lia. }
  rewrite (get_workspace_info_spec cwd Hcwd fs W). cbn [fst].
  split.
  - intros info E.
    destruct (SizeText.human_size (total_bytes (workspace_files cwd fs)));
      [|discriminate E].
    injection E as <-. exact L.
  - intro B.
    destruct (SizeText.human_size (total_bytes (workspace_files cwd fs))) eqn:H.
    + eexists. reflexivity.
    + exfalso. exact (human_size_defined _ (conj (P _) B) H).
Qed.

Lemma total_files_is_find_files_count_witness :
  exists (found : list str) (info : WorkspaceInfo),
    find_files Sample.cwd (py "*") Sample.disk = (inr found, Sample.disk)
    /\ get_workspace_info Sample.cwd Sample.disk = (inr info, Sample.disk)
    /\ ws_total_files info = Z.of_nat (List.length found).
Proof.
  destruct (total_files_is_find_files_count Sample.cwd Sample.disk eq_refl eq_refl)
    as [found [F [T R]]].
  destruct (R ltac:(vm_compute; reflexivity)) as [info I].
  exists found, info. split; [exact F|]. split; [exact I|].
  apply T. now rewrite I.
Defined.

(** X18.  The size line of [get_workspace_info] for a total below 2^53
    bytes: the unit is the largest of B, KB, MB and GB whose size the total
    reaches, and the figure is the total divided by the size of that unit,
    rounded to the nearest hundredth (to the even one of two that are
    equally near) and written with two decimals; it is within half a
    hundredth of the exact quotient.  So a total just below a unit is
    written with the figure 1024.00 in the unit before. *)
Theorem total_size_is_rounded_quotient (n : Z) :
  0 <= n < 2 ^ 53 ->
  SizeText.human_size n
  = Some (two_decimals
            (SizeText.round_half_even (100 * n) (1024 ^ Z.of_nat (unit_index n)))
          ++ py " " ++ nth (unit_index n) SizeText.size_units [])
  /\ 2 * Z.abs (SizeText.round_half_even (100 * n) (1024 ^ Z.of_nat (unit_index n))
                * 1024 ^ Z.of_nat (unit_index n) - 100 * n)
     <= 1024 ^ Z.of_nat (unit_index n).
Proof.
  intro H. split; [now apply human_size_exact|].
  apply round_half_even_near. apply Z.pow_pos_nonneg; lia.
Qed.

Lemma total_size_is_rounded_quotient_witness :
  SizeText.human_size 1048575 = Some (py "1024.00 KB")
  /\ SizeText.human_size 1536 = Some (py "1.50 KB").
Proof.
  split.
  - refine (proj1 (total_size_is_rounded_quotient 1048575 _)). lia.
  - refine (proj1 (total_size_is_rounded_quotient 1536 _)). lia.
Defined.

(** *** Searching *)

(** X19.  Every entry of the result of [search_files] counts at least one
    occurrence: a file is never reported with 0 matches. *)
Theorem search_files_counts_are_positive (cwd : loc) (lower : str -> str)
    (fs fs' : node) (query extension : str) (matches : list (str * Z)) :
  forallb valid_name cwd = true ->
  wf fs = true ->
  search_files cwd lower query extension fs = (inr matches, fs') ->
  forall (file : str) (n : Z), In (file, n) matches -> 1 <= n.
Proof.
  intros Hcwd W H file n I.
  rewrite (search_files_spec cwd lower Hcwd query extension fs W) in H.
  injection H as <- _. apply in_flat_map in I as [f [_ I]].
  exact (search_hit_positive lower query extension f (file, n) I).
Qed.

Lemma search_files_counts_are_positive_witness :
  1 <= 2 /\ In (py "a.txt", 2)
             (match fst (search_files Sample.cwd Sample.lower (py "hello") (py "")
                           Sample.disk) with
              | inr l => l
              | inl _ => []
              end).
Proof.
  split.
  - apply (search_files_counts_are_positive Sample.cwd Sample.lower Sample.disk
             Sample.disk (py "hello") (py "")
             [(py "a.txt", 2); (py "sub/note.txt", 1)] eq_refl eq_refl eq_refl
             (py "a.txt") 2).
    now left.
  - now left.
Defined.

(** X20.  With the empty query every file that can be read as text is
    reported (those whose name ends with the extension, when one is given),
    with one match more than its text has characters in lower case. *)
Theorem search_files_empty_query (cwd : loc) (lower : str -> str) (fs : node)
    (extension : str) :
  forallb valid_name cwd = true ->
  wf fs = true ->
  lower [] = [] ->
  search_files cwd lower [] extension fs
  = (inr (flat_map
            (fun f =>
               if negb (is_nil extension) && negb (endswith (file_name f) extension)
               then []
               else match Text.read_text (file_data f) with
                    | None => []
                    | Some content =>
                        [(relative_name f, Z.of_nat (List.length (lower content)) + 1)]
                    end)
            (workspace_files cwd fs)), fs).
Proof.
  intros Hcwd W L.
  rewrite (search_files_spec cwd lower Hcwd [] extension fs W).
  f_equal. f_equal. apply flat_map_ext. intro f. unfold search_hit.
  destruct (negb (is_nil extension) && negb (endswith (file_name f) extension));
    [reflexivity|].
  destruct (Text.read_text (file_data f)) as [content|]; [|reflexivity].
  now rewrite L, contains_nil.
Qed.

Lemma search_files_empty_query_witness :
  search_files Sample.cwd Sample.lower [] (py ".txt") Sample.disk
  = (inr [(py "b.txt", 5); (py "a.txt", 18); (py "sub/note.txt", 10)], Sample.disk).
Proof.
  exact (search_files_empty_query Sample.cwd Sample.lower Sample.disk (py ".txt")
           eq_refl eq_refl eq_refl).
Defined.

(** X21.  A star in front of a pattern of [find_files] makes no
    difference, and the empty pattern finds what the pattern of one star
    finds: every file. *)
Theorem find_files_leading_star (cwd : loc) (fs : node) (pattern : str) :
  forallb valid_name cwd = true ->
  wf fs = true ->
  find_files cwd (STAR :: pattern) fs = find_files cwd pattern fs
  /\ find_files cwd [] fs = find_files cwd (py "*") fs.
Proof.
  intros Hcwd W.
  rewrite (find_files_spec cwd Hcwd (STAR :: pattern) fs W),
    (find_files_spec cwd Hcwd pattern fs W),
    (find_files_spec cwd Hcwd [] fs W), (find_files_spec cwd Hcwd (py "*") fs W).
  assert (N : forall f, pattern_matches [] f = true).
  { intro f. unfold pattern_matches. change (lstrip STAR []) with (@nil Z).
    now rewrite endswith_nil, orb_true_r. }
  assert (S1 : forall f, pattern_matches (py "*") f = true) by reflexivity.
  assert (E : forall f, pattern_matches (STAR :: pattern) f = pattern_matches pattern f).
  { intro f. destruct pattern as [|x [|y q]].
    - now rewrite N, S1.
    - unfold pattern_matches. change (py "*") with [STAR].
      cbn [eqb lstrip]. rewrite !Z.eqb_refl. cbn [andb orb].
      destruct (x =? STAR) eqn:X; cbn [andb orb]; [|reflexivity].
      now rewrite endswith_nil.
    - unfold pattern_matches. change (py "*") with [STAR].
      cbn [eqb lstrip]. rewrite !Z.eqb_refl, !andb_false_r. reflexivity. }
  split.
  - now rewrite (filter_ext _ _ E).
  - rewrite (filter_ext (pattern_matches []) (pattern_matches (py "*")));
      [reflexivity|]. intro f. now rewrite N, S1.
Qed.

Lemma find_files_leading_star_witness :
  find_files Sample.cwd (py "**.txt") Sample.disk
  = find_files Sample.cwd (py "*.txt") Sample.disk
  /\ find_files Sample.cwd [] Sample.disk = find_files Sample.cwd (py "*") Sample.disk.
Proof.
  exact (find_files_leading_star Sample.cwd Sample.disk (py "*.txt") eq_refl eq_refl).
Defined.

(** X22.  Every path [find_files] returns names a regular file of the
    workspace: joined to the workspace path it leads to that file, so
    [read_file] on it does not fail with "File not found". *)
Theorem find_files_results_are_files (cwd : loc) (fs fs' : node) (pattern : str)
    (found : list str) (name : str) :
  forallb valid_name cwd = true ->
  wf fs = true ->
  find_files cwd pattern fs = (inr found, fs') ->
  In name found ->
  exists d,
    stat cwd fs (os_path_join (WORKSPACE cwd) name) = inr (File d)
    /\ isfile_in cwd fs (os_path_join (WORKSPACE cwd) name) = true
    /\ read_file cwd name fs
       = (match Text.read_text d with
          | Some s => inr s
          | None => inl UnicodeDecodeError
          end, fs).
Proof.
  intros Hcwd W H I.
  rewrite (find_files_spec cwd Hcwd pattern fs W) in H. injection H as <- _.
  apply in_map_iff in I as [f [<- I]]. apply filter_In in I as [I _].
  destruct (workspace_file_stat cwd Hcwd fs f W I) as [Hp St].
  exists (file_data f). split; [exact St|]. split.
  - unfold isfile_in. now rewrite (path_test_intro cwd _ fs _ _ Hp St).
  - now apply read_file_of.
Qed.

Lemma find_files_results_are_files_witness :
  exists d,
    stat Sample.cwd Sample.disk (os_path_join (WORKSPACE Sample.cwd) (py "sub/note.txt"))
    = inr (File d)
    /\ isfile_in Sample.cwd Sample.disk
         (os_path_join (WORKSPACE Sample.cwd) (py "sub/note.txt")) = true
    /\ read_file Sample.cwd (py "sub/note.txt") Sample.disk
       = (match Text.read_text d with
          | Some s => inr s
          | None => inl UnicodeDecodeError
          end, Sample.disk).
Proof.
  apply (find_files_results_are_files Sample.cwd Sample.disk Sample.disk (py "*.txt")
           [py "b.txt"; py "a.txt"; py "sub/note.txt"] (py "sub/note.txt")
           eq_refl eq_refl eq_refl).
  right. right. now left.
Defined.



(** *** All operations *)

(** X24.  No operation, whatever its arguments and its outcome, makes the
    tree ill-formed: after the call every directory still has entries with
    distinct names, none of them empty, [.] or [..], none with a slash or a
    NUL character. *)
Theorem operations_keep_tree_well_formed (cwd : loc) (lower : str -> str)
    (op : operation) (fs fs' : node) (r : exn + payload) :
  wf fs = true ->
  run cwd lower op fs = (r, fs') ->
  wf fs' = true.
Proof.
  intros W H.
  assert (Q : forall A (g : A -> payload) (m : M A),
            fmap g m fs = (r, fs') -> snd (m fs) = fs').
  { intros A g m. unfold fmap, bind, ret.
    destruct (m fs) as [[e|a] fs1]; intro X; now injection X. }
  assert (RO : forall A (g : A -> payload) (m : M A),
            readonly m -> fmap g m fs = (r, fs') -> wf fs' = true).
  { intros A g m Hm X. apply Q in X. rewrite Hm in X. now subst. }
  destruct op as [d|f|f c|f c|f|d|d|f|q e|p|]; cbn [run] in H.
  - exact (RO _ _ _ (readonly_list_files cwd d) H).
  - exact (RO _ _ _ (readonly_read_file cwd f) H).
  - apply Q in H.
    exact (wf_write_file cwd f c fs fs' _ W (eq_trans (surjective_pairing _)
             (f_equal (pair _) H))).
  - apply Q in H.
    exact (wf_append_file cwd f c fs fs' _ W (eq_trans (surjective_pairing _)
             (f_equal (pair _) H))).
  - apply Q in H.
    exact (wf_delete_file cwd f fs fs' _ W (eq_trans (surjective_pairing _)
             (f_equal (pair _) H))).
  - apply Q in H.
    exact (wf_create_directory cwd d fs fs' _ W (eq_trans (surjective_pairing _)
             (f_equal (pair _) H))).
  - apply Q in H.
    exact (wf_delete_directory cwd d fs fs' _ W (eq_trans (surjective_pairing _)
             (f_equal (pair _) H))).
  - exact (RO _ _ _ (readonly_file_info cwd f) H).
  - exact (RO _ _ _ (readonly_search_files cwd lower q e) H).
  - exact (RO _ _ _ (readonly_find_files cwd p) H).
  - exact (RO _ _ _ (readonly_get_workspace_info cwd) H).
Qed.

Lemma operations_keep_tree_well_formed_witness :
  wf (snd (run Sample.cwd Sample.lower (WriteFile (py "../n/x.txt") (py "x")) Sample.disk))
  = true.
Proof.
  exact (operations_keep_tree_well_formed Sample.cwd Sample.lower
           (WriteFile (py "../n/x.txt") (py "x")) Sample.disk _ _
           eq_refl (surjective_pairing _)).
Defined.

(** X25.  In a tree of directories and regular files, which has no
    symbolic links (a link inside the workspace that points out of it
    would lead such a path out), and with the working directory in place:
    an operation whose path argument is relative and has no [..] among its
    components changes nothing outside the workspace, whatever its
    outcome.  Every place of the tree that is not the workspace directory
    or below it holds afterwards what it held before (the same bytes if a
    file, a directory if a directory, nothing if nothing). *)
Theorem relative_arguments_stay_in_workspace (cwd : loc) (lower : str -> str)
    (op : operation) (a : str) (fs fs' : node) (r : exn + payload)
    (es : list (str * node)) :
  forallb valid_name cwd = true ->
  lookup fs cwd = Some (Dir es) ->
  path_argument op = Some a ->
  PosixPath.isabs a = false ->
  ~ In PosixPath.pardir (PyStr.split SLASH a) ->
  run cwd lower op fs = (r, fs') ->
  forall l, ~ below (workspace_loc cwd) l -> same_at fs fs' l.
Proof.
  intros Hcwd L Ha A N H.
  change (only_below (workspace_loc cwd) fs fs').
  assert (Q : forall B (g : B -> payload) (m : M B),
            fmap g m fs = (r, fs') -> m fs = (fst (m fs), fs')).
  { intros B g m. unfold fmap, bind, ret.
    destruct (m fs) as [[e|b] fs1]; intro X; injection X as _ <-; reflexivity. }
  assert (RO : forall B (g : B -> payload) (m : M B),
            readonly m -> fmap g m fs = (r, fs') ->
            only_below (workspace_loc cwd) fs fs').
  { intros B g m Hm X. apply Q in X. specialize (Hm fs). rewrite X in Hm.
    simpl in Hm. subst. apply only_below_refl. }
  destruct op as [d|f|f c|f c|f|d|d|f|q e|p|]; cbn [run] in H;
    cbn [path_argument] in Ha; try discriminate; injection Ha as ->.
  - exact (RO _ _ _ (readonly_list_files cwd a) H).
  - exact (RO _ _ _ (readonly_read_file cwd a) H).
  - exact (write_file_inside cwd Hcwd a A N fs (ex_intro _ es L) c fs' _ (Q _ _ _ H)).
  - exact (append_file_inside cwd Hcwd a A N c fs fs' _ (Q _ _ _ H)).
  - exact (delete_file_inside cwd Hcwd a A N fs fs' _ (Q _ _ _ H)).
  - exact (create_directory_inside cwd Hcwd a A N fs (ex_intro _ es L) fs' _ (Q _ _ _ H)).
  - exact (delete_directory_inside cwd Hcwd a A N fs fs' _ (Q _ _ _ H)).
  - exact (RO _ _ _ (readonly_file_info cwd a) H).
Qed.

Lemma relative_arguments_stay_in_workspace_witness :
  same_at Sample.disk
    (snd (run Sample.cwd Sample.lower (DeleteDirectory (py "./sub//")) Sample.disk))
    [py "etc"; py "passwd"]
  /\ lookup (snd (run Sample.cwd Sample.lower (DeleteDirectory (py "./sub//")) Sample.disk))
       [py "srv"; py "workspace"; py "sub"] = None.
Proof.
  split; [|reflexivity].
  apply (relative_arguments_stay_in_workspace Sample.cwd Sample.lower
           (DeleteDirectory (py "./sub//")) (py "./sub//") Sample.disk
           (snd (run Sample.cwd Sample.lower (DeleteDirectory (py "./sub//")) Sample.disk))
           (fst (run Sample.cwd Sample.lower (DeleteDirectory (py "./sub//")) Sample.disk))
           [ (py "workspace", Dir [
               (py "b.txt", File (Sample.utf8 (py "beta")));
               (py "a.txt", File (Sample.utf8 (py "Hello World hello")));
               (py "sub", Dir [ (py "note.txt", File (Sample.utf8 (py "say HELLO")));
                                (py "deep", Dir []) ]);
               (py "bin.dat", File [0xFF; 0xFE]) ]) ]
           eq_refl eq_refl eq_refl eq_refl).
  - vm_compute. intros [H|[H|[H|[H|[]]]]]; discriminate H.
  - apply surjective_pairing.
  - intros [x X]. discriminate X.
Defined.

(** *** Errors *)

(** X26.  When the path of the argument leads nowhere, each operation that
    needs a target fails with the message of its own and changes nothing:
    [list_files] names the argument in its message, [read_file] and
    [delete_file] say "File not found", [delete_directory] says "Directory
    not found", [file_info] says "File or directory not found". *)
Theorem missing_target_errors (cwd : loc) (fs : node) (a : str) :
  exists_in cwd fs (os_path_join (WORKSPACE cwd) a) = false ->
  list_files cwd a fs
  = (inl (ValueError (py "Directory '" ++ a ++ py "' does not exist in workspace")), fs)
  /\ read_file cwd a fs = (inl (ValueError (py "File not found")), fs)
  /\ delete_file cwd a fs = (inl (ValueError (py "File not found")), fs)
  /\ delete_directory cwd a fs = (inl (ValueError (py "Directory not found")), fs)
  /\ file_info cwd a fs = (inl (ValueError (py "File or directory not found")), fs).
Proof.
  intro E. repeat split.
  - unfold list_files, bind, os_path_exists, peek. now rewrite E.
  - unfold read_file, bind, os_path_isfile, peek.
    now rewrite (missing_not_isfile cwd fs _ E).
  - unfold delete_file, bind, os_path_exists, peek. now rewrite E.
  - unfold delete_directory, bind, os_path_exists, peek. now rewrite E.
  - unfold file_info, bind, os_path_exists, peek. now rewrite E.
Qed.

Lemma missing_target_errors_witness :
  list_files Sample.cwd (py "nope") Sample.disk
  = (inl (ValueError (py "Directory 'nope' does not exist in workspace")), Sample.disk)
  /\ file_info Sample.cwd (py "nope") Sample.disk
     = (inl (ValueError (py "File or directory not found")), Sample.disk).
Proof.
  destruct (missing_target_errors Sample.cwd Sample.disk (py "nope") eq_refl)
    as [H1 [_ [_ [_ H5]]]].
  split; [exact H1 | exact H5].
Defined.

(** X27.  When the path of the argument leads to a regular file,
    [list_files] fails with a message that names the argument and says it
    is not a directory, [delete_directory] fails with "Path is not a
    directory", and the tree is as it was; the kinds of these errors are
    InvalidArgument. *)
Theorem regular_file_where_directory_expected (cwd : loc) (fs : node) (a : str) :
  isfile_in cwd fs (os_path_join (WORKSPACE cwd) a) = true ->
  list_files cwd a fs
  = (inl (ValueError (py "'" ++ a ++ py "' is not a directory")), fs)
  /\ delete_directory cwd a fs
     = (inl (ValueError (py "Path is not a directory")), fs)
  /\ error_kind (ValueError (py "Path is not a directory")) = Some InvalidArgument.
Proof.
  intro F. pose proof (isfile_exists cwd fs _ F) as E.
  assert (D : isdir_in cwd fs (os_path_join (WORKSPACE cwd) a) = false).
  { destruct (isdir_in cwd fs _) eqn:D; [|reflexivity].
    apply isdir_not_isfile in D. congruence. }
  repeat split.
  - unfold list_files.
    unfold bind at 1. unfold os_path_exists, peek. rewrite E. cbn [negb].
    unfold bind at 1. unfold os_path_isdir, peek. now rewrite D.
  - unfold delete_directory.
    unfold bind at 1. unfold os_path_exists, peek. rewrite E. cbn [negb].
    unfold bind at 1. unfold os_path_isdir, peek. now rewrite D.
Qed.

Lemma regular_file_where_directory_expected_witness :
  list_files Sample.cwd (py "a.txt") Sample.disk
  = (inl (ValueError (py "'a.txt' is not a directory")), Sample.disk)
  /\ error_kind (ValueError (py "'a.txt' is not a directory")) = Some InvalidArgument.
Proof.
  split; [|reflexivity].
  exact (proj1 (regular_file_where_directory_expected Sample.cwd Sample.disk (py "a.txt")
                  eq_refl)).
Defined.

(** *** Operations one after another *)



(** X29.  A file that [delete_file] has removed under a path of names is
    no longer among the files [find_files] returns, for any pattern. *)
Theorem deleted_file_is_not_found (cwd : loc) (fs fs' : node) (names : list str)
    (name r pattern : str) (found : list str) :
  forallb valid_name cwd = true ->
  wf fs = true ->
  forallb valid_name (names ++ [name]) = true ->
  delete_file cwd (PyStr.join PosixPath.sep (names ++ [name])) fs = (inr r, fs') ->
  find_files cwd pattern fs' = (inr found, fs') ->
  ~ In (PyStr.join PosixPath.sep (names ++ [name])) found.
Proof.
  intros Hcwd W F H Hf I.
  pose proof (wf_delete_file cwd _ _ _ _ W H) as W'.
  set (f := PyStr.join PosixPath.sep (names ++ [name])) in *.
  assert (Fi : isfile_in cwd fs (os_path_join (WORKSPACE cwd) f) = true).
  { unfold delete_file in H.
    apply bind_ok in H as [b [fs1 [Hb H]]].
    unfold os_path_exists, peek in Hb. injection Hb as <- <-.
    destruct (exists_in cwd fs _) eqn:E; cbn [negb] in H; [|discriminate].
    apply bind_ok in H as [b [fs1 [Hb H]]].
    unfold os_path_isdir, peek in Hb. injection Hb as <- <-.
    destruct (isdir_in cwd fs _) eqn:D; [discriminate|].
    rewrite exists_split, D in E. exact E. }
  destruct (delete_file_effect cwd fs f Fi) as [h [fs2 [R [D [G _]]]]].
  rewrite D in H. injection H as _ <-.
  unfold f in R. rewrite (filepath_of_names cwd Hcwd names name F) in R.
  assert (FL : forallb valid_name ((workspace_loc cwd ++ names) ++ [name]) = true).
  { rewrite <- app_assoc, forallb_app, F.
    now rewrite (workspace_names_ok cwd Hcwd). }
  assert (HL : (workspace_loc cwd ++ names) ++ [name] <> [])
    by (destruct (workspace_loc cwd ++ names); discriminate).
  destruct (resolve_abs_path_inv cwd fs _ h HL FL R) as [-> _].
  rewrite (find_files_spec cwd Hcwd pattern fs2 W') in Hf. injection Hf as <-.
  apply in_map_iff in I as [x [Ex I]]. apply filter_In in I as [I _].
  destruct (workspace_file_found cwd Hcwd fs2 x W' I) as [Fx [Lx _]].
  unfold relative_name, f in Ex.
  apply join_names_inj in Ex; [|now apply names_plain..].
  rewrite <- app_assoc, Ex, app_assoc in Lx. congruence.
Qed.

Lemma deleted_file_is_not_found_witness :
  fst (find_files Sample.cwd (py "*.txt")
         (snd (delete_file Sample.cwd (py "sub/note.txt") Sample.disk)))
  = inr [py "b.txt"; py "a.txt"]
  /\ (In (py "sub/note.txt") [py "b.txt"; py "a.txt"] -> False).
Proof.
  split; [reflexivity|].
  exact (deleted_file_is_not_found Sample.cwd Sample.disk _ [py "sub"] (py "note.txt")
           ([CHECK] ++ py " Deleted sub/note.txt") (py "*.txt") [py "b.txt"; py "a.txt"]
           eq_refl eq_refl eq_refl (surjective_pairing _) (surjective_pairing _)).
Defined.


